(* ===== verification/_CoqProject ===== *)
-Q . S2P
Prelude.v
Dict.v
Pystr.v
Json.v
Models.v
Errors.v
Effects.v
Registry.v
Repair.v
AuditLog.v
Encoding.v
Redis.v
StateStore.v
Http.v
Policy.v
Hitl.v
Server.v
ServerSpec.v
Wire.v
Circuit.v
Worker.v
WorkerSpec.v
WorkerProps.v
WorkerJobs.v
WorkerClients.v
DbQuery.v
Sandbox.v
Config.v
Tools.v
Auth.v
Advisor.v
Schema.v
ControlPlane.v
Gateway.v
System.v
QueuedSystem.v
Gate.v
Evaluation.v
Harness.v
Drivers.v
Telemetry.v
Tracing.v
Stdio.v
Lifecycle.v
Blocking.v
AuditConcurrency.v
Report.v
Probes.v
