(* ===== verification/Prelude.v ===== *)
(** * MCP Enterprise Agent Gateway: verification library

    ** The program

    The gateway ([src/gateway]) stands between an MCP client and two tools, a
    read-only database query and a shell command.  A call received over stdio or
    HTTP is authenticated, validated against the tool's schema, recorded in a
    state store, submitted to a policy engine (OPA), held for an operator when the
    policy asks for it, executed (in the process, by a bounded pool of workers or
    by a remote worker; in a container outside the test environment), retried with
    repaired arguments when that is safe, and written to a hash-chained audit log.
    [src/eval] evaluates a gateway and gates a release on the report.

    ** How the program is modelled

    Pure code is a function of the same name.  Code that raises returns [result exc]
    (below, [Errors.v]).  A coroutine that calls collaborators is a program of
    [Effects.v]: calls whose answers come from outside, local variables, exceptions,
    [try]/[except]/[finally].  Its properties are proved of every trace, whatever the
    answers, by weakest preconditions over a monitor, and witnesses execute it
    against concrete handlers.  Code whose behaviour depends on interleaving is a
    transition function over events (the worker service, the blocking pool, appends
    to the audit log, log lines) or a pool of programs that share a state (the Redis
    store, the running gateway).

    ** Files

    Foundations.
    - [Prelude.v] (this file): results, automation, generic lemmas.
    - [Dict.v], [Pystr.v], [Json.v]: the parts of Python used throughout: ordered
      dictionaries, string methods, JSON values with [json.dumps]/[json.loads].
    - [Effects.v]: programs with effects, their traces, logic and execution; pools of
      concurrent programs.
    - [Models.v], [Errors.v]: gateway/models.py, gateway/errors.py; [Wire.v]: the
      models as pydantic declares them, with strict validation and their JSON.
    - [Encoding.v]: an instance of the serialiser hypothesis (below).
    - [Http.v], [Redis.v]: httpx exchanges and the Redis service as operations, the
      latter with the laws of its documentation as a class.

    One tool call.
    - [Registry.v]: gateway/registry.py.
    - [Policy.v]: gateway/policy/, policies/tools.rego and the input built for it.
    - [Hitl.v]: gateway/hitl/, the approval queues and the operator's command.
    - [Repair.v], [Advisor.v]: gateway/repair/, the retry loop and the advisors.
    - [AuditLog.v], [AuditConcurrency.v]: gateway/audit/; the latter is [append] with
      its lock, threads and cancellations.
    - [StateStore.v]: gateway/state/redis_store.py, both stores.
    - [Server.v], [ServerSpec.v]: [execute_tool_call] of gateway/server.py with its
      inner functions, and what every trace of it guarantees.
    - [System.v]: [create_mcp_server] and its [call_tool]; many calls on shared
      components, with operators deciding meanwhile.
    - [QueuedSystem.v]: the same with [worker_mode = "queued"], composed with the worker
      service.

    Execution.
    - [Circuit.v], [Worker.v], [WorkerSpec.v], [WorkerProps.v], [WorkerJobs.v]:
      gateway/workers/circuit.py, models.py and service.py; [WorkerSpec.v] holds the
      invariants, [WorkerProps.v] the theorems, [WorkerJobs.v] what a client of the
      service relies on ([workers_ok]).
    - [WorkerClients.v]: gateway/workers/remote.py, the job endpoint of
      workers/http_server.py and the proxy registry.
    - [DbQuery.v], [Sandbox.v], [Tools.v]: gateway/tools/, gateway/sandbox/.
    - [Blocking.v]: gateway/async_utils.py.

    The application.
    - [Config.v]: gateway/config.py.
    - [Auth.v]: gateway/auth.py and the middleware of gateway/http_server.py.
    - [Schema.v], [ControlPlane.v]: gateway/control_plane/ and the migration.
    - [Gateway.v]: what the entry points build from the settings, the MCP view of the
      tools, the health endpoints.
    - [Lifecycle.v]: what the entry points open, and the order in which they open, serve
      and close.
    - [Stdio.v]: gateway/stdio_transport.py.
    - [Telemetry.v], [Tracing.v]: gateway/tracing/otel.py and the log lines of a call;
      [execute_tool_call] with its spans, attributes and log lines.

    Evaluation.
    - [Evaluation.v], [Harness.v], [Drivers.v], [Gate.v], [Report.v], [Probes.v]:
      eval/harness.py, live.py, realistic.py, scenario_generator.py ([Harness.v] runs a
      scenario through the pipeline, [Drivers.v] holds the programs that start a
      gateway, with client.py); gate.py; report.py; sandbox_checks.py and
      sandbox_probe.py.

    ** What the theorems show

    The request pipeline ([ServerSpec.v]): a tool only runs for the recorded call,
    validated, on arguments the policy allowed or an operator approved
    ([tool_runs_authorized]); every call is answered, and its audit record handed to the
    log, which has written it unless the log itself failed ([call_always_answers],
    [audit_matches_outcome]); the recorded states follow the
    lifecycle ([lifecycle_respected]); at most three runs, more than one only for
    repeatable tools ([tool_runs_at_most_thrice]).  The collaborators enter as the
    contract of [guard].  One path escapes the repeated policy check of repaired
    arguments: a retry after the store refused the transition to "executing"
    ([repaired_arguments_skip_policy]).

    The running gateway ([System.v]): the calls are composed with their shared
    components, each answering by the contract proved of it, and interleaved with
    each other and with operators.  Every run of a tool was validated and authorized - for
    anything but a plain read, an operator had approved this very input - unless the store
    refused the transition to "executing" of its call ([concurrent_runs_authorized]); no
    call is audited twice and the audit tells the final state of the stored record
    ([concurrent_audit_faithful]); what a client is told is what the store records and
    what its tool answered ([concurrent_results_recorded]).

    The queued gateway ([QueuedSystem.v]): running a tool is submitting a signed job and
    waiting, while workers take jobs, waits end and the service stops.  The composition
    implements the calls over an abstract tool service, without queue, futures, circuit
    or stop, which gives a call only the validated output of a handler that succeeded
    under its key ([queued_gateway_refines]); every handler the workers
    start was authorized, with the same exception ([queued_handlers_authorized]), at most three for a call and
    more than one only of a repeatable tool ([queued_tool_starts_bounded]); and success
    told to a client is the success of a handler ([queued_results_from_handlers]).

    The files of the stores, the queue, the policy client and the repair loop prove
    what their component promises: the audit log verifies after any appends and
    restarts, unless a line was appended after one whose flush failed, and cannot be
    altered without a SHA-256 collision, overlapping appends keep its chain
    ([appends_keep_chain]), stored models are well typed and read back
    ([stored_models_typed]), the Redis store and the Redis queue refine the in-memory ones, concurrent optimistic
    updates are linearizable, the policy client decides only on a usable answer and the
    rules are a stated table, an approval needs an operator, the retry loop terminates
    and asks for review when a mutation that may have been interrupted is not retried for
    want of attempts, time or idempotency.

    Execution: handlers of one idempotency key never overlap, a result comes from a
    run of its key, a started mutation is accounted for, a signature covers the whole
    job, the breaker is the stated function of the history, the remote client fails
    safe and agrees with the in-process one except for shared failed results and
    unauthenticated jobs ([WorkerProps.v], [WorkerClients.v], [Circuit.v]); containers
    are isolated and their removal is started, what the shell prints comes back
    unchanged ([Sandbox.v]); a query runs once on a read-only connection with the
    authorizer and returns its first rows ([DbQuery.v], [Tools.v]); blocking functions
    keep their results apart ([Blocking.v]).

    The application: production settings build no gateway without policy server and
    sandbox, and one without authentication only in the mode "none", the default
    ([Gateway.v]); otherwise a request reaches the application authenticated ([Auth.v]); the
    control plane stays consistent and its migration creates the declared tables
    ([ControlPlane.v], [Schema.v]); the stdio transport delivers every line up to the
    first over-long one, and every message ([Stdio.v]); shutdown closes what was opened
    and stops the worker service ([Lifecycle.v]); the log lines of a call name the call ([Telemetry.v]); spans and log lines change nothing
    of what a call does ([observation_transparent]), and its spans are well nested
    ([spans_well_nested]).

    Evaluation: the gate fails closed ([Gate.v]), and accepts the harness's report
    exactly when every scenario went as expected ([Evaluation.v]); the benchmark
    document keeps its other sections ([Report.v]); the programs that start a gateway
    close it again, whatever fails ([Drivers.v]).

    Some theorems state behaviour a reader of the code may not expect; among them
    [ServerSpec.repaired_arguments_skip_policy], [AuditLog.audit_sync_failure_breaks_chain],
    [WorkerProps.duplicate_result_unchecked], [WorkerProps.retries_get_stale_outcome],
    [WorkerProps.cancelled_call_loses_mutation], [Gate.nan_latency_passes],
    [Auth.empty_subject_not_answered], [ControlPlane.long_tenant_refused],
    [ControlPlane.update_time_not_refreshed],
    [WorkerClients.http_error_is_plain_failure],
    [WorkerClients.non_ascii_token_not_answered], [Tools.sandboxed_failure_diagnosis],
    [DbQuery.duplicate_columns_merged], [DbQuery.virtual_tables_authorized],
    [Gateway.default_gateway_unauthenticated], [Hitl.decide_replaces_decision],
    [AuditConcurrency.cancelled_append_forks_chain],
    [Telemetry.log_level_has_no_effect], [Telemetry.worker_lines_unattributed],
    [Harness.refused_scenario_counted], [Stdio.long_line_ends_reader], [Probes.missing_docker_looks_blocked] and the stdio
    part of [Lifecycle.shutdown_stops_worker].

    ** Loops and fuel

    - [Repair.run_loop] has fuel [max_attempts + 1]; attempts are counted up to
      [max 1 max_attempts], so [repair_loop_correct] shows that it never runs out.
    - [json.loads] parses with twice the length of the text as fuel; a value needs at
      most that much for what is printed for it ([json_fuel_le]), which the round
      trip uses.
    - [Stdio.stdin_loop] and [Stdio.decode_fuel] consume at least a byte per turn and
      have the number of bytes as fuel.
    - The [while True] of the Redis store ends only when the other clients leave the
      record alone: its fuel is the number of iterations begun before the program is
      looked at, and the theorems hold for every fuel; if only lost races refuse the
      commands, a fuel and a deadline of one round per client are enough for every
      update to return ([StateStore.smooth]).  The polls of an approval wait are bounded by its timeout: their number
      is an argument.
    - Everything else recurses on the structure of its data.

    ** Assumptions

    Libraries are parameters with their documented behaviour as named hypotheses:
    pydantic's validators are functions and its serialisers round trip (instantiated
    in [Encoding.v]); SHA-256 and HMAC are functions whose collisions are named in the
    conclusions; Redis satisfies the class [RedisServer] (which [simple_redis] of
    [Redis.v] implements), without key expiry; PyJWT's verification, SQLite,
    docker and httpx answer anything.  Instants are integers and floats are exact
    rationals or their texts.  Text is 8-bit characters, except in [Stdio.v], where
    characters are code points.  Control-plane transactions are serial, requests of
    [Auth.v] are followed one at a time.  In [System.v] an operation of a component
    is one step; that the components themselves behave so under concurrency is
    [StateStore.redis_updates_linearizable] for the store and
    [AuditConcurrency.appends_keep_chain] for the audit log.  In [QueuedSystem.v] a step
    is a piece of the worker service that runs without a pause; the gateway's registry
    is the one [create_worker_proxy_registry] builds.  Opening and closing a span,
    setting an attribute and logging do not raise ([Tracing.v]).

    ** Not modelled

    - The OpenTelemetry SDK (a set of operations in [Tracing.v], with the exporters'
      methods left out) and structlog itself, a class with laws in [Telemetry.v].  Spans
      and log lines are left out of [Server.v], since [Tracing.v] shows that they do not
      change an outcome.
    - Framework glue: route tables, FastAPI, uvicorn and MCP session objects, argument
      parsers, Alembic's environment (alembic/env.py), opening connections and their
      [close] methods (an operation in [Lifecycle.v]).
    - gateway/config.py beyond the settings and their defaults: pydantic-settings reads
      the environment.
    - Argument parsing and printing in the evaluation scripts; processes, sessions,
      clocks and files are operations with arbitrary answers in [Drivers.v]. *)

From stdpp Require Export base option list strings gmap fin_maps.
From Stdlib Require Export ZArith Lia.

(** Concatenation of texts computes, as list concatenation does. *)
#[global] Arguments String.append !_ _ / : simpl nomatch.

(* ------------------------------------------------------------------ *)
(** ** Results of fallible code *)

(** A Python call either returns a value or raises an exception of type [E]. *)
Inductive result (E A : Type) : Type :=
| Ok (a : A)
| Err (e : E).
Arguments Ok {E A} a.
Arguments Err {E A} e.

Global Instance result_eq_dec {E A} `{EqDecision E, EqDecision A} :
  EqDecision (result E A).
Proof. solve_decision. Defined.

Definition is_ok {E A} (r : result E A) : bool :=
  match r with Ok _ => true | Err _ => false end.

Definition result_bind {E A B} (r : result E A) (f : A -> result E B) : result E B :=
  match r with Ok a => f a | Err e => Err e end.

Definition result_map {E A B} (f : A -> B) (r : result E A) : result E B :=
  match r with Ok a => Ok (f a) | Err e => Err e end.

Definition ok_or {E A} (o : option A) (e : E) : result E A :=
  match o with Some a => Ok a | None => Err e end.

(** Collect the values of a list of results, stopping at the first error, as a
    Python comprehension over a raising body does. *)
Fixpoint result_mapM {E A B} (f : A -> result E B) (l : list A) : result E (list B) :=
  match l with
  | [] => Ok []
  | x :: l' =>
      match f x with
      | Ok y => result_map (cons y) (result_mapM f l')
      | Err e => Err e
      end
  end.

Declare Scope gateway_scope.
Delimit Scope gateway_scope with gw.
Notation "x <-? c1 ;; c2" := (result_bind c1 (fun x => c2))
  (at level 60, c1 at next level, right associativity) : gateway_scope.

Lemma result_bind_ok {E A B} (r : result E A) (f : A -> result E B) b :
  result_bind r f = Ok b <-> exists a, r = Ok a /\ f a = Ok b.
Proof.
  destruct r as [a|e]; cbn; split.
  - eauto.
  - by intros (? & [= ->] & ?).
  - done.
  - by intros (? & ? & ?).
Qed.

Lemma result_mapM_ok {E A B} (f : A -> result E B) l l' :
  result_mapM f l = Ok l' <-> Forall2 (fun x y => f x = Ok y) l l'.
Proof.
  revert l'; induction l as [|x l IH]; intros l'; cbn.
  - split; [intros [= <-]; constructor | inversion 1; done].
  - destruct (f x) as [y|e] eqn:Hx; cbn; [|split; [done | inversion 1; congruence]].
    destruct (result_mapM f l) as [ys|e]; cbn; split.
    + intros [= <-]. constructor; [done|]. by apply IH.
    + inversion 1 as [|? y' ? ys' Hy Hys]; subst. apply IH in Hys. congruence.
    + done.
    + inversion 1 as [|? y' ? ys' Hy Hys]; subst. by apply IH in Hys.
Qed.

Lemma result_mapM_length {E A B} (f : A -> result E B) l l' :
  result_mapM f l = Ok l' -> length l' = length l.
Proof. rewrite result_mapM_ok. intros H. symmetry. by eapply Forall2_length. Qed.

Lemma forallb_Forall_true {A} (f : A -> bool) l :
  forallb f l = true -> Forall (fun x => f x = true) l.
Proof.
  induction l as [|x l IH]; cbn; [constructor|].
  intros [Hx Hl]%andb_true_iff. constructor; auto.
Qed.

(* ------------------------------------------------------------------ *)
(** ** Tactics *)

(** Split hypotheses of the form [x = ...] on records, pairs, options and results. *)
Ltac inv H := inversion H; subst; clear H.

(** Case analysis on the first stuck [match] of the goal (resp. of a hypothesis). *)
Ltac cases_goal :=
  match goal with |- context [match ?x with _ => _ end] => destruct x eqn:? end.
Ltac cases_in H :=
  match type of H with context [match ?x with _ => _ end] => destruct x eqn:? end.

Ltac crush := repeat (cases_goal; simplify_eq/=); try done; try lia.

Create HintDb gateway discriminated.
