(* ===== verification/Dict.v ===== *)
(** * Python dictionaries

    An insertion-ordered mapping as CPython keeps it: looking a key up, storing
    it (in place when it exists, at the end otherwise), deleting it, and the
    order of iteration.  Used where the order of a dict is observable (registry
    listing, JSON objects, audit payloads); maps whose order nobody reads are
    stdpp's [gmap]. *)

From S2P Require Import Prelude.

Notation dict K V := (list (K * V)).

Section dict.
Context {K V : Type} `{EqDecision K}.
Implicit Types (d : dict K V) (k : K) (v : V).

(** [d.get(k)] *)
Fixpoint dict_get (k : K) (d : dict K V) : option V :=
  match d with
  | [] => None
  | (k', v) :: d' => if decide (k = k') then Some v else dict_get k d'
  end.

(** [d[k] = v] *)
Fixpoint dict_set (k : K) (v : V) (d : dict K V) : dict K V :=
  match d with
  | [] => [(k, v)]
  | (k', v') :: d' =>
      if decide (k = k') then (k', v) :: d' else (k', v') :: dict_set k v d'
  end.

(** [del d[k]] / [d.pop(k, None)] *)
Fixpoint dict_del (k : K) (d : dict K V) : dict K V :=
  match d with
  | [] => []
  | (k', v') :: d' =>
      if decide (k = k') then d' else (k', v') :: dict_del k d'
  end.

(** [k in d] *)
Definition dict_mem (k : K) (d : dict K V) : bool :=
  match dict_get k d with Some _ => true | None => false end.

Definition dict_keys (d : dict K V) : list K := map fst d.
Definition dict_values (d : dict K V) : list V := map snd d.

(** [dict(pairs)] *)
Definition dict_of_pairs (l : list (K * V)) : dict K V :=
  fold_left (fun d kv => dict_set kv.1 kv.2 d) l [].

(** Keys are unique: the invariant of every Python dict. *)
Definition dict_ok (d : dict K V) : Prop := NoDup (dict_keys d).

Lemma dict_get_set k k' v d :
  dict_get k (dict_set k' v d) = if decide (k = k') then Some v else dict_get k d.
Proof.
  induction d as [|[k0 v0] d IH]; cbn; [done|].
  repeat case_decide; subst; cbn; repeat case_decide; congruence.
Qed.

Lemma dict_get_set_eq k v d : dict_get k (dict_set k v d) = Some v.
Proof. rewrite dict_get_set. by case_decide. Qed.

Lemma dict_get_set_ne k k' v d : k <> k' -> dict_get k (dict_set k' v d) = dict_get k d.
Proof. intros. rewrite dict_get_set. by case_decide. Qed.

Lemma dict_get_None k d : dict_get k d = None <-> k ∉ dict_keys d.
Proof.
  induction d as [|[k' v] d IH]; cbn.
  - split; [intros _; apply not_elem_of_nil | done].
  - rewrite not_elem_of_cons, <- IH. case_decide; naive_solver.
Qed.

Lemma dict_get_is_Some k d : is_Some (dict_get k d) <-> k ∈ dict_keys d.
Proof.
  rewrite <- not_eq_None_Some, dict_get_None. split; [|tauto].
  intros Hn. destruct (decide (k ∈ dict_keys d)); tauto.
Qed.

Lemma dict_get_In k v d : dict_get k d = Some v -> (k, v) ∈ d.
Proof.
  induction d as [|[k' v'] d IH]; cbn; [done|].
  case_decide; intros Hg; simplify_eq; rewrite elem_of_cons; auto.
Qed.

Lemma dict_In_get k v d : dict_ok d -> (k, v) ∈ d -> dict_get k d = Some v.
Proof.
  unfold dict_ok. induction d as [|[k' v'] d IH]; cbn; intros Hok Hin.
  - by apply elem_of_nil in Hin.
  - apply NoDup_cons in Hok as [Hk' Hok]. apply elem_of_cons in Hin as [[= -> ->]|Hin].
    + by case_decide.
    + case_decide; subst; [|auto]. destruct Hk'.
      unfold dict_keys. apply list_elem_of_fmap. by exists (k', v).
Qed.

Lemma dict_keys_set k v d :
  dict_keys (dict_set k v d) =
  if decide (k ∈ dict_keys d) then dict_keys d else dict_keys d ++ [k].
Proof.
  induction d as [|[k' v'] d IH]; cbn.
  - case_decide as Hin; [by apply elem_of_nil in Hin | done].
  - destruct (decide (k = k')) as [->|Hne]; cbn.
    + rewrite decide_True by (apply elem_of_cons; auto). done.
    + fold (dict_keys d). fold (dict_keys (dict_set k v d)). rewrite IH.
      destruct (decide (k ∈ dict_keys d)).
      * rewrite decide_True by (apply elem_of_cons; auto). done.
      * rewrite decide_False; [done|]. rewrite elem_of_cons. tauto.
Qed.

Lemma dict_set_ok k v d : dict_ok d -> dict_ok (dict_set k v d).
Proof.
  unfold dict_ok. rewrite dict_keys_set. case_decide; [done|].
  intros. apply NoDup_app. split_and!; [done| |apply NoDup_singleton].
  intros x Hx ->%list_elem_of_singleton. done.
Qed.

(** Storing a fresh key appends it. *)
Lemma dict_set_fresh k v d : dict_get k d = None -> dict_set k v d = d ++ [(k, v)].
Proof.
  induction d as [|[k' v'] d IH]; cbn; [done|].
  case_decide; [done|]. intros. by rewrite IH.
Qed.

Lemma dict_get_del k k' d :
  dict_ok d -> dict_get k (dict_del k' d) = if decide (k = k') then None else dict_get k d.
Proof.
  unfold dict_ok. induction d as [|[k0 v0] d IH]; cbn; intros Hok; [by case_decide|].
  apply NoDup_cons in Hok as [Hk0 Hok]. specialize (IH Hok).
  repeat case_decide; subst; cbn; repeat case_decide; simplify_eq; try done.
  by apply dict_get_None.
Qed.

Lemma dict_del_keys_subset k x d : x ∈ dict_keys (dict_del k d) -> x ∈ dict_keys d.
Proof.
  induction d as [|[k' v'] d IH]; cbn; [done|].
  case_decide; cbn; rewrite !elem_of_cons; tauto.
Qed.

Lemma dict_del_ok k d : dict_ok d -> dict_ok (dict_del k d).
Proof.
  unfold dict_ok. induction d as [|[k' v'] d IH]; cbn; [done|].
  intros [Hk Hok]%NoDup_cons. case_decide; [done|]. cbn. apply NoDup_cons. split; [|auto].
  intros Hin. by apply dict_del_keys_subset in Hin.
Qed.

Lemma dict_del_None k d : dict_get k d = None -> dict_del k d = d.
Proof.
  induction d as [|[k' v'] d IH]; cbn; [done|].
  case_decide; [done|]. intros. by rewrite IH.
Qed.

Lemma fold_dict_set_fresh l d :
  NoDup (dict_keys (d ++ l)) ->
  fold_left (fun d kv => dict_set kv.1 kv.2 d) l d = d ++ l.
Proof.
  revert d; induction l as [|[k v] l IH]; intros d Hnd; cbn; [by rewrite app_nil_r|].
  rewrite dict_set_fresh.
  - rewrite IH; rewrite <- app_assoc; done.
  - apply dict_get_None. intros Hin. unfold dict_keys in Hnd.
    rewrite map_app in Hnd. apply NoDup_app in Hnd as (_ & Hdisj & _).
    apply (Hdisj k Hin). cbn. apply elem_of_cons; auto.
Qed.

(** Pairs with distinct keys build a dict that iterates in the pairs' order. *)
Lemma dict_of_pairs_ok l : dict_ok l -> dict_of_pairs l = l.
Proof. intros. by apply fold_dict_set_fresh. Qed.
End dict.

#[export] Hint Resolve dict_set_ok dict_del_ok : gateway.
#[export] Hint Rewrite @dict_get_set_eq : gateway.
