(* ===== verification/Pystr.v ===== *)
(** * Python string methods

    Text is a [string] of 8-bit characters read as the code points 0..255;
    case mapping is the ASCII one. *)

From S2P Require Import Prelude.
From Stdlib Require Import Ascii.

Definition code (c : ascii) : nat := nat_of_ascii c.

(** [str.isspace] on code points below 256. *)
Definition is_space (c : ascii) : bool :=
  let n := code c in
  ((9 <=? n) && (n <=? 13)) || ((28 <=? n) && (n <=? 32)) || (n =? 133) || (n =? 160).

Fixpoint lstrip (s : string) : string :=
  match s with
  | String c s' => if is_space c then lstrip s' else s
  | EmptyString => EmptyString
  end.

Fixpoint rev_string_onto (s acc : string) : string :=
  match s with
  | String c s' => rev_string_onto s' (String c acc)
  | EmptyString => acc
  end.
Definition rev_string (s : string) : string := rev_string_onto s "".
#[global] Arguments rev_string : simpl never.

Definition rstrip (s : string) : string := rev_string (lstrip (rev_string s)).
Definition strip (s : string) : string := rstrip (lstrip s).

(** Truth value of a [str]. *)
Definition truthy (s : string) : bool := match s with EmptyString => false | _ => true end.

(** [text or default] for an optional text. *)
Definition or_default (o : option string) (default : string) : string :=
  match o with
  | Some s => if truthy s then s else default
  | None => default
  end.

Definition lower_char (c : ascii) : ascii :=
  let n := code c in if (65 <=? n) && (n <=? 90) then ascii_of_nat (n + 32) else c.
Definition upper_char (c : ascii) : ascii :=
  let n := code c in if (97 <=? n) && (n <=? 122) then ascii_of_nat (n - 32) else c.

Fixpoint map_string (f : ascii -> ascii) (s : string) : string :=
  match s with
  | String c s' => String (f c) (map_string f s')
  | EmptyString => EmptyString
  end.
Definition lower := map_string lower_char.
Definition upper := map_string upper_char.

(** [strip_prefix p s] is what follows [p] when [s] starts with it. *)
Fixpoint strip_prefix (p s : string) : option string :=
  match p, s with
  | EmptyString, _ => Some s
  | String a p', String b s' => if decide (a = b) then strip_prefix p' s' else None
  | String _ _, EmptyString => None
  end.

Definition startswith (p s : string) : bool :=
  match strip_prefix p s with Some _ => true | None => false end.

Definition endswith (p s : string) : bool := startswith (rev_string p) (rev_string s).

Fixpoint contains (needle s : string) : bool :=
  startswith needle s ||
  match s with
  | String _ s' => contains needle s'
  | EmptyString => false
  end.

(** [s.partition(" ")] *)
Fixpoint partition_space (s : string) : string * string * string :=
  match s with
  | EmptyString => ("", "", "")
  | String c s' =>
      if decide (c = " "%char) then ("", " ", s')
      else let '(a, b, t) := partition_space s' in (String c a, b, t)
  end.

(** [s.rstrip("/")] *)
Fixpoint lstrip_slash (s : string) : string :=
  match s with
  | String c s' => if decide (c = "/"%char) then lstrip_slash s' else s
  | EmptyString => EmptyString
  end.
Definition rstrip_slash (s : string) : string := rev_string (lstrip_slash (rev_string s)).

(** [s.splitlines()]: the line boundaries of Python below code point 256, a
    carriage return with a line feed being one. *)
Definition is_line_break (c : ascii) : bool :=
  let n := code c in ((10 <=? n) && (n <=? 13)) || ((28 <=? n) && (n <=? 30)) || (n =? 133).
Fixpoint splitlines_acc (s acc : string) : list string :=
  match s with
  | EmptyString => if truthy acc then [rev_string acc] else []
  | String "013" (String "010" s') => rev_string acc :: splitlines_acc s' ""
  | String c s' =>
      if is_line_break c
      then rev_string acc :: splitlines_acc s' ""
      else splitlines_acc s' (String c acc)
  end.
Definition splitlines (s : string) : list string := splitlines_acc s "".

(** [sep.join(parts)] *)
Fixpoint join (sep : string) (parts : list string) : string :=
  match parts with
  | [] => ""
  | [p] => p
  | p :: ps => p +:+ sep +:+ join sep ps
  end.

Lemma strip_prefix_Some p s rest : strip_prefix p s = Some rest <-> s = p +:+ rest.
Proof.
  revert s; induction p as [|a p IH]; intros s; cbn; [split; congruence|].
  destruct s as [|b s]; cbn; [split; done|].
  case_decide; subst; [|split; congruence]. rewrite IH. split; congruence.
Qed.

Lemma startswith_spec p s : startswith p s = true <-> exists rest, s = p +:+ rest.
Proof.
  unfold startswith. destruct (strip_prefix p s) as [rest|] eqn:E.
  - apply strip_prefix_Some in E. split; [eauto|done].
  - split; [done|]. intros [rest Hs%strip_prefix_Some]. congruence.
Qed.

Lemma contains_spec p s : contains p s = true <-> exists a b, s = a +:+ p +:+ b.
Proof.
  induction s as [|c s IH]; cbn; rewrite orb_true_iff, startswith_spec.
  - split.
    + intros [[b Hb]|?]; [|done]. by exists "", b.
    + intros (a & b & Hs). left. destruct a; cbn in *; [eauto|done].
  - rewrite IH. split.
    + intros [[b Hb]|(a & b & ->)]; [by exists "", b | by exists (String c a), b].
    + intros (a & b & Hs). destruct a as [|c' a]; cbn in Hs; [eauto|].
      injection Hs as -> Hs. right. eauto.
Qed.

(* ------------------------------------------------------------------ *)
(** ** Reversal and stripping *)

Fixpoint forall_chars (f : ascii -> bool) (s : string) : bool :=
  match s with
  | String c s' => f c && forall_chars f s'
  | EmptyString => true
  end.

Lemma forall_chars_app f a b : forall_chars f (a +:+ b) = forall_chars f a && forall_chars f b.
Proof. induction a; cbn; [done|]. by rewrite IHa, andb_assoc. Qed.

Lemma forall_chars_impl (f g : ascii -> bool) s :
  (forall c, f c = true -> g c = true) -> forall_chars f s = true -> forall_chars g s = true.
Proof.
  intros Hfg. induction s as [|c s IH]; cbn; [done|].
  rewrite !andb_true_iff. intuition.
Qed.

Lemma sapp_assoc (a b c : string) : (a +:+ b) +:+ c = a +:+ b +:+ c.
Proof. induction a; cbn; congruence. Qed.
Lemma sapp_nil_r (a : string) : a +:+ "" = a.
Proof. induction a; cbn; congruence. Qed.
Lemma length_sapp (a b : string) :
  String.length (a +:+ b) = String.length a + String.length b.
Proof. induction a; cbn; congruence. Qed.

Lemma rev_string_onto_app s acc : rev_string_onto s acc = rev_string s +:+ acc.
Proof.
  unfold rev_string. revert acc. induction s as [|c s IH]; intros acc; cbn; [done|].
  rewrite IH, (IH (String c "")), sapp_assoc. done.
Qed.

Lemma rev_string_cons c s : rev_string (String c s) = rev_string s +:+ String c "".
Proof. unfold rev_string at 1. cbn. apply rev_string_onto_app. Qed.

Lemma rev_string_app a b : rev_string (a +:+ b) = rev_string b +:+ rev_string a.
Proof.
  induction a as [|c a IH]; cbn; [by rewrite sapp_nil_r|].
  by rewrite !rev_string_cons, IH, sapp_assoc.
Qed.

Lemma rev_string_involutive s : rev_string (rev_string s) = s.
Proof. induction s as [|c s IH]; [done|]. by rewrite rev_string_cons, rev_string_app, IH. Qed.

Lemma forall_chars_rev f s : forall_chars f (rev_string s) = forall_chars f s.
Proof.
  induction s as [|c s IH]; [done|]. rewrite rev_string_cons, forall_chars_app, IH. cbn.
  by rewrite andb_true_r, andb_comm.
Qed.

Lemma truthy_lstrip s : truthy (lstrip s) = negb (forall_chars is_space s).
Proof. induction s as [|c s IH]; cbn; [done|]. by destruct (is_space c); cbn. Qed.

Lemma forall_chars_lstrip s : forall_chars is_space (lstrip s) = forall_chars is_space s.
Proof. induction s as [|c s IH]; cbn; [done|]. destruct (is_space c) eqn:E; cbn; [done|]. by rewrite E. Qed.

Lemma truthy_rev s : truthy (rev_string s) = truthy s.
Proof.
  destruct s as [|c s]; [done|]. rewrite rev_string_cons.
  by destruct (rev_string s).
Qed.

(** Stripping leaves something exactly when some character is no blank. *)
Lemma truthy_strip s : truthy (strip s) = negb (forall_chars is_space s).
Proof.
  unfold strip, rstrip.
  by rewrite truthy_rev, truthy_lstrip, forall_chars_rev, forall_chars_lstrip.
Qed.

(** A text whose ends are no blanks is unchanged. *)
Lemma strip_id a b s :
  is_space a = false -> is_space b = false ->
  strip (String a (s +:+ String b "")) = String a (s +:+ String b "").
Proof.
  intros Ha Hb. unfold strip, rstrip. cbn [lstrip]. rewrite Ha.
  assert (Hrev : rev_string (String a (s +:+ String b "")) = String b (rev_string (String a s)))
    by (change (String a (s +:+ String b "")) with (String a s +:+ String b "");
        by rewrite rev_string_app).
  rewrite Hrev. cbn [lstrip]. rewrite Hb, <- Hrev. apply rev_string_involutive.
Qed.
