(* ===== verification/Json.v ===== *)
(** * JSON values and the [json] module

    The [dict[str, Any]] values the gateway stores, signs, hashes and sends, the
    text [json.dumps] gives them and the value [json.loads] reads back.  Objects
    keep their insertion order; a float is carried by the text [json.dumps]
    prints for it; [json.loads] normalises float literals through [float_norm],
    the composition [repr(float(text))]. *)

From S2P Require Import Prelude Dict Pystr.
From Stdlib Require Import Ascii DecimalString DecimalZ.

Inductive json : Type :=
| JNull
| JBool (b : bool)
| JInt (z : Z)
| JFloat (text : string)
| JStr (s : string)
| JList (l : list json)
| JObj (kvs : dict string json).

(** Objects as Python sees them. *)
Notation jdict := (dict string json).

(* ------------------------------------------------------------------ *)
(** ** Induction and decidable equality *)

Section json_ind.
Variable P : json -> Prop.
Hypothesis Hnull : P JNull.
Hypothesis Hbool : forall b, P (JBool b).
Hypothesis Hint : forall z, P (JInt z).
Hypothesis Hfloat : forall t, P (JFloat t).
Hypothesis Hstr : forall s, P (JStr s).
Hypothesis Hlist : forall l, Forall P l -> P (JList l).
Hypothesis Hobj : forall kvs, Forall (fun kv => P kv.2) kvs -> P (JObj kvs).

Fixpoint json_induction (v : json) : P v :=
  match v with
  | JNull => Hnull
  | JBool b => Hbool b
  | JInt z => Hint z
  | JFloat t => Hfloat t
  | JStr s => Hstr s
  | JList l =>
      Hlist l ((fix go (l : list json) : Forall P l :=
        match l with
        | [] => Forall_nil_2 P
        | x :: l' => Forall_cons_2 P x l' (json_induction x) (go l')
        end) l)
  | JObj kvs =>
      Hobj kvs ((fix go (l : jdict) : Forall (fun kv => P kv.2) l :=
        match l with
        | [] => Forall_nil_2 _
        | kv :: l' => Forall_cons_2 _ kv l' (json_induction kv.2) (go l')
        end) kvs)
  end.
End json_ind.

Fixpoint json_eqb (v w : json) {struct v} : bool :=
  match v, w with
  | JNull, JNull => true
  | JBool a, JBool b => Bool.eqb a b
  | JInt a, JInt b => (a =? b)%Z
  | JFloat a, JFloat b => String.eqb a b
  | JStr a, JStr b => String.eqb a b
  | JList l, JList m =>
      (fix go (l m : list json) : bool :=
         match l, m with
         | [], [] => true
         | x :: l', y :: m' => json_eqb x y && go l' m'
         | _, _ => false
         end) l m
  | JObj l, JObj m =>
      (fix go (l m : jdict) : bool :=
         match l, m with
         | [], [] => true
         | (j, x) :: l', (k, y) :: m' => String.eqb j k && json_eqb x y && go l' m'
         | _, _ => false
         end) l m
  | _, _ => false
  end.

Lemma json_eqb_spec v : forall w, json_eqb v w = true <-> v = w.
Proof.
  induction v as [ | | | | |l IH|kvs IH] using json_induction; intros w; destruct w; cbn;
    try (split; congruence).
  - rewrite Bool.eqb_true_iff. split; congruence.
  - rewrite Z.eqb_eq. split; congruence.
  - rewrite String.eqb_eq. split; congruence.
  - rewrite String.eqb_eq. split; congruence.
  - rename l0 into m. revert m.
    induction IH as [|x l Hx Hl IHl]; intros [|y m]; try (split; congruence).
    rewrite andb_true_iff, Hx. specialize (IHl m). split.
    + intros [-> Hm]. apply IHl in Hm. congruence.
    + intros [= -> ->]. split; [done|]. by apply IHl.
  - rename kvs0 into m. revert m.
    induction IH as [|[j x] l Hx Hl IHl]; intros [|[k y] m]; try (split; congruence).
    cbn in Hx. rewrite !andb_true_iff, String.eqb_eq, Hx. specialize (IHl m). split.
    + intros [[-> ->] Hm]. apply IHl in Hm. congruence.
    + intros [= -> -> ->]. split; [done|]. by apply IHl.
Qed.

Global Instance json_eq_dec : EqDecision json.
Proof.
  intros v w. destruct (json_eqb v w) eqn:E.
  - left. by apply json_eqb_spec.
  - right. intros H%json_eqb_spec. congruence.
Defined.

(* ------------------------------------------------------------------ *)
(** ** [json.dumps] *)

Definition hex_digit (n : nat) : ascii :=
  ascii_of_nat (if n <? 10 then 48 + n else 87 + n).

Definition char_string (c : ascii) : string := String c EmptyString.
Definition quote_char : ascii := "034"%char.
Definition backslash_char : ascii := "092"%char.

(** [ensure_ascii=True]: everything outside [' '..'~'] is escaped. *)
Definition escape_char (c : ascii) : string :=
  let n := code c in
  if n =? 34 then String backslash_char (char_string quote_char) else
  if n =? 92 then String backslash_char (char_string backslash_char) else
  if n =? 10 then "\n" else
  if n =? 13 then "\r" else
  if n =? 9 then "\t" else
  if n =? 8 then "\b" else
  if n =? 12 then "\f" else
  if (32 <=? n) && (n <=? 126) then char_string c else
  "\u00" +:+ String (hex_digit (n / 16)) (char_string (hex_digit (n mod 16))).

Fixpoint escape (s : string) : string :=
  match s with
  | EmptyString => EmptyString
  | String c s' => escape_char c +:+ escape s'
  end.

Definition print_string (s : string) : string :=
  String quote_char (escape s +:+ char_string quote_char).

Definition print_int (z : Z) : string := NilZero.string_of_int (Z.to_int z).

(** [json.dumps] with separators [","]/[":"] ([sp = false]) or the default
    [", "]/[": "] ([sp = true]), keys in the order the object has them. *)
Fixpoint print (sp : bool) (v : json) {struct v} : string :=
  let comma := if sp then ", " else "," in
  let colon := if sp then ": " else ":" in
  match v with
  | JNull => "null"
  | JBool true => "true"
  | JBool false => "false"
  | JInt z => print_int z
  | JFloat t => t
  | JStr s => print_string s
  | JList l =>
      match l with
      | [] => "[]"
      | x :: l' =>
          "[" +:+ print sp x +:+
          (fix go (l : list json) : string :=
             match l with
             | [] => "]"
             | y :: l'' => comma +:+ print sp y +:+ go l''
             end) l'
      end
  | JObj kvs =>
      match kvs with
      | [] => "{}"
      | (k, x) :: l' =>
          "{" +:+ print_string k +:+ colon +:+ print sp x +:+
          (fix go (l : jdict) : string :=
             match l with
             | [] => "}"
             | (j, y) :: l'' => comma +:+ print_string j +:+ colon +:+ print sp y +:+ go l''
             end) l'
      end
  end.

(** The elements after the first one, with the closing bracket. *)
Fixpoint print_tail (sp : bool) (l : list json) : string :=
  match l with
  | [] => "]"
  | y :: l' => (if sp then ", " else ",") +:+ print sp y +:+ print_tail sp l'
  end.
Fixpoint print_members (sp : bool) (l : jdict) : string :=
  match l with
  | [] => "}"
  | (j, y) :: l' =>
      (if sp then ", " else ",") +:+ print_string j +:+ (if sp then ": " else ":") +:+
      print sp y +:+ print_members sp l'
  end.

Lemma print_list_cons sp x l :
  print sp (JList (x :: l)) = "[" +:+ print sp x +:+ print_tail sp l.
Proof.
  cbn [print]. do 2 f_equal. induction l as [|y l IH]; cbn [print_tail]; [done|].
  by rewrite <- IH.
Qed.

Lemma print_obj_cons sp k x l :
  print sp (JObj ((k, x) :: l)) =
  "{" +:+ print_string k +:+ (if sp then ": " else ":") +:+ print sp x +:+ print_members sp l.
Proof.
  cbn [print]. do 4 f_equal. induction l as [|[j y] l IH]; cbn [print_members]; [done|].
  by rewrite <- IH.
Qed.

(** [sort_keys=True] orders the members of every object by key (code points). *)
Fixpoint insert_member (kv : string * json) (l : jdict) : jdict :=
  match l with
  | [] => [kv]
  | kv' :: l' => if String.leb kv.1 kv'.1 then kv :: l else kv' :: insert_member kv l'
  end.
Definition sort_members (l : jdict) : jdict := foldr insert_member [] l.

Fixpoint sort_keys (v : json) : json :=
  match v with
  | JList l => JList (map sort_keys l)
  | JObj kvs => JObj (sort_members (map (fun kv => (kv.1, sort_keys kv.2)) kvs))
  | _ => v
  end.

(** [json.dumps(v, sort_keys=True, separators=(",", ":"))] and
    [json.dumps(v, sort_keys=True)]. *)
Definition dumps_compact (v : json) : string := print false (sort_keys v).
Definition dumps_sorted (v : json) : string := print true (sort_keys v).
Definition dumps (v : json) : string := print true v.

(* ------------------------------------------------------------------ *)
(** ** [json.loads] *)

Definition is_ws (c : ascii) : bool :=
  let n := code c in (n =? 32) || (n =? 9) || (n =? 10) || (n =? 13).
Fixpoint skip_ws (s : string) : string :=
  match s with
  | String c s' => if is_ws c then skip_ws s' else s
  | EmptyString => EmptyString
  end.

Definition hex_value (c : ascii) : option nat :=
  let n := code c in
  if (48 <=? n) && (n <=? 57) then Some (n - 48) else
  if (97 <=? n) && (n <=? 102) then Some (n - 87) else
  if (65 <=? n) && (n <=? 70) then Some (n - 55) else None.

(** The code point of four hex digits, when it is below 256. *)
Definition hex4 (a b c d : ascii) : option ascii :=
  match hex_value a, hex_value b, hex_value c, hex_value d with
  | Some 0, Some 0, Some x, Some y => Some (ascii_of_nat (16 * x + y))
  | _, _, _, _ => None
  end.

Definition unescape (c : ascii) : option ascii :=
  match code c with
  | 34 => Some quote_char
  | 92 => Some backslash_char
  | 47 => Some "/"%char
  | 98 => Some "008"%char
  | 102 => Some "012"%char
  | 110 => Some "010"%char
  | 114 => Some "013"%char
  | 116 => Some "009"%char
  | _ => None
  end.

(** The rest of a string literal after its opening quote. *)
Fixpoint parse_chars (s : string) : option (string * string) :=
  match s with
  | EmptyString => None
  | String c s1 =>
      if code c =? 34 then Some (EmptyString, s1)
      else if code c =? 92 then
        match s1 with
        | String "u" (String h1 (String h2 (String h3 (String h4 s2)))) =>
            match hex4 h1 h2 h3 h4, parse_chars s2 with
            | Some x, Some (t, rest) => Some (String x t, rest)
            | _, _ => None
            end
        | String e s2 =>
            match unescape e, parse_chars s2 with
            | Some x, Some (t, rest) => Some (String x t, rest)
            | _, _ => None
            end
        | EmptyString => None
        end
      else if code c <? 32 then None
      else match parse_chars s1 with
           | Some (t, rest) => Some (String c t, rest)
           | None => None
           end
  end.

(** *** Numbers *)

Definition is_digit (c : ascii) : bool := let n := code c in (48 <=? n) && (n <=? 57).
Definition is_num_char (c : ascii) : bool :=
  let n := code c in
  is_digit c || (n =? 43) || (n =? 45) || (n =? 46) || (n =? 69) || (n =? 101).

Fixpoint span_num (s : string) : string * string :=
  match s with
  | String c s' =>
      if is_num_char c then let '(t, rest) := span_num s' in (String c t, rest)
      else (EmptyString, s)
  | EmptyString => (EmptyString, EmptyString)
  end.

Definition is_float_mark (c : ascii) : bool :=
  let n := code c in (n =? 46) || (n =? 69) || (n =? 101).

Fixpoint skip_digits (s : string) : string :=
  match s with
  | String c s' => if is_digit c then skip_digits s' else s
  | EmptyString => EmptyString
  end.
Definition digits1 (s : string) : option string :=
  match s with
  | String c s' => if is_digit c then Some (skip_digits s') else None
  | EmptyString => None
  end.
Definition int_part (s : string) : option string :=
  match s with
  | String "0" s' => Some s'
  | _ => digits1 s
  end.
Definition frac_part (s : string) : option string :=
  match s with
  | String "." s' => digits1 s'
  | _ => Some s
  end.
Definition exp_part (s : string) : option string :=
  match s with
  | String ("e" | "E") (String ("+" | "-") s') => digits1 s'
  | String ("e" | "E") s' => digits1 s'
  | _ => Some s
  end.

(** A number literal with a fraction or an exponent. *)
Definition is_float_literal (s : string) : bool :=
  let body := match s with String "-" s' => s' | _ => s end in
  forall_chars is_num_char s &&
  negb (forall_chars (fun c => negb (is_float_mark c)) s) &&
  match int_part body with
  | Some s1 =>
      match frac_part s1 with
      | Some s2 => match exp_part s2 with Some EmptyString => true | _ => false end
      | None => false
      end
  | None => false
  end.

(** An integer literal: no sign but a minus, no leading zero. *)
Definition parse_int (s : string) : option Z :=
  if decide (s = "-0") then Some 0%Z else
  match NilZero.int_of_string s with
  | Some d => let z := Z.of_int d in if decide (print_int z = s) then Some z else None
  | None => None
  end.

Section loads.
(** [repr(float(text))] *)
Variable float_norm : string -> string.

Definition parse_number (s : string) : option (json * string) :=
  let '(tok, rest) := span_num s in
  if is_float_literal tok then Some (JFloat (float_norm tok), rest)
  else match parse_int tok with
       | Some z => Some (JInt z, rest)
       | None =>
           match strip_prefix "-Infinity" s with
           | Some rest => Some (JFloat "-Infinity", rest)
           | None => None
           end
       end.

Definition parse_literal (s : string) : option (json * string) :=
  match strip_prefix "null" s, strip_prefix "true" s, strip_prefix "false" s,
        strip_prefix "NaN" s, strip_prefix "Infinity" s with
  | Some rest, _, _, _, _ => Some (JNull, rest)
  | _, Some rest, _, _, _ => Some (JBool true, rest)
  | _, _, Some rest, _, _ => Some (JBool false, rest)
  | _, _, _, Some rest, _ => Some (JFloat "NaN", rest)
  | _, _, _, _, Some rest => Some (JFloat "Infinity", rest)
  | _, _, _, _, _ => None
  end.

(** One value, and the elements or members after an opening bracket; [n]
    bounds the nesting of calls. *)
Fixpoint parse_value (n : nat) (s : string) {struct n} : option (json * string) :=
  match n with
  | O => None
  | S n =>
      match skip_ws s with
      | EmptyString => None
      | String c s1 =>
          if decide (c = quote_char) then
            match parse_chars s1 with
            | Some (t, rest) => Some (JStr t, rest)
            | None => None
            end
          else if decide (c = "["%char) then
            match skip_ws s1 with
            | String "]" rest => Some (JList [], rest)
            | _ => match parse_elems n s1 with
                   | Some (l, rest) => Some (JList l, rest)
                   | None => None
                   end
            end
          else if decide (c = "{"%char) then
            match skip_ws s1 with
            | String "}" rest => Some (JObj [], rest)
            | _ => match parse_members n s1 with
                   | Some (l, rest) => Some (JObj (dict_of_pairs l), rest)
                   | None => None
                   end
            end
          else if is_num_char c && negb (code c =? 69) && negb (code c =? 101)
          then parse_number (String c s1)
          else parse_literal (String c s1)
      end
  end
with parse_elems (n : nat) (s : string) {struct n} : option (list json * string) :=
  match n with
  | O => None
  | S n =>
      match parse_value n s with
      | Some (v, s1) =>
          match skip_ws s1 with
          | String "," s2 =>
              match parse_elems n s2 with
              | Some (l, rest) => Some (v :: l, rest)
              | None => None
              end
          | String "]" rest => Some ([v], rest)
          | _ => None
          end
      | None => None
      end
  end
with parse_members (n : nat) (s : string) {struct n} : option (jdict * string) :=
  match n with
  | O => None
  | S n =>
      match skip_ws s with
      | String c s0 =>
          if decide (c = quote_char) then
            match parse_chars s0 with
            | Some (k, s1) =>
                match skip_ws s1 with
                | String ":" s2 =>
                    match parse_value n s2 with
                    | Some (v, s3) =>
                        match skip_ws s3 with
                        | String "," s4 =>
                            match parse_members n s4 with
                            | Some (l, rest) => Some ((k, v) :: l, rest)
                            | None => None
                            end
                        | String "}" rest => Some ([(k, v)], rest)
                        | _ => None
                        end
                    | None => None
                    end
                | _ => None
                end
            | None => None
            end
          else None
      | EmptyString => None
      end
  end.

(** [json.loads(text)]: one value and nothing but blanks after it. *)
Definition loads (s : string) : option json :=
  match parse_value (S (2 * String.length s)) s with
  | Some (v, rest) => if decide (skip_ws rest = EmptyString) then Some v else None
  | None => None
  end.
End loads.

(* ------------------------------------------------------------------ *)
(** ** Printing then parsing *)

Lemma parse_escape_char c rest :
  parse_chars (escape_char c +:+ rest) =
  match parse_chars rest with Some (t, r) => Some (String c t, r) | None => None end.
Proof. destruct c as [[] [] [] [] [] [] [] []]; reflexivity. Qed.

Lemma parse_chars_escape s rest :
  parse_chars (escape s +:+ String quote_char rest) = Some (s, rest).
Proof.
  induction s as [|c s IH]; [reflexivity|].
  cbn [escape]. by rewrite sapp_assoc, parse_escape_char, IH.
Qed.

(** What may follow a printed value: nothing a number could continue with. *)
Definition num_end (s : string) : Prop :=
  match s with String c _ => is_num_char c = false | EmptyString => True end.

Lemma span_num_app t rest :
  forall_chars is_num_char t = true -> num_end rest -> span_num (t +:+ rest) = (t, rest).
Proof.
  intros Ht Hrest. induction t as [|c t IH]; cbn in *.
  - destruct rest as [|c rest]; cbn in *; [done|]. by rewrite Hrest.
  - apply andb_true_iff in Ht as [Hc Ht]. by rewrite Hc, IH.
Qed.

(** *** Integers *)

Definition int_char (c : ascii) : bool := is_digit c || (code c =? 45).

Lemma string_of_uint_digits d : forall_chars is_digit (NilEmpty.string_of_uint d) = true.
Proof. induction d; cbn [NilEmpty.string_of_uint forall_chars]; try rewrite IHd; done. Qed.

Lemma print_int_shape z :
  exists c t, print_int z = String c t /\ int_char c = true /\ forall_chars is_digit t = true.
Proof.
  assert (Hu : forall d, exists c t, NilZero.string_of_uint d = String c t /\
    is_digit c = true /\ forall_chars is_digit t = true).
  { intros d. destruct d as [|d|d|d|d|d|d|d|d|d|d]; cbn;
      eauto 6 using string_of_uint_digits. }
  unfold print_int. destruct z as [|p|p]; cbn [Z.to_int NilZero.string_of_int].
  - by exists "0"%char, "".
  - destruct (Hu (Pos.to_uint p)) as (c & t & -> & Hc & Ht).
    exists c, t. unfold int_char. by rewrite Hc.
  - destruct (Hu (Pos.to_uint p)) as (c & t & -> & Hc & Ht).
    eexists _, _. split; [done|]. cbn. by rewrite Hc.
Qed.

Lemma int_char_num c : int_char c = true -> is_num_char c = true.
Proof.
  unfold int_char, is_num_char. intros [Hd|Hd]%orb_true_iff; rewrite ?Hd; [done|].
  by rewrite !orb_true_r.
Qed.

Lemma int_char_not_mark c : int_char c = true -> is_float_mark c = false.
Proof. destruct c as [[] [] [] [] [] [] [] []]; by vm_compute. Qed.

Lemma is_digit_int_char c : is_digit c = true -> int_char c = true.
Proof. unfold int_char. by intros ->. Qed.

Lemma print_int_chars z : forall_chars int_char (print_int z) = true.
Proof.
  destruct (print_int_shape z) as (c & t & -> & Hc & Ht). cbn. rewrite Hc. cbn.
  eapply forall_chars_impl; [apply is_digit_int_char|done].
Qed.

Lemma print_int_not_float z : is_float_literal (print_int z) = false.
Proof.
  unfold is_float_literal.
  rewrite (forall_chars_impl int_char (fun c => negb (is_float_mark c))).
  - by rewrite andb_false_r.
  - intros c Hc. by rewrite int_char_not_mark.
  - apply print_int_chars.
Qed.

Lemma int_of_print_int z : NilZero.int_of_string (print_int z) = Some (Z.to_int z).
Proof.
  unfold print_int. destruct z as [|p|p]; [done| |]; apply NilZero.isi; cbn;
    try done; intros [= H]; by eapply DecimalPos.Unsigned.to_uint_nonnil.
Qed.

Lemma parse_print_int z : parse_int (print_int z) = Some z.
Proof.
  unfold parse_int. destruct (decide _) as [Heq|_].
  - pose proof (int_of_print_int z) as Hz. rewrite Heq in Hz. cbn in Hz.
    injection Hz as Hz. by rewrite <- (DecimalZ.of_to z), <- Hz.
  - rewrite int_of_print_int, DecimalZ.of_to. by case_decide.
Qed.

Section roundtrip.
Variable float_norm : string -> string.

(** A value Python can hold: dict keys are unique, and a float prints as the
    literal [repr] gives for it. *)
Fixpoint json_wf (v : json) : bool :=
  match v with
  | JFloat t => is_float_literal t && bool_decide (float_norm t = t)
  | JList l => forallb json_wf l
  | JObj kvs =>
      bool_decide (NoDup (dict_keys kvs)) && forallb (fun kv => json_wf kv.2) kvs
  | _ => true
  end.

(** The nesting of parser calls a value needs. *)
Fixpoint json_fuel (v : json) : nat :=
  match v with
  | JList l => S (sum_list_with (fun x => S (json_fuel x)) l)
  | JObj kvs => S (sum_list_with (fun kv => S (json_fuel kv.2)) kvs)
  | _ => 1
  end.

Lemma float_head t :
  is_float_literal t = true ->
  exists c t', t = String c t' /\ is_num_char c = true /\ (code c =? 69) = false
               /\ (code c =? 101) = false.
Proof.
  unfold is_float_literal. intros [[Hc _]%andb_true_iff Hg]%andb_true_iff.
  destruct t as [|c t]; [done|]. exists c, t. cbn in Hc.
  apply andb_true_iff in Hc as [Hc _]. split_and!; try done.
  all: destruct c as [[] [] [] [] [] [] [] []]; vm_compute in Hc |- *; try done.
Qed.

Lemma print_head sp v :
  json_wf v = true -> exists c t, print sp v = String c t /\ is_ws c = false /\ c <> "]"%char.
Proof.
  destruct v as [|[]|z|t|s|[|x l]|[|[k x] l]]; intros Hwf; try (by eexists _, _).
  - destruct (print_int_shape z) as (c & t & Hp & Hc & _).
    exists c, t. cbn [print]. split; [done|]. revert Hc. clear.
    destruct c as [[] [] [] [] [] [] [] []]; vm_compute; intros; split; congruence.
  - cbn in Hwf. apply andb_true_iff in Hwf as [Hf _].
    destruct (float_head t Hf) as (c & t' & -> & Hc & _). exists c, t'.
    split; [done|]. revert Hc. clear.
    destruct c as [[] [] [] [] [] [] [] []]; vm_compute; intros; split; congruence.
Qed.

Lemma skip_ws_print sp v rest :
  json_wf v = true -> skip_ws (print sp v +:+ rest) = print sp v +:+ rest.
Proof.
  intros Hwf. destruct (print_head sp v Hwf) as (c & t & -> & Hc & _).
  cbn. by rewrite Hc.
Qed.

(** The blank the default separators put before a value. *)
Lemma parse_value_blank n s : parse_value float_norm n (String " " s) = parse_value float_norm n s.
Proof. by destruct n. Qed.
Lemma parse_value_sep (sp : bool) n s :
  parse_value float_norm n ((if sp then " " else "") +:+ s) = parse_value float_norm n s.
Proof. destruct sp; [apply parse_value_blank | done]. Qed.
Lemma parse_elems_sep (sp : bool) n s :
  parse_elems float_norm n ((if sp then " " else "") +:+ s) = parse_elems float_norm n s.
Proof. destruct sp; [|done]. destruct n; cbn; [done|]. by rewrite parse_value_blank. Qed.
Lemma parse_members_sep (sp : bool) n s :
  parse_members float_norm n ((if sp then " " else "") +:+ s) = parse_members float_norm n s.
Proof. destruct sp; by destruct n. Qed.

Lemma comma_split (sp : bool) : (if sp then ", " else ",") = String "," (if sp then " " else "").
Proof. by destruct sp. Qed.
Lemma colon_split (sp : bool) : (if sp then ": " else ":") = String ":" (if sp then " " else "").
Proof. by destruct sp. Qed.

Definition parses (sp : bool) (v : json) : Prop :=
  json_wf v = true -> forall n rest, json_fuel v <= n -> num_end rest ->
  parse_value float_norm n (print sp v +:+ rest) = Some (v, rest).

Lemma parse_elems_print sp l :
  Forall (parses sp) l -> forall x, parses sp x ->
  forallb json_wf (x :: l) = true ->
  forall n rest, S (json_fuel x) + sum_list_with (fun x => S (json_fuel x)) l <= n ->
  parse_elems float_norm n (print sp x +:+ print_tail sp l +:+ rest) = Some (x :: l, rest).
Proof.
  induction 1 as [|y l Hy Hl IH]; intros x Hx Hwf n rest Hn;
    cbn in Hwf; apply andb_true_iff in Hwf as [Hwfx Hwf];
    (destruct n as [|n]; [cbn in Hn; lia|]); cbn [parse_elems print_tail].
  - cbn in Hn. rewrite Hx; [done|done|lia|done].
  - rewrite comma_split. rewrite Hx; [|done| cbn in Hn; lia | done].
    change (skip_ws _) with
      (String "," (((if sp then " " else "") +:+ print sp y +:+ print_tail sp l) +:+ rest)).
    cbn beta iota. rewrite !sapp_assoc, parse_elems_sep.
    rewrite IH; [done|done|done|]. cbn in Hn |- *. lia.
Qed.

(** Reading the key and the colon of one member. *)
Lemma parse_members_key (sp : bool) (n : nat) (k s : string) :
  parse_members float_norm (S n) (print_string k +:+ (if sp then ": " else ":") +:+ s) =
  match parse_value float_norm n s return option (jdict * string) with
  | Some (v, s3) =>
      match skip_ws s3 with
      | String "," s4 =>
          match parse_members float_norm n s4 with
          | Some (l, rest) => Some ((k, v) :: l, rest)
          | None => None
          end
      | String "}" rest => Some ([(k, v)], rest)
      | _ => None
      end
  | None => @None (jdict * string)
  end.
Proof.
  unfold print_string. cbn [String.append parse_members skip_ws].
  change (is_ws quote_char) with false. cbn iota beta. rewrite decide_True by done.
  rewrite sapp_assoc, colon_split. cbn [String.append char_string].
  rewrite parse_chars_escape. cbn [skip_ws]. change (is_ws ":"%char) with false.
  cbn iota beta. by rewrite parse_value_sep.
Qed.

Lemma parse_members_print sp l :
  Forall (fun kv => parses sp kv.2) l -> forall k x, parses sp x ->
  forallb (fun kv => json_wf kv.2) ((k, x) :: l) = true ->
  forall n rest, S (json_fuel x) + sum_list_with (fun kv => S (json_fuel kv.2)) l <= n ->
  parse_members float_norm n
    (print_string k +:+ (if sp then ": " else ":") +:+ print sp x +:+ print_members sp l +:+ rest)
  = Some ((k, x) :: l, rest).
Proof.
  induction 1 as [|[j y] l Hy Hl IH]; intros k x Hx Hwf n rest Hn;
    cbn in Hwf; apply andb_true_iff in Hwf as [Hwfx Hwf];
    (destruct n as [|n]; [cbn in Hn; lia|]); rewrite parse_members_key;
    cbn [print_members].
  - cbn in Hn. rewrite Hx; [done|done|lia|done].
  - rewrite comma_split. rewrite Hx; [|done| cbn in Hn; lia | done].
    cbn [String.append skip_ws]. change (is_ws ","%char) with false. cbn iota beta.
    rewrite !sapp_assoc, parse_members_sep.
    rewrite IH; [done|done|done|]. cbn in Hn |- *. lia.
Qed.

Lemma parse_print sp v : parses sp v.
Proof.
  induction v as [ |b|z|t|s|l IH|kvs IH] using json_induction; intros Hwf n rest Hn Hend;
    (destruct n as [|n]; [cbn in Hn; lia|]); cbn [parse_value];
    rewrite skip_ws_print by done.
  - done.
  - by destruct b.
  - destruct (print_int_shape z) as (c & t & Hp & Hc & Ht). cbn [print].
    assert (Hspan : span_num (print_int z +:+ rest) = (print_int z, rest)).
    { apply span_num_app; [|done]. eapply forall_chars_impl; [apply int_char_num|].
      apply print_int_chars. }
    assert (Hnum : parse_number float_norm (print_int z +:+ rest) = Some (JInt z, rest)).
    { unfold parse_number. by rewrite Hspan, print_int_not_float, parse_print_int. }
    rewrite Hp in Hnum |- *. cbn [String.append] in *.
    rewrite <- Hnum. clear -Hc. revert Hc.
    destruct c as [[] [] [] [] [] [] [] []]; vm_compute (int_char _); intros; done.
  - cbn [json_wf] in Hwf. apply andb_true_iff in Hwf as [Hf Hnorm%bool_decide_eq_true].
    assert (Hnum : parse_number float_norm (t +:+ rest) = Some (JFloat t, rest)).
    { unfold parse_number. rewrite span_num_app; [|by apply andb_true_iff in Hf as [[? _]%andb_true_iff _]|done].
      by rewrite Hf, Hnorm. }
    cbn [print].
    destruct (float_head t Hf) as (c & t' & -> & Hc & He & HE). cbn [String.append] in *.
    rewrite <- Hnum. rewrite Hc, He, HE. cbn [negb andb].
    rewrite !decide_False; [done| | |]; intros ->; vm_compute in Hc; done.
  - cbn [print]. unfold print_string. cbn [String.append]. rewrite decide_True by done.
    rewrite sapp_assoc. cbn [char_string String.append]. by rewrite parse_chars_escape.
  - destruct l as [|x l]; [done|]. cbn in Hn. cbn [json_wf] in Hwf.
    rewrite print_list_cons. cbn [String.append]. rewrite !sapp_assoc.
    rewrite decide_False, decide_True by done.
    inversion IH as [|? ? Hx Hl]; subst.
    rewrite parse_elems_print; [|done|done|done|lia].
    pose proof Hwf as [Hwfx _]%andb_true_iff.
    rewrite skip_ws_print by done.
    destruct (print_head sp x Hwfx) as (c & t & -> & _ & Hc). cbn [String.append].
    destruct (decide (c = "]"%char)); [done|].
    clear -n0. destruct c as [[] [] [] [] [] [] [] []]; try done.
  - destruct kvs as [|[k x] l]; [done|]. cbn in Hn. cbn [json_wf] in Hwf.
    apply andb_true_iff in Hwf as [Hnd%bool_decide_eq_true Hwf].
    rewrite print_obj_cons. cbn [String.append]. rewrite !sapp_assoc.
    rewrite !decide_False, decide_True by done.
    inversion IH as [|? ? Hx Hl]; subst.
    rewrite parse_members_print; [|done|done|done|lia].
    rewrite dict_of_pairs_ok by done. done.
Qed.

Lemma json_fuel_le sp v : json_wf v = true -> json_fuel v <= 2 * String.length (print sp v).
Proof.
  induction v as [ |b|z|t|s|l IH|kvs IH] using json_induction; intros Hwf.
  1-5: destruct (print_head sp _ Hwf) as (c & t' & Ht & _); rewrite Ht; cbn; lia.
  - cbn [json_wf] in Hwf. destruct l as [|x l]; [cbn; lia|].
    rewrite print_list_cons. cbn [json_fuel sum_list_with].
    inversion IH as [|? ? Hx Hl]; subst. cbn in Hwf. apply andb_true_iff in Hwf as [Hwx Hwl].
    specialize (Hx Hwx). rewrite !length_sapp. cbn.
    assert (sum_list_with (fun x => S (json_fuel x)) l + 1 <= 2 * String.length (print_tail sp l)).
    { clear -Hl Hwl. induction Hl as [|y l Hy Hl IH]; cbn; [lia|].
      cbn in Hwl. apply andb_true_iff in Hwl as [Hwy Hwl]. specialize (Hy Hwy).
      specialize (IH Hwl). destruct sp; cbn; repeat (rewrite ?length_sapp; cbn); lia. }
    lia.
  - cbn [json_wf] in Hwf. apply andb_true_iff in Hwf as [_ Hwf].
    destruct kvs as [|[k x] l]; [cbn; lia|].
    rewrite print_obj_cons. cbn [json_fuel sum_list_with].
    inversion IH as [|? ? Hx Hl]; subst. cbn in Hwf. apply andb_true_iff in Hwf as [Hwx Hwl].
    cbn in Hx. specialize (Hx Hwx). rewrite !length_sapp. cbn.
    assert (sum_list_with (fun kv => S (json_fuel kv.2)) l + 1 <= 2 * String.length (print_members sp l)).
    { clear -Hl Hwl. induction Hl as [|[j y] l Hy Hl IH]; cbn; [lia|].
      cbn in Hwl, Hy. apply andb_true_iff in Hwl as [Hwy Hwl]. specialize (Hy Hwy).
      specialize (IH Hwl). destruct sp; cbn; repeat (rewrite ?length_sapp; cbn); lia. }
    lia.
Qed.

(** [json.loads(json.dumps(v)) == v], whatever the separators. *)
Lemma loads_print sp v : json_wf v = true -> loads float_norm (print sp v) = Some v.
Proof.
  intros Hwf. unfold loads. rewrite <- (sapp_nil_r (print sp v)) at 2.
  rewrite parse_print; [by rewrite decide_True|done| |done].
  pose proof (json_fuel_le sp v Hwf). lia.
Qed.
End roundtrip.

(** The text determines the value. *)
Lemma print_inj float_norm sp v w :
  json_wf float_norm v = true -> json_wf float_norm w = true ->
  print sp v = print sp w -> v = w.
Proof.
  intros Hv Hw Heq. apply (loads_print _ sp) in Hv, Hw. congruence.
Qed.

(* ------------------------------------------------------------------ *)
(** ** Printed text is one line of printable ASCII *)

Definition is_printable (c : ascii) : bool := let n := code c in (32 <=? n) && (n <=? 126).

Lemma escape_char_printable c : forall_chars is_printable (escape_char c) = true.
Proof. destruct c as [[] [] [] [] [] [] [] []]; reflexivity. Qed.

Lemma escape_printable s : forall_chars is_printable (escape s) = true.
Proof.
  induction s as [|c s IH]; [done|]. cbn [escape].
  by rewrite forall_chars_app, escape_char_printable, IH.
Qed.

Lemma print_string_printable s : forall_chars is_printable (print_string s) = true.
Proof.
  unfold print_string. cbn [forall_chars]. rewrite forall_chars_app, escape_printable. done.
Qed.

Lemma num_char_printable c : is_num_char c = true -> is_printable c = true.
Proof. destruct c as [[] [] [] [] [] [] [] []]; vm_compute; done. Qed.

Lemma print_int_printable z : forall_chars is_printable (print_int z) = true.
Proof.
  eapply forall_chars_impl; [|apply print_int_chars].
  intros c Hc. by apply num_char_printable, int_char_num.
Qed.

Lemma print_printable float_norm sp v :
  json_wf float_norm v = true -> forall_chars is_printable (print sp v) = true.
Proof.
  induction v as [ |b|z|t|s|l IH|kvs IH] using json_induction; intros Hwf; cbn [json_wf] in Hwf.
  - done.
  - by destruct b.
  - apply print_int_printable.
  - apply andb_true_iff in Hwf as [Hf _]. cbn [print].
    unfold is_float_literal in Hf. apply andb_true_iff in Hf as [[Hf _]%andb_true_iff _].
    eapply forall_chars_impl; [apply num_char_printable|done].
  - apply print_string_printable.
  - destruct l as [|x l]; [done|]. rewrite print_list_cons.
    cbn in Hwf. apply andb_true_iff in Hwf as [Hx Hl]. inversion IH as [|? ? IHx IHl]; subst.
    rewrite !forall_chars_app, IHx by done.
    assert (forall_chars is_printable (print_tail sp l) = true) as ->; [|done].
    clear -IHl Hl. induction IHl as [|y l Hy IHl IH]; [done|].
    cbn in Hl. apply andb_true_iff in Hl as [Hly Hl].
    cbn [print_tail]. rewrite !forall_chars_app, Hy, IH by done. by destruct sp.
  - destruct kvs as [|[k x] l]; [done|]. rewrite print_obj_cons.
    apply andb_true_iff in Hwf as [_ Hwf].
    cbn in Hwf. apply andb_true_iff in Hwf as [Hx Hl]. inversion IH as [|? ? IHx IHl]; subst.
    cbn in IHx. rewrite !forall_chars_app, print_string_printable, IHx by done.
    assert (forall_chars is_printable (print_members sp l) = true) as ->.
    { clear -IHl Hl. induction IHl as [|[j y] l Hy IHl IH]; [done|].
      cbn in Hl, Hy. apply andb_true_iff in Hl as [Hly Hl].
      cbn [print_members]. rewrite !forall_chars_app, print_string_printable, Hy, IH by done.
      by destruct sp. }
    by destruct sp.
Qed.

(* ------------------------------------------------------------------ *)
(** ** Sorting keys *)

Lemma insert_member_permutation kv l : insert_member kv l ≡ₚ kv :: l.
Proof.
  induction l as [|kv' l IH]; cbn; [done|].
  destruct (String.leb _ _); [done|]. rewrite IH. apply Permutation_swap.
Qed.

Lemma sort_members_permutation l : sort_members l ≡ₚ l.
Proof. induction l as [|kv l IH]; cbn; [done|]. by rewrite insert_member_permutation, IH. Qed.

Lemma sort_keys_wf float_norm v : json_wf float_norm v = true -> json_wf float_norm (sort_keys v) = true.
Proof.
  induction v as [ |b|z|t|s|l IH|kvs IH] using json_induction; intros Hwf; try done.
  - cbn [sort_keys json_wf] in *. apply forallb_forall. rewrite forallb_forall in Hwf.
    intros x (y & <- & Hin)%in_map_iff. rewrite Forall_forall in IH.
    apply IH; [by apply list_elem_of_In | by apply Hwf].
  - cbn [sort_keys json_wf] in *. apply andb_true_iff in Hwf as [Hnd%bool_decide_eq_true Hwf].
    set (kvs' := map (fun kv => (kv.1, sort_keys kv.2)) kvs).
    pose proof (sort_members_permutation kvs') as Hp.
    apply andb_true_iff. split.
    + apply bool_decide_eq_true. unfold dict_keys. rewrite Hp.
      unfold kvs'. by rewrite map_map.
    + apply forallb_forall. intros kv Hin. rewrite <- list_elem_of_In in Hin.
      rewrite Hp in Hin. apply list_elem_of_In in Hin.
      apply in_map_iff in Hin as ([k y] & <- & Hin). cbn.
      rewrite Forall_forall in IH. rewrite forallb_forall in Hwf.
      apply (IH (k, y)); [by apply list_elem_of_In | by apply (Hwf (k, y))].
Qed.

(** Looking a key up does not depend on the order of the members. *)
Lemma dict_get_permutation {V} k (l l' : dict string V) :
  dict_ok l -> l ≡ₚ l' -> dict_get k l = dict_get k l'.
Proof.
  intros Hok Hp.
  assert (Hok' : dict_ok l') by (unfold dict_ok, dict_keys in *; by rewrite <- Hp).
  destruct (dict_get k l') as [v|] eqn:Hg.
  - apply dict_In_get; [done|]. rewrite Hp. by apply dict_get_In.
  - rewrite dict_get_None in *. unfold dict_keys in *. by rewrite Hp.
Qed.

(** Values that only differ in the order of keys: Python's [==] on dicts. *)
Definition json_same (v w : json) : Prop := sort_keys v = sort_keys w.

Global Instance json_same_equivalence : Equivalence json_same.
Proof. split; unfold json_same; [done|congruence|congruence]. Qed.
Global Instance json_same_dec v w : Decision (json_same v w).
Proof. unfold json_same. apply _. Defined.
Global Instance dumps_compact_proper : Proper (json_same ==> eq) dumps_compact.
Proof. intros v w Hvw. unfold dumps_compact. by rewrite Hvw. Qed.

Lemma dumps_compact_inj float_norm v w :
  json_wf float_norm v = true -> json_wf float_norm w = true ->
  dumps_compact v = dumps_compact w -> json_same v w.
Proof.
  intros Hv Hw. apply (print_inj float_norm); by apply sort_keys_wf.
Qed.

(** A blank line is no JSON text. *)
Lemma parse_literal_space c s : is_space c = true -> parse_literal (String c s) = None.
Proof. destruct c as [[] [] [] [] [] [] [] []]; vm_compute (is_space _); done. Qed.

Lemma loads_blank float_norm s : forall_chars is_space s = true -> loads float_norm s = None.
Proof.
  intros Hs. unfold loads.
  assert (Hskip : skip_ws s = "" \/ exists c s', skip_ws s = String c s' /\ is_space c = true).
  { clear -Hs. induction s as [|c s IH]; cbn in *; [auto|].
    apply andb_true_iff in Hs as [Hc Hs]. destruct (is_ws c); eauto. }
  cbn [parse_value]. destruct Hskip as [->|(c & s' & -> & Hc)]; [done|].
  rewrite !decide_False by (intros ->; vm_compute in Hc; done).
  assert (is_num_char c = false) as ->.
  { revert Hc. clear. destruct c as [[] [] [] [] [] [] [] []]; vm_compute; done. }
  cbn [andb]. by rewrite parse_literal_space.
Qed.

(** Members of values that differ only in the order of keys. *)
Lemma dict_get_map {A B} (f : A -> B) k (l : dict string A) :
  dict_get k (map (fun kv => (kv.1, f kv.2)) l) = f <$> dict_get k l.
Proof. induction l as [|[j y] l IH]; cbn; [done|]. by case_decide. Qed.

Lemma json_same_get k (p q : jdict) :
  dict_ok p -> dict_ok q -> json_same (JObj p) (JObj q) ->
  sort_keys <$> dict_get k p = sort_keys <$> dict_get k q.
Proof.
  assert (Hsort : forall p : jdict, dict_ok p ->
    dict_get k (sort_members (map (fun kv => (kv.1, sort_keys kv.2)) p)) = sort_keys <$> dict_get k p).
  { intros r Hr. rewrite <- dict_get_map. symmetry. apply dict_get_permutation.
    - unfold dict_ok, dict_keys in *. rewrite map_map. exact Hr.
    - by rewrite sort_members_permutation. }
  intros Hp Hq Hsame. injection Hsame as Hsame. by rewrite <- !Hsort, Hsame.
Qed.
