(* ===== verification/Models.v ===== *)
(** * Shared data models and errors

    [gateway/models.py] (enumerations and records), [gateway/errors.py] (the
    typed exception hierarchy with its client-safe responses) and
    [gateway/policy/decisions.py].  A [datetime] is a [Z] (an instant); the text
    pydantic gives instants and floats in JSON mode is the class [Rendering].
    Fields carry a prefix per record; constructors keep the source's names. *)

From S2P Require Import Prelude Dict Pystr Json.
From Stdlib Require Import QArith.

(** Texts pydantic's JSON serialisation gives to instants and floats. *)
Class Rendering := {
  iso_datetime : Z -> string;
  float_text : Q -> string
}.

(** A [StrEnum]: every member has a text, and the text identifies the member. *)
Class StrEnum (A : Type) := {
  value : A -> string;
  of_value : string -> option A;
  of_value_value a : of_value (value a) = Some a
}.

Lemma value_inj `{StrEnum A} (a b : A) : value a = value b -> a = b.
Proof. intros Heq. assert (Some a = Some b) by (rewrite <- !of_value_value; congruence). congruence. Qed.

(* ------------------------------------------------------------------ *)
(** ** Enumerations *)

Inductive RiskClass := READ_ONLY | MUTATING | DESTRUCTIVE.
Inductive Role := USER | OPERATOR | ADMIN.
Inductive ToolCallState :=
| RECEIVED | VALIDATED | POLICY_CHECKED | AWAITING_APPROVAL | EXECUTING
| SUCCEEDED | FAILED | DENIED.
Inductive RepairFailure :=
| SCHEMA_MISMATCH | MALFORMED_JSON | MISSING_REQUIRED_FIELD | TYPE_COERCION
| TIMEOUT | SANDBOX_CRASH | POLICY_DENIED | TOOL_ERROR.

Global Instance RiskClass_eq_dec : EqDecision RiskClass.
Proof. solve_decision. Defined.
Global Instance Role_eq_dec : EqDecision Role.
Proof. solve_decision. Defined.
Global Instance ToolCallState_eq_dec : EqDecision ToolCallState.
Proof. solve_decision. Defined.
Global Instance RepairFailure_eq_dec : EqDecision RepairFailure.
Proof. solve_decision. Defined.

Definition RiskClass_value (r : RiskClass) : string :=
  match r with
  | READ_ONLY => "read_only"
  | MUTATING => "mutating"
  | DESTRUCTIVE => "destructive"
  end.

Definition Role_value (r : Role) : string :=
  match r with USER => "user" | OPERATOR => "operator" | ADMIN => "admin" end.

Definition ToolCallState_value (s : ToolCallState) : string :=
  match s with
  | RECEIVED => "received"
  | VALIDATED => "validated"
  | POLICY_CHECKED => "policy_checked"
  | AWAITING_APPROVAL => "awaiting_approval"
  | EXECUTING => "executing"
  | SUCCEEDED => "succeeded"
  | FAILED => "failed"
  | DENIED => "denied"
  end.

Definition RepairFailure_value (f : RepairFailure) : string :=
  match f with
  | SCHEMA_MISMATCH => "schema_mismatch"
  | MALFORMED_JSON => "malformed_json"
  | MISSING_REQUIRED_FIELD => "missing_required_field"
  | TYPE_COERCION => "type_coercion"
  | TIMEOUT => "timeout"
  | SANDBOX_CRASH => "sandbox_crash"
  | POLICY_DENIED => "policy_denied"
  | TOOL_ERROR => "tool_error"
  end.

(** The member of an enumeration with a given text. *)
Definition member_of {A} (val : A -> string) (members : list A) (s : string) : option A :=
  List.find (fun a => String.eqb (val a) s) members.

Definition RiskClasses : list RiskClass := [READ_ONLY; MUTATING; DESTRUCTIVE].
Definition Roles : list Role := [USER; OPERATOR; ADMIN].
Definition ToolCallStates : list ToolCallState :=
  [RECEIVED; VALIDATED; POLICY_CHECKED; AWAITING_APPROVAL; EXECUTING; SUCCEEDED; FAILED; DENIED].
Definition RepairFailures : list RepairFailure :=
  [SCHEMA_MISMATCH; MALFORMED_JSON; MISSING_REQUIRED_FIELD; TYPE_COERCION; TIMEOUT;
   SANDBOX_CRASH; POLICY_DENIED; TOOL_ERROR].

#[export, refine] Instance RiskClass_enum : StrEnum RiskClass :=
  {| value := RiskClass_value; of_value := member_of RiskClass_value RiskClasses |}.
Proof. by intros []. Defined.
#[export, refine] Instance Role_enum : StrEnum Role :=
  {| value := Role_value; of_value := member_of Role_value Roles |}.
Proof. by intros []. Defined.
#[export, refine] Instance ToolCallState_enum : StrEnum ToolCallState :=
  {| value := ToolCallState_value; of_value := member_of ToolCallState_value ToolCallStates |}.
Proof. by intros []. Defined.
#[export, refine] Instance RepairFailure_enum : StrEnum RepairFailure :=
  {| value := RepairFailure_value; of_value := member_of RepairFailure_value RepairFailures |}.
Proof. by intros []. Defined.

(* ------------------------------------------------------------------ *)
(** ** Records *)

Record Principal := {
  pr_subject : string;
  pr_tenant_id : string;
  pr_roles : list Role;
  pr_issuer : option string;
  pr_agent_id : option string
}.
Global Instance Principal_eq_dec : EqDecision Principal.
Proof. solve_decision. Defined.

(** The bounds pydantic checks when a [Principal] is built. *)
Definition Principal_valid (p : Principal) : bool :=
  let ok s := (1 <=? String.length s) && (String.length s <=? 256) in
  ok (pr_subject p) && ok (pr_tenant_id p) && (1 <=? length (pr_roles p)).

Definition has_role (p : Principal) (role : Role) : bool :=
  bool_decide (role ∈ pr_roles p).

Record StateTransition := {
  st_state : ToolCallState;
  st_timestamp : Z;
  st_error : option string
}.

Record AttemptRecord := {
  at_attempt : Z;
  at_started_at : Z;
  at_finished_at : option Z;
  at_outcome : option string;
  at_error : option string
}.

Record RepairAttemptRecord := {
  ra_category : RepairFailure;
  ra_original_arguments : jdict;
  ra_proposed_arguments : jdict;
  ra_validation_passed : bool;
  ra_policy_outcome : option string;
  ra_outcome : string
}.

Record ToolCallRecord := {
  tc_call_id : string;
  tc_trace_id : string;
  tc_session_id : string;
  tc_tool_name : string;
  tc_risk_class : option RiskClass;
  tc_arguments : jdict;
  tc_current_state : ToolCallState;
  tc_transitions : list StateTransition;
  tc_attempts : list AttemptRecord;
  tc_created_at : Z;
  tc_updated_at : Z;
  tc_principal : option Principal
}.

Record PolicyDecision := {
  pd_outcome : string;
  pd_matched_rule : string;
  pd_reason : string
}.

Record ApprovalRequest := {
  ap_approval_id : string;
  ap_call_id : string;
  ap_tool_name : string;
  ap_arguments : jdict;
  ap_policy_input : jdict;
  ap_matched_rule : string;
  ap_created_at : Z;
  ap_decision : option string;
  ap_approver : option string;
  ap_reason : option string
}.

Global Instance StateTransition_eq_dec : EqDecision StateTransition.
Proof. solve_decision. Defined.
Global Instance AttemptRecord_eq_dec : EqDecision AttemptRecord.
Proof. solve_decision. Defined.
Global Instance RepairAttemptRecord_eq_dec : EqDecision RepairAttemptRecord.
Proof. solve_decision. Defined.
Global Instance ToolCallRecord_eq_dec : EqDecision ToolCallRecord.
Proof. solve_decision. Defined.
Global Instance PolicyDecision_eq_dec : EqDecision PolicyDecision.
Proof. solve_decision. Defined.
Global Instance ApprovalRequest_eq_dec : EqDecision ApprovalRequest.
Proof. solve_decision. Defined.

Inductive location_item := LocStr (s : string) | LocInt (z : Z).

Record ErrorIssue := {
  ei_location : list location_item;
  ei_error_type : string;
  ei_message : string
}.

Record ErrorDetail := {
  ed_code : string;
  ed_message : string;
  ed_issues : list ErrorIssue
}.

Record ErrorResponse := { er_error : ErrorDetail }.

Global Instance location_item_eq_dec : EqDecision location_item.
Proof. solve_decision. Defined.
Global Instance ErrorIssue_eq_dec : EqDecision ErrorIssue.
Proof. solve_decision. Defined.
Global Instance ErrorDetail_eq_dec : EqDecision ErrorDetail.
Proof. solve_decision. Defined.
Global Instance ErrorResponse_eq_dec : EqDecision ErrorResponse.
Proof. solve_decision. Defined.

(** Policy decision values. *)
Definition ALLOW : string := "allow".
Definition REQUIRES_APPROVAL : string := "requires_approval".
Definition DENY : string := "deny".

Definition allow (rule reason : string) : PolicyDecision :=
  {| pd_outcome := ALLOW; pd_matched_rule := rule; pd_reason := reason |}.
