(* ===== verification/Errors.v ===== *)
(** * The exception hierarchy and client-safe error payloads

    [gateway/errors.py]: every anticipated error carries a stable code and a
    message; [isinstance] follows the class hierarchy.  Exceptions of the Python
    runtime and of the libraries the gateway calls are [EPy]. *)

From S2P Require Import Prelude Dict Pystr Json Models.

(** Classes deriving from [GatewayError]. *)
Inductive error_class :=
| AuthenticationError | AuthorizationError | ToolNotFoundError | ToolInputError
| ToolNotEnabledError | ToolExecutionError | SandboxError | SandboxTimeoutError
| NeedsReviewError | StateStoreUnavailableError | PolicyDeniedError
| PolicyUnavailableError | ApprovalTimeoutError | ApprovalRejectedError.

Global Instance error_class_eq_dec : EqDecision error_class.
Proof. solve_decision. Defined.

(** [isinstance(e, cls)] between those classes. *)
Definition error_isinstance (c cls : error_class) : bool :=
  match c, cls with
  | SandboxTimeoutError, SandboxError => true
  | _, _ => bool_decide (c = cls)
  end.

Record GatewayError := {
  ge_class : error_class;
  ge_response : ErrorResponse
}.
Global Instance GatewayError_eq_dec : EqDecision GatewayError.
Proof. solve_decision. Defined.

Definition gateway_error (cls : error_class) (code message : string)
    (issues : list ErrorIssue) : GatewayError :=
  {| ge_class := cls;
     ge_response := {| er_error := {| ed_code := code; ed_message := message; ed_issues := issues |} |} |}.

(** [error.response.error.code] and [str(error)]. *)
Definition ge_code (e : GatewayError) : string := ed_code (er_error (ge_response e)).
Definition ge_message (e : GatewayError) : string := ed_message (er_error (ge_response e)).

Definition authentication_error (message : string) : GatewayError :=
  gateway_error AuthenticationError "authentication_failed" message [].
Definition authorization_error (message : string) : GatewayError :=
  gateway_error AuthorizationError "authorization_failed" message [].
Definition tool_not_found_error (tool_name : string) : GatewayError :=
  gateway_error ToolNotFoundError "tool_not_found" ("Unknown tool: " +:+ tool_name) [].
Definition tool_input_error (issues : list ErrorIssue) : GatewayError :=
  gateway_error ToolInputError "schema_validation"
    "Tool arguments did not match the required schema" issues.
Definition tool_not_enabled_error (message : string) : GatewayError :=
  gateway_error ToolNotEnabledError "tool_not_enabled" message [].
Definition tool_execution_error (message : string) : GatewayError :=
  gateway_error ToolExecutionError "tool_execution_failed" message [].
Definition sandbox_error (message : string) : GatewayError :=
  gateway_error SandboxError "sandbox_error" message [].
Definition sandbox_timeout_error : GatewayError :=
  gateway_error SandboxTimeoutError "sandbox_error"
    "Sandbox execution exceeded its wall-clock timeout" [].
Definition needs_review_error (message : string) : GatewayError :=
  gateway_error NeedsReviewError "needs_review" message [].
Definition state_store_unavailable_error : GatewayError :=
  gateway_error StateStoreUnavailableError "state_store_unavailable"
    "The gateway could not persist tool-call state" [].
Definition policy_denied_error (reason : string) : GatewayError :=
  gateway_error PolicyDeniedError "policy_denied" reason [].
Definition policy_unavailable_error : GatewayError :=
  gateway_error PolicyUnavailableError "policy_unavailable"
    "Policy evaluation is unavailable" [].
Definition approval_timeout_error : GatewayError :=
  gateway_error ApprovalTimeoutError "approval_timeout"
    "Approval timed out; the call was denied" [].
Definition approval_rejected_error (reason : string) : GatewayError :=
  gateway_error ApprovalRejectedError "approval_rejected" reason [].

(* ------------------------------------------------------------------ *)
(** ** Other exceptions *)

(** Exception classes of the runtime and of the libraries, as the handlers of
    the gateway tell them apart. *)
Inductive py_class :=
| ValueError | PydanticValidationError | JSONDecodeError | TypeError | KeyError
| IndexError | OSError | TimeoutError | FileNotFoundError | RedisError | WatchError
| HTTPError | PyJWTError | DatabaseError | SqliteError | QueueFull | CircuitOpenError
| AuditIntegrityError | OtherException | CancelledError.

Global Instance py_class_eq_dec : EqDecision py_class.
Proof. solve_decision. Defined.

(** [issubclass] between those classes. *)
Definition py_subclass (c cls : py_class) : bool :=
  match c, cls with
  | PydanticValidationError, ValueError => true
  | JSONDecodeError, ValueError => true
  | TimeoutError, OSError => true
  | FileNotFoundError, OSError => true
  | WatchError, RedisError => true
  | _, _ => bool_decide (c = cls)
  end.

Inductive exc :=
| EGateway (e : GatewayError)
| EPy (cls : py_class) (message : string).

Global Instance exc_eq_dec : EqDecision exc.
Proof. solve_decision. Defined.

(** [isinstance(e, Exception)]: cancellation is a [BaseException] only. *)
Definition is_exception (e : exc) : bool :=
  match e with
  | EGateway _ => true
  | EPy cls _ => negb (bool_decide (cls = CancelledError))
  end.

(** [except (c1, c2, ...)] over library classes. *)
Definition catches (classes : list py_class) (e : exc) : bool :=
  match e with
  | EGateway _ => false
  | EPy cls _ => existsb (py_subclass cls) classes
  end.

Definition is_gateway_class (cls : error_class) (e : exc) : bool :=
  match e with
  | EGateway g => error_isinstance (ge_class g) cls
  | EPy _ _ => false
  end.

Definition str_exc (e : exc) : string :=
  match e with EGateway g => ge_message g | EPy _ m => m end.

(* ------------------------------------------------------------------ *)
(** ** [model_dump(mode="json")] of the models sent to a client or hashed *)

Definition opt_json {A} (f : A -> json) (o : option A) : json :=
  match o with Some a => f a | None => JNull end.

Definition dump_location_item (l : location_item) : json :=
  match l with LocStr s => JStr s | LocInt z => JInt z end.

Definition dump_ErrorIssue (i : ErrorIssue) : json :=
  JObj [("location", JList (map dump_location_item (ei_location i)));
        ("error_type", JStr (ei_error_type i));
        ("message", JStr (ei_message i))].

Definition dump_ErrorDetail (d : ErrorDetail) : json :=
  JObj [("code", JStr (ed_code d));
        ("message", JStr (ed_message d));
        ("issues", JList (map dump_ErrorIssue (ed_issues d)))].

Definition dump_ErrorResponse (r : ErrorResponse) : jdict :=
  [("error", dump_ErrorDetail (er_error r))].

Definition dump_Principal (p : Principal) : jdict :=
  [("subject", JStr (pr_subject p));
   ("tenant_id", JStr (pr_tenant_id p));
   ("roles", JList (map (fun r => JStr (value r)) (pr_roles p)));
   ("issuer", opt_json JStr (pr_issuer p));
   ("agent_id", opt_json JStr (pr_agent_id p))].

Section dumps.
Context `{Rendering}.
Definition dump_datetime (t : Z) : json := JStr (iso_datetime t).

Definition dump_AttemptRecord (a : AttemptRecord) : json :=
  JObj [("attempt", JInt (at_attempt a));
        ("started_at", dump_datetime (at_started_at a));
        ("finished_at", opt_json dump_datetime (at_finished_at a));
        ("outcome", opt_json JStr (at_outcome a));
        ("error", opt_json JStr (at_error a))].

Definition dump_RepairAttemptRecord (r : RepairAttemptRecord) : json :=
  JObj [("category", JStr (value (ra_category r)));
        ("original_arguments", JObj (ra_original_arguments r));
        ("proposed_arguments", JObj (ra_proposed_arguments r));
        ("validation_passed", JBool (ra_validation_passed r));
        ("policy_outcome", opt_json JStr (ra_policy_outcome r));
        ("outcome", JStr (ra_outcome r))].
End dumps.

(* ------------------------------------------------------------------ *)
(** ** Facts about error codes *)

(** The codes the gateway reports as a denial of the call
    ([fail] in server.py, [diagnose] in repair/diagnose.py). *)
Definition denial_codes : list string :=
  ["policy_denied"; "policy_unavailable"; "approval_timeout"; "approval_rejected"].
Definition is_denial_code (code : string) : bool :=
  existsb (String.eqb code) denial_codes.

(** Errors built by the constructors above, class by class. *)
Definition well_coded (e : GatewayError) : bool :=
  String.eqb (ge_code e)
    match ge_class e with
    | AuthenticationError => "authentication_failed"
    | AuthorizationError => "authorization_failed"
    | ToolNotFoundError => "tool_not_found"
    | ToolInputError => "schema_validation"
    | ToolNotEnabledError => "tool_not_enabled"
    | ToolExecutionError => "tool_execution_failed"
    | SandboxError | SandboxTimeoutError => "sandbox_error"
    | NeedsReviewError => "needs_review"
    | StateStoreUnavailableError => "state_store_unavailable"
    | PolicyDeniedError => "policy_denied"
    | PolicyUnavailableError => "policy_unavailable"
    | ApprovalTimeoutError => "approval_timeout"
    | ApprovalRejectedError => "approval_rejected"
    end.
