(* ===== verification/Effects.v ===== *)
(** * Programs with effects

    The asynchronous code of the gateway is a sequence of calls to collaborators
    (stores, policy engine, tools, clocks) whose answers the gateway does not
    control.  [prog] is such a program: a call names an operation and continues
    with whatever the collaborator answers, a value or an exception.  [M] adds
    the local variables of a coroutine, which keep their assignments when an
    exception is raised.  [exec] is the trace semantics (every answer possible),
    [run] executes a program against one concrete environment, and [wp] is the
    Hoare logic used to prove properties of all traces: a [monitor] follows the
    calls, says which ones are allowed and what is assumed of their answers. *)

From S2P Require Import Prelude Models Errors.

(** The operations a program may call and the type of their answers. *)
Record signature := { op : Type; ans : op -> Type }.

Inductive prog (E : signature) (A : Type) : Type :=
| Ret (a : A)
| Call (o : op E) (k : result exc (ans E o) -> prog E A)
| OutOfFuel.
Arguments Ret {E A} a.
Arguments Call {E A} o k.
Arguments OutOfFuel {E A}.

Fixpoint pbind {E A B} (p : prog E A) (f : A -> prog E B) : prog E B :=
  match p with
  | Ret a => f a
  | Call o k => Call o (fun r => pbind (k r) f)
  | OutOfFuel => OutOfFuel
  end.

(* ------------------------------------------------------------------ *)
(** ** Coroutines: exceptions and local variables *)

Definition M (E : signature) (S A : Type) : Type := S -> prog E (result exc A * S).

Section coroutine.
Context {E : signature} {S : Type}.

#[global] Instance M_ret : MRet (M E S) := fun _ a s => Ret (Ok a, s).

#[global] Instance M_bind : MBind (M E S) := fun A B f m s =>
  pbind (m s) (fun rs =>
    match rs.1 with Ok a => f a rs.2 | Err e => Ret (Err e, rs.2) end).

Definition raise {A} (e : exc) : M E S A := fun s => Ret (Err e, s).

(** [try: m except: h e] (the handler raises again what it does not handle). *)
Definition try_with {A} (m : M E S A) (h : exc -> M E S A) : M E S A := fun s =>
  pbind (m s) (fun rs =>
    match rs.1 with Ok a => Ret (Ok a, rs.2) | Err e => h e rs.2 end).

(** [try: m finally: f]: an exception of [f] replaces the outcome of [m]. *)
Definition finally {A} (m : M E S A) (f : M E S unit) : M E S A := fun s =>
  pbind (m s) (fun rs => pbind (f rs.2) (fun rs' =>
    match rs'.1 with Ok _ => Ret (rs.1, rs'.2) | Err e => Ret (Err e, rs'.2) end)).

Definition call (o : op E) : M E S (ans E o) := fun s => Call o (fun r => Ret (r, s)).

Definition get : M E S S := fun s => Ret (Ok s, s).
Definition modify (f : S -> S) : M E S unit := fun s => Ret (Ok tt, f s).

Definition lift_result {A} (r : result exc A) : M E S A := fun s => Ret (r, s).

Lemma bind_lift {A B} (r : result exc A) (f : A -> M E S B) s :
  (lift_result r ≫= f) s = match r with Ok a => f a s | Err e => Ret (Err e, s) end.
Proof. by destruct r. Qed.

(** The fuel of a loop ran out: no outcome of the program. *)
Definition out_of_fuel {A} : M E S A := fun _ => OutOfFuel.
End coroutine.

(* ------------------------------------------------------------------ *)
(** ** Trace semantics and execution *)

Definition event (E : signature) : Type := { o : op E & result exc (ans E o) }.
Definition Event {E : signature} (o : op E) (r : result exc (ans E o)) : event E := existT o r.

Inductive exec {E A} : prog E A -> list (event E) -> A -> Prop :=
| exec_ret a : exec (Ret a) [] a
| exec_call o k r tr a : exec (k r) tr a -> exec (Call o k) (Event o r :: tr) a.

Lemma exec_inv {E A} (p : prog E A) tr a :
  exec p tr a ->
  match p with
  | Ret b => tr = [] /\ a = b
  | Call o k => exists r tr', tr = Event o r :: tr' /\ exec (k r) tr' a
  | OutOfFuel => False
  end.
Proof. destruct 1; eauto. Qed.

(** A concrete environment: every operation answers from a state. *)
Definition handler (E : signature) (W : Type) : Type :=
  forall o : op E, W -> result exc (ans E o) * W.

Fixpoint run {E A W} (h : handler E W) (p : prog E A) (w : W) : option (A * W * list (event E)) :=
  match p with
  | Ret a => Some (a, w, [])
  | Call o k =>
      let '(r, w') := h o w in
      match run h (k r) w' with
      | Some (a, w'', tr) => Some (a, w'', Event o r :: tr)
      | None => None
      end
  | OutOfFuel => None
  end.

Lemma run_exec {E A W} (h : handler E W) (p : prog E A) w a w' tr :
  run h p w = Some (a, w', tr) -> exec p tr a.
Proof.
  revert w a w' tr. induction p as [a0|o k IH|]; intros w a w' tr; cbn.
  - intros [= <- _ <-]. constructor.
  - destruct (h o w) as [r w1]. destruct (run h (k r) w1) as [[[a1 w2] tr1]|] eqn:Hr; [|done].
    intros [= <- _ <-]. constructor. by eapply IH.
  - done.
Qed.

(** A check of the outcome and the trace of one execution. *)
Lemma run_check {E A W} (h : handler E W) (p : prog E A) w (f : A -> list (event E) -> bool) :
  match run h p w with Some (a, _, tr) => f a tr | None => false end = true ->
  exists tr a, exec p tr a /\ f a tr = true.
Proof.
  destruct (run h p w) as [[[a w'] tr]|] eqn:Hr; [|done]. intros Hf.
  exists tr, a. split; [by eapply run_exec|done].
Qed.

Lemma run_pbind {E A B W} (h : handler E W) (p : prog E A) (f : A -> prog E B) w a w1 tr1 b w2 tr2 :
  run h p w = Some (a, w1, tr1) -> run h (f a) w1 = Some (b, w2, tr2) ->
  run h (pbind p f) w = Some (b, w2, tr1 ++ tr2).
Proof.
  revert w a w1 tr1. induction p as [a0|o k IH|]; intros w a w1 tr1; cbn.
  - intros [= -> -> <-]. by cbn.
  - destruct (h o w) as [r w']. destruct (run h (k r) w') as [[[a1 w2'] tr]|] eqn:Hr; [|done].
    intros [= -> -> <-] Hf. by rewrite (IH r _ _ _ _ Hr Hf).
  - done.
Qed.

(** The outcome of a coroutine in a concrete environment. *)
Definition runs {E S A W} (h : handler E W) (x : M E S A) (s : S) (w : W) (r : result exc A) (s' : S) (w' : W) :
    Prop := exists tr, run h (x s) w = Some ((r, s'), w', tr).

Section runs.
Context {E : signature} {S W : Type} (h : handler E W).

Lemma runs_ret {A} (a : A) s w : runs h (mret a : M E S A) s w (Ok a) s w.
Proof. by exists []. Qed.
Lemma runs_lift {A} (r : result exc A) (s : S) w : runs h (lift_result r) s w r s w.
Proof. by exists []. Qed.
Lemma runs_call (o : op E) (s : S) w r w' : h o w = (r, w') -> runs h (call o) s w r s w'.
Proof. intros Ho. unfold runs. cbn. rewrite Ho. eauto. Qed.
Lemma runs_eq {A} (x : M E S A) s w r r' s' w' : runs h x s w r s' w' -> r = r' -> runs h x s w r' s' w'.
Proof. by intros Hx <-. Qed.
Lemma runs_bind {A B} (x : M E S A) (f : A -> M E S B) s w a s1 w1 r s2 w2 :
  runs h x s w (Ok a) s1 w1 -> runs h (f a) s1 w1 r s2 w2 -> runs h (x ≫= f) s w r s2 w2.
Proof.
  intros [tr1 H1] [tr2 H2]. exists (tr1 ++ tr2). eapply run_pbind; [exact H1|exact H2].
Qed.
Lemma runs_bind_err {A B} (x : M E S A) (f : A -> M E S B) s w e s1 w1 :
  runs h x s w (Err e) s1 w1 -> runs h (x ≫= f) s w (Err e) s1 w1.
Proof.
  intros [tr1 H1]. exists (tr1 ++ []). eapply run_pbind; [exact H1|reflexivity].
Qed.
Lemma runs_try_ok {A} (x : M E S A) (g : exc -> M E S A) s w a s1 w1 :
  runs h x s w (Ok a) s1 w1 -> runs h (try_with x g) s w (Ok a) s1 w1.
Proof.
  intros [tr1 H1]. exists (tr1 ++ []). eapply run_pbind; [exact H1|reflexivity].
Qed.
End runs.

(* ------------------------------------------------------------------ *)
(** ** Monitors and weakest preconditions *)

Record monitor (E : signature) := {
  mstate : Type;
  allowed : mstate -> op E -> Prop;
  assumed : mstate -> forall o : op E, result exc (ans E o) -> Prop;
  mnext : mstate -> forall o : op E, result exc (ans E o) -> mstate
}.
Arguments mstate {E}. Arguments allowed {E}. Arguments assumed {E}. Arguments mnext {E}.

Section wp.
Context {E : signature} (N : monitor E).

Fixpoint wp {A} (p : prog E A) (m : mstate N) (Q : A -> mstate N -> Prop) : Prop :=
  match p with
  | Ret a => Q a m
  | Call o k => allowed N m o /\ forall r, assumed N m o r -> wp (k r) (mnext N m o r) Q
  | OutOfFuel => False
  end.

(** The monitor along a trace. *)
Fixpoint mon_after (m : mstate N) (tr : list (event E)) : mstate N :=
  match tr with
  | [] => m
  | ev :: tr' => mon_after (mnext N m (projT1 ev) (projT2 ev)) tr'
  end.
Fixpoint answers_ok (m : mstate N) (tr : list (event E)) : Prop :=
  match tr with
  | [] => True
  | ev :: tr' =>
      assumed N m (projT1 ev) (projT2 ev) /\
      answers_ok (mnext N m (projT1 ev) (projT2 ev)) tr'
  end.

Lemma wp_mono {A} (p : prog E A) m (Q Q' : A -> mstate N -> Prop) :
  (forall a m, Q a m -> Q' a m) -> wp p m Q -> wp p m Q'.
Proof.
  intros HQ. revert m. induction p as [a|o k IH|]; intros m; cbn; [auto| |done].
  intros [Ha Hk]. split; [done|]. eauto.
Qed.

Lemma wp_pbind {A B} (p : prog E A) (f : A -> prog E B) m Q :
  wp (pbind p f) m Q <-> wp p m (fun a m' => wp (f a) m' Q).
Proof.
  revert m. induction p as [a|o k IH|]; intros m; cbn; [done| |done].
  split; intros [Ha Hk]; (split; [done|]); intros r Hr; by apply IH, Hk.
Qed.

(** What [wp] proves holds of every trace whose answers are as assumed: every
    call made along it was allowed, and the outcome satisfies the postcondition. *)
Lemma wp_exec {A} (p : prog E A) m Q tr a :
  wp p m Q -> exec p tr a -> answers_ok m tr -> Q a (mon_after m tr).
Proof.
  intros Hwp Hex. revert m Hwp. induction Hex as [a|o k r tr a Hex IH]; intros m Hwp; cbn.
  - done.
  - intros [Hr Htr]. destruct Hwp as [_ Hk]. eauto.
Qed.

Lemma exec_calls_allowed {A} (p : prog E A) m Q tr a :
  wp p m Q -> exec p tr a -> answers_ok m tr ->
  forall tr1 ev tr2, tr = tr1 ++ ev :: tr2 -> allowed N (mon_after m tr1) (projT1 ev).
Proof.
  intros Hwp Hex. revert m Hwp.
  induction Hex as [a|o k r tr a Hex IH]; intros m Hwp Hok tr1 ev tr2 Htr.
  - by destruct tr1.
  - destruct Hwp as [Ha Hk], Hok as [Hr Hok].
    destruct tr1 as [|ev1 tr1]; injection Htr as <- ->; cbn; [done|].
    by eapply IH; [eapply Hk| |].
Qed.
End wp.

(** Weakest precondition of a coroutine, from the values of its variables. *)
Definition wpM {E S A} (N : monitor E) (x : M E S A) (s : S) (m : mstate N)
    (Q : result exc A -> S -> mstate N -> Prop) : Prop :=
  wp N (x s) m (fun rs m' => Q rs.1 rs.2 m').

Section wpM.
Context {E : signature} {S : Type} (N : monitor E).
Implicit Types (s : S) (m : mstate N).

Lemma wpM_mono {A} (x : M E S A) s m (Q Q' : result exc A -> S -> mstate N -> Prop) :
  wpM N x s m Q -> (forall r s m, Q r s m -> Q' r s m) -> wpM N x s m Q'.
Proof. intros Hx HQ. eapply wp_mono; [|exact Hx]. eauto. Qed.

Lemma wpM_ret {A} (a : A) s m Q : Q (Ok a) s m -> wpM N (mret a : M E S A) s m Q.
Proof. done. Qed.

Lemma wpM_raise {A} e s m (Q : result exc A -> S -> mstate N -> Prop) :
  Q (Err e) s m -> wpM N (raise e) s m Q.
Proof. done. Qed.

Lemma wpM_lift {A} (r : result exc A) s m Q : Q r s m -> wpM N (lift_result r) s m Q.
Proof. done. Qed.

Lemma wpM_get s m Q : Q (Ok s) s m -> wpM N get s m Q.
Proof. done. Qed.

Lemma wpM_modify f s m Q : Q (Ok tt) (f s) m -> wpM N (modify f) s m Q.
Proof. done. Qed.

Lemma wpM_bind {A B} (x : M E S A) (f : A -> M E S B) s m Q :
  wpM N x s m (fun r s' m' =>
    match r with Ok a => wpM N (f a) s' m' Q | Err e => Q (Err e) s' m' end) ->
  wpM N (x ≫= f) s m Q.
Proof.
  intros Hx. apply wp_pbind. eapply wp_mono; [|exact Hx].
  intros [[a|e] s'] m'; cbn; auto.
Qed.

Lemma wpM_try {A} (x : M E S A) (h : exc -> M E S A) s m Q :
  wpM N x s m (fun r s' m' =>
    match r with Ok a => Q (Ok a) s' m' | Err e => wpM N (h e) s' m' Q end) ->
  wpM N (try_with x h) s m Q.
Proof.
  intros Hx. apply wp_pbind. eapply wp_mono; [|exact Hx].
  intros [[a|e] s'] m'; cbn; auto.
Qed.

Lemma wpM_finally {A} (x : M E S A) (f : M E S unit) s m Q :
  wpM N x s m (fun r s' m' => wpM N f s' m' (fun r' s'' m'' =>
    match r' with Ok _ => Q r s'' m'' | Err e => Q (Err e) s'' m'' end)) ->
  wpM N (finally x f) s m Q.
Proof.
  intros Hx. apply wp_pbind. eapply wp_mono; [|exact Hx].
  intros [r s'] m' Hf. apply wp_pbind. eapply wp_mono; [|exact Hf].
  intros [[a|e] s''] m''; cbn; auto.
Qed.

Lemma wpM_call (o : op E) s m Q :
  allowed N m o ->
  (forall r, assumed N m o r -> Q r s (mnext N m o r)) ->
  wpM N (call o) s m Q.
Proof. done. Qed.
End wpM.

(** One step of symbolic execution of a coroutine. *)
Ltac wp_step :=
  lazymatch goal with
  | |- wpM _ (mbind _ _) _ _ _ => apply wpM_bind
  | |- wpM _ (mret _) _ _ _ => apply wpM_ret
  | |- wpM _ (raise _) _ _ _ => apply wpM_raise
  | |- wpM _ (lift_result _) _ _ _ => apply wpM_lift
  | |- wpM _ get _ _ _ => apply wpM_get
  | |- wpM _ (modify _) _ _ _ => apply wpM_modify
  | |- wpM _ (try_with _ _) _ _ _ => apply wpM_try
  | |- wpM _ (finally _ _) _ _ _ => apply wpM_finally
  end.

(** A call: it must be allowed, and the rest must hold for every assumed answer. *)
Ltac wp_call :=
  lazymatch goal with
  | |- wpM ?N (call ?o) ?s ?m ?Q => refine (@wpM_call _ _ N o s m Q _ _)
  end.

(** Run a program call by call, for every answer. *)
Ltac run_calls :=
  repeat first
    [ wp_step
    | wp_call; [exact I|intros [?|?] _]
    | match goal with
      | |- wpM _ (if ?b then _ else _) _ _ _ => destruct b eqn:?
      | |- wpM _ (match ?x with _ => _ end) _ _ _ => destruct x eqn:?
      | |- match ?x with _ => _ end => destruct x eqn:?
      end
    | progress cbn beta iota zeta ].

(* ------------------------------------------------------------------ *)
(** ** Totality *)

(** The monitor that allows every call and assumes nothing. *)
Definition free_monitor (E : signature) : monitor E :=
  {| mstate := unit; allowed _ _ := True; assumed _ _ _ := True; mnext _ _ _ := tt |}.

(** Whatever the answers, the program produces an outcome. *)
Definition total {E A} (p : prog E A) : Prop := wp (free_monitor E) p tt (fun _ _ => True).

Lemma wp_total {E A} (N : monitor E) (p : prog E A) m Q :
  (forall m o r, assumed N m o r) -> wp N p m Q -> total p.
Proof.
  intros Hall. unfold total. revert m. induction p as [a|o k IH|]; intros m; cbn; [done| |done].
  intros [_ Hk]. split; [done|]. intros [a|e] _; eapply IH, Hk, Hall.
Qed.

Lemma total_run {E A W} (p : prog E A) (h : handler E W) w : total p -> is_Some (run h p w).
Proof.
  unfold total. revert w. induction p as [a|o k IH|]; intros w; cbn; [eauto| |done].
  intros [_ Hk]. destruct (h o w) as [r w'].
  destruct (IH r w' (Hk r I)) as [[[a w''] tr] ->]. eauto.
Qed.

(* ------------------------------------------------------------------ *)
(** ** Reasoning about whole traces *)

(** The monitor that remembers every event. *)
Definition history (E : signature) : monitor E :=
  {| mstate := list (event E); allowed _ _ := True; assumed _ _ _ := True;
     mnext tr o r := tr ++ [Event o r] |}.

Lemma history_after {E} tr0 (tr : list (event E)) : mon_after (history E) tr0 tr = tr0 ++ tr.
Proof.
  revert tr0. induction tr as [|[o r] tr IH]; intros tr0; cbn; [by rewrite app_nil_r|].
  rewrite IH. unfold Event. by rewrite <- app_assoc.
Qed.

Lemma history_exec {E A} (p : prog E A) (Q : A -> list (event E) -> Prop) tr a :
  wp (history E) p [] Q -> exec p tr a -> Q a tr.
Proof.
  intros Hwp Hex. pose proof (wp_exec (history E) p [] Q tr a Hwp Hex) as HQ.
  rewrite history_after in HQ. apply HQ.
  clear. generalize (@nil (event E)). induction tr; cbn; auto.
Qed.

(* ------------------------------------------------------------------ *)
(** ** Extensional equality of programs *)

(** Programs are compared call by call: continuations only need to agree on
    every answer. *)
Fixpoint prog_eq {E A} (p q : prog E A) : Prop :=
  match p with
  | Ret a => q = Ret a
  | Call o k => exists k', q = Call o k' /\ forall r, prog_eq (k r) (k' r)
  | OutOfFuel => q = OutOfFuel
  end.

Global Instance prog_eq_equivalence {E A} : Equivalence (@prog_eq E A).
Proof.
  split.
  - intros p. induction p; cbn; eauto.
  - intros p. induction p as [a|o k IH|]; intros q; cbn; [by intros ->| |by intros ->].
    intros (k' & -> & Hk). cbn. eauto.
  - intros p. induction p as [a|o k IH|]; intros q r; cbn; [by intros ->| |by intros ->].
    intros (k' & -> & Hk) (k'' & -> & Hk'). eauto 6.
Qed.

Global Instance pbind_proper {E A B} :
  Proper (prog_eq ==> pointwise_relation _ prog_eq ==> prog_eq) (@pbind E A B).
Proof.
  intros p. induction p as [a|o k IH|]; intros q H f g Hfg; cbn in H.
  - subst. apply Hfg.
  - destruct H as (k' & -> & Hk). cbn. eexists. split; [done|]. intros r. by apply IH.
  - by subst.
Qed.

Lemma pbind_ret_r {E A} (p : prog E A) : prog_eq (pbind p Ret) p.
Proof. induction p; cbn; eauto. Qed.

Lemma pbind_assoc {E A B C} (p : prog E A) (f : A -> prog E B) (g : B -> prog E C) :
  prog_eq (pbind (pbind p f) g) (pbind p (fun a => pbind (f a) g)).
Proof. induction p; cbn; [reflexivity| |done]. eauto. Qed.

Global Instance wp_proper {E A} (N : monitor E) (m : mstate N) (Q : A -> mstate N -> Prop) :
  Proper (prog_eq ==> iff) (fun p => wp N p m Q).
Proof.
  intros p. revert m. induction p as [a|o k IH|]; intros m q; cbn; [by intros ->| |by intros ->].
  intros (k' & -> & Hk). cbn.
  split; intros [Ha Hr]; (split; [done|]); intros r Hrr; by apply (IH r _ _ (Hk r)), Hr.
Qed.

(* ------------------------------------------------------------------ *)
(** ** Clients of a shared server

    [respond w c o r w']: the server in state [w] may answer [r] to the operation
    [o] of client [c] and move to [w'].  [client_run] is one client alone;
    [pool_step] interleaves the calls of several clients. *)

Section clients.
Context {E : signature} {W A : Type}.
Context (respond : W -> nat -> forall o : op E, result exc (ans E o) -> W -> Prop).

Fixpoint client_run (c : nat) (p : prog E A) (w : W) (a : A) (w'' : W) : Prop :=
  match p with
  | Ret a' => a = a' /\ w'' = w
  | Call o k => exists r w', respond w c o r w' /\ client_run c (k r) w' a w''
  | OutOfFuel => False
  end.

(** The next call of a program, answered. *)
Definition call_step (c : nat) (p : prog E A) (w : W) (p' : prog E A) (w' : W) : Prop :=
  match p with
  | Call o k => exists r, respond w c o r w' /\ p' = k r
  | _ => False
  end.

Lemma client_run_step c p w a w'' :
  client_run c p w a w'' ->
  (p = Ret a /\ w'' = w) \/ exists p' w', call_step c p w p' w' /\ client_run c p' w' a w''.
Proof.
  destruct p as [a'|o k|]; cbn; [by intros [-> ->]; left| |done].
  intros (r & w' & Hr & Hk). right. eauto 6.
Qed.

Inductive pool_step : list (prog E A) * W -> list (prog E A) * W -> Prop :=
| pool_call ts w c p p' w' :
    ts !! c = Some p -> call_step c p w p' w' ->
    pool_step (ts, w) (<[c := p']> ts, w').

(** An invariant of the server and of every client, kept by each call; [G] is
    ghost state that records what the calls did. *)
Lemma pool_invariant {G} (Inv : G -> W -> Prop) (T : G -> nat -> prog E A -> W -> Prop) g ts w ts' w' :
  (forall g c p w p' w', Inv g w -> T g c p w -> call_step c p w p' w' ->
     exists g', Inv g' w' /\ T g' c p' w' /\ forall c' q, c' <> c -> T g c' q w -> T g' c' q w') ->
  rtc pool_step (ts, w) (ts', w') ->
  Inv g w -> (forall c p, ts !! c = Some p -> T g c p w) ->
  exists g', Inv g' w' /\ (forall c p, ts' !! c = Some p -> T g' c p w').
Proof.
  intros Hstep Hrtc. remember (ts, w) as x eqn:Hx. remember (ts', w') as y eqn:Hy.
  revert g ts w Hx. induction Hrtc as [x|x y' y Hs Hrtc IH]; intros g ts w ->.
  - injection Hy as -> ->. eauto.
  - intros Hinv Hts. inversion Hs as [ts0 w0 c p p' w1 Hc Hcall]; subst.
    destruct (Hstep g c p w p' w1 Hinv (Hts c p Hc) Hcall) as (g1 & Hinv1 & Hp' & Hothers).
    apply (IH eq_refl g1 (<[c := p']> ts) w1 eq_refl Hinv1).
    intros c' q Hq. destruct (decide (c' = c)) as [->|Hne].
    + rewrite list_lookup_insert_eq in Hq by (by eapply lookup_lt_Some).
      by injection Hq as <-.
    + rewrite list_lookup_insert_ne in Hq by done. apply Hothers; eauto.
Qed.

Lemma pool_step_length ts w ts' w' :
  rtc pool_step (ts, w) (ts', w') -> length ts' = length ts.
Proof.
  intros Hrtc. remember (ts, w) as x eqn:Hx. remember (ts', w') as y eqn:Hy.
  revert ts w Hx. induction Hrtc as [x|x y' y Hs Hrtc IH]; intros ts w ->; [congruence|].
  inversion Hs; subst. rewrite (IH eq_refl _ _ eq_refl). apply length_insert.
Qed.
End clients.

Lemma client_run_pbind {E : signature} {W A B} respond c (p : prog E A) (f : A -> prog E B) (w : W) b w' :
  client_run respond c (pbind p f) w b w' <->
  exists a w1, client_run respond c p w a w1 /\ client_run respond c (f a) w1 b w'.
Proof.
  revert w. induction p as [a0|o k IH|]; intros w; cbn.
  - split; [eauto|]. by intros (a & w1 & [-> ->] & Hf).
  - split.
    + intros (r & w1 & Hr & (a & w2 & Hk & Hf)%IH). eauto 8.
    + intros (a & w2 & (r & w1 & Hr & Hk) & Hf). exists r, w1. split; [done|]. apply IH. eauto.
  - split; [done|]. by intros (a & w1 & [] & _).
Qed.

(** What [wp] proves holds of a client alone with a server whose answers are as
    assumed; [R] relates the monitor and the server. *)
Lemma wp_client_run {E : signature} {W A} (respond : W -> nat -> forall o : op E, result exc (ans E o) -> W -> Prop)
    (N : monitor E) (R : mstate N -> W -> Prop) c (p : prog E A) m Q w a w'' :
  (forall m w o r w', R m w -> allowed N m o -> respond w c o r w' -> assumed N m o r /\ R (mnext N m o r) w') ->
  wp N p m Q -> R m w -> client_run respond c p w a w'' -> exists m', R m' w'' /\ Q a m'.
Proof.
  intros Hresp. revert m w. induction p as [a0|o k IH|]; intros m w; cbn; [|intros [Hal Hk] HR (r & w' & Hr & Hrun)|done].
  - intros HQ HR [-> ->]. eauto.
  - destruct (Hresp m w o r w' HR Hal Hr) as [Has HR']. eauto.
Qed.

Lemma client_run_mono {E : signature} {W A}
    (respond respond' : W -> nat -> forall o : op E, result exc (ans E o) -> W -> Prop) c (p : prog E A) w a w'' :
  (forall w o r w', respond w c o r w' -> respond' w c o r w') ->
  client_run respond c p w a w'' -> client_run respond' c p w a w''.
Proof.
  intros Hincl. revert w. induction p as [a0|o k IH|]; intros w; cbn; [done| |done].
  intros (r & w' & Hr & Hk). exists r, w'. auto.
Qed.

(** Deterministic servers: one client, and clients driven by a schedule. *)
Section deterministic.
Context {E : signature} {W A : Type}.
Context (step : W -> nat -> forall o : op E, result exc (ans E o) * W).

Definition answers (w : W) (c : nat) (o : op E) (r : result exc (ans E o)) (w' : W) : Prop :=
  step w c o = (r, w').

Lemma run_client_run c (p : prog E A) w a w' tr :
  run (fun o w => step w c o) p w = Some (a, w', tr) -> client_run answers c p w a w'.
Proof.
  revert w a w' tr. induction p as [a0|o k IH|]; intros w a w' tr; cbn.
  - by intros [= -> -> _].
  - destruct (step w c o) as [r w1] eqn:Hs.
    destruct (run _ (k r) w1) as [[[a1 w2] tr1]|] eqn:Hr; [|done].
    intros [= <- <- _]. exists r, w1. split; [done|]. by eapply IH.
  - done.
Qed.

(** The clients named by the schedule make one call each, in turn. *)
Fixpoint run_schedule (schedule : list nat) (x : list (prog E A) * W) : list (prog E A) * W :=
  match schedule with
  | [] => x
  | c :: schedule' =>
      match x.1 !! c with
      | Some (Call o k) =>
          let '(r, w') := step x.2 c o in run_schedule schedule' (<[c := k r]> x.1, w')
      | _ => run_schedule schedule' x
      end
  end.

Lemma run_schedule_steps schedule x : rtc (pool_step answers) x (run_schedule schedule x).
Proof.
  revert x. induction schedule as [|c schedule IH]; intros [ts w]; cbn; [done|].
  destruct (ts !! c) as [[a|o k|]|] eqn:Hc; [apply IH| |apply IH..].
  destruct (step w c o) as [r w'] eqn:Hs.
  eapply rtc_l; [|apply IH]. eapply pool_call; [exact Hc|]. exists r. done.
Qed.
End deterministic.
