(* ===== verification/Registry.v ===== *)
(** * Tool registry

    [gateway/registry.py]: tool declarations, registration, schema export,
    validation and dispatch.  A pydantic model class is its validator and its
    schema (pydantic is not part of the repository); a model instance is the
    mapping of its validated fields.  [H] is the type of handlers, and running
    one is an effect of the caller. *)

From S2P Require Import Prelude Dict Pystr Json Models Errors Effects.

(** An instance of a pydantic model, by its fields. *)
Record BaseModel := { fields : jdict }.

(** [request.model_dump(mode="json")] *)
Definition model_dump (m : BaseModel) : jdict := fields m.

Record ModelClass := {
  model_validate : json -> result (list ErrorIssue) BaseModel;
  model_json_schema : jdict
}.

Record ToolDefinition (H : Type) := {
  td_name : string;
  td_description : string;
  td_risk_class : RiskClass;
  td_input_model : ModelClass;
  td_output_model : ModelClass;
  td_handler : H;
  td_idempotent : bool
}.
Arguments td_name {H}. Arguments td_description {H}. Arguments td_risk_class {H}.
Arguments td_input_model {H}. Arguments td_output_model {H}. Arguments td_handler {H}.
Arguments td_idempotent {H}.

Section registry.
Context {H : Type}.
Implicit Types (d : ToolDefinition H).

Definition input_schema d : jdict := model_json_schema (td_input_model d).
Definition output_schema d : jdict := model_json_schema (td_output_model d).

(** [ToolDefinition.validate] *)
Definition td_validate d (arguments : jdict) : result exc BaseModel :=
  match model_validate (td_input_model d) (JObj arguments) with
  | Ok request => Ok request
  | Err issues => Err (EGateway (tool_input_error issues))
  end.

(** [ToolRegistry._definitions], in registration order. *)
Record ToolRegistry := { definitions : dict string (ToolDefinition H) }.

Definition empty_registry : ToolRegistry := {| definitions := [] |}.

Definition register d (r : ToolRegistry) : result exc ToolRegistry :=
  if dict_mem (td_name d) (definitions r)
  then Err (EPy ValueError ("Tool already registered: " +:+ td_name d))
  else Ok {| definitions := dict_set (td_name d) d (definitions r) |}.

Definition list_tools (r : ToolRegistry) : list (ToolDefinition H) :=
  dict_values (definitions r).

Definition registry_get (r : ToolRegistry) (name : string) : result exc (ToolDefinition H) :=
  ok_or (dict_get name (definitions r)) (EGateway (tool_not_found_error name)).

Definition registry_validate (r : ToolRegistry) (name : string) (arguments : jdict) :
    result exc BaseModel :=
  result_bind (registry_get r name) (fun d => td_validate d arguments).

Section dispatch.
Context {E : signature} {S : Type} (run_handler : H -> BaseModel -> M E S json).

(** The instance built from a handler's result. *)
Definition validate_output d (output : json) : result exc BaseModel :=
  match model_validate (td_output_model d) output with
  | Ok m => Ok m
  | Err _ => Err (EPy PydanticValidationError "validation error")
  end.

Definition td_execute_validated d (request : BaseModel) : M E S BaseModel :=
  result ← run_handler (td_handler d) request;
  lift_result (validate_output d result).

Definition td_execute d (arguments : jdict) : M E S BaseModel :=
  request ← lift_result (td_validate d arguments);
  td_execute_validated d request.

Definition registry_execute_validated (r : ToolRegistry) (name : string)
    (request : BaseModel) : M E S BaseModel :=
  d ← lift_result (registry_get r name);
  td_execute_validated d request.

Definition registry_execute (r : ToolRegistry) (name : string) (arguments : jdict) :
    M E S BaseModel :=
  d ← lift_result (registry_get r name);
  td_execute d arguments.
End dispatch.

(** Every registered definition is stored under its own name, once. *)
Definition registry_ok (r : ToolRegistry) : Prop :=
  dict_ok (definitions r) /\
  forall name d, (name, d) ∈ definitions r -> td_name d = name.

(** Build a registry from declarations, as [create_registry] does. *)
Definition register_all (ds : list (ToolDefinition H)) (r : ToolRegistry) :
    result exc ToolRegistry :=
  fold_left (fun acc d => result_bind acc (register d)) ds (Ok r).

Lemma empty_registry_ok : registry_ok empty_registry.
Proof. split; [constructor|]. intros ? ? Hin. by apply elem_of_nil in Hin. Qed.

Lemma register_fresh d r :
  dict_get (td_name d) (definitions r) = None ->
  register d r = Ok {| definitions := definitions r ++ [(td_name d, d)] |}.
Proof.
  intros Hn. unfold register, dict_mem. rewrite Hn. by rewrite dict_set_fresh.
Qed.

Lemma register_ok d r r' : registry_ok r -> register d r = Ok r' -> registry_ok r'.
Proof.
  intros [Hok Hnames]. unfold register, dict_mem.
  destruct (dict_get _ _) eqn:Hg; [done|]. intros [= <-]. split; cbn.
  - by apply dict_set_ok.
  - rewrite dict_set_fresh by done. intros name d' [Hin|Hin]%elem_of_app; [auto|].
    apply list_elem_of_singleton in Hin. by injection Hin as -> ->.
Qed.

Lemma registry_get_set_eq d (r : ToolRegistry) :
  registry_get {| definitions := dict_set (td_name d) d (definitions r) |} (td_name d) = Ok d.
Proof. unfold registry_get. cbn. by rewrite dict_get_set_eq. Qed.

Lemma register_all_err ds e :
  fold_left (fun acc d => result_bind acc (register d)) ds (Err e) = Err e.
Proof. induction ds; done. Qed.

Lemma register_all_spec ds r :
  registry_ok r ->
  (NoDup (dict_keys (definitions r) ++ map td_name ds) ->
   register_all ds r = Ok {| definitions := definitions r ++ map (fun d => (td_name d, d)) ds |})
  /\ (~ NoDup (dict_keys (definitions r) ++ map td_name ds) ->
      exists e, register_all ds r = Err e).
Proof.
  revert r. induction ds as [|d ds IH]; intros r Hok; cbn.
  - rewrite !app_nil_r. split; [by destruct r|]. intros Hn. by destruct Hn, Hok.
  - destruct (dict_get (td_name d) (definitions r)) as [d'|] eqn:Hg.
    + assert (Hin : td_name d ∈ dict_keys (definitions r)) by (apply dict_get_is_Some; eauto).
      split.
      * intros Hnd. apply NoDup_app in Hnd as (_ & Hdisj & _).
        destruct (Hdisj _ Hin). apply elem_of_cons; auto.
      * intros _. exists (EPy ValueError ("Tool already registered: " +:+ td_name d)).
        unfold register_all. cbn. unfold register, dict_mem. rewrite Hg.
        apply register_all_err.
    + unfold register_all. cbn. rewrite register_fresh by done.
      specialize (IH {| definitions := definitions r ++ [(td_name d, d)] |}).
      destruct IH as [IH1 IH2].
      { eapply register_ok; [done|]. by apply register_fresh. }
      unfold dict_keys in *. cbn in IH1, IH2. rewrite map_app in IH1, IH2. cbn in IH1, IH2.
      rewrite <- !app_assoc in IH1, IH2. cbn in IH1, IH2. split; [|exact IH2].
      intros Hnd. specialize (IH1 Hnd). rewrite <- app_assoc in IH1. exact IH1.
Qed.
End registry.
Arguments ToolRegistry : clear implicits.

(* ------------------------------------------------------------------ *)
(** ** Properties *)

Section properties.
Context {H : Type}.
Implicit Types (d : ToolDefinition H) (r : ToolRegistry H).

(** Declaring tools with pairwise distinct names builds a registry that
    lists them in registration order and finds each one by its name, and any
    repeated name makes the registration raise. *)
Theorem create_registry_correct (ds : list (ToolDefinition H)) :
  if decide (NoDup (map td_name ds)) then
    exists r, register_all ds empty_registry = Ok r /\ registry_ok r /\
      list_tools r = ds /\ (forall d, d ∈ ds -> registry_get r (td_name d) = Ok d) /\
      (forall name, name ∉ map td_name ds ->
         registry_get r name = Err (EGateway (tool_not_found_error name)))
  else exists e, register_all ds empty_registry = Err e.
Proof.
  destruct (register_all_spec ds empty_registry empty_registry_ok) as [Hok Hdup].
  cbn in Hok, Hdup. case_decide as Hnd; [|by apply Hdup].
  specialize (Hok Hnd). eexists. split; [exact Hok|].
  set (kvs := map (fun d => (td_name d, d)) ds).
  assert (Hkeys : dict_keys kvs = map td_name ds) by (unfold dict_keys, kvs; by rewrite map_map).
  assert (Hd : dict_ok kvs) by (unfold dict_ok; by rewrite Hkeys).
  split_and!.
  - split; cbn; [done|]. intros name d Hin.
    apply list_elem_of_fmap in Hin as (d' & [= -> ->] & _). done.
  - unfold list_tools, dict_values. cbn. unfold kvs. rewrite map_map. cbn. apply map_id.
  - intros d Hin. unfold registry_get. cbn.
    rewrite (dict_In_get _ d); [done|done|]. apply list_elem_of_fmap. eauto.
  - intros name Hn. unfold registry_get. cbn.
    assert (dict_get name kvs = None) as ->; [|done]. apply dict_get_None. by rewrite Hkeys.
Qed.
End properties.
