(* ===== verification/Repair.v ===== *)
(** * Bounded self-healing

    [gateway/repair/]: failure diagnosis, exponential backoff, the response
    envelope of the repair model and the retry loop.  Seconds are rationals.
    The loop's executor, repairer, clock, random source and sleep are arguments,
    as they are of [RepairLoop]. *)

From S2P Require Import Prelude Dict Pystr Json Models Errors Effects.
From Stdlib Require Import QArith Qminmax Qpower Lqa.
Open Scope Z_scope.

(* ------------------------------------------------------------------ *)
(** ** repair/diagnose.py *)

Record FailureDiagnosis := {
  fd_category : RepairFailure;
  fd_message : string
}.

Definition diagnose (error : exc) : FailureDiagnosis :=
  match error with
  | EGateway g =>
      let code := ge_code g in
      if is_denial_code code then
        {| fd_category := POLICY_DENIED; fd_message := str_exc error |}
      else if String.eqb code "schema_validation" then
        let issue_types := map ei_error_type (ed_issues (er_error (ge_response g))) in
        let category :=
          if existsb (contains "missing") issue_types then MISSING_REQUIRED_FIELD
          else if existsb (contains "json") issue_types then MALFORMED_JSON
          else if existsb (contains "type") issue_types then TYPE_COERCION
          else SCHEMA_MISMATCH in
        {| fd_category := category; fd_message := str_exc error |}
      else if error_isinstance (ge_class g) SandboxTimeoutError then
        {| fd_category := TIMEOUT; fd_message := str_exc error |}
      else if error_isinstance (ge_class g) SandboxError then
        {| fd_category := SANDBOX_CRASH; fd_message := str_exc error |}
      else {| fd_category := TOOL_ERROR; fd_message := str_exc error |}
  | EPy _ _ => {| fd_category := TOOL_ERROR; fd_message := str_exc error |}
  end.

(* ------------------------------------------------------------------ *)
(** ** repair/backoff.py *)

Record BackoffPolicy := {
  max_attempts : Z;
  base_seconds : Q;
  max_seconds : Q;
  max_total_seconds : Q;
  jitter_ratio : Q
}.

Definition default_backoff : BackoffPolicy :=
  {| max_attempts := 3; base_seconds := 1 # 4; max_seconds := 5;
     max_total_seconds := 30; jitter_ratio := 1 # 5 |}.

(** [delay], given the draw [u] of [random.uniform(-1.0, 1.0)]. *)
Definition delay (p : BackoffPolicy) (retry_number : Z) (u : Q) : Q :=
  let raw := Qmin (max_seconds p) (base_seconds p * Qpower 2 (retry_number - 1)) in
  let jitter := (raw * jitter_ratio p * u)%Q in
  Qmax 0 (raw + jitter).

(* ------------------------------------------------------------------ *)
(** ** repair/loop.py *)

Record RepairContext := {
  rc_risk_class : RiskClass;
  rc_idempotent : bool;
  rc_tool_name : string;
  rc_tool_schema : option jdict
}.

Definition is_timeout_or_crash (c : RepairFailure) : bool :=
  match c with TIMEOUT | SANDBOX_CRASH => true | _ => false end.

Definition retryable_category (c : RepairFailure) : bool :=
  match c with
  | SCHEMA_MISMATCH | MALFORMED_JSON | MISSING_REQUIRED_FIELD | TYPE_COERCION
  | TIMEOUT | SANDBOX_CRASH | TOOL_ERROR => true
  | POLICY_DENIED => false
  end.

Definition partial_execution_review : exc :=
  EGateway (needs_review_error "A mutating call may have partially executed and needs review").

Section loop.
Context {E : signature} {S Out : Type}.
Variable policy : BackoffPolicy.
Variables (monotonic : M E S Q) (uniform : M E S Q) (sleep : Q -> M E S unit).

Definition can_retry (diagnosis : FailureDiagnosis) (context : RepairContext)
    (attempt : Z) (started : Q) : M E S bool :=
  if decide (fd_category diagnosis = POLICY_DENIED) then mret false
  else if max_attempts policy <=? attempt then mret false
  else
    now ← monotonic;
    if Qle_bool (max_total_seconds policy) (now - started) then mret false
    else if negb (bool_decide (rc_risk_class context = READ_ONLY)) && negb (rc_idempotent context)
    then mret false
    else mret (retryable_category (fd_category diagnosis)).

Variable executor : jdict -> M E S Out.
Variable repairer : option (jdict -> FailureDiagnosis -> M E S jdict).
Variable context : RepairContext.

(** The [while True] loop from the top of one iteration. *)
Fixpoint run_loop (fuel : nat) (started : Q) (current : jdict) (attempt : Z) :
    M E S (Out * Z) :=
  match fuel with
  | O => out_of_fuel
  | Datatypes.S fuel =>
      try_with
        (output ← executor current; mret (output, attempt))
        (fun error =>
           if negb (is_exception error) then raise error else
           let diagnosis := diagnose error in
           retry ← can_retry diagnosis context attempt started;
           if negb retry then
             if is_timeout_or_crash (fd_category diagnosis)
                && negb (bool_decide (rc_risk_class context = READ_ONLY))
             then raise partial_execution_review
             else raise error
           else
             repaired ←
               (if is_timeout_or_crash (fd_category diagnosis) then mret current
                else match repairer with
                     | None => raise error
                     | Some repair => repair current diagnosis
                     end);
             u ← uniform;
             let pause := delay policy attempt u in
             now ← monotonic;
             if negb (Qle_bool (now + pause - started) (max_total_seconds policy))
             then raise error
             else
               sleep pause;;
               run_loop fuel started repaired (attempt + 1))
  end.

(** Iterations the loop can make: one, and one more per attempt allowed. *)
Definition loop_fuel : nat := Datatypes.S (Z.to_nat (max_attempts policy)).

Definition repair_run (arguments : jdict) : M E S (Out * Z) :=
  started ← monotonic;
  run_loop loop_fuel started arguments 1.
End loop.

(* ------------------------------------------------------------------ *)
(** ** The loop rule

    What [_can_retry] has established when it answers true, and the Hoare rule
    of the loop: [I n a] holds when attempt [n] starts on arguments [a],
    [F n a e] when it failed with [e], [R n a' e] when the arguments [a'] of the
    next attempt are known. *)

Definition retry_allowed (policy : BackoffPolicy) (context : RepairContext)
    (attempt : Z) (e : exc) : Prop :=
  attempt < max_attempts policy /\
  fd_category (diagnose e) <> POLICY_DENIED /\
  (rc_risk_class context = READ_ONLY \/ rc_idempotent context = true).

Section rule.
Context {E : signature} {S Out : Type} (N : monitor E).
Context (policy : BackoffPolicy).
Context (monotonic uniform : M E S Q) (sleep : Q -> M E S unit).
Context (executor : jdict -> M E S Out).
Context (repairer : option (jdict -> FailureDiagnosis -> M E S jdict)).
Context (context : RepairContext).

(** The error of a failure that is not retried. *)
Definition refusal (e : exc) : exc :=
  if is_timeout_or_crash (fd_category (diagnose e)) && negb (bool_decide (rc_risk_class context = READ_ONLY))
  then partial_execution_review else e.

(** The rule for a loop that began at a known time: [U n a e u] holds when [u] was
    drawn for the pause before the next attempt. *)
Section started.
Context (started : Q).
Context (I : Z -> jdict -> S -> mstate N -> Prop).
Context (F R : Z -> jdict -> exc -> S -> mstate N -> Prop).
Context (U : Z -> jdict -> exc -> Q -> S -> mstate N -> Prop).
Context (Post : result exc (Out * Z) -> S -> mstate N -> Prop).

Context (Hexec : forall n a s m, 1 <= n -> n <= Z.max 1 (max_attempts policy) -> I n a s m ->
  wpM N (executor a) s m (fun r s' m' =>
    match r with
    | Ok out => Post (Ok (out, n)) s' m'
    | Err e => if is_exception e then F n a e s' m' else Post (Err e) s' m'
    end)).
Context (Hrefuse : forall n a e s m, F n a e s m -> ~ retry_allowed policy context n e ->
  Post (Err (refusal e)) s m).
Context (Hclock : forall n a e s m, F n a e s m ->
  wpM N monotonic s m (fun r s' m' =>
    match r with
    | Ok now => F n a e s' m' /\
        (Qle_bool (max_total_seconds policy) (now - started) = true -> Post (Err (refusal e)) s' m')
    | Err e' => Post (Err e') s' m'
    end)).
Context (Hrepair : forall n a e s m, F n a e s m -> retry_allowed policy context n e ->
  if is_timeout_or_crash (fd_category (diagnose e)) then R n a e s m
  else match repairer with
       | None => Post (Err e) s m
       | Some repair =>
           wpM N (repair a (diagnose e)) s m (fun r s' m' =>
             match r with Ok a' => R n a' e s' m' | Err e' => Post (Err e') s' m' end)
       end).
Context (Huniform : forall n a e s m, R n a e s m ->
  wpM N uniform s m (fun r s' m' =>
    match r with Ok u => U n a e u s' m' | Err e' => Post (Err e') s' m' end)).
Context (Hclock' : forall n a e u s m, U n a e u s m ->
  wpM N monotonic s m (fun r s' m' =>
    match r with
    | Ok now => if Qle_bool (now + delay policy n u - started) (max_total_seconds policy)
                then R n a e s' m' else Post (Err e) s' m'
    | Err e' => Post (Err e') s' m'
    end)).
Context (Hsleep : forall n a e d s m, R n a e s m ->
  wpM N (sleep d) s m (fun r s' m' =>
    match r with Ok _ => I (n + 1) a s' m' | Err e' => Post (Err e') s' m' end)).

Lemma can_retry_wp n a e s m :
  F n a e s m ->
  wpM N (can_retry policy monotonic (diagnose e) context n started) s m (fun r s' m' =>
    match r with
    | Ok true => F n a e s' m' /\ retry_allowed policy context n e
    | Ok false => Post (Err (refusal e)) s' m'
    | Err e' => Post (Err e') s' m'
    end).
Proof.
  intros HF. unfold can_retry.
  case_decide as Hd; [apply wpM_ret; eapply Hrefuse; [exact HF|]; by intros (_ & ? & _)|].
  destruct (Z.leb_spec (max_attempts policy) n);
    [apply wpM_ret; eapply Hrefuse; [exact HF|]; intros (? & _); lia|].
  wp_step. eapply wpM_mono; [by eapply Hclock|]. intros [now|e'] s' m'; [|done]. intros [HF' Htime].
  cbn beta iota. destruct (Qle_bool _ _); [apply wpM_ret; auto|].
  assert (Hcat : retryable_category (fd_category (diagnose e)) = true) by (by destruct (fd_category (diagnose e))).
  unfold retry_allowed in *.
  destruct (bool_decide_reflect (rc_risk_class context = READ_ONLY)) as [Hro|Hro];
    destruct (rc_idempotent context) eqn:Hid; cbn [negb andb]; apply wpM_ret; rewrite ?Hcat; auto 7.
  eapply Hrefuse; [exact HF'|]. intros (_ & _ & [?|?]); congruence.
Qed.

Lemma run_loop_wp fuel n a s m :
  1 <= n <= Z.max 1 (max_attempts policy) ->
  Z.max 1 (max_attempts policy) - n < Z.of_nat fuel ->
  I n a s m ->
  wpM N (run_loop policy monotonic uniform sleep executor repairer context
           fuel started a n) s m Post.
Proof.
  revert n a s m. induction fuel as [|fuel IH]; intros n a s m Hn Hfuel HI; [lia|].
  cbn [run_loop]. wp_step. wp_step.
  eapply wpM_mono; [apply (Hexec n a); [lia|lia|done]|].
  intros [out|e] s1 m1 H1; cbn beta iota; [done|].
  destruct (is_exception e); cbn [negb]; [|done].
  wp_step. eapply wpM_mono; [by eapply can_retry_wp|].
  intros [[]|e'] s2 m2; cbn [negb]; [|unfold refusal; by destruct (_ && _)|done].
  intros [HF Hb]. specialize (Hrepair _ _ _ _ _ HF Hb). destruct Hb as [Hlt _].
  wp_step.
  assert (Hrest : forall a' s3 m3, R n a' e s3 m3 ->
    wpM N (u ← uniform; now ← monotonic;
           if negb (Qle_bool (now + delay policy n u - started) (max_total_seconds policy))
           then raise e
           else sleep (delay policy n u);;
                run_loop policy monotonic uniform sleep executor repairer context
                  fuel started a' (n + 1)) s3 m3 Post).
  { intros a' s3 m3 HR. wp_step. eapply wpM_mono; [by eapply Huniform|].
    intros [u|e'] s4 m4 H4; [|done]. wp_step. eapply wpM_mono; [by eapply Hclock'|].
    intros [now|e'] s5 m5; [|done]. cbn beta iota.
    destruct (Qle_bool _ _); cbn [negb]; [|done]. intros H5.
    wp_step. eapply wpM_mono; [by eapply Hsleep|].
    intros [[]|e'] s6 m6 H6; [|done]. apply IH; [lia|lia|done]. }
  destruct (is_timeout_or_crash _); [apply wpM_ret; by apply Hrest|].
  destruct repairer as [rep|]; [|done].
  eapply wpM_mono; [exact Hrepair|]. intros [a'|e'] s3 m3 H3; [|done]. by apply Hrest.
Qed.
End started.

(** The loop always terminates, and its outcome satisfies [Post]. *)
Section simple.
Context (I : Z -> jdict -> S -> mstate N -> Prop).
Context (F R : Z -> jdict -> exc -> S -> mstate N -> Prop).
Context (Post : result exc (Out * Z) -> S -> mstate N -> Prop).
Context (Hexec : forall n a s m, 1 <= n -> n <= Z.max 1 (max_attempts policy) -> I n a s m ->
  wpM N (executor a) s m (fun r s' m' =>
    match r with
    | Ok out => Post (Ok (out, n)) s' m'
    | Err e => if is_exception e then F n a e s' m' else Post (Err e) s' m'
    end)).
Context (Hfail : forall n a e s m, F n a e s m -> Post (Err e) s m /\
  (is_timeout_or_crash (fd_category (diagnose e)) = true ->
   rc_risk_class context <> READ_ONLY -> Post (Err partial_execution_review) s m)).
Context (Hclock : forall n a e s m, F n a e s m ->
  wpM N monotonic s m (fun r s' m' =>
    match r with Ok _ => F n a e s' m' | Err e' => Post (Err e') s' m' end)).
Context (Hrepair : forall n a e s m, F n a e s m -> retry_allowed policy context n e ->
  if is_timeout_or_crash (fd_category (diagnose e)) then R n a e s m
  else match repairer with
       | None => True
       | Some repair =>
           wpM N (repair a (diagnose e)) s m (fun r s' m' =>
             match r with Ok a' => R n a' e s' m' | Err e' => Post (Err e') s' m' end)
       end).
Context (Huniform : forall n a e s m, R n a e s m ->
  wpM N uniform s m (fun r s' m' =>
    match r with Ok _ => R n a e s' m' | Err e' => Post (Err e') s' m' end)).
Context (Hclock' : forall n a e s m, R n a e s m ->
  wpM N monotonic s m (fun r s' m' =>
    match r with Ok _ => R n a e s' m' | Err e' => Post (Err e') s' m' end)).
Context (Hsleep : forall n a e d s m, R n a e s m ->
  wpM N (sleep d) s m (fun r s' m' =>
    match r with Ok _ => I (n + 1) a s' m' | Err e' => Post (Err e') s' m' end)).
Context (Hgiveup : forall n a e s m, R n a e s m -> Post (Err e) s m).

Lemma repair_run_wp a s m :
  wpM N monotonic s m (fun r s' m' =>
    match r with Ok _ => I 1 a s' m' | Err e => Post (Err e) s' m' end) ->
  wpM N (repair_run policy monotonic uniform sleep executor repairer context a) s m Post.
Proof.
  intros Hm. unfold repair_run. wp_step. eapply wpM_mono; [exact Hm|].
  intros [started|e] s' m' HI; [|done].
  assert (Hrefusal : forall n a e s m, F n a e s m -> Post (Err (refusal e)) s m).
  { intros n a0 e s0 m0 HF. destruct (Hfail _ _ _ _ _ HF) as [Hp Hreview]. unfold refusal.
    destruct (is_timeout_or_crash _); [|done]. case_bool_decide; cbn; auto. }
  apply (run_loop_wp started I F R (fun n a e _ => R n a e) Post); try done; [by eauto| | | |lia|unfold loop_fuel; lia].
  - intros n a0 e s0 m0 HF. eapply wpM_mono; [by eapply Hclock|]. intros [now|e'] s1 m1; [|done].
    intros HF'. split; [done|]. intros _. by eapply Hrefusal.
  - intros n a0 e s0 m0 HF Hal. specialize (Hrepair _ _ _ _ _ HF Hal). destruct (is_timeout_or_crash _); [done|].
    destruct repairer; [done|]. by apply (Hfail _ _ _ _ _ HF).
  - intros n a0 e u s0 m0 HR. eapply wpM_mono; [by eapply Hclock'|]. intros [now|e'] s1 m1 HR'; [|done].
    destruct (Qle_bool _ _); [done|by eapply Hgiveup].
Qed.
End simple.
End rule.

(* ------------------------------------------------------------------ *)
(** ** The loop on its own

    The collaborators of [RepairLoop.run] as operations with arbitrary answers. *)

Inductive loop_op :=
| LExecute (arguments : jdict)
| LRepair (arguments : jdict) (diagnosis : FailureDiagnosis)
| LMonotonic
| LUniform
| LSleep (seconds : Q).

Definition loop_sig (Out : Type) : signature :=
  {| op := loop_op;
     ans o := match o with
              | LExecute _ => Out
              | LRepair _ _ => jdict
              | LMonotonic | LUniform => Q
              | LSleep _ => unit
              end |}.

Section standalone.
Context {Out : Type} (policy : BackoffPolicy) (context : RepairContext) (has_repairer : bool).
Local Abbreviation E := (loop_sig Out).

Definition loop_program (arguments : jdict) : M E unit (Out * Z) :=
  repair_run policy
    (call (E := E) LMonotonic) (call (E := E) LUniform) (fun d => call (E := E) (LSleep d))
    (fun a => call (E := E) (LExecute a))
    (if has_repairer then Some (fun a d => call (E := E) (LRepair a d)) else None)
    context arguments.

(** The executions of a trace, in order, with their outcomes. *)
Definition execution_of (ev : event E) : option (jdict * result exc Out) :=
  match ev with
  | existT (LExecute a) r => Some (a, r)
  | _ => None
  end.
Definition executions (tr : list (event E)) : list (jdict * result exc Out) :=
  omap execution_of tr.

(** [retries args tr xs a]: the executions [xs] all failed in a way that
    allowed another attempt, and [a] are the arguments of the next one:
    unchanged after a timeout or a sandbox crash, the repairer's proposal
    otherwise. *)
Inductive retries (args : jdict) (tr : list (event E)) :
    list (jdict * result exc Out) -> jdict -> Prop :=
| retries_start : retries args tr [] args
| retries_next xs a e a' :
    retries args tr xs a ->
    is_exception e = true ->
    retry_allowed policy context (Z.of_nat (length xs) + 1) e ->
    (if is_timeout_or_crash (fd_category (diagnose e)) then a' = a
     else has_repairer = true /\
          Event (E := E) (LRepair a (diagnose e)) (Ok a') ∈ tr) ->
    retries args tr (xs ++ [(a, Err e)]) a'.

(** The error a run ends with after attempt [n] failed with [e0]: a failure that
    is no [Exception] itself; when it may not be retried, or no time is left, the
    failure itself or the review notice for a possibly partial mutation; when it may be
    retried, the failure itself if there is no repairer for it, or no time for the
    pause; or the exception of a collaborator other than the executor. *)
Definition final_error (started : Q) (n : Z) (tr : list (event E)) (e0 e : exc) : Prop :=
  (is_exception e0 = false /\ e = e0) \/
  (is_exception e0 = true /\ e = refusal context e0 /\
     (~ retry_allowed policy context n e0 \/
      exists tr' now, tr = tr' ++ [Event (E := E) LMonotonic (Ok now)] /\
        (max_total_seconds policy <= now - started)%Q)) \/
  (is_exception e0 = true /\ e = e0 /\ retry_allowed policy context n e0 /\
     (is_timeout_or_crash (fd_category (diagnose e0)) = false /\ has_repairer = false \/
      exists tr' u now, tr = tr' ++ [Event (E := E) LUniform (Ok u); Event (E := E) LMonotonic (Ok now)] /\
        (max_total_seconds policy < now + delay policy n u - started)%Q)) \/
  (exists tr' o, tr = tr' ++ [Event (E := E) o (Err e)] /\ forall a, o <> LExecute a).

Definition begun (started : Q) (tr : list (event E)) : Prop :=
  exists tl, tr = Event (E := E) LMonotonic (Ok started) :: tl.

Definition loop_outcome (args : jdict) (tr : list (event E)) (r : result exc (Out * Z)) : Prop :=
  match r with
  | Ok (out, n) => exists xs a,
      executions tr = xs ++ [(a, Ok out)] /\ retries args tr xs a /\
      n = Z.of_nat (length xs) + 1 /\ n <= Z.max 1 (max_attempts policy)
  | Err e =>
      tr = [Event (E := E) LMonotonic (Err e)] \/
      exists started xs a e0,
        begun started tr /\ executions tr = xs ++ [(a, Err e0)] /\ retries args tr xs a /\
        Z.of_nat (length xs) + 1 <= Z.max 1 (max_attempts policy) /\
        final_error started (Z.of_nat (length xs) + 1) tr e0 e
  end.

Lemma retries_mono args tr tr' xs a : retries args tr xs a -> retries args (tr ++ tr') xs a.
Proof.
  induction 1 as [|xs a e a' Hr IH He Hal Ha]; econstructor; eauto.
  destruct (is_timeout_or_crash _); [done|]. destruct Ha as [? Ha].
  split; [done|]. apply elem_of_app; auto.
Qed.

Lemma executions_snoc tr (o : op E) r :
  executions (tr ++ [Event (E := E) o r]) =
  executions tr ++ match execution_of (Event (E := E) o r) with Some x => [x] | None => [] end.
Proof. unfold executions. rewrite omap_app. cbn [omap list_omap]. by case_match. Qed.

Lemma begun_app started tr tr' : begun started tr -> begun started (tr ++ tr').
Proof. intros [tl ->]. by eexists. Qed.

Section invariants.
Context (args : jdict) (started : Q).
Definition loop_I (n : Z) (a : jdict) (_ : unit) (tr : list (event E)) : Prop :=
  begun started tr /\ retries args tr (executions tr) a /\ n = Z.of_nat (length (executions tr)) + 1.
Definition loop_F (n : Z) (a : jdict) (e : exc) (_ : unit) (tr : list (event E)) : Prop :=
  exists xs, begun started tr /\ executions tr = xs ++ [(a, Err e)] /\ retries args tr xs a /\
    n = Z.of_nat (length xs) + 1 /\ n <= Z.max 1 (max_attempts policy) /\
    is_exception e = true.
Definition loop_R (n : Z) (a' : jdict) (e : exc) (_ : unit) (tr : list (event E)) : Prop :=
  exists a, loop_F n a e tt tr /\ retries args tr (executions tr) a' /\ retry_allowed policy context n e.
Definition loop_U (n : Z) (a' : jdict) (e : exc) (u : Q) (_ : unit) (tr : list (event E)) : Prop :=
  loop_R n a' e tt tr /\ exists tr', tr = tr' ++ [Event (E := E) LUniform (Ok u)].

Lemma loop_F_outcome n a e e' tr :
  loop_F n a e tt tr -> final_error started n tr e e' -> loop_outcome args tr (Err e').
Proof.
  intros (xs & Hb & Hx & Hr & -> & Hle & _) Hf. right. exists started, xs, a, e. split_and!; done.
Qed.

(** A collaborator other than the executor was called. *)
Lemma loop_F_call n a e tr (o : op E) r :
  loop_F n a e tt tr -> (forall a, o <> LExecute a) ->
  loop_F n a e tt (tr ++ [Event (E := E) o r]) /\
  forall e', r = Err e' -> loop_outcome args (tr ++ [Event (E := E) o r]) (Err e').
Proof.
  intros (xs & Hb & Hx & Hr & -> & Hle & Hexc) Ho.
  assert (HF : loop_F (Z.of_nat (length xs) + 1) a e tt (tr ++ [Event (E := E) o r])).
  { exists xs. rewrite executions_snoc, Hx. split_and!; [by apply begun_app| |by apply retries_mono|done..].
    destruct o; cbn; rewrite ?app_nil_r; [|done..]. by destruct (Ho arguments). }
  split; [done|]. intros e' ->.
  eapply loop_F_outcome; [exact HF|]. right; right; right. by exists tr, o.
Qed.

Lemma loop_R_call n a e tr (o : op E) r :
  loop_R n a e tt tr -> (forall a, o <> LExecute a) ->
  loop_R n a e tt (tr ++ [Event (E := E) o r]) /\
  forall e', r = Err e' -> loop_outcome args (tr ++ [Event (E := E) o r]) (Err e').
Proof.
  intros (a0 & HF & Hr & Hal) Ho. destruct (loop_F_call _ _ _ _ o r HF Ho) as [HF' Herr].
  split; [|done]. exists a0. split; [done|]. split; [|done]. rewrite executions_snoc.
  assert (execution_of (Event (E := E) o r) = None) as ->.
  { destruct o; cbn; [by destruct (Ho arguments)|done..]. }
  rewrite app_nil_r. by apply retries_mono.
Qed.

Lemma loop_R_next n a' e tr : loop_R n a' e tt tr -> loop_I (n + 1) a' tt tr.
Proof.
  intros (a & (xs & Hb & Hx & _ & -> & _ & _) & Hr & _). split; [done|]. split; [done|].
  rewrite Hx, length_app. cbn. lia.
Qed.

Lemma loop_execute n a tr r :
  1 <= n -> n <= Z.max 1 (max_attempts policy) -> loop_I n a tt tr ->
  let tr' := tr ++ [Event (E := E) (LExecute a) r] in
  match r with
  | Ok out => loop_outcome args tr' (Ok (out, n))
  | Err e => if is_exception e then loop_F n a e tt tr' else loop_outcome args tr' (Err e)
  end.
Proof.
  intros Hn Hmax (Hb & Hr & ->) tr'.
  assert (Hx : executions tr' = executions tr ++ [(a, r)]) by (unfold tr'; by rewrite executions_snoc).
  destruct r as [out|e].
  - exists (executions tr), a. split_and!; [done|by apply retries_mono|done|lia].
  - destruct (is_exception e) eqn:He.
    + exists (executions tr). split_and!; [by apply begun_app|done|by apply retries_mono|done|lia|done].
    + right. exists started, (executions tr), a, e.
      split_and!; [by apply begun_app|done|by apply retries_mono|lia|by left].
Qed.

(** The time of a failure was read. *)
Lemma loop_F_clock n a e tr now :
  loop_F n a e tt tr ->
  let tr' := tr ++ [Event (E := E) LMonotonic (Ok now)] in
  loop_F n a e tt tr' /\
  (Qle_bool (max_total_seconds policy) (now - started) = true -> loop_outcome args tr' (Err (refusal context e))).
Proof.
  intros HF tr'. pose proof HF as (xs & _ & _ & _ & _ & _ & He).
  destruct (loop_F_call _ _ _ _ LMonotonic (Ok now) HF ltac:(done)) as [HF' _].
  split; [done|]. intros Hle%Qle_bool_iff. eapply loop_F_outcome; [exact HF'|].
  right; left. split_and!; [done..|]. right. by exists tr, now.
Qed.

Lemma loop_U_clock n a e u tr now :
  loop_U n a e u tt tr ->
  let tr' := tr ++ [Event (E := E) LMonotonic (Ok now)] in
  if Qle_bool (now + delay policy n u - started) (max_total_seconds policy)
  then loop_R n a e tt tr' else loop_outcome args tr' (Err e).
Proof.
  intros (HR & tr0 & ->) tr'. destruct (loop_R_call _ _ _ _ LMonotonic (Ok now) HR ltac:(done)) as [HR' _].
  destruct (Qle_bool _ _) eqn:Hle; [done|]. pose proof HR' as (a0 & HF & _ & Hal).
  pose proof HF as (xs & _ & _ & _ & _ & _ & He).
  eapply loop_F_outcome; [exact HF|]. right; right; left. split_and!; [done..|]. right.
  exists tr0, u, now. split; [unfold tr'; by rewrite <- app_assoc|].
  apply Qnot_le_lt. intros H%Qle_bool_iff. congruence.
Qed.

Lemma loop_F_repair n a e tr :
  loop_F n a e tt tr -> retry_allowed policy context n e ->
  if is_timeout_or_crash (fd_category (diagnose e)) then loop_R n a e tt tr
  else if has_repairer then
    forall r, let tr' := tr ++ [Event (E := E) (LRepair a (diagnose e)) r] in
      match r with Ok a' => loop_R n a' e tt tr' | Err e' => loop_outcome args tr' (Err e') end
  else loop_outcome args tr (Err e).
Proof.
  intros HF Hal. pose proof HF as (xs & Hb & Hx & Hr & Hn & _ & He). subst n.
  destruct (is_timeout_or_crash _) eqn:Ht.
  - exists a. split; [done|]. split; [|done]. rewrite Hx. eapply retries_next; [done..|]. by rewrite Ht.
  - destruct has_repairer eqn:Hrep.
    + intros r tr'. destruct (loop_F_call _ _ _ _ (LRepair a (diagnose e)) r HF ltac:(done)) as [HF' Herr].
      destruct r as [a'|e']; [|by apply Herr]. exists a. split; [done|]. split; [|done]. unfold tr'.
      rewrite executions_snoc, Hx. cbn. rewrite app_nil_r.
      eapply retries_next; [by apply retries_mono|done|done|]. rewrite Ht.
      split; [done|]. apply elem_of_app; right. by apply list_elem_of_singleton.
    + eapply loop_F_outcome; [exact HF|]. right; right; left. split_and!; [done..|]. by left.
Qed.

Lemma run_loop_outcome n a tr :
  1 <= n <= Z.max 1 (max_attempts policy) -> Z.max 1 (max_attempts policy) - n < Z.of_nat (loop_fuel policy) ->
  loop_I n a tt tr ->
  wpM (history E)
    (run_loop policy (call (E := E) LMonotonic) (call (E := E) LUniform) (fun d => call (E := E) (LSleep d))
       (fun a => call (E := E) (LExecute a))
       (if has_repairer then Some (fun a d => call (E := E) (LRepair a d)) else None)
       context (loop_fuel policy) started a n) tt tr (fun r _ tr => loop_outcome args tr r).
Proof.
  intros Hn Hfuel HI.
  apply (run_loop_wp (history E) policy _ _ _ _ _ context started loop_I loop_F loop_R loop_U); [..|done|done|done].
  - intros n' a' [] tr' Hn' Hmax HI'. wp_call; [done|]. intros r _. by apply loop_execute.
  - intros n' a' e [] tr' HF Hno. pose proof HF as (xs & _ & _ & _ & _ & _ & He).
    eapply loop_F_outcome; [exact HF|]. right; left. split_and!; [done..|]. by left.
  - intros n' a' e [] tr' HF. wp_call; [done|]. intros [now|e'] _; [by apply loop_F_clock|].
    by destruct (loop_F_call _ _ _ _ LMonotonic (Err e') HF ltac:(done)) as [_ Herr]; apply Herr.
  - intros n' a' e [] tr' HF Hal. pose proof (loop_F_repair _ _ _ _ HF Hal) as Hrep.
    destruct (is_timeout_or_crash _); [done|]. destruct has_repairer; [|done].
    wp_call; [done|]. intros r _. apply Hrep.
  - intros n' a' e [] tr' HR. wp_call; [done|]. intros r _.
    destruct (loop_R_call _ _ _ _ LUniform r HR ltac:(done)) as [HR' Herr].
    destruct r as [u|e']; [|by apply Herr]. split; [done|]. by exists tr'.
  - intros n' a' e u [] tr' HU. wp_call; [done|]. intros [now|e'] _; [by apply loop_U_clock|].
    destruct HU as [HR _].
    by destruct (loop_R_call _ _ _ _ LMonotonic (Err e') HR ltac:(done)) as [_ Herr]; apply Herr.
  - intros n' a' e d [] tr' HR. wp_call; [done|]. intros r _.
    destruct (loop_R_call _ _ _ _ (LSleep d) r HR ltac:(done)) as [HR' Herr].
    destruct r as [[]|e']; [by eapply loop_R_next|by apply Herr].
Qed.
End invariants.

Lemma loop_program_wp args :
  wpM (history E) (loop_program args) tt [] (fun r _ tr => loop_outcome args tr r).
Proof.
  unfold loop_program, repair_run. wp_step. wp_call; [done|]. intros [started|e] _; [|by left].
  apply (run_loop_outcome args started); [lia|unfold loop_fuel; lia|].
  split; [by eexists|]. split; [constructor|done].
Qed.
End standalone.

(* ------------------------------------------------------------------ *)
(** ** Properties *)

(** C25: whatever the tool, the repair model, the clock and the random source
    answer, the repair loop terminates; it makes at most
    [max(1, max_attempts)] executions, makes another one only after a failure
    that is no policy denial and only for a read-only or idempotent tool, on
    arguments that are unchanged after a timeout or crash and the repairer's
    proposal otherwise.  It ends with the last execution's output and its number; or,
    when the last failure may not be retried or the time is over, with the review notice
    if it was a timeout or crash of a tool that is not read-only, and with the failure
    itself otherwise; or, when it may be retried, with the failure itself if there is no
    repairer for it or no time for the pause; or with the exception of another
    collaborator. *)
Theorem repair_loop_correct (Out : Type) (policy : BackoffPolicy) (context : RepairContext)
    (has_repairer : bool) (args : jdict) :
  total (@loop_program Out policy context has_repairer args tt) /\
  forall tr rs, exec (@loop_program Out policy context has_repairer args tt) tr rs ->
    @loop_outcome Out policy context has_repairer args tr rs.1.
Proof.
  pose proof (@loop_program_wp Out policy context has_repairer args) as Hwp. split.
  - eapply wp_total; [|exact Hwp]. done.
  - intros tr rs Hex. exact (history_exec _ _ _ _ Hwp Hex).
Qed.
