(* ===== verification/AuditLog.v ===== *)
(** * The hash-chained audit log

    [gateway/audit/log.py] and [gateway/audit/verify.py].  The file is the list
    of its lines.  [sha256] is [hashlib.sha256(...).hexdigest()] on ASCII text,
    [model_dump_json] pydantic's own serialiser, [float_norm] as in [Json]. *)

From S2P Require Import Prelude Dict Pystr Json Models Errors.
From Stdlib Require Import QArith Ascii.
Open Scope Z_scope.

Definition genesis_hash : string :=
  "0000000000000000000000000000000000000000000000000000000000000000".

(** What [append] receives about one completed call. *)
Record AuditFields := {
  af_call_id : string;
  af_session_id : string;
  af_trace_id : string;
  af_tool_name : string;
  af_arguments : jdict;
  af_policy_input : jdict;
  af_policy_decision : string;
  af_matched_rule : option string;
  af_approver_identity : option string;
  af_sandbox_runtime : string;
  af_attempts : list AttemptRecord;
  af_repair_attempts : list RepairAttemptRecord;
  af_outcome : string;
  af_duration_ms : Q;
  af_principal : option Principal
}.

Record AuditRecord := {
  au_timestamp : Z;
  au_fields : AuditFields;
  au_previous_hash : string;
  au_record_hash : string
}.

Section audit.
Context `{Rendering}.
Variables (sha256 : string -> string) (model_dump_json : json -> string).
Variable float_norm : string -> string.

Definition dump_AuditRecord (r : AuditRecord) : jdict :=
  let f := au_fields r in
  [("timestamp", dump_datetime (au_timestamp r));
   ("call_id", JStr (af_call_id f));
   ("session_id", JStr (af_session_id f));
   ("trace_id", JStr (af_trace_id f));
   ("tool_name", JStr (af_tool_name f));
   ("arguments", JObj (af_arguments f));
   ("policy_input", JObj (af_policy_input f));
   ("policy_decision", JStr (af_policy_decision f));
   ("matched_rule", opt_json JStr (af_matched_rule f));
   ("approver_identity", opt_json JStr (af_approver_identity f));
   ("sandbox_runtime", JStr (af_sandbox_runtime f));
   ("attempts", JList (map dump_AttemptRecord (af_attempts f)));
   ("repair_attempts", JList (map dump_RepairAttemptRecord (af_repair_attempts f)));
   ("outcome", JStr (af_outcome f));
   ("duration_ms", JFloat (float_text (af_duration_ms f)));
   ("previous_hash", JStr (au_previous_hash r));
   ("record_hash", JStr (au_record_hash r));
   ("principal", opt_json (fun p => JObj (dump_Principal p)) (af_principal f))].

(** [_canonical_json] and [_record_hash] *)
Definition canonical_json (payload : jdict) : string := dumps_compact (JObj payload).
Definition record_hash (payload : jdict) : string := sha256 (canonical_json payload).

(* ---------------------------------------------------------------- *)
(** ** [AuditLogger] *)

(** The audit file ([None]: it does not exist) and the hash in memory. *)
Record AuditLogger := {
  al_file : option (list string);
  al_last_hash : string
}.

Definition is_blank (line : string) : bool := negb (truthy (strip line)).

(** The last non-blank line, or the empty text. *)
Definition last_line (lines : list string) : string :=
  fold_left (fun acc line => if is_blank line then acc else line) lines "".

Definition read_last_hash (file : option (list string)) : result exc string :=
  match file with
  | None => Ok genesis_hash
  | Some lines =>
      let line := last_line lines in
      if negb (truthy line) then Ok genesis_hash
      else match loads float_norm line with
           | None => Err (EPy JSONDecodeError "Expecting value")
           | Some (JObj payload) =>
               match dict_get "record_hash" payload with
               | Some (JStr value) => Ok value
               | _ => Ok genesis_hash
               end
           | Some _ => Err (EPy OtherException "object has no attribute 'get'")
           end
  end.

(** [AuditLogger(path)] *)
Definition open_logger (file : option (list string)) : result exc AuditLogger :=
  result_map (fun h => {| al_file := file; al_last_hash := h |}) (read_last_hash file).

(** How the write of one line ends: done, refused before anything is written,
    or refused by the durability barrier once the line is in the file. *)
Inductive write_outcome := Written | OpenFailed | SyncFailed.

Definition append_line (file : option (list string)) (line : string) : option (list string) :=
  Some (default [] file ++ [line]).

(** The record of an append after a given hash: signed with the digest of its
    other fields. *)
Definition signed_record (fields : AuditFields) (timestamp : Z) (previous_hash : string) : AuditRecord :=
  let pending := {| au_timestamp := timestamp; au_fields := fields;
                    au_previous_hash := previous_hash; au_record_hash := "pending" |} in
  let unsigned := dict_del "record_hash" (dump_AuditRecord pending) in
  {| au_timestamp := timestamp; au_fields := fields;
     au_previous_hash := previous_hash; au_record_hash := record_hash unsigned |}.

(** The line of a record in the file. *)
Definition record_line (record : AuditRecord) : string := model_dump_json (JObj (dump_AuditRecord record)).

(** [_append_sync]: [timestamp] is the caller's or the clock's. *)
Definition append_sync (fields : AuditFields) (timestamp : Z) (w : write_outcome)
    (l : AuditLogger) : result exc AuditRecord * AuditLogger :=
  let record := signed_record fields timestamp (al_last_hash l) in
  let line := record_line record in
  match w with
  | Written => (Ok record, {| al_file := append_line (al_file l) line; al_last_hash := au_record_hash record |})
  | OpenFailed => (Err (EPy OSError "open"), l)
  | SyncFailed =>
      (Err (EPy OSError "fsync"),
       {| al_file := append_line (al_file l) line; al_last_hash := al_last_hash l |})
  end.

(* ---------------------------------------------------------------- *)
(** ** [verify_audit_file] *)

Definition integrity_error (what : string) (line_number : Z) : exc :=
  EPy AuditIntegrityError (what +:+ print_int line_number).

(** The check of one line against the hash of the record before it: the hash
    of the record. *)
Definition verify_line (previous_hash line : string) (line_number : Z) : result exc string :=
  match loads float_norm line with
  | None => Err (integrity_error "Invalid JSON on audit line " line_number)
  | Some (JObj payload) =>
      if negb (bool_decide (dict_get "previous_hash" payload = Some (JStr previous_hash))) then
        Err (integrity_error "Broken audit link on line " line_number)
      else match dict_get "record_hash" payload with
           | Some (JStr stored_hash) =>
               let unsigned := dict_del "record_hash" payload in
               if String.eqb stored_hash (record_hash unsigned) then Ok stored_hash
               else Err (integrity_error "Tampered audit record on line " line_number)
           | _ => Err (integrity_error "Missing record hash on line " line_number)
           end
  | Some _ => Err (EPy AuditIntegrityError
      ("Audit line " +:+ print_int line_number +:+ " is not an object"))
  end.

(** The loop over the lines, from line [line_number]: the last hash. *)
Fixpoint verify_lines (previous_hash : string) (line_number : Z) (lines : list string) :
    result exc string :=
  match lines with
  | [] => Ok previous_hash
  | line :: lines' =>
      if is_blank line then verify_lines previous_hash (line_number + 1) lines'
      else match verify_line previous_hash line line_number with
           | Ok h => verify_lines h (line_number + 1) lines'
           | Err e => Err e
           end
  end.

Definition verify_audit_file (file : option (list string)) : result exc bool :=
  match file with
  | None => Ok true
  | Some lines => result_map (fun _ => true) (verify_lines genesis_hash 1 lines)
  end.

(* ---------------------------------------------------------------- *)
(** ** Records that can be serialised *)

Definition fields_wf (f : AuditFields) : bool :=
  json_wf float_norm (JObj (af_arguments f)) &&
  json_wf float_norm (JObj (af_policy_input f)) &&
  forallb (fun r => json_wf float_norm (JObj (ra_original_arguments r)) &&
                    json_wf float_norm (JObj (ra_proposed_arguments r)))
    (af_repair_attempts f) &&
  json_wf float_norm (JFloat (float_text (af_duration_ms f))).

Lemma dump_AuditRecord_keys r : dict_ok (dump_AuditRecord r).
Proof. unfold dict_ok, dict_keys. cbn [map dump_AuditRecord fst]. apply (bool_decide_unpack _). by vm_compute. Qed.

Lemma opt_json_wf {A} (f : A -> json) o :
  (forall a, json_wf float_norm (f a) = true) -> json_wf float_norm (opt_json f o) = true.
Proof. destruct o; cbn; auto. Qed.

Lemma dump_Principal_wf p : json_wf float_norm (JObj (dump_Principal p)) = true.
Proof.
  cbn [json_wf dump_Principal forallb snd]. rewrite !opt_json_wf by done.
  rewrite !andb_true_r. apply andb_true_iff. split; [by vm_compute|].
  apply forallb_forall. by intros ? (? & <- & _)%in_map_iff.
Qed.

Lemma dump_AttemptRecord_wf a : json_wf float_norm (dump_AttemptRecord a) = true.
Proof.
  cbn [json_wf dump_AttemptRecord forallb snd]. rewrite !opt_json_wf by done.
  by vm_compute.
Qed.

Lemma dump_AuditRecord_wf r :
  fields_wf (au_fields r) = true -> json_wf float_norm (JObj (dump_AuditRecord r)) = true.
Proof.
  unfold fields_wf. rewrite !andb_true_iff. intros [[[Ha Hp] Hr] Hd].
  cbn [json_wf]. apply andb_true_iff. split.
  - apply bool_decide_eq_true. apply dump_AuditRecord_keys.
  - cbn [dump_AuditRecord forallb snd]. rewrite Ha, Hp, Hd.
    rewrite !opt_json_wf by (done || apply dump_Principal_wf).
    cbn [andb json_wf dump_datetime]. rewrite andb_true_r. apply andb_true_iff. split.
    + apply forallb_forall. intros ? (x & <- & _)%in_map_iff. apply dump_AttemptRecord_wf.
    + apply forallb_forall. intros ? (x & <- & Hx)%in_map_iff.
      rewrite forallb_forall in Hr. specialize (Hr x Hx). apply andb_true_iff in Hr as [Ho Hq].
      unfold dump_RepairAttemptRecord. cbn [json_wf forallb snd].
      cbn [json_wf] in Ho, Hq. rewrite Ho, Hq, opt_json_wf by done. by vm_compute.
Qed.

(* ---------------------------------------------------------------- *)
(** ** Runs of the logger *)

(** Appends with the outcome of their write, and restarts of the process. *)
Inductive log_event :=
| Append (fields : AuditFields) (timestamp : Z) (w : write_outcome)
| Restart.

Definition log_step (l : AuditLogger) (ev : log_event) : AuditLogger :=
  match ev with
  | Append fields timestamp w => (append_sync fields timestamp w l).2
  | Restart => match open_logger (al_file l) with Ok l' => l' | Err _ => l end
  end.
Definition log_run (evs : list log_event) (l : AuditLogger) : AuditLogger :=
  fold_left log_step evs l.

Definition new_logger : AuditLogger := {| al_file := None; al_last_hash := genesis_hash |}.

Definition event_wf (ev : log_event) : bool :=
  match ev with
  | Append fields _ w => fields_wf fields && match w with SyncFailed => false | _ => true end
  | Restart => true
  end.

(** The records the appends of a run return, in order. *)
Fixpoint run_records (evs : list log_event) (l : AuditLogger) : list AuditRecord :=
  match evs with
  | [] => []
  | ev :: evs' =>
      match ev with
      | Append fields timestamp w =>
          match (append_sync fields timestamp w l).1 with Ok r => [r] | Err _ => [] end
      | Restart => []
      end ++ run_records evs' (log_step l ev)
  end.

Lemma verify_lines_app p n l1 l2 :
  verify_lines p n (l1 ++ l2) =
  match verify_lines p n l1 with
  | Ok h => verify_lines h (n + Z.of_nat (length l1)) l2
  | Err e => Err e
  end.
Proof.
  revert p n. induction l1 as [|line l1 IH]; intros p n; cbn [verify_lines app length].
  - f_equal. lia.
  - destruct (is_blank line).
    + rewrite IH. destruct (verify_lines p (n + 1) l1); [|done]. f_equal. lia.
    + destruct (verify_line p line n) as [h|e]; [|done].
      rewrite IH. destruct (verify_lines h (n + 1) l1); [|done]. f_equal. lia.
Qed.

Lemma last_line_snoc lines line :
  last_line (lines ++ [line]) = if is_blank line then last_line lines else line.
Proof. unfold last_line. by rewrite fold_left_app. Qed.

Lemma last_line_nonblank lines : last_line lines = "" \/ is_blank (last_line lines) = false.
Proof.
  induction lines as [|line lines IH] using rev_ind; [by left|].
  rewrite last_line_snoc. destruct (is_blank line) eqn:E; auto.
Qed.

(** A file that verifies up to [h] makes a new logger resume from [h]. *)
Lemma read_last_hash_verified lines h :
  verify_lines genesis_hash 1 lines = Ok h ->
  read_last_hash (Some lines) = Ok h.
Proof.
  revert h. induction lines as [|line lines IH] using rev_ind; intros h.
  - by intros [= <-].
  - rewrite verify_lines_app. destruct (verify_lines genesis_hash 1 lines) as [h0|]; [|done].
    specialize (IH h0 eq_refl). cbn [verify_lines]. unfold read_last_hash in *.
    rewrite last_line_snoc. destruct (is_blank line) eqn:Hb; [by intros [= <-]|].
    intros Hv. destruct (verify_line h0 line _) as [h1|] eqn:Hl; [|done].
    injection Hv as ->. unfold verify_line in Hl.
    destruct (loads float_norm line) as [v|] eqn:Hj; [|done].
    destruct line as [|c line]; [by vm_compute in Hb|]. cbn [truthy negb].
    destruct v as [| | | | | |payload]; try done.
    repeat (cases_in Hl; try done).
Qed.

(* ---------------------------------------------------------------- *)
(** ** Appending keeps the chain valid *)

Section serialiser.
(** pydantic's text of a model is JSON that reads back as the same value. *)
Hypothesis model_dump_json_loads :
forall v, json_wf float_norm v = true -> loads float_norm (model_dump_json v) = Some v.

Lemma dumped_line_not_blank v :
json_wf float_norm v = true -> is_blank (model_dump_json v) = false.
Proof.
intros Hv. unfold is_blank. rewrite truthy_strip, negb_involutive.
destruct (forall_chars is_space (model_dump_json v)) eqn:E; [|done].
apply (loads_blank float_norm) in E. by rewrite model_dump_json_loads in E.
Qed.

(** The line of a record linked to the hash [h] verifies, up to its own hash. *)
Lemma verify_appended_line fields timestamp l r l' n :
fields_wf fields = true ->
append_sync fields timestamp Written l = (Ok r, l') ->
verify_line (al_last_hash l) (model_dump_json (JObj (dump_AuditRecord r))) n
= Ok (al_last_hash l').
Proof.
intros Hwf Happ. unfold verify_line.
assert (Hr : au_fields r = fields) by (by injection Happ as <- _).
rewrite model_dump_json_loads by (apply dump_AuditRecord_wf; by rewrite Hr).
assert (dict_get "previous_hash" (dump_AuditRecord r) = Some (JStr (al_last_hash l))) as ->
  by (by injection Happ as <- _).
assert (dict_get "record_hash" (dump_AuditRecord r) = Some (JStr (al_last_hash l'))) as ->
  by (by injection Happ as <- <-).
assert (record_hash (dict_del "record_hash" (dump_AuditRecord r)) = al_last_hash l') as ->
  by (by injection Happ as <- <-).
rewrite bool_decide_true by done. cbn [negb]. by rewrite String.eqb_refl.
Qed.

Definition log_ok (l : AuditLogger) : Prop :=
verify_lines genesis_hash 1 (default [] (al_file l)) = Ok (al_last_hash l).

Lemma log_ok_restart l : log_ok l -> open_logger (al_file l) = Ok l.
Proof.
unfold log_ok, open_logger. destruct l as [[lines|] h]; cbn [al_file al_last_hash].
- intros Hv. by rewrite (read_last_hash_verified lines h Hv).
- by intros [= <-].
Qed.

Lemma log_ok_verifies l : log_ok l -> verify_audit_file (al_file l) = Ok true.
Proof.
  unfold log_ok, verify_audit_file. destruct (al_file l); [|done]. cbn. by intros ->.
Qed.

Lemma default_append_line file line :
default [] (append_line file line) = default [] file ++ [line].
Proof. done. Qed.

Lemma log_step_ok l ev :
log_ok l -> event_wf ev = true ->
log_ok (log_step l ev) /\
default [] (al_file (log_step l ev)) =
  default [] (al_file l) ++
  map (fun r => model_dump_json (JObj (dump_AuditRecord r))) (run_records [ev] l).
Proof.
intros Hl Hwf. destruct ev as [fields timestamp w|]; cbn [log_step run_records].
- cbn in Hwf. apply andb_true_iff in Hwf as [Hwf Hw].
  destruct (append_sync fields timestamp w l) as [res l'] eqn:Happ.
  destruct w; [|by injection Happ as <- <-; cbn; rewrite app_nil_r|done].
  destruct res as [r|e]; [|done]. cbn [fst snd].
  assert (Hfile : al_file l' = append_line (al_file l) (model_dump_json (JObj (dump_AuditRecord r))))
    by (by injection Happ as <- <-).
  split; [|by rewrite Hfile].
  unfold log_ok. rewrite Hfile, default_append_line.
  rewrite verify_lines_app, Hl. cbn [verify_lines].
  rewrite dumped_line_not_blank.
  + by erewrite (verify_appended_line fields timestamp l r l').
  + apply dump_AuditRecord_wf. by injection Happ as <- _.
- rewrite log_ok_restart by done. cbn. by rewrite app_nil_r.
Qed.

Lemma run_records_cons ev evs l :
run_records (ev :: evs) l = run_records [ev] l ++ run_records evs (log_step l ev).
Proof. cbn [run_records]. by rewrite app_nil_r. Qed.

Lemma log_run_ok evs l :
log_ok l -> forallb event_wf evs = true ->
log_ok (log_run evs l) /\
default [] (al_file (log_run evs l)) =
  default [] (al_file l) ++
  map (fun r => model_dump_json (JObj (dump_AuditRecord r))) (run_records evs l).
Proof.
revert l. induction evs as [|ev evs IH]; intros l Hl Hwf.
- cbn. by rewrite app_nil_r.
- cbn in Hwf. apply andb_true_iff in Hwf as [Hev Hwf].
  destruct (log_step_ok l ev Hl Hev) as [Hl' Hf].
  destruct (IH _ Hl' Hwf) as [Hl'' Hf'].
  rewrite run_records_cons, map_app. cbn [log_run fold_left].
  split; [done|]. fold (log_run evs (log_step l ev)). by rewrite Hf', Hf, app_assoc.
Qed.
(* ---------------------------------------------------------------- *)
(** ** Lines whose durability barrier failed *)

Definition event_fields_wf (ev : log_event) : bool :=
  match ev with Append fields _ _ => fields_wf fields | Restart => true end.

(** The records whose lines an event, and a run, leave in the file: also those of
    appends that failed at the durability barrier. *)
Definition file_record (ev : log_event) (l : AuditLogger) : list AuditRecord :=
  match ev with
  | Append fields timestamp (Written | SyncFailed) => [signed_record fields timestamp (al_last_hash l)]
  | _ => []
  end.
Fixpoint file_records (evs : list log_event) (l : AuditLogger) : list AuditRecord :=
  match evs with
  | [] => []
  | ev :: evs' => file_record ev l ++ file_records evs' (log_step l ev)
  end.

(** How the logger stands to its file: in step with it; behind it by the line whose
    barrier failed; or the file has a line that does not link to the one before. *)
Inductive chain_state := InStep | Behind | Forked.
Definition chain_step (st : chain_state) (ev : log_event) : chain_state :=
  match ev, st with
  | Append _ _ OpenFailed, _ => st
  | _, Forked => Forked
  | Restart, _ => InStep
  | Append _ _ Written, InStep => InStep
  | Append _ _ SyncFailed, InStep => Behind
  | Append _ _ _, Behind => Forked
  end.
Definition chain_of (evs : list log_event) : chain_state := fold_left chain_step evs InStep.

Lemma log_step_file l ev :
  default [] (al_file (log_step l ev)) = default [] (al_file l) ++ map record_line (file_record ev l).
Proof.
  destruct ev as [fields timestamp []|]; cbn; rewrite ?app_nil_r; try done.
  unfold open_logger. by destruct (read_last_hash (al_file l)).
Qed.

Lemma log_run_file evs l :
  default [] (al_file (log_run evs l)) = default [] (al_file l) ++ map record_line (file_records evs l).
Proof.
  revert l. induction evs as [|ev evs IH]; intros l; cbn [file_records map]; [by rewrite app_nil_r|].
  cbn [log_run fold_left]. fold (log_run evs (log_step l ev)). by rewrite IH, log_step_file, map_app, app_assoc.
Qed.

Lemma file_records_wf evs l :
  forallb event_fields_wf evs = true -> Forall (fun r => fields_wf (au_fields r) = true) (file_records evs l).
Proof.
  revert l. induction evs as [|ev evs IH]; intros l; cbn [forallb file_records]; [constructor|].
  intros [Hev Hevs]%andb_true_iff. apply Forall_app. split; [|by apply IH].
  destruct ev as [fields timestamp []|]; repeat constructor; done.
Qed.

Lemma open_verified file h :
  verify_lines genesis_hash 1 (default [] file) = Ok h ->
  open_logger file = Ok {| al_file := file; al_last_hash := h |}.
Proof. intros Hv. by apply (log_ok_restart {| al_file := file; al_last_hash := h |}). Qed.

Lemma verify_signed_line fields timestamp h n :
  fields_wf fields = true ->
  verify_line h (record_line (signed_record fields timestamp h)) n =
    Ok (au_record_hash (signed_record fields timestamp h)).
Proof.
  intros Hwf. exact (verify_appended_line fields timestamp {| al_file := None; al_last_hash := h |} _ _ n Hwf eq_refl).
Qed.
Lemma verify_unlinked_line r h n :
  fields_wf (au_fields r) = true -> au_previous_hash r <> h ->
  verify_line h (record_line r) n = Err (integrity_error "Broken audit link on line " n).
Proof.
  intros Hwf Hne. unfold verify_line, record_line.
  rewrite model_dump_json_loads by by apply dump_AuditRecord_wf.
  assert (dict_get "previous_hash" (dump_AuditRecord r) = Some (JStr (au_previous_hash r))) as -> by done.
  by rewrite bool_decide_false by congruence.
Qed.
Lemma verify_snoc lines h r :
  verify_lines genesis_hash 1 lines = Ok h -> fields_wf (au_fields r) = true ->
  verify_lines genesis_hash 1 (lines ++ [record_line r]) = verify_line h (record_line r) (1 + Z.of_nat (length lines)).
Proof.
  intros Hv Hwf. rewrite verify_lines_app, Hv. cbn [verify_lines].
  unfold record_line at 1. rewrite dumped_line_not_blank by by apply dump_AuditRecord_wf. by destruct (verify_line _ _ _).
Qed.

(** What the file of the logger holds in each of these states, [rs] being its records. *)
Definition chain_inv (st : chain_state) (l : AuditLogger) (rs : list AuditRecord) : Prop :=
  let verified := verify_lines genesis_hash 1 (default [] (al_file l)) in
  match st with
  | InStep => log_ok l
  | Behind => exists r, list.last rs = Some r /\ verified = Ok (au_record_hash r) /\ al_last_hash l = au_previous_hash r
  | Forked => (exists n, verified = Err (integrity_error "Broken audit link on line " n)) \/
              (exists r, r ∈ rs /\ au_record_hash r = au_previous_hash r)
  end.

Lemma chain_append st l rs fields timestamp w :
  chain_inv st l rs -> fields_wf fields = true ->
  chain_inv (chain_step st (Append fields timestamp w)) (log_step l (Append fields timestamp w))
    (rs ++ file_record (Append fields timestamp w) l).
Proof.
  intros Hinv Hwf. set (r := signed_record fields timestamp (al_last_hash l)).
  assert (Hw : w = OpenFailed \/ w <> OpenFailed) by (destruct w; auto).
  destruct Hw as [->|Hw]; [cbn; by rewrite app_nil_r|].
  assert (Hfile : default [] (al_file (log_step l (Append fields timestamp w))) = default [] (al_file l) ++ [record_line r])
    by (by destruct w).
  assert (Hr : file_record (Append fields timestamp w) l = [r]) by (by destruct w). rewrite Hr.
  destruct st; cbn [chain_inv] in Hinv.
  - assert (Hv : verify_lines genesis_hash 1 (default [] (al_file l) ++ [record_line r]) = Ok (au_record_hash r)).
    { rewrite (verify_snoc _ _ r Hinv) by done. by apply verify_signed_line. }
    destruct w; [|done|]; cbn [chain_step chain_inv].
    + unfold log_ok. by rewrite Hfile.
    + exists r. by rewrite last_snoc, Hfile.
  - destruct Hinv as (r0 & Hlast & Hv & Hmem). destruct w; [|done|]; cbn [chain_step chain_inv]; rewrite Hfile.
    all: destruct (decide (au_record_hash r0 = au_previous_hash r0)) as [Heq|Hne];
      [right; exists r0; rewrite elem_of_app; eauto using last_Some_elem_of
      |left; eexists; rewrite (verify_snoc _ _ r Hv) by done; apply verify_unlinked_line; [done|cbn; congruence]].
  - assert (Hstep : chain_step Forked (Append fields timestamp w) = Forked) by (by destruct w).
    rewrite Hstep. cbn [chain_inv]. rewrite Hfile. destruct Hinv as [(n & Hv)|(r0 & Hin & Heq)].
    + left. exists n. by rewrite verify_lines_app, Hv.
    + right. exists r0. rewrite elem_of_app. auto.
Qed.

Lemma chain_restart st l rs : chain_inv st l rs -> chain_inv (chain_step st Restart) (log_step l Restart) rs.
Proof.
  destruct st; cbn [chain_step chain_inv].
  - intros Hl. cbn [log_step]. by rewrite log_ok_restart.
  - intros (r & _ & Hv & _). cbn [log_step]. rewrite (open_verified _ _ Hv). exact Hv.
  - pose proof (log_step_file l Restart) as Hfile. cbn [file_record map] in Hfile. rewrite app_nil_r in Hfile.
    by rewrite Hfile.
Qed.

Lemma chain_step_ok st l rs ev :
  chain_inv st l rs -> event_fields_wf ev = true ->
  chain_inv (chain_step st ev) (log_step l ev) (rs ++ file_record ev l).
Proof.
  destruct ev as [fields timestamp w|]; intros Hinv Hwf; [by apply chain_append|].
  cbn [file_record]. rewrite app_nil_r. by apply chain_restart.
Qed.

Lemma chain_run_ok evs st l rs :
  chain_inv st l rs -> forallb event_fields_wf evs = true ->
  chain_inv (fold_left chain_step evs st) (log_run evs l) (rs ++ file_records evs l).
Proof.
  revert st l rs. induction evs as [|ev evs IH]; intros st l rs Hinv; cbn [forallb file_records fold_left].
  - by rewrite app_nil_r.
  - intros [Hev Hevs]%andb_true_iff. rewrite app_assoc. cbn [log_run fold_left].
    apply IH; [|done]. by apply chain_step_ok.
Qed.
End serialiser.

(* ---------------------------------------------------------------- *)
(** ** The chain as a property of the payloads *)

Definition payload_of (line : string) : option jdict :=
  if is_blank line then None
  else match loads float_norm line with Some (JObj p) => Some p | _ => None end.
Definition payloads (lines : list string) : list jdict := omap payload_of lines.

(** [chained p ps h]: every payload carries the hash of its own fields and
    links to the one before it, from [p] to [h]. *)
Fixpoint chained (previous : string) (ps : list jdict) (h : string) : Prop :=
  match ps with
  | [] => h = previous
  | p :: ps' =>
      dict_get "previous_hash" p = Some (JStr previous) /\
      dict_get "record_hash" p = Some (JStr (record_hash (dict_del "record_hash" p))) /\
      chained (record_hash (dict_del "record_hash" p)) ps' h
  end.

Lemma chained_snoc previous ps p h :
  chained previous (ps ++ [p]) h <->
  exists h', chained previous ps h' /\ dict_get "previous_hash" p = Some (JStr h') /\
    dict_get "record_hash" p = Some (JStr h) /\ h = record_hash (dict_del "record_hash" p).
Proof.
  revert previous. induction ps as [|q ps IH]; intros previous; cbn [chained app].
  - split.
    + intros (Hp & Hr & ->). eauto.
    + intros (? & -> & Hp & Hr & ->). eauto.
  - rewrite IH. split.
    + intros (Hp & Hr & h' & Hc & ?). eauto 6.
    + intros (h' & (Hp & Hr & Hc) & ?). eauto 6.
Qed.

Lemma verify_lines_chained previous n lines h :
  verify_lines previous n lines = Ok h -> chained previous (payloads lines) h.
Proof.
  revert previous n. induction lines as [|line lines IH]; intros previous n; cbn.
  - by intros [= ->].
  - unfold payload_of at 1. destruct (is_blank line); [apply IH|].
    destruct (verify_line previous line n) as [h'|] eqn:Hl; [|done]. intros Hv%IH.
    unfold verify_line in Hl. destruct (loads float_norm line) as [[| | | | | |p]|]; try done.
    case_bool_decide as Hp; [|done]. cbn [negb] in Hl.
    destruct (dict_get "record_hash" p) as [[| | | |stored| |]|] eqn:Hr; try done.
    destruct (String.eqb_spec stored (record_hash (dict_del "record_hash" p))) as [->|]; [|done].
    injection Hl as <-. done.
Qed.

(** The same record: same hash, and fields equal up to the order of keys. *)
Definition same_record (p q : jdict) : Prop :=
  dict_get "record_hash" p = dict_get "record_hash" q /\
  json_same (JObj (dict_del "record_hash" p)) (JObj (dict_del "record_hash" q)).

(** The text whose digest is the hash of a record. *)
Definition hashed_text (p : jdict) : string := canonical_json (dict_del "record_hash" p).

(** Two records of the given logs are a collision of the digest. *)
Definition collision (ps qs : list jdict) : Prop :=
  exists p q, p ∈ ps /\ q ∈ qs /\ hashed_text p <> hashed_text q /\
    sha256 (hashed_text p) = sha256 (hashed_text q).
(** A record hashes to the genesis hash. *)
Definition genesis_preimage (ps : list jdict) : Prop :=
  exists p, p ∈ ps /\ sha256 (hashed_text p) = genesis_hash.

Lemma collision_mono ps qs ps' qs' : collision ps qs -> collision (ps ++ ps') (qs ++ qs').
Proof. intros (p & q & ? & ? & ?). exists p, q. rewrite !elem_of_app. auto 6. Qed.
Lemma genesis_preimage_in p ps : p ∈ ps -> record_hash (dict_del "record_hash" p) = genesis_hash ->
  genesis_preimage ps.
Proof. intros ? Hh. by exists p. Qed.
Lemma genesis_preimage_mono ps ps' :
  genesis_preimage ps -> (forall p, p ∈ ps -> p ∈ ps') -> genesis_preimage ps'.
Proof. intros (p & ? & ?) ?. exists p. auto. Qed.

Definition payload_wf (p : jdict) : Prop := json_wf float_norm (JObj p) = true.

Lemma dict_del_wf k p : payload_wf p -> payload_wf (dict_del k p).
Proof.
  unfold payload_wf. cbn [json_wf]. rewrite !andb_true_iff, !bool_decide_eq_true.
  intros [Hok Hf]. split; [by apply dict_del_ok|].
  rewrite forallb_forall in Hf |- *. intros kv Hin. apply Hf. clear -Hin.
  induction p as [|[k' v'] p IH]; [done|]. cbn in Hin. case_decide; cbn in *; tauto.
Qed.

Lemma payload_wf_ok p : payload_wf p -> dict_ok p.
Proof. unfold payload_wf. cbn [json_wf]. by intros [Hok%bool_decide_eq_true _]%andb_true_iff. Qed.

Lemma dict_get_del_previous p :
  payload_wf p -> dict_get "previous_hash" (dict_del "record_hash" p) = dict_get "previous_hash" p.
Proof. intros Hp%payload_wf_ok. by rewrite dict_get_del. Qed.

(** Two chains that end in the same hash hold the same records. *)
Lemma chained_unique ps qs h :
  Forall payload_wf ps -> Forall payload_wf qs ->
  chained genesis_hash ps h -> chained genesis_hash qs h ->
  Forall2 same_record ps qs \/ collision ps qs \/ genesis_preimage (ps ++ qs).
Proof.
  revert qs h. induction ps as [|p ps IH] using rev_ind; intros qs h Hps Hqs Hp Hq.
  - destruct qs as [|q qs _] using rev_ind; [left; constructor|].
    cbn in Hp. subst. apply chained_snoc in Hq as (h' & _ & _ & _ & Hh).
    right; right. eapply (genesis_preimage_in q); [|congruence].
    rewrite !elem_of_app, list_elem_of_singleton. auto.
  - apply chained_snoc in Hp as (h1 & Hp & Hprev & Hrec & Hh).
    destruct qs as [|q qs _] using rev_ind.
    { cbn in Hq. right; right. eapply (genesis_preimage_in p); [|congruence].
      rewrite !elem_of_app, list_elem_of_singleton. auto. }
    apply chained_snoc in Hq as (h2 & Hq & Hprev' & Hrec' & Hh').
    apply Forall_app in Hps as [Hps Hwp], Hqs as [Hqs Hwq].
    apply (proj1 (Forall_singleton _ _)) in Hwp, Hwq.
    destruct (decide (hashed_text p = hashed_text q)) as [Hc|Hc].
    2:{ right; left. exists p, q. rewrite !elem_of_app, !list_elem_of_singleton.
        unfold record_hash, hashed_text in *. split_and!; auto. congruence. }
    assert (Hsame : json_same (JObj (dict_del "record_hash" p)) (JObj (dict_del "record_hash" q))).
    { eapply (dumps_compact_inj float_norm); [by apply dict_del_wf..|done]. }
    assert (h1 = h2) as <-.
    { pose proof (json_same_get "previous_hash" _ _
        (payload_wf_ok _ (dict_del_wf _ _ Hwp)) (payload_wf_ok _ (dict_del_wf _ _ Hwq)) Hsame) as Hg.
      rewrite !dict_get_del_previous, Hprev, Hprev' in Hg by done.
      cbn in Hg. congruence. }
    destruct (IH _ _ Hps Hqs Hp Hq) as [HF|[Hbad|Hbad]].
    + left. apply Forall2_app; [done|]. constructor; [|constructor].
      split; [congruence|done].
    + right; left. by apply collision_mono.
    + right; right. eapply genesis_preimage_mono; [done|].
      intros x. rewrite !elem_of_app. tauto.
Qed.
End audit.

(* ------------------------------------------------------------------ *)
(** ** Properties *)

Section properties.
Context `{Rendering} (sha256 : string -> string) (model_dump_json : json -> string).
Context (float_norm : string -> string).
Context (model_dump_json_loads :
  forall v, json_wf float_norm v = true -> loads float_norm (model_dump_json v) = Some v).

(** C9: the audit file under every sequence of appends (of fields that JSON can
    carry) and restarts, where an append may fail to open the file, or fail at the
    durability barrier once its line is in the file.  The lines read back as exactly
    the records whose lines were written, in order.  The file verifies and a
    restart resumes from it, as long as no line was appended after one whose
    barrier had failed without a restart in between; a restart resumes from the hash
    in memory, or from the hash of the line whose barrier failed.  Otherwise the
    verifier rejects the file for a broken link, unless some record has the hash of the
    record before it. *)
Theorem audit_log_verifies evs :
  forallb (event_fields_wf float_norm) evs = true ->
  let l := log_run sha256 model_dump_json float_norm evs new_logger in
  let rs := file_records sha256 model_dump_json float_norm evs new_logger in
  map (loads float_norm) (default [] (al_file l)) = map (fun r => Some (JObj (dump_AuditRecord r))) rs /\
  match chain_of evs with
  | InStep =>
      verify_audit_file sha256 float_norm (al_file l) = Ok true /\ open_logger float_norm (al_file l) = Ok l
  | Behind =>
      verify_audit_file sha256 float_norm (al_file l) = Ok true /\
      exists r, list.last rs = Some r /\
        open_logger float_norm (al_file l) = Ok {| al_file := al_file l; al_last_hash := au_record_hash r |}
  | Forked =>
      (exists n, verify_audit_file sha256 float_norm (al_file l) =
                   Err (integrity_error "Broken audit link on line " n)) \/
      (exists r, r ∈ rs /\ au_record_hash r = au_previous_hash r)
  end.
Proof.
  intros Hwf l rs.
  pose proof (chain_run_ok sha256 model_dump_json float_norm model_dump_json_loads evs InStep new_logger []
    eq_refl Hwf) as Hinv.
  fold (chain_of evs) l in Hinv. rewrite app_nil_l in Hinv. fold rs in Hinv. split.
  - unfold l. rewrite log_run_file. cbn [app al_file new_logger default from_option]. rewrite map_map.
    apply map_ext_Forall. eapply Forall_impl; [by apply (file_records_wf sha256 model_dump_json)|].
    intros r Hr. by apply model_dump_json_loads, dump_AuditRecord_wf.
  - destruct (chain_of evs); cbn [chain_inv] in Hinv.
    + split; [by apply log_ok_verifies|by eapply log_ok_restart].
    + destruct Hinv as (r & Hlast & Hv & _). pose proof (open_verified _ _ _ _ Hv) as Hopen.
      split; [|by exists r]. unfold verify_audit_file. destruct (al_file l); [|done]. cbn in Hv. by rewrite Hv.
    + destruct Hinv as [(n & Hv)|Hsame]; [left|by right]. exists n. unfold verify_audit_file.
      destruct (al_file l); [cbn in Hv; by rewrite Hv|done].
Qed.

(** C10: two audit files that verify and end in the same hash hold the same
    records in the same order, field for field, unless the records of the two
    files themselves are a collision of the digest or hash to the genesis
    hash. *)
Theorem audit_tamper_evident lines lines' h :
  verify_lines sha256 float_norm genesis_hash 1 lines = Ok h ->
  verify_lines sha256 float_norm genesis_hash 1 lines' = Ok h ->
  Forall (payload_wf float_norm) (payloads float_norm lines) ->
  Forall (payload_wf float_norm) (payloads float_norm lines') ->
  Forall2 same_record (payloads float_norm lines) (payloads float_norm lines') \/
  collision sha256 (payloads float_norm lines) (payloads float_norm lines') \/
  genesis_preimage sha256 (payloads float_norm lines ++ payloads float_norm lines').
Proof.
  intros Hv Hv' Hwf Hwf'. eapply chained_unique; eauto using verify_lines_chained.
Qed.

(** An append whose durability barrier fails leaves its line in the file
    but not in memory, so the next successful append breaks the chain: the
    verifier rejects the file at that line. *)
Theorem audit_sync_failure_breaks_chain l r l' fields timestamp fields2 timestamp2 :
  log_ok sha256 float_norm l -> fields_wf float_norm fields = true ->
  fields_wf float_norm fields2 = true ->
  append_sync sha256 model_dump_json fields timestamp Written l = (Ok r, l') ->
  al_last_hash l' <> al_last_hash l ->
  let failed := (append_sync sha256 model_dump_json fields timestamp SyncFailed l).2 in
  let next := (append_sync sha256 model_dump_json fields2 timestamp2 Written failed).2 in
  verify_audit_file sha256 float_norm (al_file next) =
    Err (integrity_error "Broken audit link on line "
           (Z.of_nat (length (default [] (al_file l))) + 2)).
Proof.
  intros Hok Hwf Hwf2 Happ Hne failed next.
  assert (Hr : au_fields r = fields) by (by injection Happ as <- _).
  set (line := model_dump_json (JObj (dump_AuditRecord r))).
  assert (Hf : failed = {| al_file := append_line (al_file l) line; al_last_hash := al_last_hash l |})
    by (by injection Happ as <- _).
  clearbody failed. subst failed next.
  destruct (append_sync _ _ fields2 _ _ _) as [[r2|] l2] eqn:Happ2; [|done].
  assert (Hr2 : au_fields r2 = fields2 /\ au_previous_hash r2 = al_last_hash l)
    by (by injection Happ2 as <- _).
  destruct Hr2 as [Hr2 Hprev].
  assert (Hn : al_file l2 = append_line (append_line (al_file l) line)
                              (model_dump_json (JObj (dump_AuditRecord r2))))
    by (by injection Happ2 as <- <-).
  cbn [snd].
  rewrite Hn. unfold append_line, verify_audit_file. cbn [default from_option id].
  rewrite <- app_assoc, verify_lines_app. unfold log_ok in Hok. cbn [default from_option] in Hok.
  rewrite Hok. cbn [app verify_lines].
  pose proof (verify_appended_line sha256 model_dump_json float_norm model_dump_json_loads) as Hline.
  pose proof (dumped_line_not_blank model_dump_json float_norm model_dump_json_loads) as Hblank.
  unfold line.
  rewrite (Hblank (JObj (dump_AuditRecord r))) by (apply dump_AuditRecord_wf; by rewrite Hr).
  rewrite (Hblank (JObj (dump_AuditRecord r2))) by (apply dump_AuditRecord_wf; by rewrite Hr2).
  rewrite (Hline fields timestamp l r l') by done.
  unfold verify_line.
  rewrite model_dump_json_loads by (apply dump_AuditRecord_wf; by rewrite Hr2).
  assert (dict_get "previous_hash" (dump_AuditRecord r2) = Some (JStr (al_last_hash l))) as ->
    by (by rewrite <- Hprev).
  rewrite bool_decide_false by congruence. cbn [negb result_map].
  do 2 f_equal. lia.
Qed.
End properties.

(* ------------------------------------------------------------------ *)
(** ** Witnesses *)

Module witness.
#[export] Instance rendering : Rendering :=
  {| iso_datetime := print_int; float_text _ := "1.5" |}.

Definition fields (call_id : string) : AuditFields :=
  {| af_call_id := call_id; af_session_id := "s"; af_trace_id := "t"; af_tool_name := "db_query";
     af_arguments := [("query", JStr "SELECT 1"); ("max_rows", JInt 5)];
     af_policy_input := [("tool_name", JStr "db_query")];
     af_policy_decision := "allow"; af_matched_rule := Some "read_only_tool";
     af_approver_identity := None; af_sandbox_runtime := "gvisor";
     af_attempts := [{| at_attempt := 1; at_started_at := 3; at_finished_at := Some 4;
                        at_outcome := Some "succeeded"; at_error := None |}];
     af_repair_attempts := []; af_outcome := "succeeded"; af_duration_ms := 3 # 2;
     af_principal := Some {| pr_subject := "alice"; pr_tenant_id := "acme"; pr_roles := [USER];
                             pr_issuer := None; pr_agent_id := None |} |}.

(** A digest without collisions, and the printer of [Json] as serialiser. *)
Definition digest (s : string) : string := s.
Definition events : list log_event :=
  [Append (fields "a") 10 Written; Append (fields "b") 11 OpenFailed; Restart;
   Append (fields "c") 12 Written].
(** A barrier fails, the process restarts. *)
Definition faulty_events : list log_event :=
  [Append (fields "a") 10 Written; Append (fields "b") 11 SyncFailed; Restart; Append (fields "c") 12 Written].
End witness.
#[local] Existing Instance witness.rendering.

Lemma audit_log_verifies_witness :
  let l := log_run witness.digest dumps id witness.faulty_events new_logger in
  verify_audit_file witness.digest id (al_file l) = Ok true.
Proof.
  pose proof (audit_log_verifies witness.digest dumps id (fun v => loads_print id true v)
    witness.faulty_events) as Hv.
  apply Hv. vm_compute. reflexivity.
Defined.

(** The second file has a blank line more. *)
Lemma audit_tamper_evident_witness :
  let lines := default [] (al_file (log_run witness.digest dumps id witness.events new_logger)) in
  Forall2 same_record (payloads id lines) (payloads id (lines ++ [""])) \/
  collision witness.digest (payloads id lines) (payloads id (lines ++ [""])) \/
  genesis_preimage witness.digest (payloads id lines ++ payloads id (lines ++ [""])).
Proof.
  apply (audit_tamper_evident witness.digest id _ _
           (al_last_hash (log_run witness.digest dumps id witness.events new_logger))).
  - vm_compute. reflexivity.
  - vm_compute. reflexivity.
  - unfold payload_wf. apply forallb_Forall_true. vm_compute. reflexivity.
  - unfold payload_wf. apply forallb_Forall_true. vm_compute. reflexivity.
Defined.

Lemma audit_sync_failure_breaks_chain_witness :
  let l := log_run witness.digest dumps id [Append (witness.fields "a") 10 Written] new_logger in
  let failed := (append_sync witness.digest dumps (witness.fields "b") 11 SyncFailed l).2 in
  let next := (append_sync witness.digest dumps (witness.fields "c") 12 Written failed).2 in
  verify_audit_file witness.digest id (al_file next) =
    Err (integrity_error "Broken audit link on line " 3).
Proof.
  pose (l := log_run witness.digest dumps id [Append (witness.fields "a") 10 Written] new_logger).
  destruct (append_sync witness.digest dumps (witness.fields "b") 11 Written l) as [[r|e] l'] eqn:Happ.
  - apply (audit_sync_failure_breaks_chain witness.digest dumps id (fun v => loads_print id true v)
             l r l' (witness.fields "b") 11 (witness.fields "c") 12).
    + vm_compute. reflexivity.
    + vm_compute. reflexivity.
    + vm_compute. reflexivity.
    + exact Happ.
    + injection Happ as <- <-. vm_compute. discriminate.
  - discriminate Happ.
Defined.
