(* ===== verification/Encoding.v ===== *)
(** * A total serialiser

    pydantic's [model_dump_json] and [model_validate_json] are parameters of the
    development, with the hypothesis that reading back what was written gives the
    model.  This file shows that the hypothesis can hold: every model is countable
    (through stdpp's encodings), hence has a text that determines it. *)

From S2P Require Import Prelude Dict Json Models.
From Stdlib Require Import Ascii.

(* ------------------------------------------------------------------ *)
(** ** JSON values are countable *)

Abbreviation leaf_t := (unit + bool + Z + (bool * string))%type.

Fixpoint json_tree (v : json) : gen_tree leaf_t :=
  match v with
  | JNull => GenLeaf (inl (inl (inl tt)))
  | JBool b => GenLeaf (inl (inl (inr b)))
  | JInt z => GenLeaf (inl (inr z))
  | JFloat t => GenLeaf (inr (true, t))
  | JStr s => GenLeaf (inr (false, s))
  | JList l => GenNode 0 (map json_tree l)
  | JObj kvs => GenNode 1 (map (fun kv => GenNode 2 [GenLeaf (inr (false, kv.1)); json_tree kv.2]) kvs)
  end.

Fixpoint tree_json (t : gen_tree leaf_t) : json :=
  match t with
  | GenLeaf (inl (inl (inl _))) => JNull
  | GenLeaf (inl (inl (inr b))) => JBool b
  | GenLeaf (inl (inr z)) => JInt z
  | GenLeaf (inr (true, t)) => JFloat t
  | GenLeaf (inr (false, s)) => JStr s
  | GenNode 0 l => JList (map tree_json l)
  | GenNode _ l =>
      JObj (map (fun t => match t with
                          | GenNode _ [GenLeaf (inr (_, k)); t'] => (k, tree_json t')
                          | _ => (EmptyString, JNull)
                          end) l)
  end.

Lemma tree_json_tree v : tree_json (json_tree v) = v.
Proof.
  induction v as [| | | | |l IH|kvs IH] using json_induction; cbn; try done; f_equal;
    rewrite map_map.
  - induction IH as [|x l Hx _ IH]; cbn; [done|]. by rewrite Hx, IH.
  - induction IH as [|[k x] l Hx _ IH]; cbn; [done|]. cbn in Hx. by rewrite Hx, IH.
Qed.

#[export, refine] Instance json_countable : Countable json := inj_countable' json_tree tree_json _.
Proof. exact tree_json_tree. Defined.

(* ------------------------------------------------------------------ *)
(** ** Enumerations and records are countable *)

#[export, refine] Instance StrEnum_countable {A} `{EqDecision A, StrEnum A} : Countable A :=
  inj_countable value of_value _.
Proof. exact of_value_value. Defined.

#[export, refine] Instance Principal_countable : Countable Principal :=
  inj_countable'
    (fun p => (pr_subject p, pr_tenant_id p, pr_roles p, pr_issuer p, pr_agent_id p))
    (fun '(a, b, c, d, e) => {| pr_subject := a; pr_tenant_id := b; pr_roles := c;
                                pr_issuer := d; pr_agent_id := e |}) _.
Proof. by intros []. Defined.

#[export, refine] Instance StateTransition_countable : Countable StateTransition :=
  inj_countable' (fun t => (st_state t, st_timestamp t, st_error t))
    (fun '(a, b, c) => {| st_state := a; st_timestamp := b; st_error := c |}) _.
Proof. by intros []. Defined.

#[export, refine] Instance AttemptRecord_countable : Countable AttemptRecord :=
  inj_countable'
    (fun t => (at_attempt t, at_started_at t, at_finished_at t, at_outcome t, at_error t))
    (fun '(a, b, c, d, e) => {| at_attempt := a; at_started_at := b; at_finished_at := c;
                                at_outcome := d; at_error := e |}) _.
Proof. by intros []. Defined.

#[export, refine] Instance ToolCallRecord_countable : Countable ToolCallRecord :=
  inj_countable'
    (fun r => ((tc_call_id r, tc_trace_id r, tc_session_id r, tc_tool_name r),
               (tc_risk_class r, tc_arguments r, tc_current_state r, tc_transitions r),
               (tc_attempts r, tc_created_at r, tc_updated_at r, tc_principal r)))
    (fun '((a, b, c, d), (e, f, g, h), (i, j, k, l)) =>
       {| tc_call_id := a; tc_trace_id := b; tc_session_id := c; tc_tool_name := d;
          tc_risk_class := e; tc_arguments := f; tc_current_state := g; tc_transitions := h;
          tc_attempts := i; tc_created_at := j; tc_updated_at := k; tc_principal := l |}) _.
Proof. by intros []. Defined.

#[export, refine] Instance ApprovalRequest_countable : Countable ApprovalRequest :=
  inj_countable'
    (fun r => ((ap_approval_id r, ap_call_id r, ap_tool_name r, ap_arguments r, ap_policy_input r),
               (ap_matched_rule r, ap_created_at r, ap_decision r, ap_approver r, ap_reason r)))
    (fun '((a, b, c, d, e), (f, g, h, i, j)) =>
       {| ap_approval_id := a; ap_call_id := b; ap_tool_name := c; ap_arguments := d;
          ap_policy_input := e; ap_matched_rule := f; ap_created_at := g; ap_decision := h;
          ap_approver := i; ap_reason := j |}) _.
Proof. by intros []. Defined.

(* ------------------------------------------------------------------ *)
(** ** Texts of countable values *)

Fixpoint text_of_pos (p : positive) : string :=
  match p with
  | xH => ""
  | xO p => String "0"%char (text_of_pos p)
  | xI p => String "1"%char (text_of_pos p)
  end.
Fixpoint pos_of_text (s : string) : positive :=
  match s with
  | EmptyString => xH
  | String c s => if bool_decide (c = "0"%char) then xO (pos_of_text s) else xI (pos_of_text s)
  end.

Lemma pos_of_text_of_pos p : pos_of_text (text_of_pos p) = p.
Proof. induction p as [p IH|p IH|]; cbn; rewrite ?IH; done. Qed.

Section encoding.
Context {A : Type} `{Countable A}.
Definition to_text (a : A) : string := text_of_pos (encode a).
Definition of_text {E} (e : E) (s : string) : result E A := ok_or (decode (pos_of_text s)) e.

Lemma of_text_to_text {E} (e : E) a : of_text e (to_text a) = Ok a.
Proof. unfold of_text, to_text. by rewrite pos_of_text_of_pos, decode_encode. Qed.
End encoding.
