(* ===== verification/Redis.v ===== *)
(** * The Redis service

    Redis and its client library are not part of the repository.  This file names
    the operations the gateway uses (with their answers) and states, as the laws
    of a class, the documented behaviour the gateway relies on: string and list
    values, atomic transactions, and optimistic locking with WATCH.  Key expiry
    is left out: the laws describe keys within their time to live. *)

From S2P Require Import Prelude Models Errors Effects.
Open Scope Z_scope.

Inductive redis_value := RString (s : string) | RList (l : list string).

(** Commands queued in a transaction. *)
Inductive redis_cmd :=
| CSet (key value : string) (ex : Z)
| CRpush (key value : string)
| CExpire (key : string) (ttl : Z).

Inductive redis_op :=
| RGet (key : string)
| RSet (key value : string) (ex : Z)
| RWatch (key : string)
| RExec (cmds : list redis_cmd)
| RLrange (key : string)
| RScan (prefix : string)
| RPing.

Definition redis_sig : signature :=
  {| op := redis_op;
     ans o := match o with
              | RGet _ => option string
              | RSet _ _ _ | RWatch _ | RExec _ => unit
              | RLrange _ | RScan _ => list string
              | RPing => bool
              end |}.

(** What the commands of a transaction do to the values. *)
Definition apply_cmd (v : string -> option redis_value) (c : redis_cmd) : string -> option redis_value :=
  match c with
  | CSet key value _ => fun k => if decide (k = key) then Some (RString value) else v k
  | CRpush key value => fun k =>
      if decide (k = key) then
        match v key with
        | None => Some (RList [value])
        | Some (RList l) => Some (RList (l ++ [value]))
        | Some (RString s) => Some (RString s)
        end
      else v k
  | CExpire _ _ => v
  end.
Definition apply_cmds (cmds : list redis_cmd) (v : string -> option redis_value) :
    string -> option redis_value := fold_left apply_cmd cmds v.

(** RPUSH applies to a list or to a missing key. *)
Definition cmd_ok (v : string -> option redis_value) (c : redis_cmd) : Prop :=
  match c with CRpush key _ => forall s, v key <> Some (RString s) | _ => True end.

Definition cmd_key (c : redis_cmd) : string :=
  match c with CSet k _ _ | CRpush k _ | CExpire k _ => k end.

(** The failures of the client library and of the network, except a lost race. *)
Definition redis_fault (e : exc) : Prop :=
  catches [RedisError; OSError] e = true /\ catches [WatchError] e = false.

Definition watch_error : exc := EPy WatchError "Watched variable changed.".

(** The watch state of a key when the keys of [cmds] are written. *)
Definition touched (cmds : list redis_cmd) (k : string) (o : option bool) : option bool :=
  if decide (k ∈ map cmd_key cmds) then (fun _ => false) <$> o else o.

(** The documented behaviour.  [rs_watch w c k]: [None] when the connection of
    client [c] does not watch [k], [Some true] when it watches [k] and nobody
    wrote [k] since, [Some false] when somebody did.  [RWatch] is the WATCH of a
    new pipeline, which has a connection of its own. *)
Class RedisServer (W : Type) := {
  respond : W -> nat -> forall o : op redis_sig, result exc (ans redis_sig o) -> W -> Prop;
  rs_value : W -> string -> option redis_value;
  rs_watch : W -> nat -> string -> option bool;

  respond_get w c k r w' : respond w c (RGet k) r w' ->
    (forall k, rs_value w' k = rs_value w k) /\
    (forall c k, rs_watch w' c k = rs_watch w c k) /\
    match r with
    | Ok v => rs_value w k = RString <$> v
    | Err e => redis_fault e
    end;

  respond_set w c k s ex r w' : respond w c (RSet k s ex) r w' ->
    (forall k', rs_value w' k' = rs_value w k') /\ (exists e, r = Err e /\ redis_fault e) \/
    (forall k', rs_value w' k' = apply_cmds [CSet k s ex] (rs_value w) k') /\
    match r with Ok _ => True | Err e => redis_fault e end;

  respond_watch w c k r w' : respond w c (RWatch k) r w' ->
    (forall k', rs_value w' k' = rs_value w k') /\
    (forall c' k', c' <> c -> rs_watch w' c' k' = rs_watch w c' k') /\
    match r with
    | Ok _ => forall k', rs_watch w' c k' = if decide (k' = k) then Some true else None
    | Err e => redis_fault e
    end;

  (** A transaction happens entirely or not at all.  It happens only if no key
      its connection watches was written, and a race is reported only if one was.
      A fault may be reported of a transaction that happened. *)
  respond_exec w c cmds r w' :
    respond w c (RExec cmds) r w' -> Forall (cmd_ok (rs_value w)) cmds ->
    (forall k', rs_watch w' c k' = None) /\
    ((forall k', rs_value w' k' = rs_value w k') /\
     (forall c' k', c' <> c -> rs_watch w' c' k' = rs_watch w c' k') /\
     (exists e, r = Err e /\
        (redis_fault e \/ e = watch_error /\ exists k', rs_watch w c k' = Some false))
     \/
     (forall k', rs_value w' k' = apply_cmds cmds (rs_value w) k') /\
     (forall c' k', c' <> c -> rs_watch w' c' k' = touched cmds k' (rs_watch w c' k')) /\
     (forall k', rs_watch w c k' <> Some false) /\
     match r with Ok _ => True | Err e => redis_fault e end);

  respond_lrange w c k r w' : respond w c (RLrange k) r w' ->
    (forall k', rs_value w' k' = rs_value w k') /\
    match r with
    | Ok l => rs_value w k = Some (RList l) \/ rs_value w k = None /\ l = []
    | Err e => redis_fault e
    end;

  respond_scan w c prefix r w' : respond w c (RScan prefix) r w' ->
    (forall k', rs_value w' k' = rs_value w k') /\
    match r with
    | Ok l => NoDup l /\ forall k, k ∈ l <-> is_Some (rs_value w k) /\ String.prefix prefix k = true
    | Err e => redis_fault e
    end
}.

(* ------------------------------------------------------------------ *)
(** ** A server that has the laws

    The documented behaviour without faults, used to show that the laws can hold. *)

Module Simple.
Record server := {
  values : gmap string redis_value;
  watches : gmap nat (gmap string bool)
}.

Definition empty : server := {| values := ∅; watches := ∅ |}.

Definition watch_of (w : server) (c : nat) : gmap string bool := default ∅ (watches w !! c).

Definition run_cmd (v : gmap string redis_value) (c : redis_cmd) : gmap string redis_value :=
  match c with
  | CSet key value _ => <[key := RString value]> v
  | CRpush key value =>
      match v !! key with
      | None => <[key := RList [value]]> v
      | Some (RList l) => <[key := RList (l ++ [value])]> v
      | Some (RString _) => v
      end
  | CExpire _ _ => v
  end.

Definition touch (cmds : list redis_cmd) (m : gmap string bool) : gmap string bool :=
  map_imap (fun k b => touched cmds k (Some b)) m.

Definition step (w : server) (c : nat) (o : op redis_sig) : result exc (ans redis_sig o) * server :=
  match o with
  | RGet k =>
      (match values w !! k with
       | None => Ok None
       | Some (RString s) => Ok (Some s)
       | Some (RList _) => Err (EPy RedisError "WRONGTYPE")
       end, w)
  | RSet k s ex =>
      (Ok tt, {| values := run_cmd (values w) (CSet k s ex);
                 watches := touch [CSet k s ex] <$> watches w |})
  | RWatch k => (Ok tt, {| values := values w; watches := <[c := {[k := true]}]> (watches w) |})
  | RExec cmds =>
      if decide (map_Exists (fun _ b => b = false) (watch_of w c))
      then (Err watch_error, {| values := values w; watches := delete c (watches w) |})
      else (Ok tt, {| values := fold_left run_cmd cmds (values w);
                      watches := delete c (touch cmds <$> watches w) |})
  | RLrange k =>
      (match values w !! k with
       | None => Ok []
       | Some (RList l) => Ok l
       | Some (RString _) => Err (EPy RedisError "WRONGTYPE")
       end, w)
  | RScan prefix => (Ok (filter (fun k => String.prefix prefix k = true) (map_to_list (values w)).*1), w)
  | RPing => (Ok true, w)
  end.

Lemma run_cmds_spec cmds v k :
  fold_left run_cmd cmds v !! k = apply_cmds cmds (fun k => v !! k) k.
Proof.
  unfold apply_cmds. revert v. assert (Hext : forall cmds f g k, (forall k, f k = g k) ->
    fold_left apply_cmd cmds f k = fold_left apply_cmd cmds g k).
  { clear. intros cmds. induction cmds as [|c cmds IH]; intros f g k Hfg; cbn; [done|].
    apply IH. intros k'. destruct c; cbn; rewrite ?Hfg; done. }
  induction cmds as [|c cmds IH]; intros v; cbn; [done|]. rewrite IH. apply Hext. intros k'.
  destruct c as [key s ex|key s|key ttl]; cbn; [|destruct (v !! key) as [[s'|l]|] eqn:Hk|done];
    rewrite ?lookup_insert; repeat case_decide; subst; try congruence.
Qed.

Lemma watch_of_touch cmds w c k :
  (default ∅ ((touch cmds <$> watches w) !! c) : gmap string bool) !! k =
  touched cmds k (watch_of w c !! k).
Proof.
  unfold watch_of. rewrite lookup_fmap. destruct (watches w !! c) as [m|]; cbn.
  - unfold touch. rewrite map_lookup_imap. destruct (m !! k); cbn; [done|].
    unfold touched. by case_decide.
  - rewrite !lookup_empty. unfold touched. by case_decide.
Qed.

Lemma fault_wrongtype : redis_fault (EPy RedisError "WRONGTYPE").
Proof. done. Qed.

#[export, refine] Instance simple_redis : RedisServer server :=
  {| respond := answers step;
     rs_value w k := values w !! k;
     rs_watch w c k := watch_of w c !! k |}.
Proof.
  - intros w c k r w'. unfold answers. cbn. destruct (values w !! k) as [[s|l]|] eqn:Hk; intros [= <- <-]; cbn;
      rewrite ?Hk; eauto using fault_wrongtype.
  - intros w c k s ex r w' [= <- <-]. right. split; [|done]. intros k'. apply (run_cmds_spec [CSet k s ex]).
  - intros w c k r w' [= <- <-]. cbn. unfold watch_of. cbn. split_and!; [done| |].
    + intros c' k' Hne. by rewrite lookup_insert_ne.
    + intros k'. rewrite lookup_insert_eq. cbn. rewrite lookup_singleton.
      repeat case_decide; congruence.
  - intros w c cmds r w' Hr _. unfold answers in Hr. cbn in Hr. unfold watch_of in *.
    destruct (decide (map_Exists _ _)) as [Hd|Hd]; injection Hr as <- <-; cbn.
    + split; [intros k'; by rewrite lookup_delete_eq|]. left. split_and!; [done| |].
      * intros c' k' Hne. by rewrite lookup_delete_ne.
      * exists watch_error. split; [done|]. right. split; [done|]. destruct Hd as (k & b & Hk & ->). eauto.
    + split; [intros k'; by rewrite lookup_delete_eq|]. right. split_and!; [| | |done].
      * intros k'. apply run_cmds_spec.
      * intros c' k' Hne. rewrite lookup_delete_ne by done. apply watch_of_touch.
      * intros k' Hk'. apply Hd. eexists _, _. eauto.
  - intros w c k r w'. unfold answers. cbn. destruct (values w !! k) as [[s|l]|] eqn:Hk; intros [= <- <-]; cbn;
      rewrite ?Hk; eauto using fault_wrongtype.
  - intros w c prefix r w' [= <- <-]. cbn. split; [done|]. split.
    + apply NoDup_filter, NoDup_fst_map_to_list.
    + intros k. rewrite list_elem_of_filter. rewrite list_elem_of_fmap. split.
      * intros (Hp & [k' v] & -> & Hin%elem_of_map_to_list). cbn. split; [eauto|done].
      * intros ([v Hv] & Hp). split; [done|]. exists (k, v). split; [done|]. by apply elem_of_map_to_list.
Defined.
End Simple.
