(* ===== verification/StateStore.v ===== *)
(** * Tool-call lifecycle state

    [gateway/state/redis_store.py]: the update functions both stores share, the
    in-memory store as a pure state, the Redis store as a program over the Redis
    service, and the contract [StateStore] both of them satisfy.  The readings of
    the clock are arguments.  The in-memory store keeps and returns deep copies,
    so its records are values here. *)

From S2P Require Import Prelude Pystr Json Models Errors Effects Encoding Redis.
From stdpp Require Import relations.
Open Scope Z_scope.

Definition unavailable : exc := EGateway state_store_unavailable_error.

(* ------------------------------------------------------------------ *)
(** ** The updates of a record *)

Definition with_state (state : ToolCallState) (updated_at : Z) (transitions : list StateTransition)
    (attempts : list AttemptRecord) (r : ToolCallRecord) : ToolCallRecord :=
  {| tc_call_id := tc_call_id r; tc_trace_id := tc_trace_id r; tc_session_id := tc_session_id r;
     tc_tool_name := tc_tool_name r; tc_risk_class := tc_risk_class r;
     tc_arguments := tc_arguments r; tc_current_state := state; tc_transitions := transitions;
     tc_attempts := attempts; tc_created_at := tc_created_at r; tc_updated_at := updated_at;
     tc_principal := tc_principal r |}.

(** [update] of [transition]: one reading of the clock. *)
Definition update_transition (state : ToolCallState) (error : option string) (timestamp : Z)
    (r : ToolCallRecord) : result exc ToolCallRecord :=
  Ok (with_state state timestamp
        (tc_transitions r ++ [{| st_state := state; st_timestamp := timestamp; st_error := error |}])
        (tc_attempts r) r).

(** The first item of [reversed(attempts)] with the number, completed. *)
Fixpoint finish_first (attempt : Z) (outcome : string) (error : option string) (now : Z)
    (reversed : list AttemptRecord) : option (list AttemptRecord) :=
  match reversed with
  | [] => None
  | item :: rest =>
      if at_attempt item =? attempt then
        Some ({| at_attempt := at_attempt item; at_started_at := at_started_at item;
                 at_finished_at := Some now; at_outcome := Some outcome; at_error := error |} :: rest)
      else cons item <$> finish_first attempt outcome error now rest
  end.

(** [update] of [finish_attempt]: two readings of the clock. *)
Definition update_finish (attempt : Z) (outcome : string) (error : option string)
    (now1 now2 : Z) (r : ToolCallRecord) : result exc ToolCallRecord :=
  match finish_first attempt outcome error now1 (reverse (tc_attempts r)) with
  | Some items =>
      Ok (with_state (tc_current_state r) now2 (tc_transitions r) (reverse items) r)
  | None => Err unavailable
  end.

Definition new_attempt (attempt started_at : Z) : AttemptRecord :=
  {| at_attempt := attempt; at_started_at := started_at; at_finished_at := None;
     at_outcome := None; at_error := None |}.

(** [update] of [start_attempt]: two readings of the clock. *)
Definition update_start (attempt : Z) (now1 now2 : Z) (r : ToolCallRecord) :
    result exc ToolCallRecord :=
  Ok (with_state (tc_current_state r) now2 (tc_transitions r)
        (tc_attempts r ++ [new_attempt attempt now1]) r).

(* ------------------------------------------------------------------ *)
(** ** The operations of the protocol *)

Inductive store_op :=
| SCreate (record : ToolCallRecord)
| STransition (call_id : string) (state : ToolCallState) (error : option string)
| SFinish (call_id : string) (attempt : Z) (outcome : string) (error : option string)
| SStart (call_id : string) (attempt : Z)
| SGet (call_id : string)
| SList (session_id : string).

Definition store_ans (o : store_op) : Type :=
  match o with
  | SCreate _ | STransition _ _ _ | SFinish _ _ _ _ | SStart _ _ => unit
  | SGet _ => option ToolCallRecord
  | SList _ => list string
  end.

(* ------------------------------------------------------------------ *)
(** ** [InMemoryStateStore] *)

Record InMemoryStateStore := {
  ms_calls : gmap string ToolCallRecord;
  ms_sessions : gmap string (list string)
}.

Definition empty_store : InMemoryStateStore := {| ms_calls := ∅; ms_sessions := ∅ |}.

Definition mem_create_call (record : ToolCallRecord) (s : InMemoryStateStore) :
    result exc unit * InMemoryStateStore :=
  (Ok tt,
   {| ms_calls := <[tc_call_id record := record]> (ms_calls s);
      ms_sessions := <[tc_session_id record :=
        default [] (ms_sessions s !! tc_session_id record) ++ [tc_call_id record]]> (ms_sessions s) |}).

Definition mem_update (call_id : string) (updater : ToolCallRecord -> result exc ToolCallRecord)
    (s : InMemoryStateStore) : result exc unit * InMemoryStateStore :=
  match ms_calls s !! call_id with
  | None => (Err unavailable, s)
  | Some record =>
      match updater record with
      | Ok record' =>
          (Ok tt, {| ms_calls := <[call_id := record']> (ms_calls s); ms_sessions := ms_sessions s |})
      | Err e => (Err e, s)
      end
  end.

Definition mem_transition call_id state error now :=
  mem_update call_id (update_transition state error now).
Definition mem_finish_attempt call_id attempt outcome error now1 now2 :=
  mem_update call_id (update_finish attempt outcome error now1 now2).
Definition mem_start_attempt call_id attempt now1 now2 :=
  mem_update call_id (update_start attempt now1 now2).

Definition mem_get_call (call_id : string) (s : InMemoryStateStore) :
    result exc (option ToolCallRecord) * InMemoryStateStore := (Ok (ms_calls s !! call_id), s).

Definition mem_list_session_calls (session_id : string) (s : InMemoryStateStore) :
    result exc (list string) * InMemoryStateStore :=
  (Ok (default [] (ms_sessions s !! session_id)), s).

Definition mem_perform (now1 now2 : Z) (o : store_op) (s : InMemoryStateStore) :
    result exc (store_ans o) * InMemoryStateStore :=
  match o with
  | SCreate record => mem_create_call record s
  | STransition call_id state error => mem_transition call_id state error now1 s
  | SFinish call_id attempt outcome error =>
      mem_finish_attempt call_id attempt outcome error now1 now2 s
  | SStart call_id attempt => mem_start_attempt call_id attempt now1 now2 s
  | SGet call_id => mem_get_call call_id s
  | SList session_id => mem_list_session_calls session_id s
  end.

(* ------------------------------------------------------------------ *)
(** ** The contract of a state store

    The in-memory store is the abstract state.  Each operation happens as it does
    there, at some reading of the clock, and reports what it reports there; or it
    reports that the store is unavailable, and then happened or not. *)

Class StateStore (W : Type) := {
  perform : forall o : store_op, W -> result exc (store_ans o) -> W -> Prop;
  represents : W -> InMemoryStateStore -> Prop;
  perform_spec o w r w' s : represents w s -> perform o w r w' ->
    exists now1 now2,
      let '(r', s') := mem_perform now1 now2 o s in
      (r = r' /\ represents w' s') \/
      (r = Err unavailable /\ (represents w' s \/ represents w' s'))
}.

#[export, refine] Instance InMemory_StateStore : StateStore InMemoryStateStore :=
  {| perform o s r s' := exists now1 now2, mem_perform now1 now2 o s = (r, s');
     represents s s' := s = s' |}.
Proof.
  intros o w r w' s -> (now1 & now2 & Hp). exists now1, now2. rewrite Hp. auto.
Defined.

(* ------------------------------------------------------------------ *)
(** ** [RedisStateStore] *)

Definition call_key (call_id : string) : string := "gateway:tool_call:" +:+ call_id.
Definition session_key (session_id : string) : string :=
  "gateway:session:" +:+ session_id +:+ ":calls".
#[global] Arguments call_key : simpl never.
#[global] Arguments session_key : simpl never.

Section redis_store.
Context (model_dump_json : ToolCallRecord -> string).
Context (model_validate_json : string -> result exc ToolCallRecord).
Context (ttl_seconds : Z).
Abbreviation RM := (M redis_sig unit).

(** [except (RedisError, OSError, TimeoutError) -> StateStoreUnavailableError] *)
Definition guarded {A} (m : RM A) : RM A :=
  try_with m (fun e =>
    if catches [RedisError; OSError; TimeoutError] e then raise unavailable else raise e).

Definition redis_create_call (record : ToolCallRecord) : RM unit :=
  guarded (call (E := redis_sig) (RExec
    [CSet (call_key (tc_call_id record)) (model_dump_json record) ttl_seconds;
     CRpush (session_key (tc_session_id record)) (tc_call_id record);
     CExpire (session_key (tc_session_id record)) ttl_seconds])).

(** One iteration of the loop of [_update], in three parts: WATCH, then the read
    and the update, then the transaction.  The answer tells whether the
    transaction happened; the updater reads the clock anew in iteration [n]. *)
Definition update_write (key : string) (record : ToolCallRecord) : RM bool :=
  try_with
    (call (E := redis_sig) (RExec [CSet key (model_dump_json record) ttl_seconds]);; mret true)
    (fun e => if catches [WatchError] e then mret false else raise e).

Definition update_read (key : string) (updater : nat -> ToolCallRecord -> result exc ToolCallRecord)
    (n : nat) : RM bool :=
  raw ← call (E := redis_sig) (RGet key);
  match raw with
  | None => raise unavailable
  | Some raw =>
      record ← lift_result (model_validate_json raw);
      record' ← lift_result (updater n record);
      update_write key record'
  end.

Definition update_iteration (key : string)
    (updater : nat -> ToolCallRecord -> result exc ToolCallRecord) (n : nat) : RM bool :=
  call (E := redis_sig) (RWatch key);; update_read key updater n.

(** The [while True] loop; [fuel] is the number of iterations that begin before
    the deadline of [asyncio.timeout]. *)
Fixpoint update_loop (key : string) (updater : nat -> ToolCallRecord -> result exc ToolCallRecord)
    (fuel n : nat) : RM unit :=
  match fuel with
  | O => raise (EPy TimeoutError "")
  | S fuel =>
      done ← update_iteration key updater n;
      if (done : bool) then mret tt else update_loop key updater fuel (S n)
  end.

Definition update_errors (m : RM unit) : RM unit :=
  try_with m (fun e =>
    if is_gateway_class StateStoreUnavailableError e then raise e
    else if catches [RedisError; OSError; TimeoutError] e then raise unavailable
    else raise e).

(** [_update] *)
Definition redis_update (fuel : nat) (call_id : string)
    (updater : nat -> ToolCallRecord -> result exc ToolCallRecord) : RM unit :=
  update_errors (update_loop (call_key call_id) updater fuel 0).

Definition redis_transition fuel call_id state error (clock : nat -> Z * Z) :=
  redis_update fuel call_id (fun n => update_transition state error (clock n).1).
Definition redis_finish_attempt fuel call_id attempt outcome error (clock : nat -> Z * Z) :=
  redis_update fuel call_id (fun n => update_finish attempt outcome error (clock n).1 (clock n).2).
Definition redis_start_attempt fuel call_id attempt (clock : nat -> Z * Z) :=
  redis_update fuel call_id (fun n => update_start attempt (clock n).1 (clock n).2).

Definition redis_get_call (call_id : string) : RM (option ToolCallRecord) :=
  raw ← guarded (call (E := redis_sig) (RGet (call_key call_id)));
  match raw with
  | None => mret None
  | Some raw => record ← lift_result (model_validate_json raw); mret (Some record)
  end.

Definition redis_list_session_calls (session_id : string) : RM (list string) :=
  guarded (call (E := redis_sig) (RLrange (session_key session_id))).

Definition redis_healthcheck : RM bool :=
  try_with (call (E := redis_sig) RPing) (fun e =>
    if catches [RedisError; OSError; TimeoutError] e then mret false else raise e).

Definition redis_perform (fuel : nat) (clock : nat -> Z * Z) (o : store_op) :
    RM (store_ans o) :=
  match o with
  | SCreate record => redis_create_call record
  | STransition call_id state error => redis_transition fuel call_id state error clock
  | SFinish call_id attempt outcome error =>
      redis_finish_attempt fuel call_id attempt outcome error clock
  | SStart call_id attempt => redis_start_attempt fuel call_id attempt clock
  | SGet call_id => redis_get_call call_id
  | SList session_id => redis_list_session_calls session_id
  end.
End redis_store.

(** [create_state_store]: which implementation the configuration selects. *)
Inductive store_backend := MemoryBackend | RedisBackend.
Definition create_state_store (backend : string) : store_backend :=
  if String.eqb backend "memory" then MemoryBackend else RedisBackend.

(* ------------------------------------------------------------------ *)
(** ** Keys and faults *)

Lemma call_key_inj a b : call_key a = call_key b -> a = b.
Proof. intros Heq. by apply (inj (String.append "gateway:tool_call:")) in Heq. Qed.

Lemma sapp_inj_r a b c : a +:+ c = b +:+ c -> a = b.
Proof.
  intros Heq. assert (Hlen : String.length a = String.length b).
  { apply (f_equal String.length) in Heq. rewrite !length_sapp in Heq. lia. }
  revert b Hlen Heq. induction a as [|x a IH]; intros [|y b] Hlen Heq; try done.
  injection Heq as -> Heq. f_equal. apply IH; [by injection Hlen|done].
Qed.

Lemma session_key_inj a b : session_key a = session_key b -> a = b.
Proof.
  intros Heq. apply (inj (String.append "gateway:session:")) in Heq. by apply sapp_inj_r in Heq.
Qed.

Lemma call_session_key a b : call_key a <> session_key b.
Proof. done. Qed.

Lemma redis_fault_caught e : redis_fault e -> catches [RedisError; OSError; TimeoutError] e = true.
Proof.
  intros [He _]. destruct e as [g|cls m]; [done|]. cbn in *.
  by destruct (py_subclass cls RedisError), (py_subclass cls OSError).
Qed.

Lemma redis_fault_not_unavailable e : redis_fault e -> is_gateway_class StateStoreUnavailableError e = false.
Proof. by intros [He _]; destruct e. Qed.

#[export] Hint Resolve call_session_key redis_fault_caught : gateway.

(* ------------------------------------------------------------------ *)
(** ** The Redis store keeps the contract *)

Section redis_refinement.
Context {W : Type} `{!RedisServer W}.
Context (model_dump_json : ToolCallRecord -> string).
Context (model_validate_json : string -> result exc ToolCallRecord).
Context (validate_dump : forall r, model_validate_json (model_dump_json r) = Ok r).
Context (ttl_seconds : Z) (client : nat).
Abbreviation RM := (M redis_sig unit).

Definition redis_represents (w : W) (s : InMemoryStateStore) : Prop :=
  (forall id, rs_value w (call_key id) = (fun r => RString (model_dump_json r)) <$> ms_calls s !! id) /\
  (forall id, rs_value w (session_key id) = RList <$> ms_sessions s !! id).

Lemma represents_same w w' s :
  redis_represents w s -> (forall k, rs_value w' k = rs_value w k) -> redis_represents w' s.
Proof. intros [Hc Hs] Heq. split; intros; by rewrite Heq. Qed.

Lemma represents_set w w' s call_id r ex :
  redis_represents w s ->
  (forall k, rs_value w' k = apply_cmds [CSet (call_key call_id) (model_dump_json r) ex] (rs_value w) k) ->
  redis_represents w' {| ms_calls := <[call_id := r]> (ms_calls s); ms_sessions := ms_sessions s |}.
Proof.
  intros [Hc Hs] Heq. split; cbn; intros id; rewrite Heq; cbn.
  - rewrite lookup_insert. case_decide as Hk; [apply call_key_inj in Hk as <-; by rewrite decide_True|].
    rewrite decide_False by congruence. apply Hc.
  - rewrite decide_False by (intros Hk; by apply (call_session_key call_id id)). apply Hs.
Qed.

Lemma represents_create w w' s record :
  redis_represents w s ->
  (forall k, rs_value w' k = apply_cmds
     [CSet (call_key (tc_call_id record)) (model_dump_json record) ttl_seconds;
      CRpush (session_key (tc_session_id record)) (tc_call_id record);
      CExpire (session_key (tc_session_id record)) ttl_seconds] (rs_value w) k) ->
  redis_represents w' (mem_create_call record s).2.
Proof.
  intros [Hc Hs] Heq. split; cbn; intros id; rewrite Heq; cbn.
  - rewrite decide_False by apply call_session_key.
    rewrite lookup_insert. case_decide as Hk; [apply call_key_inj in Hk as <-; by rewrite decide_True|].
    rewrite decide_False by congruence. apply Hc.
  - rewrite lookup_insert.
    rewrite (decide_False (P := session_key (tc_session_id record) = call_key _))
      by (intros Hk; symmetry in Hk; by apply call_session_key in Hk).
    case_decide as Hk.
    + apply session_key_inj in Hk as <-. rewrite decide_True by done. rewrite Hs.
      by destruct (ms_sessions s !! id).
    + rewrite !decide_False by (congruence || (intros Hk'; symmetry in Hk'; by apply call_session_key in Hk')).
      apply Hs.
Qed.

(** A guarded call: the answer of the server, or the store is unavailable. *)
Lemma client_run_guarded (o : op redis_sig) w r u w' :
  client_run respond client (guarded (call (E := redis_sig) o) tt) w (r, u) w' ->
  exists r0, respond w client o r0 w' /\
    r = match r0 with
        | Ok a => Ok a
        | Err e => Err (if catches [RedisError; OSError; TimeoutError] e then unavailable else e)
        end.
Proof.
  intros (r0 & w1 & Hr & Hrest). exists r0. destruct r0 as [a|e]; cbn [guarded fst snd pbind] in Hrest.
  - by destruct Hrest as [[= -> _] ->].
  - destruct (catches _ e); by destruct Hrest as [[= -> _] ->].
Qed.

Section update.
Context (key : string) (updater : nat -> ToolCallRecord -> result exc ToolCallRecord).
Context (updater_errors : forall n r e, updater n r = Err e -> e = unavailable).

(** An update that is in the middle of iteration [n]. *)
Definition resume (fuel n : nat) (m : RM bool) : prog redis_sig (result exc unit * unit) :=
  update_errors
    (done ← m; if (done : bool) then mret tt
               else update_loop model_dump_json model_validate_json ttl_seconds key updater fuel (S n)) tt.
Definition at_top (fuel n : nat) : prog redis_sig (result exc unit * unit) :=
  update_errors (update_loop model_dump_json model_validate_json ttl_seconds key updater fuel n) tt.
Definition at_read (fuel n : nat) := resume fuel n (update_read model_dump_json model_validate_json ttl_seconds key updater n).
Definition at_write (fuel n : nat) (record : ToolCallRecord) :=
  resume fuel n (update_write model_dump_json ttl_seconds key record).
Definition ended (r : result exc unit) : prog redis_sig (result exc unit * unit) := Ret (r, tt).

Lemma at_top_0 n : at_top 0 n = ended (Err unavailable).
Proof. reflexivity. Qed.

Lemma at_top_step c fuel n w p' w' :
  call_step respond c (at_top (S fuel) n) w p' w' ->
  exists r, respond w c (RWatch key) r w' /\
    p' = match r with Ok _ => at_read fuel n | Err _ => ended (Err unavailable) end.
Proof.
  intros (r & Hr & ->). exists r. split; [done|]. destruct r as [[]|e]; [reflexivity|].
  destruct (respond_watch _ _ _ _ _ Hr) as (_ & _ & He). cbn.
  by rewrite redis_fault_not_unavailable, redis_fault_caught.
Qed.

Lemma at_read_step c fuel n w p' w' :
  call_step respond c (at_read fuel n) w p' w' ->
  exists r, respond w c (RGet key) r w' /\
    p' = match r with
         | Ok (Some raw) =>
             match model_validate_json raw with
             | Ok record => match updater n record with
                            | Ok record' => at_write fuel n record'
                            | Err _ => ended (Err unavailable)
                            end
             | Err e => p'
             end
         | _ => ended (Err unavailable)
         end.
Proof.
  intros (r & Hr & ->). exists r. split; [done|]. destruct r as [[raw|]|e].
  - unfold at_read, resume, update_read, update_errors, try_with. cbn. rewrite bind_lift.
    destruct (model_validate_json raw) as [record|e]; [|done]. rewrite bind_lift.
    destruct (updater n record) as [record'|e] eqn:Hu; [reflexivity|].
    by rewrite (updater_errors _ _ _ Hu).
  - done.
  - destruct (respond_get _ _ _ _ _ Hr) as (_ & _ & He). cbn.
    by rewrite redis_fault_not_unavailable, redis_fault_caught.
Qed.

Lemma at_write_step c fuel n record w p' w' :
  call_step respond c (at_write fuel n record) w p' w' ->
  exists r, respond w c (RExec [CSet key (model_dump_json record) ttl_seconds]) r w' /\
    match r with
    | Ok _ => p' = ended (Ok tt)
    | Err e => (redis_fault e -> p' = ended (Err unavailable)) /\
               (e = watch_error -> p' = at_top fuel (S n))
    end.
Proof.
  intros (r & Hr & ->). exists r. split; [done|]. destruct r as [[]|e]; [done|].
  split; [|by intros ->]. intros He.
  unfold at_write, resume, update_write, update_errors, try_with.
  cbn -[catches is_gateway_class]. rewrite (proj2 He). cbn -[catches is_gateway_class].
  by rewrite redis_fault_not_unavailable, redis_fault_caught.
Qed.
End update.

(** The answer to an operation is the one of the abstract store, and so is the
    effect; or the store is unavailable and the effect may have happened. *)
Definition keeps_contract {A} (w' : W) (s : InMemoryStateStore) (r : result exc A)
    (out : result exc A * InMemoryStateStore) : Prop :=
  (r = out.1 /\ redis_represents w' out.2) \/
  (r = Err unavailable /\ (redis_represents w' s \/ redis_represents w' out.2)).

Lemma redis_update_contract fuel call_id updater w s r u w' :
  (forall n r e, updater n r = Err e -> e = unavailable) ->
  redis_represents w s ->
  client_run respond client
    (redis_update model_dump_json model_validate_json ttl_seconds fuel call_id updater tt) w (r, u) w' ->
  keeps_contract w' s r (mem_update call_id (updater 0%nat) s).
Proof.
  intros Herr Hrep Hrun. set (key := call_key call_id).
  change (client_run respond client (at_top key updater fuel 0) w (r, u) w') in Hrun.
  destruct fuel as [|fuel]; [destruct Hrun as [[= -> _] ->]; right; auto|].
  apply client_run_step in Hrun as [[Hp _]|(p1 & w1 & Hs1 & Hrun)]; [done|].
  apply at_top_step in Hs1 as (r1 & Hr1 & ->).
  destruct (respond_watch _ _ _ _ _ Hr1) as (Hv1 & _ & Hw1).
  pose proof (represents_same _ _ _ Hrep Hv1) as Hrep1.
  destruct r1 as [[]|e]; [|destruct Hrun as [[= -> _] ->]; right; auto].
  apply client_run_step in Hrun as [[Hp _]|(p2 & w2 & Hs2 & Hrun)]; [done|].
  apply at_read_step in Hs2 as (r2 & Hr2 & Hp2); [|done].
  destruct (respond_get _ _ _ _ _ Hr2) as (Hv2 & Hw2 & Hget).
  pose proof (represents_same _ _ _ Hrep1 Hv2) as Hrep2.
  destruct r2 as [[raw|]|e].
  2,3: subst p2; destruct Hrun as [[= -> _] ->]; right; auto.
  unfold key in Hget. rewrite (proj1 Hrep1) in Hget. unfold mem_update.
  destruct (ms_calls s !! call_id) as [record|] eqn:Hrec; [|done]. injection Hget as <-.
  rewrite validate_dump in Hp2. destruct (updater 0%nat record) as [record'|e] eqn:Hu; subst p2.
  2:{ destruct Hrun as [[= -> _] ->]. rewrite (Herr _ _ _ Hu). left. auto. }
  apply client_run_step in Hrun as [[Hp _]|(p3 & w3 & Hs3 & Hrun)]; [done|].
  apply at_write_step in Hs3 as (r3 & Hr3 & Hp3).
  destruct (respond_exec _ _ _ _ _ Hr3) as (_ & [(Hv & _ & e & -> & He)|(Hv & _ & _ & He)]);
    [by repeat constructor|..].
  - assert (redis_fault e) as Hf.
    { destruct He as [|(-> & k & Hk)]; [done|]. rewrite Hw2, Hw1 in Hk. by case_decide. }
    rewrite (proj1 Hp3 Hf) in Hrun. destruct Hrun as [[= -> _] ->].
    right. split; [done|]. left. by eapply represents_same.
  - pose proof (represents_set _ _ _ call_id record' ttl_seconds Hrep2 Hv) as Hset.
    destruct r3 as [[]|e].
    + subst p3. destruct Hrun as [[= -> _] ->]. left. auto.
    + rewrite (proj1 Hp3 He) in Hrun. destruct Hrun as [[= -> _] ->]. right. auto.
Qed.

Lemma redis_create_contract record w s r u w' :
  redis_represents w s ->
  client_run respond client (redis_create_call model_dump_json ttl_seconds record tt) w (r, u) w' ->
  keeps_contract w' s r (mem_create_call record s).
Proof.
  intros Hrep (r0 & Hr0 & ->)%client_run_guarded.
  destruct (respond_exec _ _ _ _ _ Hr0) as (_ & [(Hv & _ & e & -> & He)|(Hv & _ & _ & He)]).
  - repeat constructor. intros s'. unfold cmd_ok. rewrite (proj2 Hrep).
    by destruct (ms_sessions s !! tc_session_id record).
  - right. split; [|left; by eapply represents_same].
    destruct He as [He|[-> _]]; [by rewrite redis_fault_caught|done].
  - pose proof (represents_create _ _ _ _ Hrep Hv) as Hc.
    destruct r0 as [[]|e]; [left; auto|]. right. rewrite redis_fault_caught by done. auto.
Qed.

Lemma redis_get_contract call_id w s r u w' :
  redis_represents w s ->
  client_run respond client (redis_get_call model_validate_json call_id tt) w (r, u) w' ->
  keeps_contract w' s r (mem_get_call call_id s).
Proof.
  intros Hrep (r0 & w1 & Hr0 & Hrun).
  destruct (respond_get _ _ _ _ _ Hr0) as (Hv & _ & Hget).
  pose proof (represents_same _ _ _ Hrep Hv) as Hrep1.
  destruct r0 as [[raw|]|e].
  - rewrite (proj1 Hrep) in Hget. cbn in Hrun. rewrite bind_lift in Hrun. unfold mem_get_call.
    destruct (ms_calls s !! call_id) as [record|]; [|done]. injection Hget as <-.
    rewrite validate_dump in Hrun. destruct Hrun as [[= -> _] ->]. left. auto.
  - rewrite (proj1 Hrep) in Hget. destruct Hrun as [[= -> _] ->]. left. split; [|done].
    unfold mem_get_call. cbn. by destruct (ms_calls s !! call_id).
  - cbn -[catches] in Hrun. rewrite redis_fault_caught in Hrun by done.
    destruct Hrun as [[= -> _] ->]. right. auto.
Qed.

Lemma redis_list_contract session_id w s r u w' :
  redis_represents w s ->
  client_run respond client (redis_list_session_calls session_id tt) w (r, u) w' ->
  keeps_contract w' s r (mem_list_session_calls session_id s).
Proof.
  intros Hrep (r0 & Hr0 & ->)%client_run_guarded.
  destruct (respond_lrange _ _ _ _ _ Hr0) as (Hv & Hl).
  pose proof (represents_same _ _ _ Hrep Hv) as Hrep1. destruct r0 as [l|e].
  - left. split; [|done]. unfold mem_list_session_calls. cbn. rewrite (proj2 Hrep) in Hl.
    destruct (ms_sessions s !! session_id) as [l'|]; cbn in *; destruct Hl as [Hl|[Hl ->]]; congruence.
  - right. rewrite redis_fault_caught by done. auto.
Qed.

Lemma redis_perform_contract fuel clock o w s r u w' :
  redis_represents w s ->
  client_run respond client
    (redis_perform model_dump_json model_validate_json ttl_seconds fuel clock o tt) w (r, u) w' ->
  keeps_contract w' s r (mem_perform (clock 0%nat).1 (clock 0%nat).2 o s).
Proof.
  intros Hrep. destruct o; cbn [redis_perform mem_perform].
  - by apply redis_create_contract.
  - apply redis_update_contract; done.
  - apply redis_update_contract; [|done]. intros n rec e. unfold update_finish.
    by destruct (finish_first _ _ _ _ _); [|intros [= <-]].
  - apply redis_update_contract; done.
  - by apply redis_get_contract.
  - by apply redis_list_contract.
Qed.

(** One gateway process using the Redis store satisfies the contract. *)
#[export, refine] Instance Redis_StateStore : StateStore W :=
  {| perform o w r w' := exists fuel clock, client_run respond client
       (redis_perform model_dump_json model_validate_json ttl_seconds fuel clock o tt) w (r, tt) w';
     represents := redis_represents |}.
Proof.
  intros o w r w' s Hrep (fuel & clock & Hrun). exists (clock 0%nat).1, (clock 0%nat).2.
  pose proof (redis_perform_contract _ _ _ _ _ _ _ _ Hrep Hrun) as Hc. by destruct (mem_perform _ _ o s).
Defined.
End redis_refinement.

(* ------------------------------------------------------------------ *)
(** ** Concurrent updates of one record

    Clients [0 .. length clients - 1], each with its fuel and its updater, update
    the same record while Redis interleaves their commands in any order. *)

Section concurrent.
Context {W : Type} `{!RedisServer W}.
Context (model_dump_json : ToolCallRecord -> string).
Context (model_validate_json : string -> result exc ToolCallRecord).
Context (validate_dump : forall r, model_validate_json (model_dump_json r) = Ok r).
Context (ttl_seconds : Z) (call_id : string).

Definition updater_t : Type := nat -> ToolCallRecord -> result exc ToolCallRecord.
Context (clients : list (nat * updater_t)) (r0 : ToolCallRecord).
Context (updater_errors : forall c fuel upd, clients !! c = Some (fuel, upd) ->
  forall n r e, upd n r = Err e -> e = unavailable).

Definition update_threads : list (prog redis_sig (result exc unit * unit)) :=
  map (fun c => redis_update model_dump_json model_validate_json ttl_seconds c.1 call_id c.2 tt) clients.

(** The updates of a log, (client, iteration) by (client, iteration). *)
Fixpoint replay (log : list (nat * nat)) (r : ToolCallRecord) : option ToolCallRecord :=
  match log with
  | [] => Some r
  | (c, n) :: log' =>
      match clients !! c with
      | Some (_, upd) => match upd n r with Ok r' => replay log' r' | Err _ => None end
      | None => None
      end
  end.

Lemma replay_snoc log c n fuel upd r r1 r2 :
  replay log r = Some r1 -> clients !! c = Some (fuel, upd) -> upd n r1 = Ok r2 ->
  replay (log ++ [(c, n)]) r = Some r2.
Proof.
  revert r. induction log as [|[c' n'] log IH]; intros r; cbn.
  - intros [= ->] Hc Hu. by rewrite Hc, Hu.
  - destruct (clients !! c') as [[? u']|]; [|done]. destruct (u' n' r); [|done]. apply IH.
Qed.

Abbreviation key := (call_key call_id).

(** The commands an update sends for the record. *)
Definition update_command (o : redis_op) : Prop :=
  o = RWatch key \/ o = RGet key \/ exists value, o = RExec [CSet key value ttl_seconds].

(** The server does not fail: while the record is stored, it refuses a command of an
    update only for a lost race. *)
Definition faultless : Prop :=
  forall w c o r w' e s, rs_value w key = Some (RString s) -> update_command o ->
    respond w c o r w' -> r = Err e -> e = watch_error.

(** No fault, no failing updater, and fuel for as many rounds as there are clients. *)
Definition smooth : Prop :=
  faultless /\
  (forall c fuel upd, clients !! c = Some (fuel, upd) ->
     (length clients <= fuel)%nat /\ forall n r, is_ok (upd n r) = true).

Abbreviation top upd := (at_top model_dump_json model_validate_json ttl_seconds key upd).
Abbreviation read upd := (at_read model_dump_json model_validate_json ttl_seconds key upd).
Abbreviation write upd := (at_write model_dump_json model_validate_json ttl_seconds key upd).

Definition store_inv (log : list (nat * nat)) (w : W) : Prop :=
  NoDup log.*1 /\ Forall (fun c => (c < length clients)%nat) log.*1 /\
  exists r, replay log r0 = Some r /\ rs_value w key = Some (RString (model_dump_json r)).

(** The key is as client [c] saw it, or somebody committed since ([L] is the
    length of the log when [c] began to watch). *)
Definition watching (log : list (nat * nat)) (w : W) (c L : nat) (unchanged : Prop) : Prop :=
  (L <= length log)%nat /\ (forall k, k <> key -> rs_watch w c k = None) /\
  ((rs_watch w c key = Some true /\ unchanged) \/
   (rs_watch w c key = Some false /\ (L < length log)%nat)).

Definition fuel_left (fuel rounds : nat) : Prop := smooth -> (length clients <= fuel + rounds)%nat.

Inductive thread_ok (log : list (nat * nat)) (w : W) (c : nat) (upd : updater_t) :
    prog redis_sig (result exc unit * unit) -> Prop :=
| ok_top fuel n : c ∉ log.*1 -> fuel_left fuel (length log) ->
    thread_ok log w c upd (top upd fuel n)
| ok_read fuel n L : c ∉ log.*1 -> watching log w c L True -> fuel_left (S fuel) L ->
    thread_ok log w c upd (read upd fuel n)
| ok_write fuel n L r r' : c ∉ log.*1 -> watching log w c L (replay log r0 = Some r) ->
    fuel_left (S fuel) L -> upd n r = Ok r' ->
    thread_ok log w c upd (write upd fuel n r')
| ok_ended res : (res = Ok tt -> c ∈ log.*1) -> (res = Ok tt \/ res = Err unavailable) ->
    (smooth -> res = Ok tt) -> thread_ok log w c upd (ended res).

Definition client_ok (log : list (nat * nat)) (c : nat)
    (p : prog redis_sig (result exc unit * unit)) (w : W) : Prop :=
  exists fuel0 upd, clients !! c = Some (fuel0, upd) /\ thread_ok log w c upd p.

Lemma thread_ok_log log log' w w' c upd p :
  thread_ok log w c upd p -> (c ∈ log'.*1 <-> c ∈ log.*1) -> (length log <= length log')%nat ->
  (forall L U U', watching log w c L U -> (log' = log -> U -> U') -> watching log' w' c L U') ->
  thread_ok log' w' c upd p.
Proof.
  intros Hp Hin Hlen Hw. destruct Hp as [fuel n Hc Hf|fuel n L Hc Hwa Hf|fuel n L r r' Hc Hwa Hf Hu|res H1 H2 H3].
  - apply ok_top; [by rewrite Hin|]. intros Hs. specialize (Hf Hs). lia.
  - apply (ok_read _ _ _ _ _ _ L); [by rewrite Hin|by eapply Hw|done].
  - apply (ok_write _ _ _ _ _ _ L r); [by rewrite Hin| |done..].
    eapply Hw; [exact Hwa|]. by intros ->.
  - apply ok_ended; [by rewrite Hin|done..].
Qed.

Lemma watching_quiet log w w' c L U U' :
  watching log w c L U -> (U -> U') -> (forall k, rs_watch w' c k = rs_watch w c k) ->
  watching log w' c L U'.
Proof.
  intros (HL & Hn & Hd) HU Heq. split; [done|]. split; [intros k; rewrite Heq; apply Hn|].
  rewrite Heq. tauto.
Qed.

(** Nothing was written: every other client is as before. *)
Lemma others_quiet log w w' c :
  (forall c' k, c' <> c -> rs_watch w' c' k = rs_watch w c' k) ->
  forall c' q, c' <> c -> client_ok log c' q w -> client_ok log c' q w'.
Proof.
  intros Hq c' q Hne (fuel0 & upd & Hc & Hok). exists fuel0, upd. split; [done|].
  eapply thread_ok_log; [done..|]. intros L U U' Hw HU.
  eapply watching_quiet; [done|auto|]. intros k. by apply Hq.
Qed.

Lemma store_inv_same log w w' :
  store_inv log w -> (forall k, rs_value w' k = rs_value w k) -> store_inv log w'.
Proof. intros (Hn & Hl & r & Hr & Hv) Heq. split_and!; [done..|]. exists r. by rewrite Heq. Qed.

(** Client [c] committed: every other client that watches the key has lost. *)
Lemma others_commit log w w' c n s :
  (forall c' k, c' <> c -> rs_watch w' c' k = touched [CSet key s ttl_seconds] k (rs_watch w c' k)) ->
  forall c' q, c' <> c -> client_ok log c' q w -> client_ok (log ++ [(c, n)]) c' q w'.
Proof.
  intros Hq c' q Hne (fuel0 & upd & Hc & Hok). exists fuel0, upd. split; [done|].
  eapply thread_ok_log; [done|..].
  - rewrite fmap_app, elem_of_app. cbn. rewrite list_elem_of_singleton. tauto.
  - rewrite length_app. cbn. lia.
  - intros L U U' (HL & Hn & Hd) _. unfold watching. rewrite length_app. cbn [length].
    split; [lia|]. split.
    + intros k Hk. rewrite Hq by done. unfold touched. cbn.
      rewrite decide_False by (rewrite list_elem_of_singleton; congruence). by apply Hn.
    + right. rewrite Hq by done. unfold touched. cbn.
      rewrite decide_True by (by apply list_elem_of_singleton).
      destruct Hd as [[-> _]|[-> _]]; cbn; (split; [done|lia]).
Qed.

Lemma unavailable_ok log w c upd : (smooth -> False) -> thread_ok log w c upd (ended (Err unavailable)).
Proof. intros Hs. apply ok_ended; [done|by right|by intros ?%Hs]. Qed.

Lemma smooth_no_fault log w c o r w' e :
  smooth -> store_inv log w -> update_command o -> respond w c o r w' -> r = Err e -> redis_fault e -> False.
Proof.
  intros [Hs _] (_ & _ & rc & _ & Hval) Ho Hr -> [_ Hf].
  by rewrite (Hs _ _ _ _ _ _ _ Hval Ho Hr eq_refl) in Hf.
Qed.
Lemma command_watch : update_command (RWatch key).
Proof. by left. Qed.
Lemma command_get : update_command (RGet key).
Proof. by right; left. Qed.
Lemma command_exec value : update_command (RExec [CSet key value ttl_seconds]).
Proof. right; right. by exists value. Qed.
#[local] Hint Resolve command_watch command_get command_exec : gateway.
Ltac no_fault :=
  apply unavailable_ok; let Hs := fresh in intros Hs;
  lazymatch goal with Hinv : store_inv _ _, Hr : respond _ _ _ _ _ |- _ =>
    eapply (smooth_no_fault _ _ _ _ _ _ _ Hs Hinv); [|exact Hr|done|done]; auto with gateway end.

Definition step_goal (log : list (nat * nat)) (w : W) (c : nat)
    (p' : prog redis_sig (result exc unit * unit)) (w' : W) : Prop :=
  exists log', store_inv log' w' /\ client_ok log' c p' w' /\
    forall c' q, c' <> c -> client_ok log c' q w -> client_ok log' c' q w'.

Lemma top_step_ok log c fuel0 upd fuel n w p' w' :
  store_inv log w -> clients !! c = Some (fuel0, upd) ->
  c ∉ log.*1 -> fuel_left (S fuel) (length log) ->
  call_step respond c (top upd (S fuel) n) w p' w' -> step_goal log w c p' w'.
Proof.
  intros Hinv Hc Hin Hf (r & Hr & ->)%at_top_step.
  destruct (respond_watch _ _ _ _ _ Hr) as (Hv & Hq & Hw). exists log.
  split_and!; [by eapply store_inv_same| |by apply others_quiet].
  exists fuel0, upd. split; [done|]. destruct r as [[]|e].
  - apply (ok_read _ _ _ _ _ _ (length log)); [done| |done].
    split; [lia|]. split; [|left]; [|split; [|done]].
    + intros k Hk. by rewrite Hw, decide_False.
    + by rewrite Hw, decide_True.
  - no_fault.
Qed.

Lemma read_step_ok log c fuel0 upd fuel n L w p' w' :
  store_inv log w -> clients !! c = Some (fuel0, upd) ->
  c ∉ log.*1 -> watching log w c L True -> fuel_left (S fuel) L ->
  call_step respond c (read upd fuel n) w p' w' -> step_goal log w c p' w'.
Proof.
  intros Hinv Hc Hin Hwa Hf Hstep.
  apply at_read_step in Hstep as (r & Hr & Hp'); [|by eapply updater_errors].
  destruct (respond_get _ _ _ _ _ Hr) as (Hv & Hq & Hget). exists log.
  split_and!; [by eapply store_inv_same| |apply others_quiet; auto].
  exists fuel0, upd. split; [done|].
  pose proof Hinv as (_ & _ & rc & Hrep & Hval).
  destruct r as [[raw|]|e].
  - rewrite Hval in Hget. injection Hget as <-. rewrite validate_dump in Hp'.
    destruct (upd n rc) as [r'|e] eqn:Hu; subst p'.
    + apply (ok_write _ _ _ _ _ _ L rc); [done| |done..].
      eapply watching_quiet; [done| |auto]. auto.
    + apply unavailable_ok. intros [_ Hs]. destruct (Hs _ _ _ Hc) as [_ Hu'].
      specialize (Hu' n rc). by rewrite Hu in Hu'.
  - by rewrite Hval in Hget.
  - subst p'. no_fault.
Qed.

Lemma write_step_ok log c fuel0 upd fuel n L r r' w p' w' :
  store_inv log w -> clients !! c = Some (fuel0, upd) ->
  c ∉ log.*1 -> watching log w c L (replay log r0 = Some r) -> fuel_left (S fuel) L ->
  upd n r = Ok r' ->
  call_step respond c (write upd fuel n r') w p' w' -> step_goal log w c p' w'.
Proof.
  intros Hinv Hc Hin (HL & Hn & Hwa) Hf Hu (res & Hr & Hp')%at_write_step.
  destruct (respond_exec _ _ _ _ _ Hr) as (_ & [(Hv & Hq & e & -> & He)|(Hv & Hq & Hclean & He)]);
    [by repeat constructor|..].
  - exists log. split_and!; [by eapply store_inv_same| |by apply others_quiet].
    exists fuel0, upd. split; [done|]. destruct He as [He|(-> & k & Hk)].
    + rewrite (proj1 Hp' He). no_fault.
    + rewrite (proj2 Hp' eq_refl). apply ok_top; [done|]. intros Hs. specialize (Hf Hs).
      destruct (decide (k = key)) as [->|Hne]; [|by rewrite Hn in Hk].
      destruct Hwa as [[Hwa _]|[_ Hlt]]; [congruence|lia].
  - destruct Hwa as [[_ Hrep]|[Hd _]]; [|by destruct (Hclean key)].
    exists (log ++ [(c, n)]). split; [|split; [|by eapply others_commit]].
    + destruct Hinv as (Hnd & Hlt & _). unfold store_inv. rewrite fmap_app.
      split; [|split].
      * apply NoDup_app. split_and!; [done| |apply NoDup_singleton].
        intros x Hx ->%list_elem_of_singleton. done.
      * apply Forall_app. split; [done|]. constructor; [|done]. cbn. by eapply lookup_lt_Some.
      * exists r'. split; [by eapply replay_snoc|]. rewrite Hv. cbn. by rewrite decide_True.
    + exists fuel0, upd. split; [done|].
      assert (c ∈ (log ++ [(c, n)]).*1) by (rewrite fmap_app, elem_of_app; right; by apply list_elem_of_singleton).
      destruct res as [[]|e].
      * subst p'. apply ok_ended; [done|by left|done].
      * rewrite (proj1 Hp' He). no_fault.
Qed.

Lemma client_step_ok log c p w p' w' :
  store_inv log w -> client_ok log c p w -> call_step respond c p w p' w' -> step_goal log w c p' w'.
Proof.
  intros Hinv (fuel0 & upd & Hc & Hok) Hstep. destruct Hok as [fuel n Hin Hf| | |].
  - destruct fuel as [|fuel]; [done|]. by eapply top_step_ok.
  - by eapply read_step_ok.
  - by eapply write_step_ok.
  - done.
Qed.

Lemma log_full log w c : store_inv log w -> (c < length clients)%nat -> c ∉ log.*1 ->
  (length log < length clients)%nat.
Proof.
  intros (Hnd & Hall & _) Hc Hin.
  assert (Hsub : c :: log.*1 ⊆+ seq 0 (length clients)).
  { apply NoDup_submseteq; [by constructor|]. intros x [->|Hx]%elem_of_cons; apply elem_of_seq; [lia|].
    rewrite Forall_forall in Hall. specialize (Hall x Hx). lia. }
  apply submseteq_length in Hsub. cbn in Hsub. rewrite length_fmap, length_seq in Hsub. lia.
Qed.

Lemma client_ended log w c res u :
  store_inv log w -> client_ok log c (Ret (res, u)) w ->
  (res = Ok tt -> c ∈ log.*1) /\ (res = Ok tt \/ res = Err unavailable) /\ (smooth -> res = Ok tt).
Proof.
  intros Hinv (fuel0 & upd & Hc & Hok).
  inversion Hok as [fuel n Hin Hf Heq|fuel n L _ _ _ Heq|fuel n L r r' _ _ _ _ Heq|res' H1 H2 H3 Heq].
  - destruct fuel as [|fuel]; [|done]. rewrite at_top_0 in Heq. unfold ended in Heq.
    injection Heq as <- <-. split_and!; [done|by right|].
    intros Hs. specialize (Hf Hs). pose proof (log_full _ _ _ Hinv (lookup_lt_Some _ _ _ Hc) Hin). lia.
  - done.
Qed.

Lemma initial_clients w c p :
  update_threads !! c = Some p -> client_ok [] c p w.
Proof.
  unfold update_threads. intros (cl & -> & Hc)%list_lookup_fmap_Some. exists cl.1, cl.2.
  split; [by destruct cl|]. apply ok_top; [apply not_elem_of_nil|].
  intros [_ Hs]. destruct (Hs c cl.1 cl.2); [by destruct cl|]. cbn. lia.
Qed.
End concurrent.

(* ------------------------------------------------------------------ *)
(** ** Histories of a store *)

Definition store_event : Type := { o : store_op & result exc (store_ans o) }.

(** What the abstract store allows: every operation happens and is answered, or
    is answered with unavailability and happens or not. *)
Inductive spec_run : InMemoryStateStore -> list store_event -> InMemoryStateStore -> Prop :=
| spec_nil s : spec_run s [] s
| spec_done s o now1 now2 r s1 tr s' :
    mem_perform now1 now2 o s = (r, s1) -> spec_run s1 tr s' ->
    spec_run s (existT o r :: tr) s'
| spec_lost s o tr s' : spec_run s tr s' -> spec_run s (existT o (Err unavailable) :: tr) s'
| spec_unknown s o now1 now2 r s1 tr s' :
    mem_perform now1 now2 o s = (r, s1) -> spec_run s1 tr s' ->
    spec_run s (existT o (Err unavailable) :: tr) s'.

Fixpoint store_run {W} `{!StateStore W} (w : W) (tr : list store_event) (w' : W) : Prop :=
  match tr with
  | [] => w' = w
  | existT o r :: tr' => exists w1, perform o w r w1 /\ store_run w1 tr' w'
  end.

Lemma store_run_spec {W} `{!StateStore W} (w : W) tr w' s :
  represents w s -> store_run w tr w' -> exists s', spec_run s tr s' /\ represents w' s'.
Proof.
  revert w s. induction tr as [|[o r] tr IH]; intros w s Hrep; cbn.
  - intros ->. exists s. split; [constructor|done].
  - intros (w1 & Hp & Hrun). destruct (perform_spec _ _ _ _ _ Hrep Hp) as (now1 & now2 & Hspec).
    destruct (mem_perform now1 now2 o s) as [r0 s1] eqn:Hm.
    destruct Hspec as [[-> Hrep1]|[-> [Hrep1|Hrep1]]];
      destruct (IH _ _ Hrep1 Hrun) as (s' & Hs' & Hrep'); exists s'; (split; [|done]).
    + by eapply spec_done.
    + by eapply spec_lost.
    + by eapply spec_unknown.
Qed.

(** The states a history asks for on one call, and those it was told are stored. *)
Definition requested_of (id : string) (ev : store_event) : option ToolCallState :=
  match projT1 ev with
  | STransition call_id state _ => if decide (call_id = id) then Some state else None
  | _ => None
  end.
Definition acknowledged_of (id : string) (ev : store_event) : option ToolCallState :=
  match ev with
  | existT (STransition call_id state _) (Ok _) => if decide (call_id = id) then Some state else None
  | _ => None
  end.
Definition requested (id : string) : list store_event -> list ToolCallState := omap (requested_of id).
Definition acknowledged (id : string) : list store_event -> list ToolCallState := omap (acknowledged_of id).

Definition creates (id : string) (ev : store_event) : bool :=
  match projT1 ev with
  | SCreate record => bool_decide (tc_call_id record = id)
  | _ => false
  end.

(** What identifies a call never changes. *)
Definition same_identity (r r' : ToolCallRecord) : Prop :=
  tc_call_id r' = tc_call_id r /\ tc_trace_id r' = tc_trace_id r /\
  tc_session_id r' = tc_session_id r /\ tc_tool_name r' = tc_tool_name r /\
  tc_risk_class r' = tc_risk_class r /\ tc_arguments r' = tc_arguments r /\
  tc_created_at r' = tc_created_at r /\ tc_principal r' = tc_principal r.

(** The current state is the one of the last transition. *)
Definition current_is_last (r : ToolCallRecord) : Prop :=
  exists ts t, tc_transitions r = ts ++ [t] /\ tc_current_state r = st_state t.

Definition attempt_starts (r : ToolCallRecord) : list (Z * Z) :=
  map (fun a => (at_attempt a, at_started_at a)) (tc_attempts r).

(** [extends r r' new]: [r'] is [r] with the transitions to [new] appended. *)
Definition extends (r r' : ToolCallRecord) (new : list ToolCallState) : Prop :=
  same_identity r r' /\ (current_is_last r -> current_is_last r') /\
  attempt_starts r `prefix_of` attempt_starts r' /\
  exists ts, tc_transitions r' = tc_transitions r ++ ts /\ map st_state ts = new.

Lemma extends_refl r : extends r r [].
Proof. split; [by split_and!|]. split; [done|]. split; [done|]. exists []. by rewrite app_nil_r. Qed.

Lemma extends_trans r1 r2 r3 n1 n2 : extends r1 r2 n1 -> extends r2 r3 n2 -> extends r1 r3 (n1 ++ n2).
Proof.
  intros (Hi1 & Hc1 & Ha1 & ts1 & Ht1 & Hm1) (Hi2 & Hc2 & Ha2 & ts2 & Ht2 & Hm2).
  split; [destruct Hi1 as (?&?&?&?&?&?&?&?), Hi2 as (?&?&?&?&?&?&?&?); split_and!; congruence|].
  split; [auto|].
  split; [by etransitivity|]. exists (ts1 ++ ts2). split.
  - by rewrite Ht2, Ht1, app_assoc.
  - by rewrite map_app, Hm1, Hm2.
Qed.

Lemma finish_first_starts n o e now l l' :
  finish_first n o e now l = Some l' ->
  map (fun a => (at_attempt a, at_started_at a)) l' = map (fun a => (at_attempt a, at_started_at a)) l.
Proof.
  revert l'. induction l as [|a l IH]; intros l'; cbn; [done|].
  destruct (at_attempt a =? n); [by intros [= <-]|].
  destruct (finish_first n o e now l) as [l0|]; [|done]. cbn. intros [= <-]. cbn. by rewrite IH.
Qed.

Lemma map_reverse {A B} (f : A -> B) l : map f (reverse l) = reverse (map f l).
Proof. apply (fmap_reverse f). Qed.

Lemma mem_update_other call_id upd s r s' id :
  mem_update call_id upd s = (r, s') -> call_id <> id -> ms_calls s' !! id = ms_calls s !! id.
Proof.
  unfold mem_update. destruct (ms_calls s !! call_id) as [rc|]; [|by intros [= <- <-]].
  destruct (upd rc); intros [= <- <-] Hne; [|done]. cbn. by rewrite lookup_insert_ne.
Qed.

(** An update of one call extends its record, by the state asked for if it succeeds. *)
Lemma mem_update_extends call_id upd s r s' id rec new :
  mem_update call_id upd s = (r, s') -> ms_calls s !! id = Some rec ->
  (forall rec', upd rec = Ok rec' -> extends rec rec' new) ->
  exists rec', ms_calls s' !! id = Some rec' /\
    ((r = Ok tt /\ call_id = id /\ extends rec rec' new) \/
     ((r <> Ok tt \/ call_id <> id) /\ extends rec rec' [])).
Proof.
  intros Hm Hrec Hupd. destruct (decide (call_id = id)) as [->|Hne].
  - unfold mem_update in Hm. rewrite Hrec in Hm. destruct (upd rec) as [rec'|e] eqn:Hu; injection Hm as <- <-.
    + exists rec'. cbn. rewrite lookup_insert_eq. split; [done|]. left. auto.
    + exists rec. split; [done|]. right. split; [by left|apply extends_refl].
  - exists rec. rewrite (mem_update_other _ _ _ _ _ _ Hm Hne). split; [done|].
    right. split; [by right|apply extends_refl].
Qed.

Lemma update_finish_extends n out error now1 now2 rec rec' :
  update_finish n out error now1 now2 rec = Ok rec' -> extends rec rec' [].
Proof.
  unfold update_finish. destruct (finish_first _ _ _ _ _) as [l|] eqn:Hf; [|done].
  intros [= <-]. split; [by split_and!|]. split; [done|]. split.
  - apply finish_first_starts in Hf. unfold attempt_starts. cbn [tc_attempts with_state].
    by rewrite map_reverse, Hf, map_reverse, reverse_involutive.
  - exists []. by rewrite app_nil_r.
Qed.

Lemma update_transition_extends state error now rec rec' :
  update_transition state error now rec = Ok rec' -> extends rec rec' [state].
Proof.
  intros [= <-]. split; [by split_and!|]. split; [|split; [done|]].
  - intros _. eexists _, _. by split.
  - eexists. by split.
Qed.

Lemma update_start_extends n now1 now2 rec rec' :
  update_start n now1 now2 rec = Ok rec' -> extends rec rec' [].
Proof.
  intros [= <-]. split; [by split_and!|]. split; [done|]. split.
  - unfold attempt_starts. cbn. rewrite map_app. by apply prefix_app_r.
  - exists []. by rewrite app_nil_r.
Qed.

(** An operation that happens on the abstract store: its effect on one call. *)
Lemma mem_perform_extends now1 now2 o s r s' id rec :
  mem_perform now1 now2 o s = (r, s') -> creates id (existT o r) = false ->
  ms_calls s !! id = Some rec ->
  exists rec' new, ms_calls s' !! id = Some rec' /\ extends rec rec' new /\
    option_list (acknowledged_of id (existT o r)) `sublist_of` new /\
    new `sublist_of` option_list (requested_of id (existT o r)).
Proof.
  intros Hm Hc Hrec. unfold requested_of, creates in *. cbn [projT1] in *.
  destruct o as [record|call_id state error|call_id n out error|call_id n|call_id|sid];
    cbn [mem_perform acknowledged_of store_ans] in *.
  - injection Hm as <- <-. case_bool_decide as Hid; [done|]. exists rec, []. cbn.
    rewrite lookup_insert_ne by done. split_and!; auto using extends_refl.
  - destruct (mem_update_extends _ _ _ _ _ _ _ [state] Hm Hrec) as (rec' & Hrec' & Hcase);
      [intros ?; apply update_transition_extends|].
    destruct Hcase as [(-> & -> & Hext)|[Hne Hext]].
    + exists rec', [state]. rewrite decide_True by done. split_and!; done.
    + exists rec', []. split_and!; [done|done| |apply sublist_nil_l].
      destruct r as [[]|e]; [|done]. rewrite decide_False; [done|]. by destruct Hne.
  - destruct (mem_update_extends _ _ _ _ _ _ _ [] Hm Hrec) as (rec' & Hrec' & Hcase);
      [intros ?; apply update_finish_extends|].
    exists rec', []. split_and!; [done| |done|done]. naive_solver.
  - destruct (mem_update_extends _ _ _ _ _ _ _ [] Hm Hrec) as (rec' & Hrec' & Hcase);
      [intros ?; apply update_start_extends|].
    exists rec', []. split_and!; [done| |done|done]. naive_solver.
  - injection Hm as <- <-. exists rec, []. split_and!; auto using extends_refl.
  - injection Hm as <- <-. exists rec, []. split_and!; auto using extends_refl.
Qed.

Lemma requested_cons id ev tr : requested id (ev :: tr) = option_list (requested_of id ev) ++ requested id tr.
Proof. unfold requested. cbn. by destruct (requested_of id ev). Qed.
Lemma acknowledged_cons id ev tr :
  acknowledged id (ev :: tr) = option_list (acknowledged_of id ev) ++ acknowledged id tr.
Proof. unfold acknowledged. cbn. by destruct (acknowledged_of id ev). Qed.

Lemma acknowledged_of_err id o e : acknowledged_of id (existT o (Err e)) = None.
Proof. by destruct o. Qed.

Lemma spec_run_extends s tr s' id rec :
  spec_run s tr s' -> forallb (fun ev => negb (creates id ev)) tr = true ->
  ms_calls s !! id = Some rec ->
  exists rec' new, ms_calls s' !! id = Some rec' /\ extends rec rec' new /\
    acknowledged id tr `sublist_of` new /\ new `sublist_of` requested id tr.
Proof.
  intros Hrun. revert rec.
  induction Hrun as [s|s o now1 now2 r s1 tr s' Hm Hrun IH|s o tr s' Hrun IH
                    |s o now1 now2 r s1 tr s' Hm Hrun IH]; intros rec Hc Hrec.
  - exists rec, []. split_and!; auto using extends_refl.
  - cbn [forallb] in Hc. apply andb_true_iff in Hc as [Hc1 Hc]. apply negb_true_iff in Hc1.
    destruct (mem_perform_extends _ _ _ _ _ _ _ _ Hm Hc1 Hrec) as (rec1 & new1 & Hrec1 & Hext1 & Ha1 & Hr1).
    destruct (IH rec1 Hc Hrec1) as (rec2 & new2 & Hrec2 & Hext2 & Ha2 & Hr2).
    exists rec2, (new1 ++ new2). rewrite acknowledged_cons, requested_cons.
    split_and!; [done|by eapply extends_trans|by apply sublist_app|by apply sublist_app].
  - cbn [forallb] in Hc. apply andb_true_iff in Hc as [_ Hc].
    destruct (IH rec Hc Hrec) as (rec2 & new2 & Hrec2 & Hext2 & Ha2 & Hr2).
    exists rec2, new2. rewrite acknowledged_cons, requested_cons, acknowledged_of_err.
    split_and!; [done|done|done|by apply sublist_inserts_l].
  - cbn [forallb] in Hc. apply andb_true_iff in Hc as [Hc1 Hc]. apply negb_true_iff in Hc1.
    destruct (mem_perform_extends _ _ _ _ _ _ _ _ Hm Hc1 Hrec) as (rec1 & new1 & Hrec1 & Hext1 & _ & Hr1).
    destruct (IH rec1 Hc Hrec1) as (rec2 & new2 & Hrec2 & Hext2 & Ha2 & Hr2).
    exists rec2, (new1 ++ new2). rewrite acknowledged_cons, requested_cons, acknowledged_of_err.
    split_and!; [done|by eapply extends_trans|by apply sublist_inserts_l|by apply sublist_app].
Qed.

(* ------------------------------------------------------------------ *)
(** ** Properties *)

(** C13: clients update one record of the Redis store concurrently, their commands
    interleaved in any order.  The stored record is then always the result of
    applying, one after the other, the updates of the clients in a log that names
    each client at most once (no update is lost, none is applied twice); a client
    whose update returned is in the log, and one whose update raised reports that
    the store is unavailable.  If the server refuses the commands of the updates only
    for lost races, no updater fails, and every client has time for as many rounds as
    there are clients before its deadline, no update raises: every client that ended
    has returned. *)
Theorem redis_updates_linearizable {W} `{!RedisServer W}
    (model_dump_json : ToolCallRecord -> string)
    (model_validate_json : string -> result exc ToolCallRecord)
    (ttl_seconds : Z) (call_id : string) (clients : list (nat * updater_t)) (r0 : ToolCallRecord)
    (w w' : W) ts :
  (forall r, model_validate_json (model_dump_json r) = Ok r) ->
  (forall c fuel upd, clients !! c = Some (fuel, upd) ->
     forall n r e, upd n r = Err e -> e = unavailable) ->
  rs_value w (call_key call_id) = Some (RString (model_dump_json r0)) ->
  rtc (pool_step respond)
    (update_threads model_dump_json model_validate_json ttl_seconds call_id clients, w) (ts, w') ->
  exists log r, NoDup log.*1 /\ replay clients log r0 = Some r /\
    rs_value w' (call_key call_id) = Some (RString (model_dump_json r)) /\
    forall c res u, ts !! c = Some (Ret (res, u)) ->
      (res = Ok tt -> c ∈ log.*1) /\ (res = Ok tt \/ res = Err unavailable) /\
      (smooth ttl_seconds call_id clients -> res = Ok tt).
Proof.
  intros Hvd Herr Hval Hrtc.
  edestruct (fun H => pool_invariant respond
    (store_inv model_dump_json call_id clients r0)
    (client_ok model_dump_json model_validate_json ttl_seconds call_id clients r0)
    [] _ _ _ _ H Hrtc) as (log & Hinv & Hts).
  - intros log c p w1 p' w2 H1 H2 H3. by eapply client_step_ok.
  - split; [constructor|]. split; [constructor|]. by exists r0.
  - intros c p Hp. eapply initial_clients; done.
  - exists log. destruct (Hinv) as (Hnd & _ & r & Hr & Hv). exists r. split_and!; [done..|].
    intros c res u Hc. eapply client_ended; [exact Hinv|]. by apply Hts.
Qed.

(** C26: a gateway process that keeps its tool calls in Redis behaves like the
    in-memory store: whatever sequence of operations it performs, every answer is
    the answer of the in-memory store after the same operations, or reports that
    the store is unavailable, and then the operation happened there or did not. *)
Theorem redis_store_refines_memory {W} `{!RedisServer W}
    (model_dump_json : ToolCallRecord -> string)
    (model_validate_json : string -> result exc ToolCallRecord)
    (validate_dump : forall r, model_validate_json (model_dump_json r) = Ok r)
    (ttl_seconds : Z) (client : nat) (w w' : W) (s : InMemoryStateStore) (tr : list store_event) :
  redis_represents model_dump_json w s ->
  @store_run W (Redis_StateStore model_dump_json model_validate_json validate_dump ttl_seconds client)
    w tr w' ->
  exists s', spec_run s tr s' /\ redis_represents model_dump_json w' s'.
Proof.
  intros Hrep Hrun.
  exact (@store_run_spec W (Redis_StateStore _ _ validate_dump ttl_seconds client) w tr w' s Hrep Hrun).
Qed.

(** C27: in every store that keeps the contract, the record of a call keeps its
    identity, its transitions and its attempts; the transitions recorded are in
    the order of the requests, contain every transition the store acknowledged
    and none that was not requested, and the current state is the last of them. *)
Theorem store_transitions_exact {W} `{!StateStore W} (w w' : W) (s : InMemoryStateStore)
    (tr : list store_event) (id : string) (rec : ToolCallRecord) :
  represents w s -> store_run w tr w' -> ms_calls s !! id = Some rec ->
  forallb (fun ev => negb (creates id ev)) tr = true ->
  exists s' rec' new, represents w' s' /\ ms_calls s' !! id = Some rec' /\
    extends rec rec' new /\
    acknowledged id tr `sublist_of` new /\ new `sublist_of` requested id tr.
Proof.
  intros Hrep Hrun Hrec Hc. destruct (store_run_spec _ _ _ _ Hrep Hrun) as (s' & Hs' & Hrep').
  destruct (spec_run_extends _ _ _ _ _ Hs' Hc Hrec) as (rec' & new & H1 & H2 & H3 & H4).
  exists s', rec', new. done.
Qed.

(* ------------------------------------------------------------------ *)
(** ** Witnesses *)

Module witness.
Definition dump (r : ToolCallRecord) : string := to_text r.
Definition validate (s : string) : result exc ToolCallRecord :=
  of_text (EPy PydanticValidationError "record") s.

Definition record : ToolCallRecord :=
  {| tc_call_id := "c1"; tc_trace_id := "t"; tc_session_id := "s"; tc_tool_name := "db_query";
     tc_risk_class := Some READ_ONLY; tc_arguments := [("query", JStr "SELECT 1")];
     tc_current_state := RECEIVED;
     tc_transitions := [{| st_state := RECEIVED; st_timestamp := 1; st_error := None |}];
     tc_attempts := [new_attempt 1 1]; tc_created_at := 1; tc_updated_at := 1;
     tc_principal := None |}.

(** Two clients that update the record: one transition, one new attempt. *)
Definition clients : list (nat * updater_t) :=
  [(2%nat, fun n => update_transition VALIDATED None (Z.of_nat n + 2));
   (2%nat, fun n => update_start 2 (Z.of_nat n + 5) (Z.of_nat n + 6))].

Definition server0 : Simple.server :=
  {| Simple.values := {[call_key "c1" := RString (dump record)]}; Simple.watches := ∅ |}.

(** Both watch and read before either commits: the second loses and starts again. *)
Definition schedule : list nat := [0; 1; 0; 1; 0; 1; 1; 1; 1]%nat.

Definition final :=
  run_schedule Simple.step schedule (update_threads dump validate 60 "c1" clients, server0).

(** The operations of one call, on the in-memory store. *)
Definition trace : list store_event :=
  [existT (SCreate record) (Ok tt);
   existT (STransition "c1" VALIDATED None) (Ok tt);
   existT (STransition "c2" VALIDATED None) (Err unavailable);
   existT (SStart "c1" 2) (Ok tt);
   existT (STransition "c1" EXECUTING None) (Ok tt)].
Definition after : InMemoryStateStore :=
  (mem_perform 9 9 (STransition "c1" EXECUTING None)
     (mem_perform 7 8 (SStart "c1" 2)
        (mem_perform 5 5 (STransition "c1" VALIDATED None)
           (mem_perform 4 4 (SCreate record) empty_store).2).2).2).2.

(** The same on Redis. *)
Definition redis_do (o : store_op) (w : Simple.server) : option (store_event * Simple.server) :=
  match run (fun o w => Simple.step w 0 o)
          (redis_perform dump validate 60 3 (fun n => (Z.of_nat n, Z.of_nat n)) o tt) w with
  | Some ((r, tt), w', _) => Some (existT o r, w')
  | None => None
  end.
Fixpoint redis_trace (ops : list store_op) (w : Simple.server) : option (list store_event * Simple.server) :=
  match ops with
  | [] => Some ([], w)
  | o :: ops' =>
      match redis_do o w with
      | Some (ev, w1) =>
          match redis_trace ops' w1 with Some (tr, w2) => Some (ev :: tr, w2) | None => None end
      | None => None
      end
  end.
Definition ops : list store_op :=
  [SCreate record; STransition "c1" VALIDATED None; SFinish "c1" 2 "failed" None; SGet "c1"; SList "s"].
End witness.
#[local] Existing Instance Simple.simple_redis.

(** The simple server does not fail, so its clients are smooth if their updaters are. *)
Lemma simple_faultless ttl_seconds call_id : faultless (W := Simple.server) ttl_seconds call_id.
Proof.
  intros w c o r w' e s Hval [->|[->|[value ->]]] Hr Herr; cbn in Hval, Hr; unfold answers in Hr; cbn in Hr.
  - by destruct r.
  - rewrite Hval in Hr. by destruct r.
  - destruct (decide _); injection Hr as <- _; congruence.
Qed.

Lemma redis_updates_linearizable_witness :
  exists (log : list (nat * nat)) (r : ToolCallRecord), NoDup log.*1 /\ replay witness.clients log witness.record = Some r /\
    rs_value witness.final.2 (call_key "c1") = Some (RString (witness.dump r)) /\
    forall c res u, witness.final.1 !! c = Some (Ret (res, u)) -> res = Ok tt /\ c ∈ log.*1.
Proof.
  pose proof (run_schedule_steps Simple.step witness.schedule
    (update_threads witness.dump witness.validate 60 "c1" witness.clients, witness.server0)) as Hrtc.
  fold witness.final in Hrtc. destruct witness.final as [ts w']. cbn [fst snd].
  destruct (redis_updates_linearizable witness.dump witness.validate 60 "c1" witness.clients
           witness.record witness.server0 w' ts) as (log & r & Hnd & Hrep & Hval & Hends).
  - intros r. apply of_text_to_text.
  - by intros [|[|c]] fuel upd; cbn; [intros [= <- <-]|intros [= <- <-]|done]; intros n r e.
  - reflexivity.
  - exact Hrtc.
  - exists log, r. split; [exact Hnd|]. split; [exact Hrep|]. split; [exact Hval|]. intros c res u Hc.
    destruct (Hends c res u Hc) as (Hin & _ & Hsmooth).
    enough (Hres : res = Ok tt) by (split; [exact Hres|exact (Hin Hres)]). apply Hsmooth.
    split; [apply simple_faultless|].
    by intros [|[|c']] fuel upd; cbn; [intros [= <- <-]|intros [= <- <-]|done].
Defined.

Lemma store_transitions_exact_witness :
  exists (s' : InMemoryStateStore) (rec' : ToolCallRecord) (new : list ToolCallState), represents witness.after s' /\ ms_calls s' !! "c1" = Some rec' /\
    extends witness.record rec' new /\
    acknowledged "c1" (tail witness.trace) `sublist_of` new /\
    new `sublist_of` requested "c1" (tail witness.trace).
Proof.
  apply (store_transitions_exact
           (mem_perform 4 4 (SCreate witness.record) empty_store).2 witness.after
           (mem_perform 4 4 (SCreate witness.record) empty_store).2).
  - reflexivity.
  - eexists. split; [exists 5, 5; reflexivity|]. eexists. split; [exists 6, 6; reflexivity|].
    eexists. split; [exists 7, 8; reflexivity|]. eexists. split; [exists 9, 9; reflexivity|]. reflexivity.
  - reflexivity.
  - reflexivity.
Defined.

Lemma redis_store_refines_memory_witness :
  match witness.redis_trace witness.ops Simple.empty with
  | Some (tr, w') => exists s', spec_run empty_store tr s' /\ redis_represents witness.dump w' s'
  | None => False
  end.
Proof.
  assert (Hdo : forall o w ev w1, witness.redis_do o w = Some (ev, w1) ->
    exists r, ev = existT o r /\ @perform _ (Redis_StateStore witness.dump witness.validate
      (of_text_to_text _) 60 0) o w r w1).
  { intros o w ev w1. unfold witness.redis_do.
    destruct (run _ _ w) as [[[[r []] w2] tr]|] eqn:Hr; [|done]. intros [= <- <-].
    exists r. split; [done|]. do 2 eexists. by eapply run_client_run. }
  assert (Htr : forall ops w tr w', witness.redis_trace ops w = Some (tr, w') ->
    @store_run _ (Redis_StateStore witness.dump witness.validate (of_text_to_text _) 60 0) w tr w').
  { intros ops. induction ops as [|o ops IH]; intros w tr w'; cbn; [by intros [= <- <-]|].
    destruct (witness.redis_do o w) as [[ev w1]|] eqn:Ho; [|done].
    destruct (witness.redis_trace ops w1) as [[tr1 w2]|] eqn:Hrest; [|done].
    intros [= <- <-]. destruct (Hdo _ _ _ _ Ho) as (r & -> & Hp). exists w1. eauto. }
  assert (Hsome : match witness.redis_trace witness.ops Simple.empty with
                  | Some _ => true | None => false end = true) by (vm_compute; reflexivity).
  destruct (witness.redis_trace witness.ops Simple.empty) as [[tr w']|] eqn:Heq.
  - apply (redis_store_refines_memory witness.dump witness.validate (of_text_to_text _) 60 0
             Simple.empty w' empty_store tr).
    + by split.
    + exact (Htr _ _ _ _ Heq).
  - discriminate Hsome.
Defined.
