(* ===== verification/Http.v ===== *)
(** * HTTP exchanges

    The requests the gateway sends through httpx, with their answers left to the
    other side: a response, or an exception of the transport.  [raise_for_status]
    and [json()] are the documented behaviour of an httpx response. *)

From S2P Require Import Prelude Dict Pystr Json Models Errors Effects.
Open Scope Z_scope.

Inductive http_op :=
| HGet (url : string)
| HPost (url : string) (headers : dict string string) (body : json).

Record http_response := {
  status_code : Z;
  text : string
}.

Definition http_sig : signature := {| op := http_op; ans _ := http_response |}.

Definition is_success (r : http_response) : bool :=
  (200 <=? status_code r) && (status_code r <? 300).

Definition raise_for_status (r : http_response) : result exc unit :=
  if is_success r then Ok tt else Err (EPy HTTPError "HTTP status error").

Definition response_json (float_norm : string -> string) (r : http_response) : result exc json :=
  ok_or (loads float_norm (text r)) (EPy JSONDecodeError "Expecting value").

(** [v.get(key)] where [v] may be any JSON value. *)
Definition json_get (v : json) (key : string) : result exc (option json) :=
  match v with
  | JObj kvs => Ok (dict_get key kvs)
  | _ => Err (EPy OtherException "object has no attribute 'get'")
  end.

(** [v[key]] and [v[i]] *)
Definition json_index (v : json) (key : string) : result exc json :=
  match v with
  | JObj kvs => ok_or (dict_get key kvs) (EPy KeyError key)
  | _ => Err (EPy TypeError "indices must be integers")
  end.
Definition json_first (v : json) : result exc json :=
  match v with
  | JList (x :: _) => Ok x
  | JList [] => Err (EPy IndexError "list index out of range")
  | JObj kvs => Err (EPy KeyError "0")
  | JStr (String c _) => Ok (JStr (String c EmptyString))
  | JStr EmptyString => Err (EPy IndexError "string index out of range")
  | _ => Err (EPy TypeError "object is not subscriptable")
  end.

(** [str(v)]; [repr] is the text Python gives containers. *)
Definition py_str (repr : json -> string) (v : json) : string :=
  match v with
  | JNull => "None"
  | JBool true => "True"
  | JBool false => "False"
  | JInt z => print_int z
  | JFloat t => t
  | JStr s => s
  | JList _ | JObj _ => repr v
  end.

(** A transport that answers every request from a table. *)
Definition answer_all (r : result exc http_response) : handler http_sig unit := fun _ _ => (r, tt).

(* ------------------------------------------------------------------ *)
(** ** Programs that make one request *)

Definition one_request {A} (p : prog http_sig (result exc A * unit)) (request : http_op)
    (f : result exc http_response -> result exc A) : Prop :=
  exists k, p = Call (E := http_sig) request k /\ forall answer, k answer = Ret (f answer, tt).

Lemma one_request_exec {A} (p : prog http_sig (result exc A * unit)) request f :
  one_request p request f ->
  total p /\
  forall tr r u, exec p tr (r, u) ->
    exists answer, tr = [Event (E := http_sig) request answer] /\ r = f answer.
Proof.
  intros (k & -> & Hk). split.
  - split; [done|]. intros answer _. by rewrite Hk.
  - intros tr r u (answer & tr' & -> & Hex)%exec_inv. rewrite Hk in Hex.
    apply exec_inv in Hex as [-> [= -> _]]. eauto.
Qed.

Lemma one_request_run {A} (p : prog http_sig (result exc A * unit)) request f answer :
  one_request p request f ->
  run (answer_all answer) p tt = Some ((f answer, tt), tt, [Event (E := http_sig) request answer]).
Proof. intros (k & -> & Hk). cbn. by rewrite Hk. Qed.
