(* ===== verification/Policy.v ===== *)
(** * Policy

    [gateway/policy/]: the fail-closed OPA client, the test client that allows
    everything, the rules of [policies/tools.rego] and the input the gateway
    builds for them (server.py). *)

From S2P Require Import Prelude Dict Pystr Json Models Errors Effects Http.
Open Scope Z_scope.

(* ------------------------------------------------------------------ *)
(** ** policy/client.py *)

Section client.
Context (float_norm : string -> string) (repr : json -> string) (opa_url : string).

Definition opa_decision_url : string := rstrip_slash opa_url +:+ "/v1/data/mcp_gateway/decision".

(** [self._url.rsplit("/v1/data/", 1)[0] + "/health"] *)
Definition opa_health_url : string := rstrip_slash opa_url +:+ "/health".

Definition policy_unavailable {A} : M http_sig unit A := raise (EGateway policy_unavailable_error).

(** The members of [{ALLOW, REQUIRES_APPROVAL, DENY}]. *)
Definition is_outcome (s : string) : bool :=
  String.eqb s ALLOW || String.eqb s REQUIRES_APPROVAL || String.eqb s DENY.

(** [str(result.get(key, default))] *)
Definition get_str (result : jdict) (key default : string) : string :=
  match dict_get key result with Some v => py_str repr v | None => default end.

Definition opa_evaluate (policy_input : jdict) : M http_sig unit PolicyDecision :=
  result ← try_with
    (response ← call (E := http_sig) (HPost opa_decision_url [] (JObj [("input", JObj policy_input)]));
     lift_result (raise_for_status response);;
     document ← lift_result (response_json float_norm response);
     lift_result (json_get document "result"))
    (fun e => if catches [HTTPError; ValueError; TypeError] e then policy_unavailable else raise e);
  match result with
  | Some (JObj result) =>
      match dict_get "outcome" result with
      | Some (JStr outcome) =>
          if is_outcome outcome then
            mret {| pd_outcome := outcome;
                    pd_matched_rule := get_str result "matched_rule" "unknown";
                    pd_reason := get_str result "reason" "" |}
          else policy_unavailable
      | Some (JList _) | Some (JObj _) => raise (EPy TypeError "unhashable type")
      | _ => policy_unavailable
      end
  | _ => policy_unavailable
  end.

Definition opa_healthcheck : M http_sig unit bool :=
  try_with
    (response ← call (E := http_sig) (HGet opa_health_url);
     lift_result (raise_for_status response);;
     mret true)
    (fun e => if catches [HTTPError] e then mret false else raise e).
End client.

(** [AllowAllPolicyClient.evaluate] *)
Definition allow_all_evaluate (policy_input : jdict) : PolicyDecision :=
  {| pd_outcome := ALLOW; pd_matched_rule := "test_allow_all";
     pd_reason := "OPA bypass is enabled only for direct isolated tests" |}.

(* ------------------------------------------------------------------ *)
(** ** policies/tools.rego

    An expression is undefined ([None]) when a reference or a builtin fails, and a
    rule body holds when none of its expressions is undefined or false. *)

Definition rego_get (key : string) (v : option json) : option json :=
  match v with Some (JObj kvs) => dict_get key kvs | _ => None end.

(** A reference as a body expression: defined and not false. *)
Definition rego_holds (v : option json) : bool :=
  match v with None | Some (JBool false) => false | Some _ => true end.

(** [v == s] and [v != s] for a text [s]. *)
Definition rego_eq (v : option json) (s : string) : bool :=
  match v with Some (JStr s') => String.eqb s' s | _ => false end.
Definition rego_neq (v : option json) (s : string) : bool :=
  match v with Some (JStr s') => negb (String.eqb s' s) | Some _ => true | None => false end.

(** [some role in v; role in texts] *)
Definition rego_some_in (v : option json) (texts : list string) : bool :=
  match v with
  | Some (JList l) => existsb (fun x => existsb (rego_eq (Some x)) texts) l
  | Some (JObj kvs) => existsb (fun kv => existsb (rego_eq (Some kv.2)) texts) kvs
  | _ => false
  end.

(** [upper(v)]: undefined on anything but a text. *)
Definition rego_upper (v : option json) : option string :=
  match v with Some (JStr s) => Some (upper s) | _ => None end.

Section rego.
Variable input : json.
Definition i_principal := rego_get "principal" (Some input).
Definition i_tool_name := rego_get "tool_name" (Some input).
Definition i_risk_class := rego_get "risk_class" (Some input).
Definition i_query := rego_upper (rego_get "query" (rego_get "arguments" (Some input))).
Definition i_command := rego_get "command" (rego_get "arguments" (Some input)).

Definition principal_in (roles : list string) : bool :=
  rego_neq (rego_get "tenant_id" i_principal) "" &&
  rego_some_in (rego_get "roles" i_principal) roles.

Definition caller_authorized : bool :=
  negb (rego_holds i_principal) || principal_in ["user"; "operator"; "admin"].
Definition caller_elevated : bool :=
  negb (rego_holds i_principal) || principal_in ["operator"; "admin"].

(** The query satisfies a condition on its upper-case text. *)
Definition query_is (f : string -> bool) : bool :=
  rego_eq i_tool_name "db_query" && match i_query with Some q => f q | None => false end.

Definition destructive : bool :=
  query_is (contains "DROP") ||
  query_is (contains "TRUNCATE") ||
  query_is (fun q => startswith "DELETE" q && negb (contains " WHERE " q)) ||
  query_is (fun q => startswith "UPDATE" q && negb (contains " WHERE " q)) ||
  rego_eq i_tool_name "shell_exec" &&
    match i_command with Some (JStr c) => contains ".." c | _ => false end.

(** The rules for [decision], in the order of the file: body and value. *)
Definition decision_rules : list (bool * PolicyDecision) :=
  [(rego_holds i_principal && negb caller_authorized,
    {| pd_outcome := DENY; pd_matched_rule := "invalid_principal";
       pd_reason := "A verified tenant and supported role are required" |});
   (rego_eq i_risk_class "read_only" && caller_authorized && negb destructive,
    {| pd_outcome := ALLOW; pd_matched_rule := "read_only_tool";
       pd_reason := "Read-only tools are allowed" |});
   (destructive && caller_elevated,
    {| pd_outcome := REQUIRES_APPROVAL; pd_matched_rule := "destructive_operation";
       pd_reason := "Destructive operations require explicit approval and a reason" |});
   (rego_eq i_risk_class "mutating" && caller_elevated && negb destructive,
    {| pd_outcome := REQUIRES_APPROVAL; pd_matched_rule := "mutating_tool";
       pd_reason := "Mutating tools require explicit approval" |});
   (rego_eq i_risk_class "destructive" && caller_elevated && negb destructive,
    {| pd_outcome := REQUIRES_APPROVAL; pd_matched_rule := "destructive_risk_class";
       pd_reason := "Destructive tools require explicit approval and a reason" |})].

Definition default_decision : PolicyDecision :=
  {| pd_outcome := DENY; pd_matched_rule := "default_deny"; pd_reason := "No policy rule matched" |}.

(** A complete rule: the default when no body holds, the common value of the
    rules whose body holds, and a conflict error ([None]) if they differ. *)
Definition rego_decision : option PolicyDecision :=
  match omap (fun rule : bool * PolicyDecision => if rule.1 then Some rule.2 else None) decision_rules with
  | [] => Some default_decision
  | d :: ds => if forallb (fun d' => bool_decide (d' = d)) ds then Some d else None
  end.
End rego.

(* ------------------------------------------------------------------ *)
(** ** The input the gateway builds (server.py) *)

Definition anonymous_principal : jdict :=
  [("subject", JStr "anonymous"); ("tenant_id", JStr "local"); ("roles", JList [JStr "admin"])].

Definition principal_json (principal : option Principal) : json :=
  match principal with Some p => JObj (dump_Principal p) | None => JObj anonymous_principal end.

Definition make_policy_input (tool_name : string) (risk_class : RiskClass) (arguments : jdict)
    (principal : option Principal) : jdict :=
  [("tool_name", JStr tool_name);
   ("risk_class", JStr (value risk_class));
   ("arguments", JObj arguments);
   ("principal", principal_json principal)].

(* ------------------------------------------------------------------ *)
(** ** Facts about the rules *)

Lemma existsb_mono {A} (f g : A -> bool) l :
  (forall x, f x = true -> g x = true) -> existsb f l = true -> existsb g l = true.
Proof. intros Hfg. rewrite !existsb_exists. intros (x & Hx & Hf). eauto. Qed.

Lemma rego_some_in_mono v l1 l2 :
  (forall s, In s l1 -> In s l2) -> rego_some_in v l1 = true -> rego_some_in v l2 = true.
Proof.
  intros Hsub. assert (Hx : forall x, existsb (rego_eq x) l1 = true -> existsb (rego_eq x) l2 = true).
  { intros x. rewrite !existsb_exists. intros (s & Hs & He). eauto. }
  destruct v as [[]|]; cbn; try done; apply existsb_mono; auto.
Qed.

Lemma elevated_authorized input : caller_elevated input = true -> caller_authorized input = true.
Proof.
  unfold caller_elevated, caller_authorized, principal_in.
  destruct (rego_holds _); cbn; [|done]. intros [-> Hr]%andb_true_iff. cbn.
  eapply rego_some_in_mono; [|exact Hr]. cbn. tauto.
Qed.

Lemma rego_eq_inj v s s' : rego_eq v s = true -> rego_eq v s' = true -> s = s'.
Proof.
  destruct v as [[]|]; cbn; try done. rewrite !String.eqb_eq. congruence.
Qed.

(** A query of [db_query] after its first character: the DELETE and UPDATE
    conditions look at the first characters of the text only. *)
Lemma leading_space_not_destructive :
  destructive (JObj (make_policy_input "db_query" READ_ONLY [("query", JStr "DELETE FROM orders")] None)) = true /\
  destructive (JObj (make_policy_input "db_query" READ_ONLY [("query", JStr " DELETE FROM orders")] None)) = false.
Proof. by vm_compute. Qed.

Lemma existsb_roles p (roles : list Role) :
  rego_some_in (rego_get "roles" (Some (JObj (dump_Principal p)))) (map value roles) =
  existsb (fun r => has_role p r) roles.
Proof.
  change (rego_get "roles" (Some (JObj (dump_Principal p))))
    with (Some (JList (map (fun r => JStr (value r)) (pr_roles p)))).
  unfold rego_some_in. apply eq_true_iff_eq. rewrite !existsb_exists. split.
  - intros (x & Hx & Hr). apply in_map_iff in Hx as (r & <- & Hin).
    apply existsb_exists in Hr as (s & Hs & He). apply in_map_iff in Hs as (r' & <- & Hin').
    apply String.eqb_eq, (value_inj r r') in He as ->.
    exists r'. split; [done|]. apply bool_decide_eq_true. by apply list_elem_of_In.
  - intros (r & Hr & Hh). apply bool_decide_eq_true, list_elem_of_In in Hh.
    exists (JStr (value r)). split; [apply in_map_iff; eauto|].
    apply existsb_exists. exists (value r). split; [by apply in_map|]. cbn. apply String.eqb_refl.
Qed.

(** Whether the caller of a gateway call is elevated. *)
Definition elevated_principal (principal : option Principal) : bool :=
  match principal with
  | None => true
  | Some p => existsb (has_role p) [OPERATOR; ADMIN]
  end.

Lemma gateway_caller tool risk args principal :
  (forall p, principal = Some p -> Principal_valid p = true) ->
  let input := JObj (make_policy_input tool risk args principal) in
  caller_authorized input = true /\ caller_elevated input = elevated_principal principal.
Proof.
  intros Hv input. destruct principal as [p|]; [|by vm_compute].
  assert (Hp : i_principal input = Some (JObj (dump_Principal p))) by done.
  unfold caller_authorized, caller_elevated, principal_in. rewrite Hp.
  cbn [rego_holds negb orb elevated_principal].
  specialize (Hv p eq_refl). unfold Principal_valid in Hv.
  apply andb_true_iff in Hv as [[_ Ht]%andb_true_iff Hr].
  assert (rego_neq (rego_get "tenant_id" (Some (JObj (dump_Principal p)))) "" = true) as ->.
  { cbn. destruct (pr_tenant_id p); [done|]. done. }
  cbn [andb]. split; [|exact (existsb_roles p [OPERATOR; ADMIN])].
  change ["user"; "operator"; "admin"] with (map value [USER; OPERATOR; ADMIN]).
  rewrite existsb_roles.
  destruct (pr_roles p) as [|r roles] eqn:Hroles; [done|].
  apply existsb_exists. exists r. split; [by destruct r; cbn; auto|].
  unfold has_role. apply bool_decide_eq_true. rewrite Hroles. apply elem_of_cons. by left.
Qed.

(** The outcome of the evaluation, by the answer of the server. *)
Definition opa_result (float_norm : string -> string) (repr : json -> string)
    (answer : result exc http_response) : result exc PolicyDecision :=
  match answer with
  | Err e => if catches [HTTPError; ValueError; TypeError] e
             then Err (EGateway policy_unavailable_error) else Err e
  | Ok response =>
      if negb (is_success response) then Err (EGateway policy_unavailable_error) else
      match loads float_norm (text response) with
      | None => Err (EGateway policy_unavailable_error)
      | Some (JObj document) =>
          match dict_get "result" document with
          | Some (JObj res) =>
              match dict_get "outcome" res with
              | Some (JStr outcome) =>
                  if is_outcome outcome then
                    Ok {| pd_outcome := outcome;
                          pd_matched_rule := get_str repr res "matched_rule" "unknown";
                          pd_reason := get_str repr res "reason" "" |}
                  else Err (EGateway policy_unavailable_error)
              | Some (JList _) | Some (JObj _) => Err (EPy TypeError "unhashable type")
              | _ => Err (EGateway policy_unavailable_error)
              end
          | _ => Err (EGateway policy_unavailable_error)
          end
      | Some _ => Err (EPy OtherException "object has no attribute 'get'")
      end
  end.

(** A response whose document has a result object; the values a set has no look-up
    for; and the answers that are not usable. *)
Definition opa_answered (float_norm : string -> string) (response : http_response) (res : jdict) : Prop :=
  is_success response = true /\ exists document, loads float_norm (text response) = Some (JObj document) /\
    dict_get "result" document = Some (JObj res).
Definition is_container (v : json) : bool := match v with JList _ | JObj _ => true | _ => false end.
Definition opa_unusable (float_norm : string -> string) (answer : result exc http_response) : Prop :=
  match answer with
  | Err e => catches [HTTPError; ValueError; TypeError] e = true \/ e = EGateway policy_unavailable_error
  | Ok response =>
      is_success response = false \/ loads float_norm (text response) = None \/
      (exists document, loads float_norm (text response) = Some (JObj document) /\
         forall res, dict_get "result" document <> Some (JObj res)) \/
      (exists res, opa_answered float_norm response res /\
         forall outcome, dict_get "outcome" res = Some outcome -> is_container outcome = false /\
           forall o, outcome = JStr o -> is_outcome o = false)
  end.

Lemma opa_result_cases float_norm repr answer :
  match opa_result float_norm repr answer with
  | Ok d => exists response res, answer = Ok response /\ opa_answered float_norm response res /\
      dict_get "outcome" res = Some (JStr (pd_outcome d)) /\ is_outcome (pd_outcome d) = true /\
      pd_matched_rule d = get_str repr res "matched_rule" "unknown" /\ pd_reason d = get_str repr res "reason" ""
  | Err e =>
      e = EGateway policy_unavailable_error \/
      (answer = Err e /\ catches [HTTPError; ValueError; TypeError] e = false) \/
      (exists response document, answer = Ok response /\ is_success response = true /\
         loads float_norm (text response) = Some document /\ (forall kvs, document <> JObj kvs) /\
         e = EPy OtherException "object has no attribute 'get'") \/
      (exists response res outcome, answer = Ok response /\ opa_answered float_norm response res /\
         dict_get "outcome" res = Some outcome /\ is_container outcome = true /\
         e = EPy TypeError "unhashable type")
  end.
Proof.
  destruct answer as [response|e]; cbn [opa_result]; [|destruct (catches _ e) eqn:Hc; auto].
  unfold opa_answered. destruct (is_success response) eqn:Hs; cbn [negb]; [|by left].
  destruct (loads float_norm (text response)) as [[| | | | | |document]|] eqn:Hl;
    try (right; right; left; eexists _, _; split_and!; done); [|by left].
  destruct (dict_get "result" document) as [[| | | | | |res]|] eqn:Hres; try by left.
  destruct (dict_get "outcome" res) as [[| | | |o|l|l]|] eqn:Ho; try by left.
  - destruct (is_outcome o) eqn:Hio; [|by left]. exists response, res. cbn. split_and!; eauto.
  - right; right; right. exists response, res, (JList l). split_and!; eauto.
  - right; right; right. exists response, res, (JObj l). split_and!; eauto.
Qed.

(** An answer with a result object is unusable only for its outcome. *)
Lemma unusable_outcome float_norm response document res :
  is_success response = true -> loads float_norm (text response) = Some (JObj document) ->
  dict_get "result" document = Some (JObj res) ->
  opa_unusable float_norm (Ok response) <->
  (forall outcome, dict_get "outcome" res = Some outcome -> is_container outcome = false /\
     forall o, outcome = JStr o -> is_outcome o = false).
Proof.
  intros Hs Hl Hres. unfold opa_unusable, opa_answered. split.
  - intros [H|[H|[(d & Hd & Hno)|(res' & (_ & d & Hd & Hr) & Hall)]]]; try congruence.
    rewrite Hl in Hd. injection Hd as <-. rewrite Hres in Hr. by injection Hr as <-.
  - intros Hall. right; right; right. exists res. eauto.
Qed.

Lemma opa_result_unusable float_norm repr answer :
  opa_result float_norm repr answer = Err (EGateway policy_unavailable_error) <-> opa_unusable float_norm answer.
Proof.
  destruct answer as [response|e]; cbn [opa_result].
  2:{ cbn [opa_unusable]. destruct (catches _ e); [by split; auto|]. split; [intros [= ->]; auto|by intros [?| ->]]. }
  destruct (is_success response) eqn:Hs; cbn [negb]; [|by split; [left|]].
  destruct (loads float_norm (text response)) as [v|] eqn:Hl; [|by split; [right; left|]].
  destruct v as [| | | | | |document].
  1-6: split; [done|]; cbn; unfold opa_answered;
    intros [H|[H|[(d & Hd & _)|(res & (_ & d & Hd & _) & _)]]]; congruence.
  assert (Hno : (forall res, dict_get "result" document <> Some (JObj res)) -> opa_unusable float_norm (Ok response))
    by (intros Hres; right; right; left; eauto).
  destruct (dict_get "result" document) as [[| | | | | |res]|] eqn:Hres;
    try (split; [intros _; by apply Hno|done]).
  rewrite (unusable_outcome _ _ _ _ Hs Hl Hres).
  destruct (dict_get "outcome" res) as [v|]; [|by split].
  assert (Hv : forall P : Prop, (forall outcome, Some v = Some outcome -> is_container outcome = false /\
     forall o, outcome = JStr o -> is_outcome o = false) <->
     (is_container v = false /\ forall o, v = JStr o -> is_outcome o = false)).
  { intros _. split; [intros Hall; by apply Hall|]. by intros ? ? [= <-]. }
  rewrite (Hv True). destruct v; try by (split; [done|intros [? _]]).
  destruct (is_outcome s) eqn:Hio; (split; [|done || by intros [_ Ho]; specialize (Ho _ eq_refl); congruence]).
  - done.
  - intros _. split; [done|]. by intros o [= <-].
Qed.

Lemma opa_evaluate_call float_norm repr opa_url policy_input :
  exists k, opa_evaluate float_norm repr opa_url policy_input tt =
    Call (E := http_sig) (HPost (opa_decision_url opa_url) [] (JObj [("input", JObj policy_input)])) k /\
    forall answer, k answer = Ret (opa_result float_norm repr answer, tt).
Proof.
  eexists. split; [reflexivity|]. intros [response|e]; cbn -[catches].
  - rewrite bind_lift. unfold raise_for_status.
    destruct (is_success response); cbn -[catches]; [|done].
    rewrite bind_lift. unfold response_json. destruct (loads float_norm (text response)) as [v|]; [|done].
    cbn -[catches]. destruct v as [| | | | | |document]; try done. cbn -[catches dict_get].
    destruct (dict_get "result" document) as [[| | | | | |res]|]; try done.
    destruct (dict_get "outcome" res) as [[| | | |o| |]|]; try done.
    by destruct (is_outcome o).
  - by destruct (catches _ e).
Qed.

(** The decision on the input the gateway builds, by the risk class of the tool
    and the roles of the caller. *)
Lemma gateway_outcome (tool : string) (risk : RiskClass) (args : jdict)
    (principal : option Principal) :
  (forall p, principal = Some p -> Principal_valid p = true) ->
  let input := JObj (make_policy_input tool risk args principal) in
  pd_outcome <$> rego_decision input =
    Some (if destructive input || negb (bool_decide (risk = READ_ONLY)) then
            if elevated_principal principal then REQUIRES_APPROVAL else DENY
          else ALLOW).
Proof.
  intros Hv input. destruct (gateway_caller tool risk args principal Hv) as [Ha He].
  fold input in Ha, He.
  assert (Hrisk : forall s, rego_eq (i_risk_class input) s = String.eqb (value risk) s) by done.
  unfold rego_decision, decision_rules. rewrite Ha, He, !Hrisk.
  rewrite !andb_false_r. destruct (destructive input), risk, (elevated_principal principal); done.
Qed.

(* ------------------------------------------------------------------ *)
(** ** Properties *)

(** The policy rules never conflict: on every input the policy has one
    decision.  It allows exactly the read-only calls of authorized callers that
    are not destructive, asks for approval exactly when an elevated caller makes
    a destructive call or calls a mutating or destructive tool, and denies
    everything else. *)
Theorem rego_decision_correct (input : json) :
  exists d, rego_decision input = Some d /\
    (pd_outcome d = ALLOW <->
       rego_eq (i_risk_class input) "read_only" = true /\ caller_authorized input = true /\
       destructive input = false) /\
    (pd_outcome d = REQUIRES_APPROVAL <->
       caller_elevated input = true /\
       (destructive input = true \/ rego_eq (i_risk_class input) "mutating" = true \/
        rego_eq (i_risk_class input) "destructive" = true)) /\
    is_outcome (pd_outcome d) = true.
Proof.
  unfold rego_decision, decision_rules.
  pose proof (elevated_authorized input) as Hea.
  destruct (rego_eq (i_risk_class input) "read_only") eqn:Hr,
           (rego_eq (i_risk_class input) "mutating") eqn:Hm,
           (rego_eq (i_risk_class input) "destructive") eqn:Hd;
    try (by pose proof (rego_eq_inj _ _ _ Hr Hm)); try (by pose proof (rego_eq_inj _ _ _ Hr Hd));
    try (by pose proof (rego_eq_inj _ _ _ Hm Hd));
    destruct (caller_elevated input), (caller_authorized input) eqn:Ha, (destructive input);
    try (by specialize (Hea eq_refl));
    destruct (rego_holds (i_principal input)) eqn:Hp;
    try (unfold caller_authorized in Ha; rewrite Hp in Ha; discriminate Ha).
  all: eexists; split; [by vm_compute|]; split_and!; [| |by vm_compute]; cbn;
    unfold ALLOW, REQUIRES_APPROVAL, DENY; intuition congruence.
Qed.

(** On the input the gateway builds for a call, the policy allows read-only
    tools and asks operators and administrators (and anonymous local callers) for
    approval of everything else; a query or command with a destructive text is
    never allowed; and a caller with the user role only is denied whatever is not
    an allowed read. *)
Theorem gateway_policy_table (tool : string) (risk : RiskClass) (args : jdict)
    (principal : option Principal) :
  (forall p, principal = Some p -> Principal_valid p = true) ->
  let input := JObj (make_policy_input tool risk args principal) in
  pd_outcome <$> rego_decision input =
    Some (if destructive input || negb (bool_decide (risk = READ_ONLY)) then
            if elevated_principal principal then REQUIRES_APPROVAL else DENY
          else ALLOW).
Proof. apply gateway_outcome. Qed.

(** C28: the OPA client sends one request, with the input, and fails closed.  It
    returns a decision only if the server answered with success and a JSON object
    whose result is an object naming one of the three outcomes, which is then the
    outcome.  It raises that the policy is unavailable exactly for an answer that is not
    usable: an error of the transport, an error status, a text that is not JSON, no
    result object, or an outcome that is none of the three.  Three answers escape as other
    errors, still without a decision: an error of the client of another kind (such
    as a cancellation) leaves as it is; a document that is not an object has no "get";
    and an outcome that is a list or an object cannot be looked up among the outcomes. *)
Theorem opa_evaluate_fails_closed float_norm repr opa_url policy_input :
  total (opa_evaluate float_norm repr opa_url policy_input tt) /\
  forall tr r u, exec (opa_evaluate float_norm repr opa_url policy_input tt) tr (r, u) ->
  exists answer : result exc http_response,
    tr = [Event (E := http_sig) (HPost (opa_decision_url opa_url) [] (JObj [("input", JObj policy_input)])) answer] /\
    (r = Err (EGateway policy_unavailable_error) <-> opa_unusable float_norm answer) /\
    match r with
    | Ok d => exists response res, answer = Ok response /\ opa_answered float_norm response res /\
        dict_get "outcome" res = Some (JStr (pd_outcome d)) /\ is_outcome (pd_outcome d) = true /\
        pd_matched_rule d = get_str repr res "matched_rule" "unknown" /\ pd_reason d = get_str repr res "reason" ""
    | Err e =>
        e = EGateway policy_unavailable_error \/
        (answer = Err e /\ catches [HTTPError; ValueError; TypeError] e = false) \/
        (exists response document, answer = Ok response /\ is_success response = true /\
           loads float_norm (text response) = Some document /\ (forall kvs, document <> JObj kvs) /\
           e = EPy OtherException "object has no attribute 'get'") \/
        (exists response res outcome, answer = Ok response /\ opa_answered float_norm response res /\
           dict_get "outcome" res = Some outcome /\ is_container outcome = true /\
           e = EPy TypeError "unhashable type")
    end.
Proof.
  destruct (opa_evaluate_call float_norm repr opa_url policy_input) as (k & -> & Hk). split.
  - split; [done|]. intros answer _. by rewrite Hk.
  - intros tr r u (answer & tr' & -> & Hex)%exec_inv. rewrite Hk in Hex.
    apply exec_inv in Hex as [-> [= -> _]]. exists answer. split; [done|].
    split; [apply opa_result_unusable|apply opa_result_cases].
Qed.

(* ------------------------------------------------------------------ *)
(** ** Witnesses *)

Module witness.
Definition alice : Principal :=
  {| pr_subject := "alice"; pr_tenant_id := "acme"; pr_roles := [USER]; pr_issuer := None;
     pr_agent_id := None |}.
End witness.

Lemma gateway_policy_table_witness :
  pd_outcome <$> rego_decision (JObj (make_policy_input "db_query" READ_ONLY
    [("query", JStr "drop table orders")] (Some witness.alice))) = Some DENY.
Proof.
  rewrite (gateway_policy_table "db_query" READ_ONLY [("query", JStr "drop table orders")]
             (Some witness.alice)).
  - vm_compute. reflexivity.
  - intros p [= <-]. vm_compute. reflexivity.
Defined.
