(* ===== verification/Hitl.v ===== *)
(** * Human approval

    [gateway/hitl/]: the approval queue in memory and in Redis, the creation of a
    request, and the operator's command line.  Identifiers and readings of the
    clock are arguments. *)

From S2P Require Import Prelude Dict Pystr Json Models Errors Effects Encoding Redis.
Open Scope Z_scope.

Definition create_approval_request (approval_id call_id tool_name : string)
    (arguments policy_input : jdict) (matched_rule : string) (created_at : Z) : ApprovalRequest :=
  {| ap_approval_id := approval_id; ap_call_id := call_id; ap_tool_name := tool_name;
     ap_arguments := arguments; ap_policy_input := policy_input; ap_matched_rule := matched_rule;
     ap_created_at := created_at; ap_decision := None; ap_approver := None; ap_reason := None |}.

(** [request.model_copy(update={...})] of [decide]. *)
Definition decided (request : ApprovalRequest) (approved : bool) (approver reason : string) :
    ApprovalRequest :=
  {| ap_approval_id := ap_approval_id request; ap_call_id := ap_call_id request;
     ap_tool_name := ap_tool_name request; ap_arguments := ap_arguments request;
     ap_policy_input := ap_policy_input request; ap_matched_rule := ap_matched_rule request;
     ap_created_at := ap_created_at request;
     ap_decision := Some (if approved then "approved" else "rejected");
     ap_approver := Some approver; ap_reason := Some reason |}.

Definition unavailable : exc := EGateway state_store_unavailable_error.
Definition timed_out : exc := EGateway approval_timeout_error.
Definition rejected (reason : string) : exc := EGateway (approval_rejected_error reason).

(** What a waiter makes of a request that has a decision. *)
Definition decision_outcome (request : ApprovalRequest) : result exc ApprovalRequest :=
  if bool_decide (ap_decision request = Some "approved") then Ok request
  else Err (rejected (or_default (ap_reason request) "The approval was rejected")).

(* ------------------------------------------------------------------ *)
(** ** [InMemoryApprovalQueue] *)

Definition InMemoryApprovalQueue : Type := dict string ApprovalRequest.

Definition mem_submit (request : ApprovalRequest) (q : InMemoryApprovalQueue) :
    InMemoryApprovalQueue := dict_set (ap_approval_id request) request q.

Definition mem_resolved (approval_id : string) (q : InMemoryApprovalQueue) : option ApprovalRequest :=
  match dict_get approval_id q with
  | Some request => if truthy (default "" (ap_decision request)) then Some request else None
  | None => None
  end.

(** [wait]: [wakeups] are the queues the waiter sees, first when it enters and
    then each time it is notified, before its deadline. *)
Fixpoint mem_wait (approval_id : string) (wakeups : list InMemoryApprovalQueue) :
    result exc ApprovalRequest :=
  match wakeups with
  | [] => Err timed_out
  | q :: wakeups' =>
      match mem_resolved approval_id q with
      | Some request => decision_outcome request
      | None => mem_wait approval_id wakeups'
      end
  end.

Definition blank_reason : exc := rejected "An approval or rejection requires a reason".

Definition mem_decide (approval_id : string) (approved : bool) (approver reason : string)
    (q : InMemoryApprovalQueue) : result exc unit * InMemoryApprovalQueue :=
  if negb (truthy (strip reason)) then (Err blank_reason, q) else
  match dict_get approval_id q with
  | None => (Err timed_out, q)
  | Some request => (Ok tt, dict_set approval_id (decided request approved approver reason) q)
  end.

Definition is_pending (request : ApprovalRequest) : bool := bool_decide (ap_decision request = None).

Definition mem_list_pending (q : InMemoryApprovalQueue) : list ApprovalRequest :=
  List.filter is_pending (dict_values q).

(* ------------------------------------------------------------------ *)
(** ** [RedisApprovalQueue] *)

Definition approval_prefix : string := "gateway:approval:".
Definition approval_key (approval_id : string) : string := approval_prefix +:+ approval_id.
#[global] Arguments approval_key : simpl never.

Section redis_queue.
Context (model_dump_json : ApprovalRequest -> string).
Context (model_validate_json : string -> result exc ApprovalRequest).
Context (ttl_seconds : Z).
Abbreviation RM := (M redis_sig unit).

(** [except (RedisError, OSError) -> StateStoreUnavailableError] *)
Definition guarded {A} (m : RM A) : RM A :=
  try_with m (fun e => if catches [RedisError; OSError] e then raise unavailable else raise e).

Definition redis_submit (request : ApprovalRequest) : RM unit :=
  guarded (call (E := redis_sig)
    (RSet (approval_key (ap_approval_id request)) (model_dump_json request) ttl_seconds)).

(** The polling loop: [polls] is the number of polls that begin before the
    deadline of [asyncio.timeout]; the pauses between them are no operations. *)
Fixpoint wait_loop (approval_id : string) (polls : nat) : RM ApprovalRequest :=
  match polls with
  | O => raise (EPy TimeoutError "")
  | S polls =>
      raw ← call (E := redis_sig) (RGet (approval_key approval_id));
      match raw with
      | None => wait_loop approval_id polls
      | Some raw =>
          request ← lift_result (model_validate_json raw);
          match ap_decision request with
          | Some _ => lift_result (decision_outcome request)
          | None => wait_loop approval_id polls
          end
      end
  end.

Definition redis_wait (approval_id : string) (polls : nat) : RM ApprovalRequest :=
  try_with (wait_loop approval_id polls) (fun e =>
    if is_gateway_class ApprovalTimeoutError e then raise e
    else if catches [TimeoutError] e then raise timed_out
    else if catches [RedisError; OSError] e then raise unavailable
    else raise e).

Definition redis_decide (approval_id : string) (approved : bool) (approver reason : string) : RM unit :=
  if negb (truthy (strip reason)) then raise blank_reason else
  try_with
    (raw ← call (E := redis_sig) (RGet (approval_key approval_id));
     match raw with
     | None => raise timed_out
     | Some raw =>
         request ← lift_result (model_validate_json raw);
         call (E := redis_sig) (RSet (approval_key approval_id)
           (model_dump_json (decided request approved approver reason)) ttl_seconds)
     end)
    (fun e =>
       if is_gateway_class ApprovalTimeoutError e then raise e
       else if catches [RedisError; OSError] e then raise unavailable
       else raise e).

(** The body of the loop of [list_pending] over the keys. *)
Fixpoint pending_of_keys (keys : list string) : RM (list ApprovalRequest) :=
  match keys with
  | [] => mret []
  | key :: keys' =>
      raw ← call (E := redis_sig) (RGet key);
      match raw with
      | None => pending_of_keys keys'
      | Some raw =>
          request ← lift_result (model_validate_json raw);
          rest ← pending_of_keys keys';
          mret (if is_pending request then request :: rest else rest)
      end
  end.

Definition redis_list_pending : RM (list ApprovalRequest) :=
  guarded (keys ← call (E := redis_sig) (RScan approval_prefix); pending_of_keys keys).
End redis_queue.

(* ------------------------------------------------------------------ *)
(** ** hitl/cli.py *)

(** What the operator asks for: the words of the command line. *)
Record cli_args := {
  cli_approval_id : string;
  cli_decision : option string;
  cli_approver : option string;
  cli_reason : option string
}.

Inductive cli_outcome :=
| Listed
| UnknownApproval
| UsageError
| Decided (approval_id : string) (approved : bool) (approver reason : string).

(** What [_run] does with the pending requests, before it calls the queue. *)
Definition cli_run (pending : list ApprovalRequest) (args : cli_args) : cli_outcome :=
  if String.eqb (cli_approval_id args) "list" then Listed
  else if negb (bool_decide (cli_approval_id args ∈ map ap_approval_id pending)) then UnknownApproval
  else match cli_decision args, cli_approver args, cli_reason args with
       | Some decision, Some approver, Some reason =>
           Decided (cli_approval_id args) (String.eqb decision "approve") approver reason
       | _, _, _ => UsageError
       end.

(* ------------------------------------------------------------------ *)
(** ** Operations and their contract *)

Inductive queue_op :=
| QSubmit (request : ApprovalRequest)
| QDecide (approval_id : string) (approved : bool) (approver reason : string)
| QWait (approval_id : string) (polls : nat)
| QList.

Definition queue_ans (o : queue_op) : Type :=
  match o with
  | QSubmit _ | QDecide _ _ _ _ => unit
  | QWait _ _ => ApprovalRequest
  | QList => list ApprovalRequest
  end.

(** The in-memory queue; a waiter alone sees the same queue at each wake-up. *)
Definition mem_queue_perform (o : queue_op) (q : InMemoryApprovalQueue) :
    result exc (queue_ans o) * InMemoryApprovalQueue :=
  match o with
  | QSubmit request => (Ok tt, mem_submit request q)
  | QDecide approval_id approved approver reason => mem_decide approval_id approved approver reason q
  | QWait approval_id polls => (mem_wait approval_id (repeat q polls), q)
  | QList => (Ok (mem_list_pending q), q)
  end.

Definition redis_queue_perform (model_dump_json : ApprovalRequest -> string)
    (model_validate_json : string -> result exc ApprovalRequest) (ttl_seconds : Z) (o : queue_op) :
    M redis_sig unit (queue_ans o) :=
  match o with
  | QSubmit request => redis_submit model_dump_json ttl_seconds request
  | QDecide approval_id approved approver reason =>
      redis_decide model_dump_json model_validate_json ttl_seconds approval_id approved approver reason
  | QWait approval_id polls => redis_wait model_validate_json approval_id polls
  | QList => redis_list_pending model_validate_json
  end.

(** Answers are equal; lists of requests up to their order. *)
Definition same_answer (o : queue_op) : result exc (queue_ans o) -> result exc (queue_ans o) -> Prop :=
  match o with
  | QList => fun r r' => match r, r' with
                         | Ok l, Ok l' => l ≡ₚ l'
                         | Err e, Err e' => e = e'
                         | _, _ => False
                         end
  | _ => eq
  end.

(** What the answers to a store fault may be. *)
Definition fault_answer (o : queue_op) (r : result exc (queue_ans o)) : Prop :=
  r = Err unavailable \/ match o with QWait _ _ => r = Err timed_out | _ => False end.

(** Requests are stored under their identifier, and are undecided or decided. *)
Definition queue_ok (q : InMemoryApprovalQueue) : Prop :=
  dict_ok q /\ forall id r, dict_get id q = Some r -> ap_approval_id r = id /\
    (ap_decision r = None \/ ap_decision r = Some "approved" \/ ap_decision r = Some "rejected").

Definition submitted_pending (o : queue_op) : Prop :=
  match o with QSubmit request => ap_decision request = None | _ => True end.

Lemma approval_key_inj a b : approval_key a = approval_key b -> a = b.
Proof. intros Heq. by apply (inj (String.append approval_prefix)) in Heq. Qed.

Lemma prefix_of_app p s : String.prefix p (p +:+ s) = true.
Proof.
  induction p as [|c p IH]; [by destruct s|]. cbn. by destruct (Ascii.ascii_dec c c).
Qed.

Lemma approval_key_prefix k : String.prefix approval_prefix k = true -> exists id, k = approval_key id.
Proof.
  unfold approval_key. generalize approval_prefix as p. intros p. revert k.
  induction p as [|c p IH]; intros k; [by exists k|].
  destruct k as [|c' k]; [done|]. cbn. destruct (Ascii.ascii_dec c c') as [<-|]; [|done].
  intros (id & ->)%IH. by exists id.
Qed.

Lemma mem_perform_queue_ok o q :
  queue_ok q -> submitted_pending o -> queue_ok (mem_queue_perform o q).2.
Proof.
  intros [Hd Hq] Ho. destruct o as [request|id approved approver reason|id polls|]; cbn; try done.
  - split; [by apply dict_set_ok|]. intros id r. unfold mem_submit. rewrite dict_get_set.
    case_decide as Hid; [intros [= <-]; auto|apply Hq].
  - unfold mem_decide. destruct (truthy (strip reason)); cbn; [|done].
    destruct (dict_get id q) as [request|] eqn:Hg; cbn; [|done].
    split; [by apply dict_set_ok|]. intros id' r. rewrite dict_get_set.
    case_decide as Hid; [intros [= <-]; subst|apply Hq]. destruct (Hq _ _ Hg) as [Hi _]. cbn.
    split; [done|]. right. by destruct approved; [left|right].
Qed.

Lemma filter_permutation {A} (f : A -> bool) l l' :
  l ≡ₚ l' -> List.filter f l ≡ₚ List.filter f l'.
Proof.
  induction 1 as [|x l l' _ IH|x y l|l1 l2 l3 _ IH1 _ IH2]; cbn; [done| | |by etransitivity].
  - destruct (f x); [by constructor|done].
  - destruct (f x), (f y); try done. constructor.
Qed.

Section contract.
Context {W : Type} `{!RedisServer W}.
Context (model_dump_json : ApprovalRequest -> string).
Context (model_validate_json : string -> result exc ApprovalRequest).
Context (validate_dump : forall r, model_validate_json (model_dump_json r) = Ok r).
Context (ttl_seconds : Z) (client : nat).

Definition queue_represents (w : W) (q : InMemoryApprovalQueue) : Prop :=
  queue_ok q /\ forall id, rs_value w (approval_key id) =
    (fun r => RString (model_dump_json r)) <$> dict_get id q.

Lemma queue_represents_same w w' q :
  queue_represents w q -> (forall k, rs_value w' k = rs_value w k) -> queue_represents w' q.
Proof. intros [Hq Hv] Heq. split; [done|]. intros id. by rewrite Heq. Qed.

Lemma queue_represents_set w w' q q' id r ex :
  queue_represents w q -> queue_ok q' -> q' = dict_set id r q ->
  (forall k, rs_value w' k = apply_cmds [CSet (approval_key id) (model_dump_json r) ex] (rs_value w) k) ->
  queue_represents w' q'.
Proof.
  intros [_ Hv] Hq' -> Heq. split; [done|]. intros id'. rewrite Heq, dict_get_set. cbn.
  case_decide as Hk; [apply approval_key_inj in Hk as <-; by rewrite decide_True|].
  rewrite decide_False by congruence. apply Hv.
Qed.

Lemma fault_caught e : redis_fault e -> catches [RedisError; OSError] e = true.
Proof. by intros []. Qed.

Lemma fault_not_timeout_error e : redis_fault e -> is_gateway_class ApprovalTimeoutError e = false.
Proof. intros [He _]. by destruct e. Qed.

Definition queue_contract (w' : W) (q : InMemoryApprovalQueue) (o : queue_op)
    (r : result exc (queue_ans o)) : Prop :=
  let out := mem_queue_perform o q in
  (same_answer o r out.1 /\ queue_represents w' out.2) \/
  (fault_answer o r /\ (queue_represents w' q \/ queue_represents w' out.2)).

Lemma redis_submit_contract request w q r u w' :
  queue_represents w q -> ap_decision request = None ->
  client_run respond client (redis_submit model_dump_json ttl_seconds request tt) w (r, u) w' ->
  queue_contract w' q (QSubmit request) r.
Proof.
  intros Hrep Hp (r0 & w1 & Hr0 & Hrun). pose proof (proj1 Hrep) as Hok.
  pose proof (mem_perform_queue_ok (QSubmit request) q Hok Hp) as Hok'.
  destruct (respond_set _ _ _ _ _ _ _ Hr0) as [(Hv & e & -> & He)|(Hv & He)].
  - cbn -[catches] in Hrun. rewrite fault_caught in Hrun by done. destruct Hrun as [[= -> _] ->].
    right. split; [by left|]. left. by eapply queue_represents_same.
  - assert (queue_represents w1 (mem_submit request q)) by by eapply queue_represents_set.
    destruct r0 as [[]|e]; cbn -[catches] in Hrun.
    + destruct Hrun as [[= -> _] ->]. left. done.
    + rewrite fault_caught in Hrun by done. destruct Hrun as [[= -> _] ->]. right. split; [by left|by right].
Qed.

Lemma redis_decide_contract id approved approver reason w q r u w' :
  queue_represents w q ->
  client_run respond client
    (redis_decide model_dump_json model_validate_json ttl_seconds id approved approver reason tt) w (r, u) w' ->
  queue_contract w' q (QDecide id approved approver reason) r.
Proof.
  intros Hrep Hrun. pose proof (proj1 Hrep) as Hok.
  pose proof (mem_perform_queue_ok (QDecide id approved approver reason) q Hok I) as Hok'.
  unfold queue_contract. cbn [mem_queue_perform] in *. unfold redis_decide in Hrun. unfold mem_decide in *.
  destruct (truthy (strip reason)); cbn [negb] in *; [|destruct Hrun as [[= -> _] ->]; by left].
  destruct Hrun as (r1 & w1 & Hr1 & Hrun).
  destruct (respond_get _ _ _ _ _ Hr1) as (Hv1 & _ & Hget).
  pose proof (queue_represents_same _ _ _ Hrep Hv1) as Hrep1.
  destruct r1 as [[raw|]|e]; cbn -[catches is_gateway_class] in Hrun.
  - rewrite (proj2 Hrep) in Hget. destruct (dict_get id q) as [request|] eqn:Hg; [|done].
    injection Hget as <-. rewrite bind_lift, validate_dump in Hrun.
    destruct Hrun as (r2 & w2 & Hr2 & Hrun).
    destruct (respond_set _ _ _ _ _ _ _ Hr2) as [(Hv & e & -> & He)|(Hv & He)].
    + cbn -[catches is_gateway_class] in Hrun.
      rewrite fault_not_timeout_error, fault_caught in Hrun by done. destruct Hrun as [[= -> _] ->].
      right. split; [by left|]. left. by eapply queue_represents_same.
    + assert (queue_represents w2 (dict_set id (decided request approved approver reason) q))
        by by eapply queue_represents_set.
      destruct r2 as [[]|e]; cbn -[catches is_gateway_class] in Hrun.
      * destruct Hrun as [[= -> _] ->]. by left.
      * rewrite fault_not_timeout_error, fault_caught in Hrun by done.
        destruct Hrun as [[= -> _] ->]. right. split; [by left|by right].
  - rewrite (proj2 Hrep) in Hget. destruct (dict_get id q) as [request|] eqn:Hg; [done|].
    destruct Hrun as [[= -> _] ->]. by left.
  - rewrite fault_not_timeout_error, fault_caught in Hrun by done.
    destruct Hrun as [[= -> _] ->]. right. split; [by left|by left].
Qed.

Lemma redis_wait_contract id polls w q r u w' :
  queue_represents w q ->
  client_run respond client (redis_wait model_validate_json id polls tt) w (r, u) w' ->
  queue_contract w' q (QWait id polls) r.
Proof.
  revert w. induction polls as [|polls IH]; intros w Hrep Hrun.
  { destruct Hrun as [[= -> _] ->]. by left. }
  destruct Hrun as (r1 & w1 & Hr1 & Hrun).
  destruct (respond_get _ _ _ _ _ Hr1) as (Hv1 & _ & Hget).
  pose proof (queue_represents_same _ _ _ Hrep Hv1) as Hrep1.
  unfold queue_contract in *. cbn [mem_queue_perform fst snd repeat mem_wait] in *. unfold mem_resolved.
  destruct r1 as [[raw|]|e].
  - rewrite (proj2 Hrep) in Hget. destruct (dict_get id q) as [request|] eqn:Hg; [|done].
    injection Hget as <-. cbn -[catches is_gateway_class decision_outcome] in Hrun.
    rewrite bind_lift, validate_dump in Hrun.
    destruct (proj2 (proj1 Hrep) _ _ Hg) as [_ Hdec].
    destruct (ap_decision request) as [d|] eqn:Hd; [|by apply IH with (w := w1)].
    assert (truthy (default "" (Some d)) = true) as ->
      by (by destruct Hdec as [?|[[= ->]|[= ->]]]).
    left. unfold decision_outcome in *. rewrite Hd in *.
    by case_bool_decide; destruct Hrun as [[= -> _] ->].
  - rewrite (proj2 Hrep) in Hget. destruct (dict_get id q) as [request|] eqn:Hg; [done|].
    by apply IH with (w := w1).
  - cbn -[catches is_gateway_class] in Hrun.
    rewrite fault_not_timeout_error, fault_caught in Hrun by done.
    right. split; [|left; destruct (catches [TimeoutError] e); by destruct Hrun as [[= _ _] ->]].
    destruct (catches [TimeoutError] e); destruct Hrun as [[= -> _] ->]; [by right|by left].
Qed.

(** The pending requests of the identifiers the keys name. *)
Definition pending_of (q : InMemoryApprovalQueue) (ids : list string) : list ApprovalRequest :=
  List.filter is_pending (omap (fun id => dict_get id q) ids).

Lemma pending_of_keys_run q ids w r u w' :
  queue_represents w q ->
  client_run respond client (pending_of_keys model_validate_json (map approval_key ids) tt) w (r, u) w' ->
  (forall k, rs_value w' k = rs_value w k) /\
  (r = Ok (pending_of q ids) \/ exists e, r = Err e /\ redis_fault e).
Proof.
  revert w r u w'. induction ids as [|id ids IH]; intros w r u w' Hrep Hrun.
  { destruct Hrun as [[= -> _] ->]. split; [done|]. by left. }
  destruct Hrun as (r1 & w1 & Hr1 & Hrun).
  destruct (respond_get _ _ _ _ _ Hr1) as (Hv1 & _ & Hget).
  pose proof (queue_represents_same _ _ _ Hrep Hv1) as Hrep1.
  unfold pending_of in *. cbn [omap list_omap].
  destruct r1 as [[raw|]|e].
  - rewrite (proj2 Hrep) in Hget. destruct (dict_get id q) as [request|] eqn:Hg; [|done].
    injection Hget as <-. cbn in Hrun. rewrite bind_lift, validate_dump in Hrun.
    apply client_run_pbind in Hrun as ([r2 []] & w2 & Hrest & Hrun).
    destruct (IH _ _ _ _ Hrep1 Hrest) as [Hv2 Hr2].
    destruct Hr2 as [->|(e & -> & He)]; destruct Hrun as [[= -> _] ->].
    + split; [intros k; by rewrite Hv2|]. left. cbn [fst List.filter]. by destruct (is_pending request).
    + split; [intros k; by rewrite Hv2|]. right. eauto.
  - rewrite (proj2 Hrep) in Hget. destruct (dict_get id q) as [request|] eqn:Hg; [done|].
    destruct (IH _ _ _ _ Hrep1 Hrun) as [Hv2 Hr2]. split; [intros k; by rewrite Hv2|done].
  - destruct Hrun as [[= -> _] ->]. split; [done|]. right. eauto.
Qed.

Lemma approval_keys_of keys :
  (forall k, k ∈ keys -> String.prefix approval_prefix k = true) -> exists ids, keys = map approval_key ids.
Proof.
  induction keys as [|k keys IH]; intros Hk; [by exists []|].
  destruct IH as (ids & ->); [intros k' Hk'; apply Hk, elem_of_cons; by right|].
  destruct (approval_key_prefix k) as (id & ->); [apply Hk, elem_of_cons; by left|].
  by exists (id :: ids).
Qed.

Lemma omap_keys_values (q : InMemoryApprovalQueue) :
  dict_ok q -> omap (fun id => dict_get id q) (dict_keys q) = dict_values q.
Proof.
  intros Hq. assert (Hgen : forall (f : string -> option ApprovalRequest) l,
    (forall id r, (id, r) ∈ l -> f id = Some r) -> omap f (dict_keys l) = dict_values l).
  { clear. intros f l. induction l as [|[id r] l IH]; intros Hall; cbn; [done|].
    rewrite (Hall id r) by (apply elem_of_cons; by left). f_equal. apply IH.
    intros id' r' Hin. apply Hall, elem_of_cons. by right. }
  apply Hgen. intros. by apply dict_In_get.
Qed.

Lemma redis_list_pending_contract w q r u w' :
  queue_represents w q ->
  client_run respond client (redis_list_pending model_validate_json tt) w (r, u) w' ->
  queue_contract w' q QList r.
Proof.
  intros Hrep Hrun. unfold redis_list_pending, guarded, try_with in Hrun.
  apply client_run_pbind in Hrun as ([r1 []] & w1 & Hrun1 & Hrun).
  destruct Hrun1 as (r2 & w2 & Hr2 & Hrun1).
  destruct (respond_scan _ _ _ _ _ Hr2) as (Hv2 & Hscan).
  pose proof (queue_represents_same _ _ _ Hrep Hv2) as Hrep2. unfold queue_contract.
  destruct r2 as [keys|e].
  2:{ destruct Hrun1 as [[= ->] ->]. cbn -[catches] in Hrun. rewrite fault_caught in Hrun by done.
      destruct Hrun as [[= -> _] ->]. right. split; [by left|by left]. }
  destruct Hscan as [Hnd Hkeys]. cbn in Hrun1.
  destruct (approval_keys_of keys) as (ids & ->); [intros k Hk; by apply Hkeys|].
  destruct (pending_of_keys_run q ids w2 r1 tt w1 Hrep2 Hrun1) as (Hv1 & Hr1).
  pose proof (queue_represents_same _ _ _ Hrep2 Hv1) as Hrep1.
  destruct Hr1 as [->|(e & -> & He)].
  - destruct Hrun as [[= -> _] ->]. left. split; [|done]. cbn. unfold mem_list_pending, pending_of.
    assert (Hids : ids ≡ₚ dict_keys q).
    { apply NoDup_Permutation; [by eapply NoDup_fmap_1|apply Hrep|]. intros id.
      rewrite <- dict_get_is_Some. pose proof (proj2 Hrep id) as Hval.
      transitivity (approval_key id ∈ map approval_key ids).
      - rewrite list_elem_of_fmap. split; [eauto|]. by intros (id' & ->%approval_key_inj & ?).
      - rewrite Hkeys, Hval. rewrite fmap_is_Some. split; [tauto|]. intros Hs. split; [done|].
        apply prefix_of_app. }
    rewrite <- (omap_keys_values q) by apply Hrep. apply filter_permutation.
    by rewrite Hids.
  - cbn -[catches] in Hrun. rewrite fault_caught in Hrun by done.
    destruct Hrun as [[= -> _] ->]. right. split; [by left|by left].
Qed.

Lemma redis_queue_contract o w q r u w' :
  queue_represents w q -> submitted_pending o ->
  client_run respond client (redis_queue_perform model_dump_json model_validate_json ttl_seconds o tt)
    w (r, u) w' ->
  queue_contract w' q o r.
Proof.
  intros Hrep Hp. destruct o; cbn [redis_queue_perform].
  - by apply redis_submit_contract.
  - by apply redis_decide_contract.
  - by apply redis_wait_contract.
  - by apply redis_list_pending_contract.
Qed.
End contract.

(* ------------------------------------------------------------------ *)
(** ** Histories of the queue *)

Definition queue_run (ops : list queue_op) : InMemoryApprovalQueue :=
  fold_left (fun q o => (mem_queue_perform o q).2) ops [].

(** An operator's decision on a request that was submitted. *)
Definition decision_made (ops : list queue_op) (id : string) (request : ApprovalRequest)
    (approved : bool) (approver reason : string) : Prop :=
  QSubmit request ∈ ops /\ ap_approval_id request = id /\
  QDecide id approved approver reason ∈ ops /\ truthy (strip reason) = true.

Lemma queue_run_snoc ops o : queue_run (ops ++ [o]) = (mem_queue_perform o (queue_run ops)).2.
Proof. unfold queue_run. by rewrite fold_left_app. Qed.

Lemma queue_run_history ops id r :
  dict_get id (queue_run ops) = Some r ->
  exists request, QSubmit request ∈ ops /\ ap_approval_id request = id /\
    (r = request \/ exists approved approver reason,
       r = decided request approved approver reason /\
       decision_made ops id request approved approver reason).
Proof.
  revert r. induction ops as [|o ops IH] using rev_ind; intros r Hg; [done|].
  assert (Hmono : (exists request, QSubmit request ∈ ops /\ ap_approval_id request = id /\
    (r = request \/ exists approved approver reason,
       r = decided request approved approver reason /\
       decision_made ops id request approved approver reason)) ->
    exists request, QSubmit request ∈ ops ++ [o] /\ ap_approval_id request = id /\
    (r = request \/ exists approved approver reason,
       r = decided request approved approver reason /\
       decision_made (ops ++ [o]) id request approved approver reason)).
  { unfold decision_made. setoid_rewrite elem_of_app. intros (req & Hs & Hi & Hr). exists req.
    split_and!; [by left|done|]. destruct Hr as [->|(a & b & c & -> & ? & ? & ? & ?)]; [by left|].
    right. exists a, b, c. auto 8. }
  rewrite queue_run_snoc in Hg. destruct o as [request|id' approved approver reason|id' polls|];
    cbn in Hg; [| |by apply Hmono, IH..].
  - unfold mem_submit in Hg. rewrite dict_get_set in Hg. case_decide as Hid; [|by apply Hmono, IH].
    injection Hg as <-. exists request. rewrite elem_of_app, list_elem_of_singleton.
    split_and!; [by right|done|by left].
  - unfold mem_decide in Hg. destruct (truthy (strip reason)) eqn:Ht; cbn in Hg; [|by apply Hmono, IH].
    destruct (dict_get id' (queue_run ops)) as [r0|] eqn:Hg0; cbn in Hg; [|by apply Hmono, IH].
    rewrite dict_get_set in Hg. case_decide as Hid; [subst id'|by apply Hmono, IH].
    injection Hg as <-. destruct (IH _ Hg0) as (req & Hs & Hi & Hr). exists req.
    split; [apply elem_of_app; by left|]. split; [done|]. right. exists approved, approver, reason.
    split; [by destruct Hr as [->|(a & b & c & -> & _)]|].
    unfold decision_made. rewrite !elem_of_app, !list_elem_of_singleton. auto 8.
Qed.

(** The answer of a wait, traced back to an operator. *)
Lemma wait_decided (ops : list queue_op) (id : string) (polls : nat) :
  Forall submitted_pending ops ->
  match (mem_queue_perform (QWait id polls) (queue_run ops)).1 with
  | Ok r => exists request approver reason,
      decision_made ops id request true approver reason /\ r = decided request true approver reason
  | Err e => e = timed_out \/ exists request approver reason,
      decision_made ops id request false approver reason /\ e = rejected reason
  end.
Proof.
  intros Hops. assert (Hres : forall r, dict_get id (queue_run ops) = Some r -> ap_decision r <> None ->
    exists request approved approver reason, decision_made ops id request approved approver reason /\
      r = decided request approved approver reason).
  { intros r Hg Hd. destruct (queue_run_history _ _ _ Hg) as (req & Hs & Hi & [->|(a & b & c & -> & Hm)]).
    - rewrite Forall_forall in Hops. by specialize (Hops _ Hs).
    - exists req, a, b, c. done. }
  cbn [mem_queue_perform fst]. induction polls as [|polls IH]; cbn [repeat mem_wait]; [by left|].
  unfold mem_resolved. destruct (dict_get id (queue_run ops)) as [r|]; [|exact IH].
  destruct (ap_decision r) as [d|] eqn:Hd; [|exact IH]. change (default "" (Some d)) with d.
  destruct (truthy d) eqn:Ht; [|exact IH].
  destruct (Hres r eq_refl ltac:(congruence)) as (req & a & b & c & Hm & ->).
  destruct a; cbn; [by exists req, b, c|]. right. exists req, b, c. split; [done|].
  destruct Hm as (_ & _ & _ & Hc). by destruct c.
Qed.

(* ------------------------------------------------------------------ *)
(** ** Properties *)

(** C29: the Redis queue behaves like the in-memory queue: submitting a request,
    deciding one, waiting for a decision and listing the pending requests answer
    as they do in memory and leave the same requests; or the answer reports that
    the store is unavailable (or a wait that its time is over), and the operation
    happened or not. *)
Theorem approval_queue_refines_memory {W} `{!RedisServer W}
    (model_dump_json : ApprovalRequest -> string)
    (model_validate_json : string -> result exc ApprovalRequest) (ttl_seconds : Z) (client : nat)
    (o : queue_op) (w w' : W) (q : InMemoryApprovalQueue) (r : result exc (queue_ans o)) :
  (forall r, model_validate_json (model_dump_json r) = Ok r) ->
  queue_represents model_dump_json w q -> submitted_pending o ->
  client_run respond client
    (redis_queue_perform model_dump_json model_validate_json ttl_seconds o tt) w (r, tt) w' ->
  queue_contract model_dump_json w' q o r.
Proof.
  intros Hvd Hrep Hp Hrun. eapply redis_queue_contract; eauto.
Qed.

(** C24: a waiter is told that a call is approved only if an operator approved it:
    whatever operations the queue has seen since it was empty, if a wait returns
    a request then that request was submitted, an operator decided to approve it
    with a reason that is not blank, and the request returned is the one that was
    submitted, attributed to that operator.  A rejection is reported with the
    reason of an operator who rejected the request. *)
Theorem approval_only_by_operator (ops : list queue_op) (id : string) (polls : nat) :
  Forall submitted_pending ops ->
  match (mem_queue_perform (QWait id polls) (queue_run ops)).1 with
  | Ok r => exists request approver reason,
      decision_made ops id request true approver reason /\ r = decided request true approver reason
  | Err e => e = timed_out \/ exists request approver reason,
      decision_made ops id request false approver reason /\ e = rejected reason
  end.
Proof. apply wait_decided. Qed.

(** Deciding does not require the request to be pending: the decision of a
    request that an operator already resolved is replaced, so a call whose wait
    was approved is later recorded as rejected. *)
Theorem decide_replaces_decision (q : InMemoryApprovalQueue) (id approver reason approver2 reason2 : string)
    (request : ApprovalRequest) :
  truthy (strip reason) = true -> truthy (strip reason2) = true ->
  dict_get id q = Some request ->
  let q1 := (mem_decide id true approver reason q).2 in
  let '(r2, q2) := mem_decide id false approver2 reason2 q1 in
  mem_wait id [q1] = Ok (decided request true approver reason) /\
  r2 = Ok tt /\ mem_wait id [q2] = Err (rejected reason2) /\ mem_list_pending q1 = mem_list_pending q2.
Proof.
  intros H1 H2 Hg q1. subst q1. unfold mem_decide. rewrite H1, H2. cbn [negb]. rewrite Hg.
  cbn [snd]. rewrite dict_get_set_eq. cbn [mem_wait]. unfold mem_resolved.
  rewrite !dict_get_set_eq. cbn.
  assert (Hreason : decision_outcome (decided (decided request true approver reason) false approver2 reason2)
                    = Err (rejected reason2)) by by destruct reason2.
  split_and!; [done|done|exact Hreason|]. unfold mem_list_pending, dict_values.
  clear Hg. induction q as [|[k v] q IH]; cbn; [by rewrite decide_True|].
  destruct (decide (id = k)) as [<-|Hne]; cbn; [by rewrite decide_True|].
  rewrite decide_False by done. cbn. by rewrite IH.
Qed.

(* ------------------------------------------------------------------ *)
(** ** Witnesses *)

Module witness.
Definition request : ApprovalRequest :=
  create_approval_request "a1" "c1" "shell_exec" [("command", JStr "ls")] [] "mutating_tool" 7.
Definition dump (r : ApprovalRequest) : string := to_text r.
Definition validate (s : string) : result exc ApprovalRequest :=
  of_text (EPy PydanticValidationError "request") s.
Definition server0 : Simple.server :=
  {| Simple.values := {[approval_key "a1" := RString (dump request)]}; Simple.watches := ∅ |}.
Definition queue0 : InMemoryApprovalQueue := [("a1", request)].
Definition decide_run :=
  run (fun o w => Simple.step w 0 o)
    (redis_queue_perform dump validate 60 (QDecide "a1" true "bob" "checked") tt) server0.
Definition ops : list queue_op :=
  [QSubmit request; QDecide "a1" false "bob" "  "; QDecide "a1" true "bob" "checked"].
End witness.
#[local] Existing Instance Simple.simple_redis.

Lemma approval_queue_refines_memory_witness :
  match witness.decide_run with
  | Some ((r, _), w', _) =>
      queue_contract witness.dump w' witness.queue0 (QDecide "a1" true "bob" "checked") r
  | None => False
  end.
Proof.
  assert (Hsome : match witness.decide_run with Some _ => true | None => false end = true)
    by (vm_compute; reflexivity).
  destruct witness.decide_run as [[[[r []] w'] tr]|] eqn:Hrun; [|discriminate Hsome].
  apply (approval_queue_refines_memory witness.dump witness.validate 60 0
           (QDecide "a1" true "bob" "checked") witness.server0 w' witness.queue0 r).
  - intros x. apply of_text_to_text.
  - split; [split|].
    + unfold dict_ok. cbn. apply NoDup_singleton.
    + intros id r'. cbn. case_decide; [|discriminate]. intros [= <-]. subst. cbn. auto.
    + intros id. cbn -[witness.dump]. case_decide as Hid.
      * subst. reflexivity.
      * change ((witness.server0).(Simple.values) !! approval_key id = None).
        apply lookup_singleton_ne. intros Heq. apply Hid. symmetry. exact (approval_key_inj _ _ Heq).
  - exact I.
  - eapply run_client_run. exact Hrun.
Defined.

Lemma approval_only_by_operator_witness :
  match (mem_queue_perform (QWait "a1" 1) (queue_run witness.ops)).1 with
  | Ok r => exists request approver reason,
      decision_made witness.ops "a1" request true approver reason /\
      r = decided request true approver reason
  | Err e => e = timed_out \/ exists request approver reason,
      decision_made witness.ops "a1" request false approver reason /\ e = rejected reason
  end.
Proof.
  apply (approval_only_by_operator witness.ops "a1" 1).
  repeat constructor.
Defined.

Lemma decide_replaces_decision_witness :
  let q1 := (mem_decide "a1" true "bob" "checked" witness.queue0).2 in
  let '(r2, q2) := mem_decide "a1" false "eve" "changed my mind" q1 in
  mem_wait "a1" [q1] = Ok (decided witness.request true "bob" "checked") /\
  r2 = Ok tt /\ mem_wait "a1" [q2] = Err (rejected "changed my mind") /\
  mem_list_pending q1 = mem_list_pending q2.
Proof.
  apply (decide_replaces_decision witness.queue0 "a1" "bob" "checked" "eve" "changed my mind"
           witness.request).
  - reflexivity.
  - reflexivity.
  - reflexivity.
Defined.
