(* ===== verification/Server.v ===== *)
(** * The request pipeline

    [execute_tool_call] of [gateway/server.py] and the functions it defines, over
    the operations of its collaborators.  The local variables the inner functions
    assign ([nonlocal]) are the state of the coroutine.  Tracing spans, their
    attributes and log messages are left out; [Tracing] shows that they change nothing.
    [H] is the type of tool handlers. *)

From S2P Require Import Prelude Dict Pystr Json Models Errors Effects Registry Repair AuditLog StateStore Hitl Policy.
From Stdlib Require Import QArith.
Open Scope Z_scope.

(** What [execute_tool_call] calls. *)
Inductive gw_op (H : Type) :=
| Uuid
| TraceId
| Now
| Monotonic
| Uniform
| Sleep (seconds : Q)
| Store (o : store_op)
| CpUpsertTenant (tenant_id name : string)
| CpUpsertPrincipal (principal : Principal)
| CpUpsertToolCall (record : ToolCallRecord)
| CpCreateApproval (approval : ApprovalRequest) (tenant_id : option string)
| CpResolveApproval (approval_id decision approver reason : string) (resolved_at : Z)
| Evaluate (policy_input : jdict)
| Submit (approval : ApprovalRequest)
| Wait (approval_id : string)
| Advise (tool_name : string) (arguments schema : jdict) (diagnosis : FailureDiagnosis)
| RunTool (handler : H) (call_id tenant_id : string) (request : BaseModel)
| AuditAppend (fields : AuditFields).
Arguments Uuid {H}. Arguments TraceId {H}. Arguments Now {H}. Arguments Monotonic {H}.
Arguments Uniform {H}. Arguments Sleep {H}. Arguments Store {H}. Arguments CpUpsertTenant {H}.
Arguments CpUpsertPrincipal {H}. Arguments CpUpsertToolCall {H}. Arguments CpCreateApproval {H}.
Arguments CpResolveApproval {H}. Arguments Evaluate {H}. Arguments Submit {H}. Arguments Wait {H}.
Arguments Advise {H}. Arguments RunTool {H}. Arguments AuditAppend {H}.

Definition gw_sig (H : Type) : signature :=
  {| op := gw_op H;
     ans o := match o with
              | Uuid | TraceId => string
              | Now => Z
              | Monotonic | Uniform => Q
              | Store o => store_ans o
              | Evaluate _ => PolicyDecision
              | Wait _ => ApprovalRequest
              | Advise _ _ _ _ => jdict
              | RunTool _ _ _ _ => json
              | _ => unit
              end |}.

(** The variables that inner functions assign. *)
Record locals := {
  latest_attempt : Z;
  last_finished_attempt : Z;
  policy_outcome : string;
  policy_input : jdict;
  matched_rule : option string;
  approver_identity : option string;
  repair_attempts : list RepairAttemptRecord
}.

Definition initial_locals : locals :=
  {| latest_attempt := 1; last_finished_attempt := 1; policy_outcome := "not_evaluated";
     policy_input := []; matched_rule := None; approver_identity := None; repair_attempts := [] |}.

Definition finish_locals (n : Z) (s : locals) : locals :=
  {| latest_attempt := latest_attempt s + 1; last_finished_attempt := n;
     policy_outcome := policy_outcome s; policy_input := policy_input s;
     matched_rule := matched_rule s; approver_identity := approver_identity s;
     repair_attempts := repair_attempts s |}.
Definition set_input (input : jdict) (s : locals) : locals :=
  {| latest_attempt := latest_attempt s; last_finished_attempt := last_finished_attempt s;
     policy_outcome := policy_outcome s; policy_input := input; matched_rule := matched_rule s;
     approver_identity := approver_identity s; repair_attempts := repair_attempts s |}.
Definition set_decision (d : PolicyDecision) (s : locals) : locals :=
  {| latest_attempt := latest_attempt s; last_finished_attempt := last_finished_attempt s;
     policy_outcome := pd_outcome d; policy_input := policy_input s;
     matched_rule := Some (pd_matched_rule d); approver_identity := approver_identity s;
     repair_attempts := repair_attempts s |}.
Definition set_approver (approver : option string) (s : locals) : locals :=
  {| latest_attempt := latest_attempt s; last_finished_attempt := last_finished_attempt s;
     policy_outcome := policy_outcome s; policy_input := policy_input s;
     matched_rule := matched_rule s; approver_identity := approver;
     repair_attempts := repair_attempts s |}.
Definition set_repairs (f : list RepairAttemptRecord -> list RepairAttemptRecord) (s : locals) : locals :=
  {| latest_attempt := latest_attempt s; last_finished_attempt := last_finished_attempt s;
     policy_outcome := policy_outcome s; policy_input := policy_input s;
     matched_rule := matched_rule s; approver_identity := approver_identity s;
     repair_attempts := f (repair_attempts s) |}.

(** Assignments to the fields of [repair_attempts[-1]], if there is one. *)
Definition update_last (f : RepairAttemptRecord -> RepairAttemptRecord) (l : list RepairAttemptRecord) :
    list RepairAttemptRecord := alter f (Nat.pred (length l)) l.
Definition ra_set_outcome (outcome : string) (e : RepairAttemptRecord) : RepairAttemptRecord :=
  {| ra_category := ra_category e; ra_original_arguments := ra_original_arguments e;
     ra_proposed_arguments := ra_proposed_arguments e; ra_validation_passed := ra_validation_passed e;
     ra_policy_outcome := ra_policy_outcome e; ra_outcome := outcome |}.
Definition ra_set_policy (outcome : string) (e : RepairAttemptRecord) : RepairAttemptRecord :=
  {| ra_category := ra_category e; ra_original_arguments := ra_original_arguments e;
     ra_proposed_arguments := ra_proposed_arguments e; ra_validation_passed := ra_validation_passed e;
     ra_policy_outcome := Some outcome; ra_outcome := ra_outcome e |}.
Definition ra_validated (e : RepairAttemptRecord) : RepairAttemptRecord :=
  {| ra_category := ra_category e; ra_original_arguments := ra_original_arguments e;
     ra_proposed_arguments := ra_proposed_arguments e; ra_validation_passed := true;
     ra_policy_outcome := ra_policy_outcome e; ra_outcome := "validated" |}.
Definition proposal (category : RepairFailure) (original proposed : jdict) : RepairAttemptRecord :=
  {| ra_category := category; ra_original_arguments := original; ra_proposed_arguments := proposed;
     ra_validation_passed := false; ra_policy_outcome := None; ra_outcome := "proposed" |}.

(** [CallToolResult] *)
Record CallToolResult := {
  content_text : string;
  structured_content : jdict;
  is_error : bool
}.

(** [_tool_result] *)
Definition tool_result (payload : jdict) (is_error : bool) : CallToolResult :=
  {| content_text := dumps_sorted (JObj payload); structured_content := payload; is_error := is_error |}.

Definition error_result (error : GatewayError) : CallToolResult :=
  tool_result (dump_ErrorResponse (ge_response error)) true.

(** What is configured for the call. *)
Record call_config := {
  has_approval_queue : bool;
  has_audit_logger : bool;
  has_repair_advisor : bool;
  has_control_plane : bool;
  sandbox_runtime : string;
  caller : option Principal
}.

Definition tenant_or_local (principal : option Principal) : string :=
  match principal with Some p => pr_tenant_id p | None => "local" end.

Definition when {E S} (b : bool) (m : M E S unit) : M E S unit := if b then m else mret tt.

Section call.
Context {H : Type} (registry : ToolRegistry H) (cfg : call_config).
Context (session_id tool_name : string) (arguments : jdict).
Context (call_id trace_id : string) (started_monotonic : Q).
Abbreviation E := (gw_sig H).
Abbreviation GM := (M (gw_sig H) locals).

(** [write_audit] *)
Definition write_audit (outcome : string) : GM unit :=
  if negb (has_audit_logger cfg) then mret tt else
  attempts ← try_with
    (current ← call (E := E) (Store (SGet call_id));
     match current with
     | None => mret []
     | Some current =>
         when (has_control_plane cfg)
           (try_with (call (E := E) (CpUpsertToolCall current))
              (fun e => if is_exception e then mret tt else raise e));;
         mret (tc_attempts current)
     end)
    (fun e => if is_gateway_class StateStoreUnavailableError e then mret [] else raise e);
  try_with
    (s ← get;
     now ← call (E := E) Monotonic;
     call (E := E) (AuditAppend
       {| af_call_id := call_id; af_session_id := session_id; af_trace_id := trace_id;
          af_tool_name := tool_name; af_arguments := arguments; af_policy_input := policy_input s;
          af_policy_decision := policy_outcome s; af_matched_rule := matched_rule s;
          af_approver_identity := approver_identity s; af_sandbox_runtime := sandbox_runtime cfg;
          af_attempts := attempts; af_repair_attempts := repair_attempts s; af_outcome := outcome;
          af_duration_ms := (now - started_monotonic) * 1000; af_principal := caller cfg |}))
    (fun e => if is_exception e then mret tt else raise e).

(** [fail] *)
Definition fail (error : GatewayError) : GM CallToolResult :=
  let terminal_state := if is_denial_code (ge_code error) then DENIED else FAILED in
  let outcome := if is_denial_code (ge_code error) then "denied" else "failed" in
  state_error ← try_with
    (call (E := E) (Store (STransition call_id terminal_state (Some (ge_message error))));;
     s ← get;
     call (E := E) (Store (SFinish call_id (last_finished_attempt s) outcome (Some (ge_message error))));;
     mret None)
    (fun e => match e with
              | EGateway g => if error_isinstance (ge_class g) StateStoreUnavailableError
                              then mret (Some g) else raise e
              | EPy _ _ => raise e
              end);
  match state_error with
  | Some g => mret (error_result g)
  | None => write_audit outcome;; mret (error_result error)
  end.

Definition repairable (category : RepairFailure) : bool :=
  match category with
  | SCHEMA_MISMATCH | MALFORMED_JSON | MISSING_REQUIRED_FIELD | TYPE_COERCION => true
  | _ => false
  end.

(** Validate a proposal of the repair model and record the evidence. *)
Definition validate_proposal (category : RepairFailure) (original proposed : jdict) : GM BaseModel :=
  modify (set_repairs (fun l => l ++ [proposal category original proposed]));;
  try_with
    (request ← lift_result (registry_validate registry tool_name proposed);
     modify (set_repairs (update_last ra_validated));;
     mret request)
    (fun e => match e with
              | EGateway _ => modify (set_repairs (update_last (ra_set_outcome "validation_failed")));; raise e
              | EPy _ _ => raise e
              end).

(** The "validate" span. *)
Definition validate_stage : GM BaseModel :=
  try_with (lift_result (registry_validate registry tool_name arguments))
    (fun e => match e with
     | EGateway _ =>
         let diagnosis := diagnose e in
         if negb (has_repair_advisor cfg) || negb (repairable (fd_category diagnosis)) then raise e
         else
           definition ← lift_result (registry_get registry tool_name);
           proposed ← call (E := E) (Advise tool_name arguments (input_schema definition) diagnosis);
           validate_proposal (fd_category diagnosis) arguments proposed
     | EPy _ _ => raise e
     end).

(** Record a denial before it is raised. *)
Definition deny (reason : string) : GM unit :=
  call (E := E) (Store (STransition call_id DENIED (Some reason)));;
  call (E := E) (Store (SFinish call_id 1 "denied" (Some reason))).

(** The approval branch of the "policy" span. *)
Definition approval_stage (request : BaseModel) (input : jdict) (decision : PolicyDecision) : GM unit :=
  if negb (has_approval_queue cfg) then
    raise (EGateway (policy_denied_error "Approval is required but no approval queue is configured"))
  else
    approval_id ← call (E := E) Uuid;
    created_at ← call (E := E) Now;
    let approval := create_approval_request approval_id call_id tool_name (model_dump request) input
                      (pd_matched_rule decision) created_at in
    call (E := E) (Store (STransition call_id AWAITING_APPROVAL None));;
    call (E := E) (Submit approval);;
    when (has_control_plane cfg)
      (call (E := E) (CpCreateApproval approval (pr_tenant_id <$> caller cfg)));;
    resolved ← try_with (call (E := E) (Wait approval_id))
      (fun e =>
         if is_gateway_class ApprovalTimeoutError e || is_gateway_class ApprovalRejectedError e then
           deny (pd_reason decision);; raise e
         else raise e);
    modify (set_approver (ap_approver resolved));;
    if has_control_plane cfg then
      now ← call (E := E) Now;
      call (E := E) (CpResolveApproval approval_id (or_default (ap_decision resolved) "approved")
        (or_default (ap_approver resolved) "unknown") (or_default (ap_reason resolved) "") now)
    else mret tt.

(** The "policy" span. *)
Definition policy_stage (request : BaseModel) : GM (ToolDefinition H) :=
  definition ← lift_result (registry_get registry tool_name);
  let input := make_policy_input tool_name (td_risk_class definition) (model_dump request) (caller cfg) in
  modify (set_input input);;
  decision ← call (E := E) (Evaluate input);
  modify (set_decision decision);;
  modify (set_repairs (update_last (fun e =>
    let e := ra_set_policy (pd_outcome decision) e in
    if String.eqb (pd_outcome decision) ALLOW then e else ra_set_outcome "policy_denied" e)));;
  call (E := E) (Store (STransition call_id POLICY_CHECKED None));;
  (if String.eqb (pd_outcome decision) REQUIRES_APPROVAL then approval_stage request input decision
   else if negb (String.eqb (pd_outcome decision) ALLOW) then
     deny (pd_reason decision);; raise (EGateway (policy_denied_error (pd_reason decision)))
   else mret tt);;
  mret definition.

(** The repeated policy check of [execute_attempt]. *)
Definition recheck_policy (definition : ToolDefinition H) (arguments : jdict) : GM unit :=
  request ← lift_result (registry_validate registry tool_name arguments);
  decision ← call (E := E) (Evaluate (make_policy_input tool_name (td_risk_class definition)
                                        (model_dump request) (caller cfg)));
  modify (set_repairs (update_last (ra_set_policy (pd_outcome decision))));;
  if negb (String.eqb (pd_outcome decision) ALLOW) then
    modify (set_repairs (update_last (ra_set_outcome "policy_denied")));;
    raise (EGateway (policy_denied_error "Repaired arguments were denied by policy"))
  else mret tt.

Definition run_handler (handler : H) (request : BaseModel) : GM json :=
  call (E := E) (RunTool handler call_id (tenant_or_local (caller cfg)) request).

(** The [try] body of [execute_attempt]. *)
Definition attempt_body (definition : ToolDefinition H) (n : Z) (arguments : jdict) : GM BaseModel :=
  when (1 <? n) (recheck_policy definition arguments);;
  validated ← lift_result (registry_validate registry tool_name arguments);
  result ← registry_execute_validated run_handler registry tool_name validated;
  call (E := E) (Store (SFinish call_id n "succeeded" None));;
  mret result.

(** [execute_attempt] *)
Definition execute_attempt (definition : ToolDefinition H) (arguments : jdict) : GM BaseModel :=
  s ← get;
  let n := latest_attempt s in
  when (1 <? n) (call (E := E) (Store (SStart call_id n)));;
  call (E := E) (Store (STransition call_id EXECUTING None));;
  finally
    (try_with (attempt_body definition n arguments)
       (fun e => match e with
                 | EGateway g =>
                     call (E := E) (Store (SFinish call_id n "failed" (Some (ge_message g))));; raise e
                 | EPy _ _ => raise e
                 end))
    (modify (finish_locals n)).

(** [repair_arguments] *)
Definition repair_arguments (definition : ToolDefinition H) (arguments : jdict)
    (diagnosis : FailureDiagnosis) : GM jdict :=
  if negb (has_repair_advisor cfg) then
    raise (EGateway (tool_execution_error "No repair advisor is configured for this tool call"))
  else
    proposed ← call (E := E) (Advise tool_name arguments (input_schema definition) diagnosis);
    validate_proposal (fd_category diagnosis) arguments proposed;;
    mret proposed.

(** The repair loop around [execute_attempt]. *)
Definition run_stage (definition : ToolDefinition H) (request : BaseModel) : GM (BaseModel * Z) :=
  repair_run default_backoff (call (E := E) Monotonic) (call (E := E) Uniform)
    (fun seconds => call (E := E) (Sleep seconds))
    (execute_attempt definition)
    (if has_repair_advisor cfg then Some (repair_arguments definition) else None)
    {| rc_risk_class := td_risk_class definition; rc_idempotent := td_idempotent definition;
       rc_tool_name := tool_name; rc_tool_schema := Some (input_schema definition) |}
    (model_dump request).

(** The body of the outer [try]. *)
Definition call_body : GM CallToolResult :=
  request ← validate_stage;
  call (E := E) (Store (STransition call_id VALIDATED None));;
  definition ← policy_stage request;
  output ← run_stage definition request;
  call (E := E) (Store (STransition call_id SUCCEEDED None));;
  write_audit "succeeded";;
  mret (tool_result (model_dump output.1) false).

(** The outer [try] with its handlers. *)
Definition run_call : GM CallToolResult :=
  try_with call_body (fun e =>
    match e with
    | EGateway g => fail g
    | EPy _ _ =>
        if is_exception e then fail (tool_execution_error "The tool failed unexpectedly") else raise e
    end).
End call.

Section execute.
Context {H : Type} (registry : ToolRegistry H) (cfg : call_config).
Context (session_id tool_name : string) (arguments : jdict).
Abbreviation E := (gw_sig H).
Abbreviation GM := (M (gw_sig H) locals).

Definition received_record (call_id trace_id : string) (risk_class : option RiskClass) (now : Z) :
    ToolCallRecord :=
  {| tc_call_id := call_id; tc_trace_id := trace_id; tc_session_id := session_id;
     tc_tool_name := tool_name; tc_risk_class := risk_class; tc_arguments := arguments;
     tc_current_state := RECEIVED;
     tc_transitions := [{| st_state := RECEIVED; st_timestamp := now; st_error := None |}];
     tc_attempts := [new_attempt 1 now]; tc_created_at := now; tc_updated_at := now;
     tc_principal := caller cfg |}.

(** The control-plane writes before the call; false when they failed. *)
Definition persist_call (record : ToolCallRecord) : GM bool :=
  if negb (has_control_plane cfg) then mret true else
  try_with
    (match caller cfg with
     | Some p =>
         call (E := E) (CpUpsertTenant (pr_tenant_id p) (pr_tenant_id p));;
         call (E := E) (CpUpsertPrincipal p)
     | None => mret tt
     end;;
     call (E := E) (CpUpsertToolCall record);;
     mret true)
    (fun e => if is_exception e then mret false else raise e).

Definition execute_tool_call : GM CallToolResult :=
  call_id ← call (E := E) Uuid;
  started_monotonic ← call (E := E) Monotonic;
  let risk_class := match registry_get registry tool_name with
                    | Ok definition => Some (td_risk_class definition)
                    | Err _ => None
                    end in
  trace_id ← call (E := E) TraceId;
  now ← call (E := E) Now;
  let record := received_record call_id trace_id risk_class now in
  created ← try_with (call (E := E) (Store (SCreate record));; mret None)
    (fun e => match e with
              | EGateway g => if error_isinstance (ge_class g) StateStoreUnavailableError
                              then mret (Some g) else raise e
              | EPy _ _ => raise e
              end);
  match created with
  | Some g => mret (error_result g)
  | None =>
      persisted ← persist_call record;
      if negb persisted then
        mret (error_result (tool_execution_error "Durable control-plane persistence is unavailable"))
      else run_call registry cfg session_id tool_name arguments call_id trace_id started_monotonic
  end.
End execute.
