(* ===== verification/ServerSpec.v ===== *)
(** * What the request pipeline guarantees

    An observer follows the operations of one tool call, from outside: what was
    created, the last lifecycle state asked for, which policy inputs were allowed
    or approved, which tool runs happened, what was audited, and whether a
    collaborator broke its contract.  [guard] says which operations are allowed in
    which observed state; every trace of [execute_tool_call] respects it. *)

From S2P Require Import Prelude Dict Pystr Json Models Errors Effects Registry Repair AuditLog StateStore Hitl Policy Server.
From Stdlib Require Import QArith.
Open Scope Z_scope.

Record observer := {
  o_fresh : option string;               (* the identifier drawn last, until it names something *)
  o_id : option string;                  (* the identifier of the record created *)
  o_last : ToolCallState;                (* the last state asked for *)
  o_settled : bool;                      (* the store acknowledged it *)
  o_needs : list jdict;                  (* policy inputs that require approval *)
  o_submitted : list ApprovalRequest;    (* approvals submitted *)
  o_granted : list jdict;                (* policy inputs allowed, or approved *)
  o_refused : bool;                      (* the store refused the state "executing" *)
  o_runs : list (result exc json);       (* the answers of the tool *)
  o_audits : list AuditFields            (* what was appended to the audit log *)
}.

Definition observer0 : observer :=
  {| o_fresh := None; o_id := None; o_last := RECEIVED; o_settled := false; o_needs := [];
     o_submitted := []; o_granted := []; o_refused := false; o_runs := []; o_audits := [] |}.

(** The inputs an approval with a given identifier was submitted for. *)
Definition approved_inputs (id : string) (m : observer) : list jdict :=
  map ap_policy_input (List.filter (fun a => bool_decide (ap_approval_id a = id) &&
    bool_decide (ap_policy_input a ∈ o_needs m)) (o_submitted m)).

Section observe.
Context {H : Type}.

Definition observe (m : observer) (o : gw_op H) : result exc (ans (gw_sig H) o) -> observer :=
  match o with
  | Uuid => fun r =>
      match r with
      | Ok id =>
          {| o_fresh := Some id; o_id := o_id m; o_last := o_last m; o_settled := o_settled m;
             o_needs := o_needs m; o_submitted := o_submitted m; o_granted := o_granted m;
             o_refused := o_refused m; o_runs := o_runs m; o_audits := o_audits m |}
      | Err _ => m
      end
  | Store (SCreate record) => fun r =>
      {| o_fresh := None; o_id := Some (tc_call_id record); o_last := tc_current_state record; o_settled := is_ok r;
         o_needs := o_needs m; o_submitted := o_submitted m; o_granted := o_granted m;
         o_refused := o_refused m; o_runs := o_runs m; o_audits := o_audits m |}
  | Store (STransition _ state _) => fun r =>
      {| o_fresh := o_fresh m; o_id := o_id m; o_last := state; o_settled := is_ok r;
         o_needs := o_needs m; o_submitted := o_submitted m; o_granted := o_granted m;
         o_refused := o_refused m || bool_decide (state = EXECUTING) && negb (is_ok r);
         o_runs := o_runs m; o_audits := o_audits m |}
  | Evaluate input => fun r =>
      match r with
      | Ok d =>
          {| o_fresh := o_fresh m; o_id := o_id m; o_last := o_last m; o_settled := o_settled m;
             o_needs := if String.eqb (pd_outcome d) REQUIRES_APPROVAL then input :: o_needs m else o_needs m;
             o_submitted := o_submitted m;
             o_granted := if String.eqb (pd_outcome d) ALLOW then input :: o_granted m else o_granted m;
             o_refused := o_refused m; o_runs := o_runs m; o_audits := o_audits m |}
      | Err _ => m
      end
  | Submit approval => fun _ =>
      {| o_fresh := None; o_id := o_id m; o_last := o_last m; o_settled := o_settled m;
         o_needs := o_needs m; o_submitted := approval :: o_submitted m; o_granted := o_granted m;
         o_refused := o_refused m; o_runs := o_runs m; o_audits := o_audits m |}
  | Wait id => fun r =>
      match r with
      | Ok _ =>
          {| o_fresh := o_fresh m; o_id := o_id m; o_last := o_last m; o_settled := o_settled m;
             o_needs := o_needs m; o_submitted := o_submitted m;
             o_granted := approved_inputs id m ++ o_granted m; o_refused := o_refused m;
             o_runs := o_runs m; o_audits := o_audits m |}
      | Err _ => m
      end
  | RunTool _ _ _ _ => fun r =>
      {| o_fresh := o_fresh m; o_id := o_id m; o_last := o_last m; o_settled := o_settled m;
         o_needs := o_needs m; o_submitted := o_submitted m; o_granted := o_granted m;
         o_refused := o_refused m; o_runs := o_runs m ++ [r]; o_audits := o_audits m |}
  | AuditAppend fields => fun _ =>
      {| o_fresh := o_fresh m; o_id := o_id m; o_last := o_last m; o_settled := o_settled m;
         o_needs := o_needs m; o_submitted := o_submitted m; o_granted := o_granted m;
         o_refused := o_refused m; o_runs := o_runs m; o_audits := o_audits m ++ [fields] |}
  | _ => fun _ => m
  end.

(** Answers no collaborator gives under its contract: a cancellation, an error of
    the clock or of the identifier sources, an error of the store other than that
    it is unavailable. *)
Definition breaks (o : gw_op H) (e : exc) : bool :=
  negb (is_exception e) ||
  match o with
  | Uuid | TraceId | Now | Monotonic => true
  | Store _ => negb (is_gateway_class StateStoreUnavailableError e)
  | _ => false
  end.

Definition broken_by (o : gw_op H) (r : result exc (ans (gw_sig H) o)) : bool :=
  match r with Ok _ => false | Err e => breaks o e end.

(** The observation of a trace, and whether a contract was broken along it. *)
Definition observe_event (m : observer) (ev : event (gw_sig H)) : observer :=
  observe m (projT1 ev) (projT2 ev).
Definition observation (tr : list (event (gw_sig H))) : observer := fold_left observe_event tr observer0.
Definition contract_broken (tr : list (event (gw_sig H))) : bool :=
  existsb (fun ev => broken_by (projT1 ev) (projT2 ev)) tr.
End observe.

(** The records a call handed to the audit log, each with whether the log accepted
    it ([write_audit] swallows its errors), and those the log accepted. *)
Definition audit_append {H} (ev : event (gw_sig H)) : list (AuditFields * bool) :=
  match ev with existT (AuditAppend fields) r => [(fields, is_ok r)] | _ => [] end.
Definition audit_appends {H} (tr : list (event (gw_sig H))) : list (AuditFields * bool) :=
  concat (map audit_append tr).
Definition audits_written {H} (tr : list (event (gw_sig H))) : list AuditFields :=
  map fst (List.filter snd (audit_appends tr)).
Definition audit_failed {H} (tr : list (event (gw_sig H))) : bool := existsb (fun a => negb a.2) (audit_appends tr).

Lemma observe_audits {H} m (ev : event (gw_sig H)) :
  o_audits (observe_event m ev) = o_audits m ++ map fst (audit_append ev).
Proof.
  destruct ev as [o r]. destruct o as [| | | | | |[]| | | | | | | | | | |]; cbn;
    try destruct r; cbn; by rewrite ?app_nil_r.
Qed.
Lemma audits_requested {H} (tr : list (event (gw_sig H))) :
  o_audits (observation tr) = map fst (audit_appends tr).
Proof.
  unfold observation, audit_appends. change (map fst (concat (map audit_append tr)))
    with (o_audits observer0 ++ map fst (concat (map audit_append tr))).
  generalize observer0. induction tr as [|ev tr IH]; intros m; cbn; [by rewrite app_nil_r|].
  by rewrite IH, observe_audits, map_app, app_assoc.
Qed.

(** One record with this outcome was handed to the audit log, once, and it is written
    unless the log failed; without an audit log, none was. *)
Definition audited_once {H} (cfg : call_config) (outcome : string) (tr : list (event (gw_sig H))) : Prop :=
  if has_audit_logger cfg
  then exists f, map fst (audit_appends tr) = [f] /\ af_outcome f = outcome /\
         audits_written tr = if audit_failed tr then [] else [f]
  else audit_appends tr = [].

(** The edges of the lifecycle. *)
Definition lifecycle_edge (a b : ToolCallState) : bool :=
  match a, b with
  | RECEIVED, VALIDATED => true
  | VALIDATED, POLICY_CHECKED => true
  | POLICY_CHECKED, AWAITING_APPROVAL => true
  | (POLICY_CHECKED | AWAITING_APPROVAL | EXECUTING), EXECUTING => true
  | EXECUTING, SUCCEEDED => true
  | FAILED, _ => false
  | _, (FAILED | DENIED) => true
  | _, _ => false
  end.

(** The states a call ends in. *)
Definition terminal (state : ToolCallState) : bool :=
  match state with SUCCEEDED | FAILED | DENIED => true | _ => false end.

(** The outcome an audit record reports for a final state. *)
Definition audit_outcome (state : ToolCallState) : string :=
  match state with
  | SUCCEEDED => "succeeded"
  | DENIED => "denied"
  | FAILED => "failed"
  | _ => ""
  end.

Section guard.
Context {H : Type} (registry : ToolRegistry H) (cfg : call_config).
Context (tool_name : string) (arguments : jdict).

(** A tool may be run again after a failure. *)
Definition rerunnable : Prop :=
  forall d, registry_get registry tool_name = Ok d ->
    td_risk_class d = READ_ONLY \/ td_idempotent d = true.

(** A run of the tool: the handler of the named tool, on a request whose
    arguments the policy allowed for this caller, or an operator approved. *)
Definition granted_run (m : observer) (handler : H) (request : BaseModel) : Prop :=
  exists d args, registry_get registry tool_name = Ok d /\ td_handler d = handler /\
    make_policy_input tool_name (td_risk_class d) args (caller cfg) ∈ o_granted m /\
    (model_dump request = args \/ registry_validate registry tool_name args = Ok request).

(** A run of the named tool's handler on validated arguments. *)
Definition validated_run (handler : H) (request : BaseModel) : Prop :=
  exists d args, registry_get registry tool_name = Ok d /\ td_handler d = handler /\
    registry_validate registry tool_name args = Ok request.

(** Which operations are allowed in an observed state. *)
Definition guard (m : observer) (o : gw_op H) : Prop :=
  match o with
  | Store (SCreate record) =>
      o_id m = None /\ o_fresh m = Some (tc_call_id record) /\ tc_current_state record = RECEIVED /\
      tc_tool_name record = tool_name /\ tc_arguments record = arguments /\ o_audits m = []
  | Store (STransition id state _) =>
      o_id m = Some id /\ lifecycle_edge (o_last m) state = true /\ o_audits m = []
  | Store (SStart id _) | Store (SFinish id _ _ _) | Store (SGet id) => o_id m = Some id
  | Submit approval => o_fresh m = Some (ap_approval_id approval) /\ ap_decision approval = None
  | RunTool handler id tenant request =>
      o_id m = Some id /\ o_last m = EXECUTING /\ validated_run handler request /\
      tenant = tenant_or_local (caller cfg) /\
      (granted_run m handler request \/ o_refused m = true) /\
      (length (o_runs m) < 3)%nat /\ (o_runs m <> [] -> rerunnable)
  | AuditAppend fields =>
      o_audits m = [] /\ o_id m = Some (af_call_id fields) /\ o_settled m = true /\
      terminal (o_last m) = true /\ af_outcome fields = audit_outcome (o_last m) /\ af_tool_name fields = tool_name /\
      af_arguments fields = arguments
  | _ => True
  end.

Definition gateway_monitor : monitor (gw_sig H) :=
  {| mstate := observer * bool;
     allowed m (o : op (gw_sig H)) := guard m.1 o;
     assumed _ _ _ := True;
     mnext m (o : op (gw_sig H)) r := (observe m.1 o r, m.2 || broken_by o r) |}.

Lemma gateway_monitor_after m b (tr : list (event (gw_sig H))) :
  mon_after gateway_monitor (m, b) tr =
  (fold_left observe_event tr m, b || existsb (fun ev => broken_by (projT1 ev) (projT2 ev)) tr).
Proof.
  revert m b. induction tr as [|[o r] tr IH]; intros m b; cbn; [by rewrite orb_false_r|].
  rewrite IH. f_equal. symmetry. apply orb_assoc.
Qed.

(** A call, observed. *)
Lemma wpM_op {S} (o : gw_op H) (s : S) (m : observer) (b : bool)
    (Q : result exc (ans (gw_sig H) o) -> S -> observer * bool -> Prop) :
  guard m o ->
  (forall a, Q (Ok a) s (observe m o (Ok a), b)) ->
  (forall e b', (breaks o e = true -> b' = true) -> Q (Err e) s (observe m o (Err e), b')) ->
  wpM gateway_monitor (call (E := gw_sig H) o) s (m, b) Q.
Proof.
  intros Hg Hok Herr. wp_call; [exact Hg|]. intros [a|e] _; cbn.
  - rewrite orb_false_r. apply Hok.
  - apply Herr. intros ->. by rewrite orb_true_r.
Qed.
End guard.

(* ------------------------------------------------------------------ *)
(** ** The inner functions *)

Section stages.
Context {H : Type} (registry : ToolRegistry H) (cfg : call_config).
Context (session_id tool_name : string) (arguments : jdict).
Context (call_id trace_id : string) (started : Q).
Abbreviation N := (gateway_monitor registry cfg tool_name arguments).
Abbreviation W := (wpM N).
Implicit Types (s : locals) (m : observer) (b : bool).

(** The operations between two moments changed nothing but the audit log. *)
Definition only_audits (m m' : observer) : Prop :=
  o_id m' = o_id m /\ o_last m' = o_last m /\ o_needs m' = o_needs m /\
  o_submitted m' = o_submitted m /\ o_granted m' = o_granted m /\ o_refused m' = o_refused m /\
  o_runs m' = o_runs m /\ o_settled m' = o_settled m.

Lemma only_audits_refl m : only_audits m m.
Proof. by split_and!. Qed.

Definition audited (outcome : string) (m' : observer) : Prop :=
  if has_audit_logger cfg then exists f, o_audits m' = [f] /\ af_outcome f = outcome
  else o_audits m' = [].

(** What [write_audit] leaves behind. *)
Definition audit_post (outcome : string) (m : observer) (r : result exc unit) (m' : observer) (b : bool) : Prop :=
  only_audits m m' /\
  match r with
  | Ok _ => audited outcome m' \/ (b = true /\ o_audits m' = [])
  | Err e => b = true /\ (is_exception e = true -> o_audits m' = [])
  end.

Lemma write_audit_wp outcome s m b (Q : result exc unit -> locals -> observer * bool -> Prop) :
  o_id m = Some call_id -> o_audits m = [] -> o_settled m = true ->
  terminal (o_last m) = true -> outcome = audit_outcome (o_last m) ->
  (forall r m' b', audit_post outcome m r m' b' -> Q r s (m', b')) ->
  W (write_audit cfg session_id tool_name arguments call_id trace_id started outcome) s (m, b) Q.
Proof.
  intros Hid Haud Hset Hterm Hout HQ. unfold write_audit, audit_post, audited in *.
  destruct (has_audit_logger cfg); cbn [negb].
  2:{ apply wpM_ret, HQ. split; [apply only_audits_refl|by left]. }
  assert (Happend : forall attempts b0, W
    (try_with
       (s ← get;
        now ← call (E := gw_sig H) Monotonic;
        call (E := gw_sig H) (AuditAppend
          {| af_call_id := call_id; af_session_id := session_id; af_trace_id := trace_id;
             af_tool_name := tool_name; af_arguments := arguments; af_policy_input := policy_input s;
             af_policy_decision := policy_outcome s; af_matched_rule := matched_rule s;
             af_approver_identity := approver_identity s; af_sandbox_runtime := sandbox_runtime cfg;
             af_attempts := attempts; af_repair_attempts := repair_attempts s; af_outcome := outcome;
             af_duration_ms := (now - started) * 1000; af_principal := caller cfg |}))
       (fun e => if is_exception e then mret tt else raise e)) s (m, b0) Q).
  { intros attempts b0. wp_step. wp_step. wp_step. wp_step. apply wpM_op; [done| |].
    - intros now. apply wpM_op; [by cbn; split_and!|intros []; apply HQ|].
      + split; [by split_and!|]. left. cbn. rewrite Haud. eauto.
      + intros e b' Hb. unfold breaks in Hb. rewrite orb_false_r in Hb.
        destruct (is_exception e) eqn:He; apply HQ; (split; [by split_and!|]).
        * left. cbn. rewrite Haud. eauto.
        * split; [by apply Hb|congruence].
    - intros e b' Hb. unfold breaks in Hb. rewrite orb_true_r in Hb.
      specialize (Hb eq_refl).
      destruct (is_exception e) eqn:He; apply HQ; (split; [by split_and!|]); [by right|by split]. }
  wp_step. wp_step. wp_step. apply wpM_op; [done| |].
  - intros [current|]; [|apply wpM_ret, Happend].
    wp_step. unfold when. destruct (has_control_plane cfg); [|by apply wpM_ret, wpM_ret].
    wp_step. apply wpM_op; [done|intros []; by apply wpM_ret|].
    intros e b' Hb. unfold breaks in Hb. rewrite orb_false_r in Hb.
    destruct (is_exception e) eqn:He; [by apply wpM_ret, wpM_ret|].
    apply wpM_raise. assert (is_gateway_class StateStoreUnavailableError e = false) as ->
      by (by destruct e). apply wpM_raise, HQ. split; [by split_and!|]. rewrite He. auto.
  - intros e b' Hb. destruct (is_gateway_class _ e) eqn:Hg; [apply wpM_ret, Happend|].
    apply wpM_raise, HQ. split; [by split_and!|]. split; [|done]. apply Hb.
    unfold breaks. rewrite Hg. apply orb_true_r.
Qed.

Definition terminal_of (error : GatewayError) : ToolCallState :=
  if is_denial_code (ge_code error) then DENIED else FAILED.

(** What [fail] leaves behind: the error, audited, or the unavailability of the store. *)
Definition fail_post (error : GatewayError) (m : observer) (r : result exc CallToolResult)
    (m' : observer) (b : bool) : Prop :=
  o_id m' = o_id m /\ o_runs m' = o_runs m /\
  match r with
  | Ok res =>
      (exists g, error_isinstance (ge_class g) StateStoreUnavailableError = true /\
         res = error_result g /\ o_audits m' = []) \/
      (res = error_result error /\ o_last m' = terminal_of error /\ o_settled m' = true /\
       (audited (audit_outcome (terminal_of error)) m' \/ (b = true /\ o_audits m' = [])))
  | Err _ => b = true
  end.

Lemma lifecycle_terminal a error : a <> FAILED -> lifecycle_edge a (terminal_of error) = true.
Proof. intros Ha. unfold terminal_of. by destruct (is_denial_code _), a. Qed.

Lemma fail_wp error s m b (Q : result exc CallToolResult -> locals -> observer * bool -> Prop) :
  o_id m = Some call_id -> o_audits m = [] -> o_last m <> FAILED ->
  (forall r m' b', fail_post error m r m' b' -> Q r s (m', b')) ->
  W (fail cfg session_id tool_name arguments call_id trace_id started error) s (m, b) Q.
Proof.
  intros Hid Haud Hlast HQ. unfold fail.
  assert (Hout : (if is_denial_code (ge_code error) then "denied" else "failed") =
                 audit_outcome (terminal_of error))
    by (unfold terminal_of; by destruct (is_denial_code _)).
  fold (terminal_of error). rewrite Hout.
  assert (Hstate : forall (o : store_op) (e : exc) (b' : bool) (m' : observer), (breaks (H := H) (Store o) e = true -> b' = true) ->
    o_id m' = o_id m -> o_runs m' = o_runs m -> o_audits m' = [] ->
    W (match e with
       | EGateway g => if error_isinstance (ge_class g) StateStoreUnavailableError
                       then mret (Some g) else raise e
       | EPy _ _ => raise e
       end) s (m', b') (fun r s' st => match r with
          | Ok a => W (match a with
                       | Some g => mret (error_result g)
                       | None => write_audit cfg session_id tool_name arguments call_id trace_id started
                                   (audit_outcome (terminal_of error));; mret (error_result error)
                       end) s' st Q
          | Err e => Q (Err e) s' st end)).
  { intros o e b' m' Hb Hi Hr Ha. unfold breaks in Hb.
    destruct e as [g|cls msg]; cbn in Hb.
    - destruct (error_isinstance _ _) eqn:Hg; [apply wpM_ret, wpM_ret|apply wpM_raise];
        apply HQ; (split; [done|]); (split; [done|]); [left; eauto|auto].
    - apply wpM_raise, HQ. split; [done|]. split; [done|]. apply Hb. apply orb_true_r. }
  wp_step. wp_step. wp_step. apply wpM_op.
  - cbn. split_and!; [done|by apply lifecycle_terminal|done].
  - intros []. wp_step. wp_step. wp_step. apply wpM_op; [done| |].
    + intros []. apply wpM_ret. wp_step. apply write_audit_wp; [done|done|done|cbn; unfold terminal_of; by destruct (is_denial_code _)|done|].
      intros r m' b' [Hsame Hr]. destruct Hsame as (H1 & H2 & _ & _ & _ & _ & H7 & H8).
      destruct r as [[]|e]; [apply wpM_ret|]; apply HQ; (split; [done|]); (split; [done|]).
      * right. done.
      * by destruct Hr.
    + intros e b' Hb. by eapply Hstate.
  - intros e b' Hb. by eapply Hstate.
Qed.

(** The variables the attempts are counted with. *)
Definition same_counts (s s' : locals) : Prop :=
  latest_attempt s' = latest_attempt s /\ last_finished_attempt s' = last_finished_attempt s.

(** A cancellation or another broken contract is observed. *)
Definition err_ok (e : exc) (b : bool) : Prop := is_exception e = false -> b = true.

Lemma breaks_err_ok (o : gw_op H) e b : (breaks o e = true -> b = true) -> err_ok e b.
Proof. intros Hb He. apply Hb. unfold breaks. by rewrite He. Qed.
Hint Resolve breaks_err_ok : gateway.

Lemma gateway_err_ok g b : err_ok (EGateway g) b.
Proof. done. Qed.
Hint Resolve gateway_err_ok : gateway.

Lemma validate_gateway args e : registry_validate registry tool_name args = Err e -> exists g, e = EGateway g.
Proof.
  unfold registry_validate, registry_get, td_validate.
  destruct (dict_get tool_name _) as [d|]; cbn; [|intros [= <-]; eauto].
  destruct (model_validate _ _); [done|intros [= <-]; eauto].
Qed.

Definition validated (r : result exc BaseModel) b : Prop :=
  match r with
  | Ok request => exists args, registry_validate registry tool_name args = Ok request
  | Err e => err_ok e b
  end.

Lemma validate_proposal_wp category original proposed s m b
    (Q : result exc BaseModel -> locals -> observer * bool -> Prop) :
  (forall r s', same_counts s s' -> validated r b ->
     (forall request, r = Ok request -> registry_validate registry tool_name proposed = Ok request) ->
     Q r s' (m, b)) ->
  W (validate_proposal registry tool_name category original proposed) s (m, b) Q.
Proof.
  intros HQ. unfold validate_proposal. wp_step. wp_step. wp_step. wp_step. wp_step.
  destruct (registry_validate registry tool_name proposed) as [request|e] eqn:Hv.
  - wp_step. wp_step. apply wpM_ret, HQ; [by split|cbn; eauto|by intros ? [= <-]].
  - destruct (validate_gateway _ _ Hv) as (g & ->). wp_step. wp_step. apply wpM_raise, HQ; [by split|done|done].
Qed.

Lemma validate_stage_wp s m b (Q : result exc BaseModel -> locals -> observer * bool -> Prop) :
  (forall r s' b', same_counts s s' -> validated r b' -> Q r s' (m, b')) ->
  W (validate_stage registry cfg tool_name arguments) s (m, b) Q.
Proof.
  intros HQ. unfold validate_stage. wp_step. wp_step.
  destruct (registry_validate registry tool_name arguments) as [request|e] eqn:Hv.
  - apply HQ; [by split|by exists arguments].
  - destruct (validate_gateway _ _ Hv) as (g & ->).
    destruct (_ || _); [apply wpM_raise, HQ; [by split|done]|].
    wp_step. wp_step. destruct (registry_get registry tool_name) as [d|e'] eqn:Hd.
    2:{ apply HQ; [by split|]. unfold registry_get in Hd. destruct (dict_get _ _); [done|].
        by injection Hd as <-. }
    wp_step. apply wpM_op; [done| |].
    + intros proposed. apply validate_proposal_wp. intros r s' Hs Hr _. by apply HQ.
    + intros e' b' Hb. apply HQ; [by split|]. by eapply breaks_err_ok.
Qed.

(** Between the policy check and the end of the call. *)
Definition in_progress (state : ToolCallState) : bool :=
  match state with POLICY_CHECKED | AWAITING_APPROVAL | EXECUTING => true | _ => false end.

(** The call is still open: nothing audited, not failed, the same record and runs. *)
Definition still_open (m m' : observer) : Prop :=
  o_id m' = o_id m /\ o_audits m' = [] /\ o_runs m' = o_runs m /\ o_refused m' = o_refused m.

Definition input_of (d : ToolDefinition H) (args : jdict) : jdict :=
  make_policy_input tool_name (td_risk_class d) args (caller cfg).

Definition failed_open m (m' : observer) (e : exc) b : Prop :=
  still_open m m' /\ o_last m' <> FAILED /\ err_ok e b.

(** Close the facts about an open call. *)
Ltac gw_close :=
  cbn; unfold failed_open, still_open; split_and!; cbn;
  rewrite ?orb_false_r; try done; try congruence; try lia; try (by eapply breaks_err_ok).

Lemma deny_wp reason s m b (Q : result exc unit -> locals -> observer * bool -> Prop) :
  o_id m = Some call_id -> o_audits m = [] -> in_progress (o_last m) = true ->
  (forall r m' b', still_open m m' -> o_last m' = DENIED ->
     match r with Ok _ => b' = b | Err e => err_ok e b' end -> Q r s (m', b')) ->
  W (deny call_id reason) s (m, b) Q.
Proof.
  intros Hid Haud Hlast HQ. unfold deny. wp_step. apply wpM_op.
  - cbn. split_and!; [done| |done]. by destruct (o_last m).
  - intros []. apply wpM_op; [done|intros []|intros e b' Hb]; apply HQ; try done; try by eapply breaks_err_ok.
    all: split_and!; cbn; try done; by rewrite orb_false_r.
  - intros e b' Hb. apply HQ; try done; try by eapply breaks_err_ok.
    split_and!; cbn; try done. by rewrite orb_false_r.
Qed.

(** The outcome of the approval branch: approved, or an error on an open call. *)
Definition approval_post (input : jdict) m (r : result exc unit) (m' : observer) b : Prop :=
  match r with
  | Ok _ => still_open m m' /\ o_last m' = AWAITING_APPROVAL /\ input ∈ o_granted m'
  | Err e => failed_open m m' e b
  end.

Lemma approved_input_in id approval input m :
  approval ∈ o_submitted m -> ap_approval_id approval = id -> ap_policy_input approval = input ->
  input ∈ o_needs m -> input ∈ approved_inputs id m.
Proof.
  intros Hs Hi Hp Hn. unfold approved_inputs. apply list_elem_of_In, in_map_iff. exists approval.
  split; [done|]. apply filter_In. split; [by apply list_elem_of_In|].
  by rewrite !bool_decide_true by congruence.
Qed.

(** Waiting for the operator, once the request is submitted. *)
Lemma await_operator_wp id approval input d s m m1 b
    (Q : result exc unit -> locals -> observer * bool -> Prop) :
  still_open m m1 -> o_id m = Some call_id -> o_last m1 = AWAITING_APPROVAL -> input ∈ o_needs m1 ->
  approval ∈ o_submitted m1 -> ap_approval_id approval = id -> ap_policy_input approval = input ->
  (forall r s' m' b', same_counts s s' -> approval_post input m r m' b' -> Q r s' (m', b')) ->
  W (resolved ← try_with (call (E := gw_sig H) (Wait id))
       (fun e => if is_gateway_class ApprovalTimeoutError e || is_gateway_class ApprovalRejectedError e
                 then deny call_id (pd_reason d);; raise e else raise e);
     modify (set_approver (ap_approver resolved));;
     if has_control_plane cfg then
       now ← call (E := gw_sig H) Now;
       call (E := gw_sig H) (CpResolveApproval id (or_default (ap_decision resolved) "approved")
         (or_default (ap_approver resolved) "unknown") (or_default (ap_reason resolved) "") now)
     else mret tt) s (m1, b) Q.
Proof.
  intros (Hm1a & Hm1b & Hm1c & Hm1d) Hid Hm1l Hm1n Hm1s Hid' Hin' HQ.
  assert (Hopen : forall m', o_id m' = o_id m -> o_audits m' = [] -> o_runs m' = o_runs m ->
    o_refused m' = o_refused m -> o_last m' <> FAILED -> forall e b', err_ok e b' ->
    Q (Err e) s (m', b')).
  { intros m' H1 H2 H3 H4 H5 e b' He. apply HQ; [done|]. by split_and!. }
  wp_step. wp_step. apply wpM_op; [done|intros resolved|intros e b' Hb].
  - wp_step. wp_step.
    assert (Hpost : forall r b', match r with Ok _ => True | Err e => err_ok e b' end ->
      approval_post input m r (observe m1 (H := H) (Wait id) (Ok resolved)) b').
    { intros [[]|e] b' He'; cbn.
      - split; [split_and!; cbn; congruence|]. split; [done|]. apply elem_of_app. left.
        by eapply approved_input_in.
      - split; [split_and!; cbn; congruence|]. split; [by rewrite Hm1l|done]. }
    destruct (has_control_plane cfg); [|by apply wpM_ret, HQ, Hpost].
    wp_step. apply wpM_op; [done|intros now|intros e b' Hb].
    + apply wpM_op; [done|intros []|intros e b' Hb]; apply HQ; try done; apply Hpost; try done.
      by eapply breaks_err_ok.
    + apply HQ; [done|]. apply Hpost. by eapply breaks_err_ok.
  - cbn [observe]. destruct (_ || _); [|apply wpM_raise, Hopen; congruence || by eapply breaks_err_ok].
    wp_step. apply deny_wp; [congruence|done|by rewrite Hm1l|].
    intros r m2 b3 (H1 & H2 & H3 & H4) Hl Hr.
    assert (Herr : forall e0, err_ok e0 b3 -> Q (Err e0) s (m2, b3)).
    { intros e0 He0. apply Hopen; congruence || done. }
    destruct r as [[]|e']; [|by apply Herr]. subst b3. apply wpM_raise, Herr. by eapply breaks_err_ok.
Qed.

Lemma approval_stage_wp request input d s m b
    (Q : result exc unit -> locals -> observer * bool -> Prop) :
  o_id m = Some call_id -> o_audits m = [] -> o_last m = POLICY_CHECKED -> input ∈ o_needs m ->
  (forall r s' m' b', same_counts s s' -> approval_post input m r m' b' -> Q r s' (m', b')) ->
  W (approval_stage cfg tool_name call_id request input d) s (m, b) Q.
Proof.
  intros Hid Haud Hlast Hneed HQ. unfold approval_stage.
  assert (Hopen : forall m', o_id m' = o_id m -> o_audits m' = [] -> o_runs m' = o_runs m ->
    o_refused m' = o_refused m -> o_last m' <> FAILED -> forall e b', err_ok e b' ->
    Q (Err e) s (m', b')).
  { intros m' H1 H2 H3 H4 H5 e b' He. apply HQ; [done|]. by split_and!. }
  destruct (has_approval_queue cfg); cbn [negb]; [|apply wpM_raise, Hopen; try done; cbn; by rewrite Hlast].
  wp_step. apply wpM_op; [done|intros id|intros e b' Hb].
  2:{ apply Hopen; try done; [cbn; by rewrite Hlast|by eapply breaks_err_ok]. }
  wp_step. apply wpM_op; [done|intros created|intros e b' Hb].
  2:{ apply Hopen; try done; [cbn; by rewrite Hlast|by eapply breaks_err_ok]. }
  wp_step. apply wpM_op; [cbn; by rewrite Hlast|intros []|intros e b' Hb].
  2:{ apply Hopen; cbn; try done; [by rewrite orb_false_r|by eapply breaks_err_ok]. }
  wp_step. apply wpM_op; [done|intros []|intros e b' Hb].
  2:{ apply Hopen; cbn; try done; [by rewrite orb_false_r|by eapply breaks_err_ok]. }
  set (approval := create_approval_request _ _ _ _ _ _ _).
  set (m1 := observe _ (Submit approval) _).
  assert (Hm1 : still_open m m1 /\ o_last m1 = AWAITING_APPROVAL /\ input ∈ o_needs m1 /\
    approval ∈ o_submitted m1).
  { split_and!; cbn; try done; [by rewrite orb_false_r|by left]. }
  destruct Hm1 as ((Hm1a & Hm1b & Hm1c & Hm1d) & Hm1l & Hm1n & Hm1s). clearbody m1.
  wp_step. eapply (wpM_mono N _ _ _ (fun (r : result exc unit) s' (st : observer * bool) => s' = s /\ st.1 = m1 /\
    match r with Ok _ => True | Err e => err_ok e st.2 end)).
  { unfold when. destruct (has_control_plane cfg); [|by apply wpM_ret].
    apply wpM_op; [done|done|]. intros e b' Hb. split_and!; try done. by eapply breaks_err_ok. }
  intros [[]|e] s' [m2 b2] (-> & Hm2 & He); cbn [fst snd] in *; subst m2.
  2:{ apply Hopen; congruence || done. }
  eapply await_operator_wp; try done.
Qed.

Definition policy_post (request : BaseModel) m (r : result exc (ToolDefinition H)) (m' : observer) b : Prop :=
  match r with
  | Ok d => still_open m m' /\ in_progress (o_last m') = true /\
      registry_get registry tool_name = Ok d /\ input_of d (model_dump request) ∈ o_granted m'
  | Err e => failed_open m m' e b
  end.

Lemma registry_get_err e : registry_get registry tool_name = Err e -> exists g, e = EGateway g.
Proof. unfold registry_get. destruct (dict_get _ _); [done|]. intros [= <-]. eauto. Qed.

Lemma policy_stage_wp request s m b
    (Q : result exc (ToolDefinition H) -> locals -> observer * bool -> Prop) :
  o_id m = Some call_id -> o_audits m = [] -> o_last m = VALIDATED ->
  (forall r s' m' b', same_counts s s' -> policy_post request m r m' b' -> Q r s' (m', b')) ->
  W (policy_stage registry cfg tool_name call_id request) s (m, b) Q.
Proof.
  intros Hid Haud Hlast HQ. unfold policy_stage.
  wp_step. wp_step. destruct (registry_get registry tool_name) as [d|e] eqn:Hd.
  2:{ destruct (registry_get_err _ Hd) as (g & ->). apply HQ; [done|]. gw_close. }
  wp_step. wp_step. wp_step. fold (input_of d (model_dump request)).
  set (input := input_of d (model_dump request)).
  apply wpM_op; [done|intros decision|intros e b' Hb].
  2:{ apply HQ; [done|]. gw_close. }
  wp_step. wp_step. wp_step. wp_step. wp_step.
  set (m1 := observe m (Evaluate input) (Ok decision)).
  assert (Hm1 : still_open m m1 /\ o_last m1 = VALIDATED) by by split_and!.
  assert (Hneeds : String.eqb (pd_outcome decision) REQUIRES_APPROVAL = true -> input ∈ o_needs m1)
    by (intros Hr; cbn; rewrite Hr; by left).
  assert (Hgranted : String.eqb (pd_outcome decision) ALLOW = true -> input ∈ o_granted m1)
    by (intros Hr; cbn; rewrite Hr; by left).
  destruct Hm1 as [(H1 & H2 & H3 & H4) Hl1]. clearbody m1.
  apply wpM_op; [cbn; rewrite Hl1; split_and!; (done || congruence)|intros []|intros e b' Hb].
  2:{ apply HQ; [done|]. gw_close. }
  wp_step. destruct (String.eqb _ REQUIRES_APPROVAL) eqn:Hreq.
  - apply approval_stage_wp; [cbn; congruence|done|done|by apply Hneeds|].
    intros r s' m' b' Hs Hr. destruct r as [[]|e]; cbn in Hr.
    + destruct Hr as ((Ha & Hb & Hc & Hd') & Hl & Hin). apply wpM_ret, HQ; [done|].
      cbn in *. rewrite orb_false_r in Hd'. gw_close. by rewrite Hl.
    + destruct Hr as ((Ha & Hb & Hc & Hd') & Hl & He). apply HQ; [done|].
      cbn in *. rewrite orb_false_r in Hd'. gw_close.
  - destruct (String.eqb _ ALLOW) eqn:Hal; cbn [negb].
    + wp_step. apply wpM_ret, HQ; [done|]. gw_close. by apply Hgranted.
    + wp_step. apply deny_wp; [cbn; congruence|done|done|].
      intros r m' b' (Ha & Hb & Hc & Hd') Hl Hr. cbn in *. rewrite orb_false_r in Hd'.
      destruct r as [[]|e]; cbn beta iota; apply HQ; try done; gw_close.
Qed.

(** The state in which an attempt with given arguments may start. *)
Definition ready (d : ToolDefinition H) (args : jdict) (runs : nat) s m : Prop :=
  o_id m = Some call_id /\ o_audits m = [] /\ in_progress (o_last m) = true /\
  (length (o_runs m) <= runs)%nat /\ 1 <= latest_attempt s /\
  (latest_attempt s = 1 -> input_of d args ∈ o_granted m \/ o_refused m = true).

(** The state after an attempt that failed. *)
Definition failed_attempt (runs : nat) s m : Prop :=
  o_id m = Some call_id /\ o_audits m = [] /\ in_progress (o_last m) = true /\
  (length (o_runs m) <= runs)%nat /\ 1 <= latest_attempt s /\
  (latest_attempt s = 1 -> o_refused m = true).

(** The state after an attempt that succeeded with [output]. *)
Definition ran_tool (d : ToolDefinition H) (output : BaseModel) m : Prop :=
  o_id m = Some call_id /\ o_audits m = [] /\ o_last m = EXECUTING /\
  exists runs j, o_runs m = runs ++ [Ok j] /\ validate_output d j = Ok output.

Lemma validate_output_err (d : ToolDefinition H) j e :
  validate_output d j = Err e -> is_exception e = true.
Proof. unfold validate_output. destruct (model_validate _ _); [done|]. by intros [= <-]. Qed.

(** The observer after [attempt_body], whatever its outcome. *)
Definition body_post (d : ToolDefinition H) m (r : result exc BaseModel) s s' (m' : observer) b : Prop :=
  same_counts s s' /\ o_id m' = o_id m /\ o_audits m' = [] /\ o_last m' = EXECUTING /\
  (length (o_runs m') <= S (length (o_runs m)))%nat /\
  match r with
  | Ok output => ran_tool d output m'
  | Err e => err_ok e b
  end.

(** The validated run of the tool, once its arguments are authorized. *)
Lemma validated_run_wp d n args s s1 m m1 b1 (Q : result exc BaseModel -> locals -> observer * bool -> Prop) :
  registry_get registry tool_name = Ok d ->
  o_id m = Some call_id -> (length (o_runs m) < 3)%nat -> (o_runs m <> [] -> rerunnable registry tool_name) ->
  same_counts s s1 -> o_id m1 = o_id m -> o_audits m1 = [] -> o_last m1 = EXECUTING -> o_runs m1 = o_runs m ->
  (input_of d args ∈ o_granted m1 \/ o_refused m1 = true \/
   exists request, registry_validate registry tool_name args = Ok request /\
     input_of d (model_dump request) ∈ o_granted m1) ->
  (forall r s' m' b', body_post d m r s s' m' b' -> Q r s' (m', b')) ->
  W (validated ← lift_result (registry_validate registry tool_name args);
     result ← registry_execute_validated (run_handler cfg call_id) registry tool_name validated;
     call (E := gw_sig H) (Store (SFinish call_id n "succeeded" None));; mret result) s1 (m1, b1) Q.
Proof.
  intros Hd Hid Hlt Hre Hs1 Hi1 Ha1 Hl1 Hr1 Hauth HQ.
  assert (Hfail : forall e b', err_ok e b' -> Q (Err e) s1 (m1, b')).
  { intros e b' He. apply HQ. split_and!; try done; [rewrite Hr1; lia]. }
  wp_step. wp_step. destruct (registry_validate registry tool_name args) as [request|e] eqn:Hv.
  2:{ destruct (validate_gateway _ _ Hv) as (g & ->). by apply Hfail. }
  wp_step. unfold registry_execute_validated. wp_step. wp_step. rewrite Hd.
  unfold td_execute_validated, run_handler. wp_step. apply wpM_op.
  - cbn. split_and!; [congruence|done| |done| |congruence|by rewrite Hr1].
    + exists d, args. done.
    + destruct Hauth as [Hin|[Href|(request' & [= <-] & Hin)]]; [| |].
      * left. exists d, args. split_and!; try done. by right.
      * by right.
      * left. exists d, (model_dump request). split_and!; try done. by left.
  - intros j. wp_step. set (m2 := observe m1 _ _).
    assert (Hm2 : o_id m2 = o_id m /\ o_audits m2 = [] /\ o_last m2 = EXECUTING /\
      o_runs m2 = o_runs m ++ [Ok j]) by (cbn; rewrite Hr1; done).
    destruct Hm2 as (Hm2a & Hm2b & Hm2c & Hm2d). clearbody m2.
    assert (Hlen : (length (o_runs m2) <= S (length (o_runs m)))%nat)
      by (rewrite Hm2d, length_app; cbn; lia).
    destruct (validate_output d j) as [output|e] eqn:Ho.
    + wp_step. apply wpM_op; [cbn; congruence|intros []|intros e b' Hb].
      * apply wpM_ret, HQ. split_and!; try done. unfold ran_tool. cbn.
        split_and!; [congruence|done|done|]. by exists (o_runs m), j.
      * apply HQ. split_and!; try done. by eapply breaks_err_ok.
    + apply HQ. split_and!; try done. intros He. by rewrite (validate_output_err _ _ _ Ho) in He.
  - intros e b' Hb. apply HQ. split_and!; cbn; try done; [|by eapply breaks_err_ok].
    rewrite Hr1, length_app. cbn. lia.
Qed.

Lemma attempt_body_wp d n args s m b (Q : result exc BaseModel -> locals -> observer * bool -> Prop) :
  registry_get registry tool_name = Ok d ->
  o_id m = Some call_id -> o_audits m = [] -> o_last m = EXECUTING ->
  (length (o_runs m) < 3)%nat -> (o_runs m <> [] -> rerunnable registry tool_name) ->
  1 <= n -> (n = 1 -> input_of d args ∈ o_granted m \/ o_refused m = true) ->
  (forall r s' m' b', body_post d m r s s' m' b' -> Q r s' (m', b')) ->
  W (attempt_body registry cfg tool_name call_id d n args) s (m, b) Q.
Proof.
  intros Hd Hid Haud Hlast Hlt Hre Hn Hg HQ. unfold attempt_body.
  pose proof (fun s1 m1 b1 Hs1 Hi1 Ha1 Hl1 Hr1 Hauth => validated_run_wp d n args s s1 m m1 b1 Q Hd Hid Hlt Hre
    Hs1 Hi1 Ha1 Hl1 Hr1 Hauth HQ) as Hrun.
  wp_step. unfold when. destruct (Z.ltb_spec 1 n) as [Hn1|Hn1].
  2:{ apply wpM_ret. apply Hrun; try done. destruct (Hg ltac:(lia)); auto. }
  unfold recheck_policy. wp_step. wp_step.
  destruct (registry_validate registry tool_name args) as [request|e] eqn:Hv.
  2:{ destruct (validate_gateway _ _ Hv) as (g & ->). apply HQ. split_and!; try done. lia. }
  wp_step. apply wpM_op; [done|intros decision|intros e b' Hb].
  2:{ apply HQ. split_and!; try done; [cbn; lia|by eapply breaks_err_ok]. }
  wp_step. wp_step. destruct (String.eqb (pd_outcome decision) ALLOW) eqn:Hal; cbn [negb].
  - apply wpM_ret. apply Hrun; try done. right; right. exists request. split; [done|].
    cbn. rewrite Hal. by left.
  - wp_step. wp_step. apply wpM_raise, HQ. split_and!; try done. cbn. lia.
Qed.

Lemma in_progress_executing a : in_progress a = true -> lifecycle_edge a EXECUTING = true.
Proof. by destruct a. Qed.

Lemma execute_attempt_wp d args runs s m b
    (Q : result exc BaseModel -> locals -> observer * bool -> Prop) :
  registry_get registry tool_name = Ok d ->
  ready d args runs s m -> (runs < 3)%nat -> (runs <> 0%nat -> rerunnable registry tool_name) ->
  (forall r s' m' b',
     match r with
     | Ok output => ran_tool d output m'
     | Err e => failed_attempt (S runs) s' m' /\ err_ok e b'
     end -> Q r s' (m', b')) ->
  W (execute_attempt registry cfg tool_name call_id d args) s (m, b) Q.
Proof.
  intros Hd (Hid & Haud & Hlast & Hlen & Hk & Hauth) Hlt Hre HQ. unfold execute_attempt.
  wp_step. wp_step. wp_step.
  set (n := latest_attempt s) in *.
  assert (Hstart : forall b1, W
    (call (E := gw_sig H) (Store (STransition call_id EXECUTING None));;
     finally
       (try_with (attempt_body registry cfg tool_name call_id d n args)
          (fun e => match e with
             | EGateway g => call (E := gw_sig H) (Store (SFinish call_id n "failed" (Some (ge_message g))));; raise e
             | EPy _ _ => raise e
             end))
       (modify (finish_locals n))) s (m, b1) Q).
  { intros b1. wp_step. apply wpM_op.
    - cbn. split_and!; [done|by apply in_progress_executing|done].
    - intros []. wp_step. wp_step.
      set (m1 := observe m _ _).
      assert (Hm1 : o_id m1 = o_id m /\ o_audits m1 = [] /\ o_last m1 = EXECUTING /\
        o_runs m1 = o_runs m /\ o_granted m1 = o_granted m /\ o_refused m1 = o_refused m)
        by (cbn; rewrite orb_false_r; done).
      destruct Hm1 as (H1 & H2 & H3 & H4 & H5 & H6). clearbody m1.
      apply attempt_body_wp; [done|congruence|done|done|rewrite H4; lia| |done| |].
      + rewrite H4. intros Hne. apply Hre. destruct (o_runs m); [done|cbn in Hlen; lia].
      + rewrite H5, H6. done.
      + intros r s' m' b' ((Hs1 & Hs2) & Hi & Ha & Hl & Hr & Hres).
        assert (Hfailed : failed_attempt (S runs) (finish_locals n s') m').
        { unfold failed_attempt. cbn. split_and!; [congruence|done|by rewrite Hl| |lia|lia].
          rewrite H4 in Hr. lia. }
        destruct r as [output|e].
        * wp_step. by apply HQ.
        * destruct e as [g|cls msg]; [|apply wpM_raise; wp_step; by apply HQ].
          wp_step. apply wpM_op; [cbn; congruence|intros []|intros e' b2 Hb].
          -- apply wpM_raise. wp_step. by apply HQ.
          -- wp_step. apply HQ. split; [exact Hfailed|by eapply breaks_err_ok].
    - intros e b' Hb. apply HQ. split; [|by eapply breaks_err_ok].
      unfold failed_attempt. cbn. rewrite orb_true_r. split_and!; done || lia. }
  unfold when. destruct (1 <? n) eqn:Hn1; [|by apply wpM_ret, Hstart].
  apply wpM_op; [done|intros []; apply Hstart|intros e b' Hb].
  apply HQ. split; [|by eapply breaks_err_ok].
  apply Z.ltb_lt in Hn1. unfold failed_attempt. cbn. split_and!; try done; lia.
Qed.

(** The repair model is asked; the call stays as it is. *)
Lemma repair_arguments_wp d args diagnosis s m b
    (Q : result exc jdict -> locals -> observer * bool -> Prop) :
  (forall r s' b', same_counts s s' -> match r with Ok _ => True | Err e => err_ok e b' end ->
     Q r s' (m, b')) ->
  W (repair_arguments registry cfg tool_name d args diagnosis) s (m, b) Q.
Proof.
  intros HQ. unfold repair_arguments.
  destruct (has_repair_advisor cfg); cbn [negb]; [|by apply wpM_raise, HQ].
  wp_step. apply wpM_op; [done|intros proposed|intros e b' Hb].
  - wp_step. apply validate_proposal_wp. intros r s' Hs Hr _.
    destruct r as [request|e]; [by apply wpM_ret, HQ|by apply HQ].
  - apply HQ; [done|]. by eapply breaks_err_ok.
Qed.

(** The outcome of the repair loop. *)
Definition loop_post (d : ToolDefinition H) (r : result exc (BaseModel * Z)) (m' : observer) b : Prop :=
  match r with
  | Ok (output, _) => ran_tool d output m'
  | Err e => o_id m' = Some call_id /\ o_audits m' = [] /\ in_progress (o_last m') = true /\ err_ok e b
  end.

Definition safe_to_rerun (d : ToolDefinition H) : Prop :=
  td_risk_class d = READ_ONLY \/ td_idempotent d = true.

Lemma quiet_op_wp (o : gw_op H) d n args s m b
    (P : Z -> jdict -> locals -> observer -> Prop) :
  guard registry cfg tool_name arguments m o -> (forall r, observe m o r = m) ->
  P n args s m ->
  (forall e b', err_ok e b' -> loop_post d (Err e) m b') ->
  W (call (E := gw_sig H) o) s (m, b) (fun r s' st =>
    match r with
    | Ok _ => P n args s' st.1
    | Err e => loop_post d (Err e) st.1 st.2
    end).
Proof.
  intros Hg Hq HP Herr. apply wpM_op; [done|intros a|intros e b' Hb]; rewrite Hq; [done|].
  apply Herr. by eapply breaks_err_ok.
Qed.

Lemma failed_attempt_post d runs s m e b :
  failed_attempt runs s m -> err_ok e b -> loop_post d (Err e) m b.
Proof. intros (? & ? & ? & _) He. done. Qed.

Lemma failed_attempt_ready d args n s m :
  failed_attempt (Z.to_nat n) s m -> ready d args (Z.to_nat (n + 1 - 1)) s m.
Proof.
  replace (n + 1 - 1) with n by lia. intros (? & ? & ? & ? & ? & Href). split_and!; try done.
  intros Hk. right. auto.
Qed.

(** Between attempts the loop only asks; [P] is what holds meanwhile. *)
Ltac asks_quietly P :=
  lazymatch goal with
  | |- wpM _ (call ?o) ?s (?m, ?b) _ =>
      eapply (quiet_op_wp o _ _ _ s m b P); try done;
      try (intros; by eapply failed_attempt_post)
  end.

Lemma run_stage_wp d request s m b
    (Q : result exc (BaseModel * Z) -> locals -> observer * bool -> Prop) :
  registry_get registry tool_name = Ok d ->
  o_id m = Some call_id -> o_audits m = [] -> in_progress (o_last m) = true ->
  o_runs m = [] -> latest_attempt s = 1 -> input_of d (model_dump request) ∈ o_granted m ->
  (forall r s' m' b', loop_post d r m' b' -> Q r s' (m', b')) ->
  W (run_stage registry cfg tool_name call_id d request) s (m, b) Q.
Proof.
  intros Hd Hid Haud Hlast Hruns Hk Hin HQ. unfold run_stage.
  assert (Hrer : safe_to_rerun d -> rerunnable registry tool_name).
  { intros Hs d' Hd'. by replace d' with d by congruence. }
  eapply (wpM_mono N) with (Q := fun r _ (st : observer * bool) => loop_post d r st.1 st.2).
  2:{ intros r s' [m' b'] Hr. by apply HQ. }
  apply (repair_run_wp N default_backoff _ _ _ _ _ _
    (fun n args s st => ready d args (Z.to_nat (n - 1)) s st.1 /\ (2 <= n -> safe_to_rerun d))
    (fun n args e s st => failed_attempt (Z.to_nat n) s st.1 /\ is_exception e = true)
    (fun n args e s st => failed_attempt (Z.to_nat n) s st.1 /\ is_exception e = true /\ safe_to_rerun d)).
  - intros n args s1 [m1 b1] Hn Hmax [Hready Hsafe]. cbn [max_attempts default_backoff] in Hmax.
    eapply execute_attempt_wp; [done|exact Hready|cbn in *; lia| |].
    + intros Hne. apply Hrer, Hsafe. lia.
    + intros r s' m' b' Hr. destruct r as [output|e]; [exact Hr|].
      replace (Z.to_nat n) with (S (Z.to_nat (n - 1))) by lia.
      destruct Hr as [Hf He]. destruct (is_exception e) eqn:Hexc; [done|].
      by eapply failed_attempt_post.
  - intros n args e s1 [m1 b1] [Hf He]. cbn in *.
    split; [by eapply failed_attempt_post; [|intros ?; congruence]|]. intros _ _.
    by eapply failed_attempt_post.
  - intros n args e s1 [m1 b1] [Hf He].
    asks_quietly (fun n (_ : jdict) s m => failed_attempt (Z.to_nat n) s m /\ is_exception e = true).
  - intros n args e s1 [m1 b1] [Hf He] (_ & _ & Hsafe). cbn [fst] in *.
    destruct (is_timeout_or_crash _); [done|].
    destruct (has_repair_advisor cfg); [|done].
    apply repair_arguments_wp. intros r s' b' [Hs1 Hs2] Hr. cbn.
    assert (Hf' : failed_attempt (Z.to_nat n) s' m1) by (unfold failed_attempt in *; by rewrite Hs1).
    destruct r as [args'|e']; [done|]. by eapply failed_attempt_post.
  - intros n args e s1 [m1 b1] (Hf & He & Hs).
    asks_quietly (fun n (_ : jdict) s m =>
      failed_attempt (Z.to_nat n) s m /\ is_exception e = true /\ safe_to_rerun d).
  - intros n args e s1 [m1 b1] (Hf & He & Hs).
    asks_quietly (fun n (_ : jdict) s m =>
      failed_attempt (Z.to_nat n) s m /\ is_exception e = true /\ safe_to_rerun d).
  - intros n args e seconds s1 [m1 b1] (Hf & He & Hs).
    asks_quietly (fun n args s m => ready d args (Z.to_nat (n + 1 - 1)) s m /\ (2 <= n + 1 -> safe_to_rerun d)).
    split; [|done]. by apply failed_attempt_ready.
  - intros n args e s1 [m1 b1] (Hf & He & Hs). eapply failed_attempt_post; [done|]. intros ?. congruence.
  - apply wpM_op; [done|intros now|intros e b' Hb].
    + split; [|lia]. unfold ready. rewrite Hk. cbn. rewrite Hruns. split_and!; auto; cbn; lia.
    + cbn. split_and!; try done. by eapply breaks_err_ok.
  Unshelve. all: first [exact d|exact args].
Qed.

(** The whole call. *)
Definition succeeded_result (res : CallToolResult) (m' : observer) : Prop :=
  exists d runs j output, registry_get registry tool_name = Ok d /\
    o_runs m' = runs ++ [Ok j] /\ validate_output d j = Ok output /\
    res = tool_result (model_dump output) false /\ o_last m' = SUCCEEDED /\ o_settled m' = true.

Definition body_result (r : result exc CallToolResult) (m' : observer) b : Prop :=
  match r with
  | Ok res => succeeded_result res m' /\ (audited "succeeded" m' \/ (b = true /\ o_audits m' = []))
  | Err e => o_id m' = Some call_id /\ err_ok e b /\ (is_exception e = true -> o_audits m' = [] /\ o_last m' <> FAILED)
  end.

Lemma call_body_wp s m b (Q : result exc CallToolResult -> locals -> observer * bool -> Prop) :
  o_id m = Some call_id -> o_audits m = [] -> o_last m = RECEIVED -> o_runs m = [] ->
  latest_attempt s = 1 ->
  (forall r s' m' b', body_result r m' b' -> Q r s' (m', b')) ->
  W (call_body registry cfg session_id tool_name arguments call_id trace_id started) s (m, b) Q.
Proof.
  intros Hid Haud Hlast Hruns Hk HQ. unfold call_body.
  assert (Herr : forall e s' m' b', o_id m' = Some call_id -> o_audits m' = [] -> o_last m' <> FAILED ->
    err_ok e b' -> Q (Err e) s' (m', b')) by (intros; by apply HQ).
  wp_step. apply validate_stage_wp. intros r s1 b1 [Hs1 _] Hr.
  destruct r as [request|e]; [|apply Herr; try done; by rewrite Hlast].
  wp_step. apply wpM_op; [cbn; by rewrite Hlast|intros []|intros e b' Hb].
  2:{ apply Herr; try done. by eapply breaks_err_ok. }
  wp_step. apply policy_stage_wp; [done|done|done|].
  intros r s2 m2 b2 [Hs2 _] Hr2. destruct r as [d|e].
  2:{ destruct Hr2 as ((Hi & Ha & _ & _) & Hl & He). cbn in Hi. apply Herr; try done. congruence. }
  destruct Hr2 as ((Hi & Ha & Hru & _) & Hl & Hd & Hin). cbn in Hi, Hru.
  wp_step. apply run_stage_wp; try congruence || done.
  intros r s3 m3 b3 Hr3. destruct r as [[output n]|e].
  2:{ destruct Hr3 as (Hi3 & Ha3 & Hl3 & He3). apply Herr; try done. intros Heq. by rewrite Heq in Hl3. }
  destruct Hr3 as (Hi3 & Ha3 & Hl3 & runs & j & Hj & Ho).
  wp_step. apply wpM_op; [cbn; by rewrite Hl3|intros []|intros e b' Hb].
  2:{ apply Herr; try done. by eapply breaks_err_ok. }
  wp_step. apply write_audit_wp; [done..|].
  intros r m' b' [Hsame Hres]. destruct Hsame as (H1 & H2 & _ & _ & _ & _ & H7 & H8). cbn in H1, H2, H7, H8.
  destruct r as [[]|e].
  - apply wpM_ret, HQ. split; [|done]. exists d, runs, j, output. split_and!; congruence || done.
  - destruct Hres as [Hb Haud']. apply HQ. split; [cbn; congruence|]. split; [by intros _|].
    intros He. split; [by apply Haud'|by rewrite H2].
Qed.

Definition call_result (r : result exc CallToolResult) (m' : observer) b : Prop :=
  match r with
  | Ok res =>
      (succeeded_result res m' /\ (audited "succeeded" m' \/ (b = true /\ o_audits m' = []))) \/
      (exists g, res = error_result g /\
         ((error_isinstance (ge_class g) StateStoreUnavailableError = true /\ o_audits m' = []) \/
          (o_last m' = terminal_of g /\ o_settled m' = true /\
           (audited (audit_outcome (terminal_of g)) m' \/ (b = true /\ o_audits m' = [])))))
  | Err _ => b = true
  end.

Lemma run_call_wp s m b (Q : result exc CallToolResult -> locals -> observer * bool -> Prop) :
  o_id m = Some call_id -> o_audits m = [] -> o_last m = RECEIVED -> o_runs m = [] ->
  latest_attempt s = 1 ->
  (forall r s' m' b', call_result r m' b' -> Q r s' (m', b')) ->
  W (run_call registry cfg session_id tool_name arguments call_id trace_id started) s (m, b) Q.
Proof.
  intros Hid Haud Hlast Hruns Hk HQ. unfold run_call. wp_step.
  apply call_body_wp; [done..|]. intros r s1 m1 b1 Hr.
  destruct r as [res|e]; [apply HQ; left; exact Hr|].
  destruct Hr as (Hi & He & Hopen).
  assert (Hfail : forall g, is_exception e = true ->
    W (fail cfg session_id tool_name arguments call_id trace_id started g) s1 (m1, b1) Q).
  { intros g Hexc. destruct (Hopen Hexc) as [Ha Hl]. apply fail_wp; [done|done|done|].
    intros r m' b' (_ & _ & Hr). apply HQ. destruct r as [res|e']; [|done]. right.
    destruct Hr as [(g' & Hg' & -> & Ha')|(-> & Hl' & Hs' & Ha')]; [exists g'|exists g]; auto 6. }
  destruct e as [g|cls msg]; [by apply Hfail|].
  destruct (is_exception _) eqn:Hexc; [by apply Hfail|]. apply wpM_raise, HQ. by apply He.
Qed.
End stages.

(* ------------------------------------------------------------------ *)
(** ** The whole call *)

Section call.
Context {H : Type} (registry : ToolRegistry H) (cfg : call_config).
Context (session_id tool_name : string) (arguments : jdict).
Abbreviation N := (gateway_monitor registry cfg tool_name arguments).
Abbreviation program :=
  (execute_tool_call registry cfg session_id tool_name arguments initial_locals).

Definition persistence_error : GatewayError :=
  tool_execution_error "Durable control-plane persistence is unavailable".

(** What is known when the call ends. *)
Definition final_result (r : result exc CallToolResult) (m' : observer) (b : bool) : Prop :=
  call_result registry cfg tool_name r m' b \/
  (r = Ok (error_result persistence_error) /\ has_control_plane cfg = true /\
   o_runs m' = [] /\ o_audits m' = []).

Lemma persist_call_wp record s m b (Q : result exc bool -> locals -> observer * bool -> Prop) :
  (forall r b', match r with
                | Ok persisted => persisted = true \/ has_control_plane cfg = true
                | Err _ => b' = true
                end -> Q r s (m, b')) ->
  wpM N (persist_call (H := H) cfg record) s (m, b) Q.
Proof.
  intros HQ. unfold persist_call. destruct (has_control_plane cfg); cbn [negb];
    [|by apply wpM_ret, HQ; left].
  wp_step.
  assert (Herr : forall (o : gw_op H) e b', (breaks o e = true -> b' = true) ->
    wpM N (if is_exception e then mret false else raise e) s (m, b') Q).
  { intros o e b' Hb. pose proof (breaks_err_ok o e b' Hb) as He.
    destruct (is_exception e) eqn:Hexc; [by apply wpM_ret, HQ; right|by apply wpM_raise, HQ, He]. }
  assert (Htail : forall b1, wpM N (call (E := gw_sig H) (CpUpsertToolCall record);; mret true) s (m, b1)
    (fun r s' st => match r with
                    | Ok a => Q (Ok a) s' st
                    | Err e => wpM N (if is_exception e then mret false else raise e) s' st Q
                    end)).
  { intros b1. wp_step. apply wpM_op; [done|intros []|intros e b' Hb; by eapply Herr].
    apply wpM_ret, HQ. by left. }
  wp_step. destruct (caller cfg) as [p|]; [|apply wpM_ret, Htail].
  wp_step. apply wpM_op; [done|intros []|intros e b' Hb; by eapply Herr].
  apply wpM_op; [done|intros []; apply Htail|intros e b' Hb; by eapply Herr].
Qed.

Lemma execute_tool_call_wp :
  wpM N (execute_tool_call registry cfg session_id tool_name arguments) initial_locals
    (observer0, false) (fun r _ st => final_result r st.1 st.2).
Proof.
  unfold execute_tool_call.
  assert (Hbreak : forall (o : gw_op H) e b' m,
    match o with Uuid | TraceId | Now | Monotonic => True | _ => False end ->
    (breaks o e = true -> b' = true) -> final_result (Err e) m b').
  { intros o e b' m Ho Hb. left. apply Hb. unfold breaks. by destruct o; rewrite ?orb_true_r. }
  wp_step. apply wpM_op; [done|intros call_id|intros e b' Hb; by eapply (Hbreak Uuid)].
  wp_step. apply wpM_op; [done|intros started|intros e b' Hb; by eapply (Hbreak Monotonic)].
  wp_step. apply wpM_op; [done|intros trace_id|intros e b' Hb; by eapply (Hbreak TraceId)].
  wp_step. apply wpM_op; [done|intros now|intros e b' Hb; by eapply (Hbreak Now)].
  set (record := received_record _ _ _ _ _ _ _ _).
  wp_step. wp_step. wp_step. apply wpM_op; [done|intros []|intros e b' Hb].
  - apply wpM_ret. wp_step. apply persist_call_wp. intros [persisted|e] b' Hp; [|by left].
    destruct persisted; cbn [negb].
    + apply run_call_wp with (call_id := call_id); [done..|]. intros r s' m' b2 Hr. by left.
    + destruct Hp as [?|Hcp]; [done|]. apply wpM_ret. by right.
  - unfold breaks in Hb. destruct e as [g|cls msg]; cbn -[error_isinstance] in Hb.
    + destruct (error_isinstance _ _) eqn:Hg; [apply wpM_ret, wpM_ret|apply wpM_raise; left; by apply Hb].
      left. right. exists g. auto.
    + apply wpM_raise. left. apply Hb, orb_true_r.
Qed.

Lemma answers_ok_all m (tr : list (event (gw_sig H))) : answers_ok N m tr.
Proof. revert m. induction tr as [|ev tr IH]; intros m; cbn; auto. Qed.

(** Every operation of every trace was allowed when it was called. *)
Lemma trace_guarded tr rs :
  exec program tr rs ->
  forall tr1 ev tr2, tr = tr1 ++ ev :: tr2 ->
    guard registry cfg tool_name arguments (observation tr1) (projT1 ev).
Proof.
  intros Hex tr1 ev tr2 Htr.
  pose proof (exec_calls_allowed N _ _ _ tr rs execute_tool_call_wp Hex (answers_ok_all _ _) tr1 ev tr2 Htr)
    as Hg.
  rewrite gateway_monitor_after in Hg. exact Hg.
Qed.

Lemma trace_final tr rs :
  exec program tr rs -> final_result rs.1 (observation tr) (contract_broken tr).
Proof.
  intros Hex. pose proof (wp_exec N _ _ _ tr rs execute_tool_call_wp Hex (answers_ok_all _ _)) as Hf.
  rewrite gateway_monitor_after in Hf. exact Hf.
Qed.

Lemma call_total : total program.
Proof. eapply (wp_total N); [done|apply execute_tool_call_wp]. Qed.

Lemma observation_snoc tr (ev : event (gw_sig H)) :
  observation (tr ++ [ev]) = observe_event (observation tr) ev.
Proof. unfold observation. by rewrite fold_left_app. Qed.

Definition run_answer (ev : event (gw_sig H)) : option (result exc json) :=
  match ev with existT (RunTool _ _ _ _) r => Some r | _ => None end.

Lemma observe_runs m (ev : event (gw_sig H)) :
  o_runs (observe_event m ev) = o_runs m ++ option_list (run_answer ev).
Proof.
  destruct ev as [o r]. destruct o as [| | | | | |[]| | | | | | | | | | |]; cbn; rewrite ?app_nil_r; try done;
    by destruct r; cbn; rewrite ?app_nil_r.
Qed.

Lemma runs_bounded (tr : list (event (gw_sig H))) :
  (forall tr1 ev tr2, tr = tr1 ++ ev :: tr2 ->
     guard registry cfg tool_name arguments (observation tr1) (projT1 ev)) ->
  (length (o_runs (observation tr)) <= 3)%nat /\
  ((2 <= length (o_runs (observation tr)))%nat -> rerunnable registry tool_name).
Proof.
  induction tr as [|ev tr IH] using rev_ind; intros Hg; [unfold observation; cbn; split; [lia|intros ?; exfalso; lia]|].
  assert (Hev := Hg tr ev [] eq_refl). destruct IH as [IH1 IH2].
  { intros tr1 ev' tr2 ->. apply (Hg tr1 ev' (tr2 ++ [ev])). by rewrite <- app_assoc. }
  rewrite observation_snoc, observe_runs, length_app.
  destruct ev as [o r]. cbn [projT1] in Hev.
  destruct o; cbn [run_answer option_list length]; rewrite ?Nat.add_0_r; try done.
  destruct Hev as (_ & _ & _ & _ & _ & Hlt & Hre).
  set (k := length (option_list _)). assert (k = 1%nat) as -> by done.
  split; [lia|]. intros Hle. apply Hre.
  destruct (o_runs (observation tr)); [cbn in Hle; lia|done].
Qed.
End call.

(* ------------------------------------------------------------------ *)
(** ** A concrete environment *)

Module example.
(** One read-only tool that takes a query; its handler is named by a text. *)
Definition query_model : ModelClass :=
  {| model_validate v :=
       match v with
       | JObj kvs =>
           match dict_get "query" kvs with
           | Some (JStr _) => Ok {| fields := kvs |}
           | Some _ => Err [{| ei_location := [LocStr "query"]; ei_error_type := "string_type"; ei_message := "" |}]
           | None => Err [{| ei_location := [LocStr "query"]; ei_error_type := "missing"; ei_message := "" |}]
           end
       | _ => Err []
       end;
     model_json_schema := [("type", JStr "object")] |}.
Definition rows_model : ModelClass :=
  {| model_validate v := match v with JObj kvs => Ok {| fields := kvs |} | _ => Err [] end;
     model_json_schema := [] |}.
Definition db_query : ToolDefinition string :=
  {| td_name := "db_query"; td_description := "query"; td_risk_class := READ_ONLY;
     td_input_model := query_model; td_output_model := rows_model; td_handler := "run";
     td_idempotent := true |}.
Definition registry : ToolRegistry string := {| definitions := [("db_query", db_query)] |}.

Definition config : call_config :=
  {| has_approval_queue := true; has_audit_logger := true; has_repair_advisor := true;
     has_control_plane := true; sandbox_runtime := "gvisor"; caller := None |}.

Definition select : jdict := [("query", JStr "SELECT 1")].
Definition drop_table : jdict := [("query", JStr "DROP TABLE orders")].

(** The store refuses the first [refusals] transitions to "executing"; the policy
    is the rules of the repository; the repair model proposes to drop a table. *)
Definition env : handler (gw_sig string) nat := fun o refusals =>
  match o with
  | Uuid => (Ok "id", refusals)
  | TraceId => (Ok "trace", refusals)
  | Now => (Ok 0, refusals)
  | Monotonic | Uniform => (Ok 0%Q, refusals)
  | Sleep _ => (Ok tt, refusals)
  | Store o =>
      (match o return result exc (store_ans o) with
       | STransition _ EXECUTING _ => if refusals then Ok tt else Err StateStore.unavailable
       | SCreate _ | STransition _ _ _ | SFinish _ _ _ _ | SStart _ _ => Ok tt
       | SGet _ => Ok None
       | SList _ => Ok []
       end,
       match o with STransition _ EXECUTING _ => Nat.pred refusals | _ => refusals end)
  | Evaluate input =>
      (Ok (default default_decision (rego_decision (JObj input))), refusals)
  | Wait _ => (Err timed_out, refusals)
  | Advise _ _ _ _ => (Ok drop_table, refusals)
  | RunTool _ _ _ request => (Ok (JObj (fields request)), refusals)
  | CpUpsertTenant _ _ | CpUpsertPrincipal _ | CpUpsertToolCall _ | CpCreateApproval _ _
  | CpResolveApproval _ _ _ _ _ | Submit _ | AuditAppend _ => (Ok tt, refusals)
  end.
End example.

(** What the observer saw of the audit log, on the trace. *)
Lemma no_audit_trace {H} (tr : list (event (gw_sig H))) : o_audits (observation tr) = [] -> audit_appends tr = [].
Proof. rewrite audits_requested. by destruct (audit_appends tr). Qed.
Lemma audited_trace {H} cfg outcome (tr : list (event (gw_sig H))) :
  audited cfg outcome (observation tr) -> audited_once cfg outcome tr.
Proof.
  unfold audited, audited_once, audits_written, audit_failed. destruct (has_audit_logger cfg); [|apply no_audit_trace].
  rewrite audits_requested. intros (f & Hf & Hout). exists f. split_and!; [done..|].
  destruct (audit_appends tr) as [|[f' ok] [|]]; [done| |done]. injection Hf as ->. by destruct ok.
Qed.

(* ------------------------------------------------------------------ *)
(** ** Properties *)

Section properties.
Context {H : Type} (registry : ToolRegistry H) (cfg : call_config).
Context (session_id tool_name : string) (arguments : jdict).
Abbreviation program :=
  (execute_tool_call registry cfg session_id tool_name arguments initial_locals).

(** C1: no tool runs without authorization.  Whatever the collaborators answer,
    each run of a tool is a run of the handler registered under the requested
    name, on arguments that passed its input model, for the call that was
    recorded, in the state "executing", in the tenant of the caller; and the policy allowed the call with
    those arguments for this caller, or an operator's approval of them was
    awaited and granted, before the run - unless the state store had refused to
    record the state "executing" earlier in the call. *)
Theorem tool_runs_authorized :
  total program /\
  forall tr rs, exec program tr rs ->
  forall tr1 handler id tenant request answer tr2,
    tr = tr1 ++ Event (E := gw_sig H) (RunTool handler id tenant request) answer :: tr2 ->
    let m := observation tr1 in
    o_id m = Some id /\ o_last m = EXECUTING /\
    validated_run registry tool_name handler request /\ tenant = tenant_or_local (caller cfg) /\
    (granted_run registry cfg tool_name m handler request \/ o_refused m = true).
Proof.
  split; [apply call_total|]. intros tr rs Hex tr1 handler id tenant request answer tr2 Htr.
  pose proof (trace_guarded registry cfg session_id tool_name arguments tr rs Hex _ _ _ Htr) as Hg.
  destruct Hg as (H1 & H2 & H3 & H4 & H5 & _). done.
Qed.

(** C4: a call runs its tool at most three times, and more than once only if the
    tool is read-only or declared idempotent: a mutating tool that is not
    idempotent is never run twice. *)
Theorem tool_runs_at_most_thrice :
  total program /\
  forall tr rs, exec program tr rs ->
    (length (o_runs (observation tr)) <= 3)%nat /\
    ((2 <= length (o_runs (observation tr)))%nat -> rerunnable registry tool_name).
Proof.
  split; [apply call_total|]. intros tr rs Hex.
  eapply (runs_bounded registry cfg tool_name arguments). by eapply trace_guarded.
Qed.

(** C5: the lifecycle is respected: the states a call asks the store to record
    follow the edges of the lifecycle from "received", all for the record the
    call created, and none is asked for once the call is audited; the call
    creates one record only, of its tool and arguments, under the identifier it
    drew. *)
Theorem lifecycle_respected :
  total program /\
  forall tr rs, exec program tr rs ->
  (forall tr1 id state error answer tr2,
    tr = tr1 ++ Event (E := gw_sig H) (Store (STransition id state error)) answer :: tr2 ->
    let m := observation tr1 in
    o_id m = Some id /\ lifecycle_edge (o_last m) state = true /\ o_audits m = []) /\
  (forall tr1 record answer tr2,
    tr = tr1 ++ Event (E := gw_sig H) (Store (SCreate record)) answer :: tr2 ->
    o_id (observation tr1) = None /\ o_fresh (observation tr1) = Some (tc_call_id record) /\
    tc_current_state record = RECEIVED /\ tc_tool_name record = tool_name /\
    tc_arguments record = arguments /\ o_audits (observation tr1) = []).
Proof.
  split; [apply call_total|]. intros tr rs Hex.
  pose proof (trace_guarded registry cfg session_id tool_name arguments tr rs Hex) as Hg. split.
  - intros tr1 id state error answer tr2 Htr. exact (Hg _ _ _ Htr).
  - intros tr1 record answer tr2 Htr. exact (Hg _ _ _ Htr).
Qed.

(** C3: when the collaborators keep their contracts (no cancellation, clocks and
    identifiers answer, the store fails only with unavailability), a call always
    returns a result.  It reports success only with the output of the last tool
    run, validated by the output model, once the state "succeeded" was asked for;
    otherwise the result carries the error.  In both cases, if an audit log is
    configured, exactly one audit record was handed to it, with the outcome of the
    result, and the log has written this record unless the log itself failed (its
    error is swallowed).  Only when the store or the control plane could not
    persist the call is no record handed to the log. *)
Theorem call_always_answers :
  total program /\
  forall tr r s, exec program tr (r, s) ->
  contract_broken tr = false ->
  let m := observation tr in
  exists res, r = Ok res /\
    ((succeeded_result registry tool_name res m /\ audited_once cfg "succeeded" tr) \/
     (exists g, res = error_result g /\ o_last m = terminal_of g /\
        audited_once cfg (audit_outcome (terminal_of g)) tr) \/
     (exists g, res = error_result g /\ audit_appends tr = [] /\
        (error_isinstance (ge_class g) StateStoreUnavailableError = true \/
         g = persistence_error /\ has_control_plane cfg = true /\ o_runs m = []))).
Proof.
  split; [apply call_total|]. intros tr r s Hex Hb m.
  pose proof (trace_final registry cfg session_id tool_name arguments tr (r, s) Hex) as Hf.
  rewrite Hb in Hf. cbn [fst] in Hf. fold m in Hf.
  destruct Hf as [Hcall|(-> & Hcp & Hruns & Haud)].
  - destruct r as [res|e]; [|done]. exists res. split; [done|].
    destruct Hcall as [(Hs & [Ha|[? _]])|(g & -> & [[Hg Ha]|(Hl & _ & [Ha|[? _]])])]; try done.
    + left. split; [done|by apply audited_trace].
    + right; right. exists g. split_and!; auto using no_audit_trace.
    + right; left. exists g. split_and!; try done. by apply audited_trace.
  - eexists. split; [done|]. right; right. exists persistence_error. split_and!; auto using no_audit_trace.
Qed.

(** C6: every audit record is the only one of its call, appended after the last
    state was asked for and acknowledged by the store; it names the call, the tool and the arguments the client
    sent, and its outcome is the one of that state, which ends the call. *)
Theorem audit_matches_outcome :
  total program /\
  forall tr rs, exec program tr rs ->
  forall tr1 fields answer tr2,
    tr = tr1 ++ Event (E := gw_sig H) (AuditAppend fields) answer :: tr2 ->
    let m := observation tr1 in
    o_audits m = [] /\ o_id m = Some (af_call_id fields) /\ o_settled m = true /\
    terminal (o_last m) = true /\ af_outcome fields = audit_outcome (o_last m) /\
    af_tool_name fields = tool_name /\ af_arguments fields = arguments.
Proof.
  split; [apply call_total|]. intros tr rs Hex tr1 fields answer tr2 Htr.
  exact (trace_guarded registry cfg session_id tool_name arguments tr rs Hex _ _ _ Htr).
Qed.
End properties.

(* ------------------------------------------------------------------ *)
(** ** The exception of [tool_runs_authorized] *)

(** What a trace shows of the policy, of the tool, and of the collaborators that failed. *)
Definition evaluated {H} (ev : event (gw_sig H)) : option jdict :=
  match ev with existT (Evaluate input) _ => Some input | _ => None end.
Definition tool_run_of {H} (ev : event (gw_sig H)) : option (H * BaseModel) :=
  match ev with existT (RunTool handler _ _ request) _ => Some (handler, request) | _ => None end.
Definition refused_executing {H} (ev : event (gw_sig H)) : bool :=
  match ev with existT (Store (STransition _ EXECUTING _)) (Err e) => bool_decide (e = StateStore.unavailable) | _ => false end.
Definition answered_ok {H} (ev : event (gw_sig H)) : bool := match ev with existT _ r => is_ok r end.

Section bypass.
Context {H : Type} (registry : ToolRegistry H) (cfg : call_config).
Context (session_id tool_name : string) (arguments proposed : jdict).
Context (policy : jdict -> PolicyDecision) (tool : BaseModel -> json).

(** Collaborators that answer; only the store refuses the first transition to
    "executing". *)
Definition refusing_env : handler (gw_sig H) bool := fun o refuse =>
  match o return result exc (ans (gw_sig H) o) * bool with
  | Uuid => (Ok "id", refuse)
  | TraceId => (Ok "trace", refuse)
  | Now => (Ok 0, refuse)
  | Monotonic | Uniform => (Ok 0%Q, refuse)
  | Sleep _ => (Ok tt, refuse)
  | Store o =>
      match o return result exc (store_ans o) * bool with
      | STransition _ EXECUTING _ => (if refuse then Err StateStore.unavailable else Ok tt, false)
      | SCreate _ | STransition _ _ _ | SFinish _ _ _ _ | SStart _ _ => (Ok tt, refuse)
      | SGet _ => (Ok None, refuse)
      | SList _ => (Ok [], refuse)
      end
  | Evaluate input => (Ok (policy input), refuse)
  | Wait _ => (Err (EGateway approval_timeout_error), refuse)
  | Advise _ _ _ _ => (Ok proposed, refuse)
  | RunTool _ _ _ request => (Ok (tool request), refuse)
  | CpUpsertTenant _ _ | CpUpsertPrincipal _ | CpUpsertToolCall _ | CpCreateApproval _ _
  | CpResolveApproval _ _ _ _ _ | Submit _ | AuditAppend _ => (Ok tt, refuse)
  end.

Context (d : ToolDefinition H) (request repaired output : BaseModel).
Context (Hget : registry_get registry tool_name = Ok d).
Context (Hval : registry_validate registry tool_name arguments = Ok request).
Context (Hrepaired : registry_validate registry tool_name proposed = Ok repaired).
Context (Hsafe : td_risk_class d = READ_ONLY \/ td_idempotent d = true).
Context (Hadvisor : has_repair_advisor cfg = true).
Abbreviation input := (make_policy_input tool_name (td_risk_class d) (model_dump request) (caller cfg)).
Context (Hallow : pd_outcome (policy input) = ALLOW).
Context (Hout : model_validate (td_output_model d) (tool repaired) = Ok output).

(** What the trace of the call shows. *)
Definition bypassing (tr : list (event (gw_sig H))) : Prop :=
  omap evaluated tr = [input] /\ omap tool_run_of tr = [(td_handler d, repaired)] /\
  existsb refused_executing tr = true /\ forallb (fun ev => answered_ok ev || refused_executing ev) tr = true.

Ltac evaluate := unfold mbind, M_bind, validate_proposal, try_with;
  cbn -[registry_get registry_validate tool_result default_backoff can_retry delay Qle_bool diagnose
        pd_outcome make_policy_input].

Lemma bypass_run : exists s w tr,
  run refusing_env (execute_tool_call registry cfg session_id tool_name arguments initial_locals) true =
    Some ((Ok (tool_result (model_dump output) false), s), w, tr) /\ bypassing tr.
Proof.
  assert (Hretry : negb (bool_decide (td_risk_class d = READ_ONLY)) && negb (td_idempotent d) = false)
    by (destruct Hsafe as [-> | ->]; [done|by rewrite andb_false_r]).
  unfold bypassing. destruct cfg as [qa al ra cp sr ca]; cbn in Hadvisor, Hallow |- *; subst ra.
  unfold execute_tool_call, run_call, call_body, validate_stage, policy_stage, run_stage, repair_run, run_loop,
    execute_attempt, attempt_body, persist_call, write_audit, finally.
  change (loop_fuel default_backoff) with 4%nat.
  destruct cp, al, ca; evaluate; rewrite Hval; evaluate; rewrite Hget; evaluate; rewrite !Hallow; evaluate;
    (change (diagnose StateStore.unavailable) with
       {| fd_category := TOOL_ERROR; fd_message := str_exc StateStore.unavailable |}); evaluate;
    unfold can_retry; (rewrite decide_False by done);
    change (max_attempts default_backoff) with 3; change (max_total_seconds default_backoff) with 30%Q; evaluate;
    change (Qle_bool 30 (0 - 0)) with false; rewrite Hretry; evaluate; rewrite Hrepaired; evaluate;
    change (Qle_bool (0 + delay default_backoff 1 0 - 0) 30) with true; evaluate;
    unfold registry_execute_validated, td_execute_validated, run_handler, validate_output; evaluate;
    rewrite ?Hget; evaluate; rewrite Hrepaired; evaluate; rewrite Hout; evaluate;
    (eexists _, _, _; split; [reflexivity|]); split_and!; reflexivity.
Qed.
End bypass.


(* ------------------------------------------------------------------ *)
(** ** Witness *)

