(* ===== verification/Wire.v ===== *)
(** * Models on the wire

    The classes of [gateway/models.py] as strict pydantic models: the declared type
    of every field, what [model_dump(mode="json")] writes for a value and what
    [model_validate] reads back from JSON ([extra="forbid"], [strict=True]: no
    undeclared field, no coercion).  A [wire] is such a declaration for one type;
    [Lawful] says that it reads what it wrote and reads exactly the values of the
    declared type.  Declarations are built from those of the fields.  The parser
    of ISO timestamps is pydantic's, a parameter. *)

From S2P Require Import Prelude Dict Pystr Json Models Errors StateStore Hitl.
Open Scope nat_scope.

(** The annotations of fields. *)
Inductive mtype :=
| TStr (min_length : nat) (max_length : option nat)
| TInt
| TBool
| TDatetime
| TEnum (members : list string)
| TDict
| TOptional (t : mtype)
| TList (min_length : nat) (t : mtype)
| TModel (fields : list (string * (bool * mtype))).

Definition some {A} (o : option A) : bool := match o with Some _ => true | None => false end.

Definition str_in (min_length : nat) (max_length : option nat) (s : string) : bool :=
  (min_length <=? String.length s) &&
  match max_length with Some n => String.length s <=? n | None => true end.

(** A declaration: the type, the dump, the validation and the constraints. *)
Record wire (A : Type) := {
  w_type : mtype;
  w_dump : A -> json;
  w_read : json -> option A;
  w_ok : A -> bool
}.
Arguments w_type {A}. Arguments w_dump {A}. Arguments w_read {A}. Arguments w_ok {A}.

(** The fields of a model, in order, as nested pairs. *)
Record row (A : Type) := {
  r_fields : list (string * (bool * mtype));
  r_dump : A -> jdict;
  r_read : jdict -> option A;
  r_ok : A -> bool
}.
Arguments r_fields {A}. Arguments r_dump {A}. Arguments r_read {A}. Arguments r_ok {A}.

Section wire.
Context `{Rendering} (parse_datetime : string -> option Z) (float_norm : string -> string).

(** The JSON values of a type: what strict validation accepts. *)
Fixpoint has_type (t : mtype) (v : json) : bool :=
  match t with
  | TStr lo hi => match v with JStr s => str_in lo hi s | _ => false end
  | TInt => match v with JInt _ => true | _ => false end
  | TBool => match v with JBool _ => true | _ => false end
  | TDatetime => match v with JStr s => some (parse_datetime s) | _ => false end
  | TEnum members => match v with JStr s => existsb (fun m => String.eqb m s) members | _ => false end
  | TDict => match v with JObj _ => true | _ => false end
  | TOptional t => match v with JNull => true | _ => has_type t v end
  | TList lo t => match v with JList l => (lo <=? length l) && forallb (has_type t) l | _ => false end
  | TModel fields =>
      match v with
      | JObj kvs =>
          forallb (fun kv => existsb (fun f => String.eqb f.1 kv.1) fields) kvs &&
          forallb (fun f => match dict_get f.1 kvs with
                            | Some x => has_type f.2.2 x
                            | None => negb f.2.1
                            end) fields
      | _ => false
      end
  end.

Definition w_str (lo : nat) (hi : option nat) : wire string :=
  {| w_type := TStr lo hi; w_dump := JStr;
     w_read v := match v with JStr s => if str_in lo hi s then Some s else None | _ => None end;
     w_ok := str_in lo hi |}.
Definition w_int : wire Z :=
  {| w_type := TInt; w_dump := JInt; w_read v := match v with JInt z => Some z | _ => None end;
     w_ok _ := true |}.
Definition w_bool : wire bool :=
  {| w_type := TBool; w_dump := JBool; w_read v := match v with JBool b => Some b | _ => None end;
     w_ok _ := true |}.
Definition w_datetime : wire Z :=
  {| w_type := TDatetime; w_dump := dump_datetime;
     w_read v := match v with JStr s => parse_datetime s | _ => None end; w_ok _ := true |}.
Definition w_enum {A} (val : A -> string) (members : list A) : wire A :=
  {| w_type := TEnum (map val members); w_dump a := JStr (val a);
     w_read v := match v with JStr s => member_of val members s | _ => None end; w_ok _ := true |}.
Definition w_dict : wire jdict :=
  {| w_type := TDict; w_dump := JObj; w_read v := match v with JObj kvs => Some kvs | _ => None end;
     w_ok kvs := json_wf float_norm (JObj kvs) |}.
Definition w_option {A} (w : wire A) : wire (option A) :=
  {| w_type := TOptional (w_type w); w_dump := opt_json (w_dump w);
     w_read v := match v with JNull => Some None | _ => Some <$> w_read w v end;
     w_ok o := match o with Some a => w_ok w a | None => true end |}.
Definition w_list {A} (lo : nat) (w : wire A) : wire (list A) :=
  {| w_type := TList lo (w_type w); w_dump l := JList (map (w_dump w) l);
     w_read v := match v with JList l => if lo <=? length l then mapM (w_read w) l else None | _ => None end;
     w_ok l := (lo <=? length l) && forallb (w_ok w) l |}.

(** One field more; a field with a default may be missing. *)
Definition r_cons {A B} (name : string) (default : option A) (w : wire A) (r : row B) : row (A * B) :=
  {| r_fields := (name, (negb (some default), w_type w)) :: r_fields r;
     r_dump ab := (name, w_dump w ab.1) :: r_dump r ab.2;
     r_read kvs :=
       a ← match dict_get name kvs with Some v => w_read w v | None => default end;
       b ← r_read r kvs; Some (a, b);
     r_ok ab := w_ok w ab.1 && r_ok r ab.2 |}.
Definition r_nil : row unit :=
  {| r_fields := []; r_dump _ := []; r_read _ := Some tt; r_ok _ := true |}.

(** A model: its fields, and no others. *)
Definition w_model {A B} (r : row B) (make : B -> A) (parts : A -> B) : wire A :=
  {| w_type := TModel (r_fields r); w_dump a := JObj (r_dump r (parts a));
     w_read v :=
       match v with
       | JObj kvs =>
           if forallb (fun kv => existsb (fun f => String.eqb f.1 kv.1) (r_fields r)) kvs
           then make <$> r_read r kvs else None
       | _ => None
       end;
     w_ok a := r_ok r (parts a) |}.

(* ------------------------------------------------------------------ *)
(** ** Laws *)

Class Lawful {A} (w : wire A) : Prop := {
  read_dump a : w_ok w a = true -> w_read w (w_dump w a) = Some a;
  typed_read v : has_type (w_type w) v = some (w_read w v);
  read_ok v a : json_wf float_norm v = true -> w_read w v = Some a -> w_ok w a = true;
  dump_wf a : w_ok w a = true -> json_wf float_norm (w_dump w a) = true
}.
(** A value that is not JSON's [null]. *)
Class NotNull {A} (w : wire A) : Prop := { not_null a : w_dump w a <> JNull }.

Definition row_names {A} (r : row A) : list string := map fst (r_fields r).
Class LawfulRow {A} (r : row A) : Prop := {
  row_nodup : NoDup (row_names r);
  row_keys a : dict_keys (r_dump r a) = row_names r;
  row_skip name v kvs : name ∉ row_names r -> r_read r ((name, v) :: kvs) = r_read r kvs;
  row_read_dump a : r_ok r a = true -> r_read r (r_dump r a) = Some a;
  row_typed kvs : forallb (fun f => match dict_get f.1 kvs with
                                    | Some x => has_type f.2.2 x
                                    | None => negb f.2.1
                                    end) (r_fields r) = some (r_read r kvs);
  row_read_ok kvs a : forallb (fun kv => json_wf float_norm kv.2) kvs = true -> r_read r kvs = Some a -> r_ok r a = true;
  row_dump_wf a : r_ok r a = true -> forallb (fun kv => json_wf float_norm kv.2) (r_dump r a) = true
}.

Lemma some_iff {A} (o : option A) a : o = Some a -> some o = true.
Proof. by intros ->. Qed.

(** What is valid has the declared type. *)
Lemma dump_typed {A} (w : wire A) `{!Lawful w} a : w_ok w a = true -> has_type (w_type w) (w_dump w a) = true.
Proof. intros Ha. rewrite typed_read. eapply some_iff, read_dump, Ha. Qed.

#[export] Instance w_str_lawful lo hi : Lawful (w_str lo hi).
Proof.
  split; cbn; try done.
  - by intros s ->.
  - intros []; cbn; try done. by destruct (str_in _ _ _).
  - intros [] a _; cbn; try done. destruct (str_in lo hi s) eqn:Hs; [by intros [= <-]|done].
Qed.
#[export] Instance w_int_lawful : Lawful w_int.
Proof. split; cbn; try done; by intros []. Qed.
#[export] Instance w_bool_lawful : Lawful w_bool.
Proof. split; cbn; try done; by intros []. Qed.
#[export] Instance w_dict_lawful : Lawful w_dict.
Proof.
  split; cbn; try done; try by intros [].
  intros [] a Hv; cbn; try done. by intros [= <-].
Qed.

Lemma w_enum_lawful {A} (val : A -> string) members :
  (forall a, member_of val members (val a) = Some a) -> Lawful (w_enum val members).
Proof.
  intros Hval. split; cbn; try done.
  intros []; cbn; try done. unfold member_of. clear Hval. induction members as [|a l IH]; cbn; [done|].
  by destruct (String.eqb (val a) s).
Qed.

#[export] Instance w_option_lawful {A} (w : wire A) : Lawful w -> NotNull w -> Lawful (w_option w).
Proof.
  intros Hw Hn. split; cbn.
  - intros [a|] Ha; cbn; [|done]. rewrite (read_dump a Ha). pose proof (not_null a). by destruct (w_dump w a).
  - intros v. pose proof (typed_read v) as Ht. destruct v; try done; rewrite Ht; by destruct (w_read w _).
  - intros v o Hv. destruct v; try (by intros [= <-]);
      (destruct (w_read w _) as [a|] eqn:Hr; [|done]); intros [= <-]; by eapply read_ok.
  - intros [a|] Ha; cbn; [|done]. by apply dump_wf.
Qed.

#[export] Instance w_list_lawful {A} lo (w : wire A) : Lawful w -> Lawful (w_list lo w).
Proof.
  intros Hw. split; cbn.
  - intros l [Hlo Hl]%andb_true_iff. rewrite length_map, Hlo. apply mapM_Some, Forall2_fmap_l.
    apply forallb_Forall_true in Hl. apply Forall_Forall2_diag. eapply Forall_impl; [exact Hl|].
    intros a Ha. by apply read_dump.
  - intros v. destruct v as [| | | | |l|]; try done. destruct (lo <=? length l); [|done]. cbn.
    induction l as [|v l IH]; cbn; [done|]. rewrite typed_read, IH.
    destruct (w_read w v); [|done]. cbn. by destruct (mapM _ l).
  - intros v l Hv. destruct v as [| | | | |l0|]; try done. destruct (lo <=? length l0) eqn:Hlo; [|done].
    intros Hm%mapM_Some. rewrite <- (Forall2_length _ _ _ Hm), Hlo. cbn. cbn in Hv. clear Hlo.
    induction Hm as [|v a l0 l Hr Hm IH]; cbn; [done|]. cbn in Hv. apply andb_true_iff in Hv as [Hv Hvs].
    rewrite IH by done. by rewrite (read_ok v a Hv Hr).
  - intros l [_ Hl]%andb_true_iff. rewrite forallb_forall in Hl |- *. intros v (a & <- & Ha)%in_map_iff.
    by apply dump_wf, Hl.
Qed.

#[export] Instance w_str_not_null lo hi : NotNull (w_str lo hi).
Proof. by split. Qed.
#[export] Instance w_datetime_not_null : NotNull w_datetime.
Proof. by split. Qed.
#[export] Instance w_enum_not_null {A} (val : A -> string) members : NotNull (w_enum val members).
Proof. by split. Qed.
#[export] Instance w_model_not_null {A B} (r : row B) (make : B -> A) parts : NotNull (w_model r make parts).
Proof. by split. Qed.

#[export] Instance r_nil_lawful : LawfulRow r_nil.
Proof. split; cbn; try done; [constructor|by intros []]. Qed.

(** A field whose name is new. *)
Definition new_name {A} (name : string) (r : row A) : bool := bool_decide (name ∉ row_names r).

Lemma r_cons_lawful {A B} name (default : option A) (w : wire A) (r : row B) :
  new_name name r = true -> match default with Some a => w_ok w a = true | None => True end ->
  Lawful w -> LawfulRow r -> LawfulRow (r_cons name default w r).
Proof.
  intros Hnew%bool_decide_eq_true Hdef Hw Hr. split; cbn.
  - apply NoDup_cons. split; [done|apply row_nodup].
  - intros [a b]. cbn. f_equal. apply row_keys.
  - intros n v kvs Hn. rewrite row_skip; [|by intros ?; apply Hn; right].
    destruct (decide (name = n)) as [->|]; [destruct Hn; by left|done].
  - intros [a b] [Ha Hb]%andb_true_iff. cbn in *. rewrite decide_True by done. rewrite (read_dump a Ha). cbn.
    rewrite row_skip by done. by rewrite (row_read_dump b Hb).
  - intros kvs. rewrite (row_typed kvs). destruct (dict_get name kvs) as [v|]; cbn.
    + rewrite typed_read. destruct (w_read w v); cbn; [|done]. by destruct (r_read r kvs).
    + rewrite negb_involutive. destruct default; cbn; [|done]. by destruct (r_read r kvs).
  - intros kvs [a b] Hkvs.
    destruct (match dict_get name kvs with Some v => w_read w v | None => default end) as [a'|] eqn:Ha; [|done].
    cbn. destruct (r_read r kvs) as [b'|] eqn:Hb; [|done]. intros [= -> ->].
    rewrite (row_read_ok kvs b Hkvs Hb), andb_true_r.
    destruct (dict_get name kvs) as [v|] eqn:Hg; [|by rewrite Ha in Hdef].
    eapply read_ok; [|exact Ha]. apply dict_get_In, list_elem_of_In in Hg.
    rewrite forallb_forall in Hkvs. exact (Hkvs _ Hg).
  - intros [a b] [Ha Hb]%andb_true_iff. cbn in *. by rewrite (dump_wf a Ha), (row_dump_wf b Hb).
Qed.

Lemma w_model_lawful {A B} (r : row B) (make : B -> A) parts :
  LawfulRow r -> (forall a, make (parts a) = a) -> (forall b, parts (make b) = b) -> Lawful (w_model r make parts).
Proof.
  intros Hr Hmake Hparts. split; cbn.
  - intros a Ha. rewrite (row_read_dump _ Ha). cbn. rewrite Hmake.
    assert (forallb (fun kv => existsb (fun f => String.eqb f.1 kv.1) (r_fields r)) (r_dump r (parts a)) = true)
      as ->; [|done].
    apply forallb_forall. intros kv Hin. apply (in_map fst) in Hin.
    change (In kv.1 (dict_keys (r_dump r (parts a)))) in Hin. rewrite row_keys in Hin.
    apply in_map_iff in Hin as (f & Hf & Hin). apply existsb_exists. exists f. split; [done|].
    by apply String.eqb_eq.
  - intros v. destruct v as [| | | | | |kvs]; try done. rewrite (row_typed kvs).
    destruct (forallb _ kvs); [|done]. by destruct (r_read r kvs).
  - intros v a Hv. destruct v as [| | | | | |kvs]; try done. destruct (forallb _ kvs); [|done].
    destruct (r_read r kvs) as [b|] eqn:Hb; [|done]. intros [= <-]. rewrite Hparts.
    eapply row_read_ok; [|exact Hb]. cbn in Hv. by apply andb_true_iff in Hv as [_ Hv].
  - intros a Ha. rewrite (row_dump_wf _ Ha), andb_true_r. apply bool_decide_eq_true.
    rewrite row_keys. apply row_nodup.
Qed.

(* ------------------------------------------------------------------ *)
(** ** The models *)

#[local] Notation "'field' n 'of' w ; r" := (r_cons n None w r) (at level 200, w at level 0, right associativity).
#[local] Notation "'field' n 'of' w 'default' d ; r" :=
  (r_cons n (Some d) w r) (at level 200, w at level 0, d at level 0, right associativity).
#[local] Notation text := (w_str 0 None).
#[local] Notation optional w := (w_option w).

Definition w_Principal : wire Principal :=
  w_model
    (field "subject" of (w_str 1 (Some 256));
     field "tenant_id" of (w_str 1 (Some 256));
     field "roles" of (w_list 1 (w_enum Role_value Roles));
     field "issuer" of (optional text) default None;
     field "agent_id" of (optional text) default None;
     r_nil)
    (fun '(a, (b, (c, (d, (e, _))))) =>
       {| pr_subject := a; pr_tenant_id := b; pr_roles := c; pr_issuer := d; pr_agent_id := e |})
    (fun p => (pr_subject p, (pr_tenant_id p, (pr_roles p, (pr_issuer p, (pr_agent_id p, tt)))))).

Definition w_StateTransition : wire StateTransition :=
  w_model
    (field "state" of (w_enum ToolCallState_value ToolCallStates);
     field "timestamp" of w_datetime;
     field "error" of (optional text) default None;
     r_nil)
    (fun '(a, (b, (c, _))) => {| st_state := a; st_timestamp := b; st_error := c |})
    (fun t => (st_state t, (st_timestamp t, (st_error t, tt)))).

Definition w_AttemptRecord : wire AttemptRecord :=
  w_model
    (field "attempt" of w_int;
     field "started_at" of w_datetime;
     field "finished_at" of (optional w_datetime) default None;
     field "outcome" of (optional text) default None;
     field "error" of (optional text) default None;
     r_nil)
    (fun '(a, (b, (c, (d, (e, _))))) =>
       {| at_attempt := a; at_started_at := b; at_finished_at := c; at_outcome := d; at_error := e |})
    (fun t => (at_attempt t, (at_started_at t, (at_finished_at t, (at_outcome t, (at_error t, tt)))))).

Definition w_ToolCallRecord : wire ToolCallRecord :=
  w_model
    (field "call_id" of text;
     field "trace_id" of text;
     field "session_id" of text;
     field "tool_name" of text;
     field "risk_class" of (optional (w_enum RiskClass_value RiskClasses));
     field "arguments" of w_dict;
     field "current_state" of (w_enum ToolCallState_value ToolCallStates);
     field "transitions" of (w_list 0 w_StateTransition);
     field "attempts" of (w_list 0 w_AttemptRecord);
     field "created_at" of w_datetime;
     field "updated_at" of w_datetime;
     field "principal" of (optional w_Principal) default None;
     r_nil)
    (fun '(a, (b, (c, (d, (e, (f, (g, (h, (i, (j, (k, (l, _)))))))))))) =>
       {| tc_call_id := a; tc_trace_id := b; tc_session_id := c; tc_tool_name := d; tc_risk_class := e;
          tc_arguments := f; tc_current_state := g; tc_transitions := h; tc_attempts := i;
          tc_created_at := j; tc_updated_at := k; tc_principal := l |})
    (fun r => (tc_call_id r, (tc_trace_id r, (tc_session_id r, (tc_tool_name r, (tc_risk_class r,
       (tc_arguments r, (tc_current_state r, (tc_transitions r, (tc_attempts r, (tc_created_at r,
       (tc_updated_at r, (tc_principal r, tt))))))))))))).

Definition w_ApprovalRequest : wire ApprovalRequest :=
  w_model
    (field "approval_id" of text;
     field "call_id" of text;
     field "tool_name" of text;
     field "arguments" of w_dict;
     field "policy_input" of w_dict;
     field "matched_rule" of text;
     field "created_at" of w_datetime;
     field "decision" of (optional text) default None;
     field "approver" of (optional text) default None;
     field "reason" of (optional text) default None;
     r_nil)
    (fun '(a, (b, (c, (d, (e, (f, (g, (h, (i, (j, _)))))))))) =>
       {| ap_approval_id := a; ap_call_id := b; ap_tool_name := c; ap_arguments := d; ap_policy_input := e;
          ap_matched_rule := f; ap_created_at := g; ap_decision := h; ap_approver := i; ap_reason := j |})
    (fun r => (ap_approval_id r, (ap_call_id r, (ap_tool_name r, (ap_arguments r, (ap_policy_input r,
       (ap_matched_rule r, (ap_created_at r, (ap_decision r, (ap_approver r, (ap_reason r, tt))))))))))).

Definition w_RepairAttemptRecord : wire RepairAttemptRecord :=
  w_model
    (field "category" of (w_enum RepairFailure_value RepairFailures);
     field "original_arguments" of w_dict;
     field "proposed_arguments" of w_dict;
     field "validation_passed" of w_bool;
     field "policy_outcome" of (optional text) default None;
     field "outcome" of text;
     r_nil)
    (fun '(a, (b, (c, (d, (e, (f, _)))))) =>
       {| ra_category := a; ra_original_arguments := b; ra_proposed_arguments := c;
          ra_validation_passed := d; ra_policy_outcome := e; ra_outcome := f |})
    (fun r => (ra_category r, (ra_original_arguments r, (ra_proposed_arguments r,
       (ra_validation_passed r, (ra_policy_outcome r, (ra_outcome r, tt))))))).

Definition w_PolicyDecision : wire PolicyDecision :=
  w_model
    (field "outcome" of text; field "matched_rule" of text; field "reason" of text; r_nil)
    (fun '(a, (b, (c, _))) => {| pd_outcome := a; pd_matched_rule := b; pd_reason := c |})
    (fun d => (pd_outcome d, (pd_matched_rule d, (pd_reason d, tt)))).

(** The JSON of a model, and a model from its JSON. *)
Definition model_dump_json {A} (w : wire A) (a : A) : string := dumps (w_dump w a).
Definition validation_error : exc := EPy PydanticValidationError "validation error".
Definition model_validate_json {A} (w : wire A) (s : string) : result exc A :=
  match loads float_norm s with
  | Some v => match w_read w v with Some a => Ok a | None => Err validation_error end
  | None => Err validation_error
  end.

Section models.
(** pydantic reads the timestamps it writes. *)
Hypothesis parse_iso : forall t, parse_datetime (iso_datetime t) = Some t.

Instance w_datetime_lawful : Lawful w_datetime.
Proof. split; cbn; try done. by intros []. Qed.

Ltac solve_row :=
  repeat (apply r_cons_lawful; [by vm_compute|done| |]); try apply r_nil_lawful;
  repeat match goal with
         | |- Lawful (w_enum _ _) => apply w_enum_lawful; by intros []
         | |- Lawful (w_option _) => apply w_option_lawful
         | |- Lawful (w_list _ _) => apply w_list_lawful
         | |- _ => apply _
         end.
Ltac solve_model := apply w_model_lawful; [solve_row|by intros []|
  intros b; by repeat match goal with b : prod _ _ |- _ => destruct b | b : unit |- _ => destruct b end].

Instance w_Principal_lawful : Lawful w_Principal.
Proof. solve_model. Qed.
Instance w_StateTransition_lawful : Lawful w_StateTransition.
Proof. solve_model. Qed.
Instance w_AttemptRecord_lawful : Lawful w_AttemptRecord.
Proof. solve_model. Qed.
Instance w_ToolCallRecord_lawful : Lawful w_ToolCallRecord.
Proof. solve_model. Qed.
Instance w_ApprovalRequest_lawful : Lawful w_ApprovalRequest.
Proof. solve_model. Qed.
Instance w_RepairAttemptRecord_lawful : Lawful w_RepairAttemptRecord.
Proof. solve_model. Qed.
Instance w_PolicyDecision_lawful : Lawful w_PolicyDecision.
Proof. solve_model. Qed.

(** A valid model is typed and survives its text; what is read is typed. *)
Definition codec_ok {A} (w : wire A) : Prop :=
  (forall a, w_ok w a = true ->
     has_type (w_type w) (w_dump w a) = true /\ model_validate_json w (model_dump_json w a) = Ok a) /\
  (forall s a, model_validate_json w s = Ok a ->
     exists v, loads float_norm s = Some v /\ has_type (w_type w) v = true).

Lemma lawful_codec {A} (w : wire A) : Lawful w -> codec_ok w.
Proof.
  intros Hw. split.
  - intros a Ha. split; [by apply dump_typed|]. unfold model_validate_json, model_dump_json, dumps.
    by rewrite loads_print, read_dump by (done || by apply dump_wf).
  - intros s a. unfold model_validate_json. destruct (loads float_norm s) as [v|]; [|done].
    destruct (w_read w v) as [a'|] eqn:Hr; [|done]. intros _. exists v. split; [done|].
    rewrite typed_read. by eapply some_iff.
Qed.
End models.

(** The dumps of the other files are those of the declarations. *)
Lemma dumps_agree p a r :
  w_dump w_Principal p = JObj (dump_Principal p) /\ w_dump w_AttemptRecord a = dump_AttemptRecord a /\
  w_dump w_RepairAttemptRecord r = dump_RepairAttemptRecord r.
Proof. done. Qed.

(** The constraints on a principal are those of [Models]. *)
Lemma w_Principal_valid p : w_ok w_Principal p = Principal_valid p.
Proof.
  destruct p as [s t roles issuer agent]. unfold Principal_valid. cbn. unfold str_in.
  assert (forallb (fun _ : Role => true) roles = true) as -> by (by induction roles).
  rewrite andb_true_r. destruct issuer, agent; cbn; by rewrite ?andb_true_r, ?andb_assoc.
Qed.

(* ------------------------------------------------------------------ *)
(** ** Typed stores *)

(** What is constrained in a record: its arguments and its principal. *)
Lemma record_valid r :
  w_ok w_ToolCallRecord r =
  json_wf float_norm (JObj (tc_arguments r)) &&
  match tc_principal r with Some p => w_ok w_Principal p | None => true end.
Proof.
  assert (Htrue : forall A (f : A -> bool) l, (forall a, f a = true) -> forallb f l = true).
  { intros A f l Hf. induction l; cbn; [done|]. by rewrite Hf. }
  destruct r as [? ? ? ? risk args state transitions attempts ? ? p].
  cbn -[json_wf w_Principal]. rewrite !Htrue.
  - destruct risk; cbn -[json_wf w_Principal]; by rewrite ?andb_true_r.
  - intros [? ? f o e]. by destruct f, o, e.
  - intros [? ? e]. by destruct e.
Qed.

Definition op_valid (o : store_op) : Prop :=
  match o with SCreate record => w_ok w_ToolCallRecord record = true | _ => True end.
Definition store_valid (s : InMemoryStateStore) : Prop :=
  forall id record, ms_calls s !! id = Some record -> w_ok w_ToolCallRecord record = true.

Lemma mem_update_valid id upd s :
  store_valid s ->
  (forall r r', upd r = Ok r' -> tc_arguments r' = tc_arguments r /\ tc_principal r' = tc_principal r) ->
  store_valid (mem_update id upd s).2.
Proof.
  intros Hs Hupd. unfold mem_update. destruct (ms_calls s !! id) as [r|] eqn:Hr; [|done].
  destruct (upd r) as [r'|] eqn:Hu; [|done]. intros id' r''. cbn [snd ms_calls]. rewrite lookup_insert.
  case_decide as Hid; [intros [= <-]|apply Hs]. destruct (Hupd _ _ Hu) as [Ha Hp].
  rewrite record_valid, Ha, Hp, <- record_valid. by eapply Hs.
Qed.

Lemma mem_perform_valid now1 now2 o s :
  store_valid s -> op_valid o -> store_valid (mem_perform now1 now2 o s).2.
Proof.
  intros Hs Ho. destruct o as [r|id st e|id n out e|id n|id|sid]; cbn [mem_perform]; try done.
  - intros id r'. cbn [snd mem_create_call ms_calls]. rewrite lookup_insert. case_decide; [by intros [= <-]|apply Hs].
  - apply mem_update_valid; [done|]. by intros r r' [= <-].
  - apply mem_update_valid; [done|]. intros r r'. unfold update_finish.
    destruct (finish_first _ _ _ _ _); [|done]. by intros [= <-].
  - apply mem_update_valid; [done|]. by intros r r' [= <-].
Qed.

(** Operations in order, each at its readings of the clock. *)
Definition perform_all (ops : list (store_op * (Z * Z))) (s : InMemoryStateStore) : InMemoryStateStore :=
  fold_left (fun s o => (mem_perform o.2.1 o.2.2 o.1 s).2) ops s.

Lemma perform_all_valid ops s :
  store_valid s -> Forall (fun o => op_valid o.1) ops -> store_valid (perform_all ops s).
Proof.
  intros Hs Hops. revert s Hs. induction Hops as [|[o [n1 n2]] ops Ho _ IH]; intros s Hs; cbn; [done|].
  apply IH. by apply mem_perform_valid.
Qed.

(** What is constrained in a request: its arguments and its policy input. *)
Lemma request_valid r :
  w_ok w_ApprovalRequest r =
  json_wf float_norm (JObj (ap_arguments r)) && json_wf float_norm (JObj (ap_policy_input r)).
Proof.
  destruct r as [? ? ? ? ? ? ? d a e]. cbn -[json_wf].
  destruct d, a, e; cbn -[json_wf]; by rewrite ?andb_true_r.
Qed.

Definition submit_valid (o : queue_op) : Prop :=
  match o with QSubmit request => w_ok w_ApprovalRequest request = true | _ => True end.
Definition queue_valid (q : InMemoryApprovalQueue) : Prop :=
  forall id request, dict_get id q = Some request -> w_ok w_ApprovalRequest request = true.

Lemma queue_run_valid ops : Forall submit_valid ops -> queue_valid (queue_run ops).
Proof.
  induction ops as [|o ops IH] using rev_ind; [by intros _ id r|].
  intros [Hops Ho]%Forall_app. specialize (IH Hops). rewrite Forall_singleton in Ho.
  rewrite queue_run_snoc. destruct o as [r|id b x y|id n|]; cbn; try done.
  - intros id r'. unfold mem_submit. rewrite dict_get_set. case_decide; [intros [= <-]; exact Ho|apply IH].
  - unfold mem_decide. destruct (truthy (strip y)); cbn; [|done].
    destruct (dict_get id (queue_run ops)) as [r|] eqn:Hr; cbn; [|done].
    intros id' r'. rewrite dict_get_set. case_decide; [intros [= <-]|apply IH].
    rewrite request_valid. cbn -[json_wf]. rewrite <- request_valid. by eapply IH.
Qed.
End wire.

(* ------------------------------------------------------------------ *)
(** ** Property *)

(** C12: the models are well typed on the wire.  The JSON of a valid record or
    approval request has the declared type of its class and is read back as the
    same model; validation accepts no text of another type (no missing or
    undeclared field, no coercion).  And the stores hold nothing else: whatever
    operations are performed on valid new records and requests, every record and
    every request in the store stays valid, so it is typed and is read back as it
    was. *)
Theorem stored_models_typed `{Rendering} (parse_datetime : string -> option Z) (float_norm : string -> string)
    (ops : list (store_op * (Z * Z))) (queue_ops : list queue_op) :
  (forall t, parse_datetime (iso_datetime t) = Some t) ->
  Forall (fun o => op_valid parse_datetime float_norm o.1) ops ->
  Forall (submit_valid parse_datetime float_norm) queue_ops ->
  let w_call := w_ToolCallRecord parse_datetime float_norm in
  let w_request := w_ApprovalRequest parse_datetime float_norm in
  codec_ok parse_datetime float_norm w_call /\ codec_ok parse_datetime float_norm w_request /\
  (forall id record, ms_calls (perform_all ops empty_store) !! id = Some record ->
     has_type parse_datetime (w_type w_call) (w_dump w_call record) = true /\
     model_validate_json float_norm w_call (model_dump_json w_call record) = Ok record) /\
  (forall id request, dict_get id (queue_run queue_ops) = Some request ->
     has_type parse_datetime (w_type w_request) (w_dump w_request request) = true /\
     model_validate_json float_norm w_request (model_dump_json w_request request) = Ok request).
Proof.
  intros Hparse Hops Hqueue w_call w_request.
  pose proof (lawful_codec _ _ w_call (w_ToolCallRecord_lawful parse_datetime float_norm Hparse)) as Hcall.
  pose proof (lawful_codec _ _ w_request (w_ApprovalRequest_lawful parse_datetime float_norm Hparse)) as Hreq.
  split; [exact Hcall|]. split; [exact Hreq|]. split.
  - intros id record Hr. apply Hcall.
    exact (perform_all_valid parse_datetime float_norm ops empty_store (fun _ _ H => ltac:(discriminate H)) Hops id record Hr).
  - intros id request Hr. apply Hreq. exact (queue_run_valid parse_datetime float_norm queue_ops Hqueue id request Hr).
Qed.

(* ------------------------------------------------------------------ *)
(** ** Witness *)

Module example.
Definition rendering : Rendering := {| iso_datetime := print_int; float_text _ := "1.5" |}.
#[export] Existing Instance rendering.
Definition ops : list (store_op * (Z * Z)) :=
  [(SCreate StateStore.witness.record, (1, 1)%Z); (STransition "c1" VALIDATED None, (2, 2)%Z);
   (SFinish "c1" 1 "succeeded" None, (3, 4)%Z)].
Definition queue_ops : list queue_op :=
  [QSubmit Hitl.witness.request; QDecide "a1" true "bob" "checked"].
End example.
#[local] Existing Instance example.rendering.

Lemma stored_models_typed_witness :
  match ms_calls (perform_all example.ops empty_store) !! "c1" with
  | Some record =>
      tc_current_state record = VALIDATED /\
      model_validate_json id (w_ToolCallRecord parse_int id)
        (model_dump_json (w_ToolCallRecord parse_int id) record) = Ok record
  | None => False
  end.
Proof.
  destruct (stored_models_typed parse_int id example.ops example.queue_ops) as (_ & _ & Hstore & _).
  - intros t. apply parse_print_int.
  - repeat constructor.
  - repeat constructor.
  - split; [reflexivity|]. apply (Hstore "c1"). reflexivity.
Defined.
