(* ===== verification/Circuit.v ===== *)
(** * The circuit breaker of the worker pool

    [gateway/workers/circuit.py].  An instant is a [Z] in microseconds, the
    resolution of [datetime]; [reset_timeout] is the [timedelta] of the cool-down.
    The reading of the clock is an argument. *)

From S2P Require Import Prelude Models Errors.
Open Scope Z_scope.

Record CircuitBreaker := {
  failure_threshold : Z;
  reset_timeout : Z;
  cb_failures : Z;
  opened_at : option Z
}.

Definition new_breaker (failure_threshold reset_timeout : Z) : CircuitBreaker :=
  {| failure_threshold := Z.max 1 failure_threshold; reset_timeout := reset_timeout;
     cb_failures := 0; opened_at := None |}.

Definition set_breaker (failures : Z) (opened : option Z) (b : CircuitBreaker) : CircuitBreaker :=
  {| failure_threshold := failure_threshold b; reset_timeout := reset_timeout b;
     cb_failures := failures; opened_at := opened |}.

(** [is_open] *)
Definition is_open (now : Z) (b : CircuitBreaker) : bool :=
  match opened_at b with
  | None => false
  | Some opened => now - opened <? reset_timeout b
  end.

(** [allow] *)
Definition breaker_allow (now : Z) (b : CircuitBreaker) : result exc CircuitBreaker :=
  if is_open now b then Err (EPy CircuitOpenError "Execution worker circuit is open")
  else match opened_at b with
       | Some _ => Ok (set_breaker 0 None b)
       | None => Ok b
       end.

(** [record_success] *)
Definition record_success (b : CircuitBreaker) : CircuitBreaker := set_breaker 0 None b.

(** [record_failure] *)
Definition record_failure (now : Z) (b : CircuitBreaker) : CircuitBreaker :=
  let failures := cb_failures b + 1 in
  set_breaker failures
    (if failure_threshold b <=? failures then Some now else opened_at b) b.

(* ------------------------------------------------------------------ *)
(** ** What the breaker does *)

(** A use of the breaker, with the reading of the clock. *)
Inductive breaker_event := Allow (now : Z) | Success | Failure (now : Z).

Definition breaker_step (b : CircuitBreaker) (ev : breaker_event) : CircuitBreaker :=
  match ev with
  | Allow now => match breaker_allow now b with Ok b' => b' | Err _ => b end
  | Success => record_success b
  | Failure now => record_failure now b
  end.

(** The abstract breaker: the instants of the failures since it last closed,
    latest first.  It blocks when there are enough of them and the latest is
    recent; a permitted submission after the cool-down closes it. *)
Definition blocks (threshold reset now : Z) (failed : list Z) : bool :=
  (threshold <=? Z.of_nat (length failed)) &&
  match failed with [] => false | latest :: _ => now - latest <? reset end.

Definition failures_step (threshold reset : Z) (failed : list Z) (ev : breaker_event) : list Z :=
  match ev with
  | Allow now =>
      if (threshold <=? Z.of_nat (length failed)) && negb (blocks threshold reset now failed)
      then [] else failed
  | Success => []
  | Failure now => now :: failed
  end.

Definition implements (threshold reset : Z) (b : CircuitBreaker) (failed : list Z) : Prop :=
  failure_threshold b = threshold /\ reset_timeout b = reset /\
  cb_failures b = Z.of_nat (length failed) /\
  opened_at b = if threshold <=? Z.of_nat (length failed) then head failed else None.

Section refinement.
Context (threshold reset : Z) (Hthreshold : 1 <= threshold).

Lemma implements_is_open now b failed :
  implements threshold reset b failed -> is_open now b = blocks threshold reset now failed.
Proof using.
  intros (_ & Hr & _ & Ho). unfold is_open, blocks. rewrite Ho, Hr.
  destruct (threshold <=? _); cbn; [|done]. by destruct failed.
Qed.

Lemma implements_closed b : 
  failure_threshold b = threshold -> reset_timeout b = reset ->
  implements threshold reset (set_breaker 0 None b) [].
Proof using Hthreshold.
  intros Ht Hr. unfold implements. cbn. split_and!; [done..|].
  by destruct (threshold <=? _).
Qed.

Lemma implements_step b failed ev :
  implements threshold reset b failed ->
  implements threshold reset (breaker_step b ev) (failures_step threshold reset failed ev).
Proof using Hthreshold.
  intros Hi. pose proof Hi as (Ht & Hr & Hf & Ho).
  destruct ev as [now| |now]; cbn -[Z.of_nat].
  - unfold breaker_allow. rewrite (implements_is_open now b failed Hi).
    destruct (blocks _ _ now failed); cbn -[Z.of_nat]; [by rewrite andb_false_r|].
    rewrite Ho, andb_true_r. destruct (threshold <=? Z.of_nat (length failed)) eqn:Hle; [|done].
    destruct failed as [|t failed]; [apply Z.leb_le in Hle; cbn in Hle; lia|]. by apply implements_closed.
  - by apply implements_closed.
  - unfold implements. cbn -[Z.of_nat]. rewrite Hf, Ht, Nat2Z.inj_succ, <- Z.add_1_r.
    split_and!; try done.
    destruct (Z.leb_spec threshold (Z.of_nat (length failed) + 1)); [done|].
    rewrite Ho. destruct (Z.leb_spec threshold (Z.of_nat (length failed))); [lia|done].
Qed.
End refinement.

(* ------------------------------------------------------------------ *)
(** ** Properties *)

(** For every sequence of submissions and outcomes, the breaker refuses a
    submission exactly when, since it last closed (a success, or a submission
    permitted after the cool-down), at least [max(1, failure_threshold)] failures
    were recorded and the latest is less than the cool-down ago. *)
Theorem breaker_refines (failure_threshold reset_timeout now : Z) (history : list breaker_event) :
  let threshold := Z.max 1 failure_threshold in
  let b := fold_left breaker_step history (new_breaker failure_threshold reset_timeout) in
  let failed := fold_left (failures_step threshold reset_timeout) history [] in
  cb_failures b = Z.of_nat (length failed) /\
  is_ok (breaker_allow now b) = negb (blocks threshold reset_timeout now failed).
Proof.
  intros threshold b failed.
  assert (Hi : implements threshold reset_timeout b failed).
  { unfold b, failed.
    assert (H0 : implements threshold reset_timeout (new_breaker failure_threshold reset_timeout) []).
    { by apply (implements_closed threshold reset_timeout ltac:(lia)
                  (new_breaker failure_threshold reset_timeout)). }
    revert H0. generalize (new_breaker failure_threshold reset_timeout) (@nil Z).
    induction history as [|ev history IH]; intros b0 failed0 H0; cbn; [done|].
    apply IH, implements_step; [lia|done]. }
  split; [apply Hi|]. unfold breaker_allow. rewrite (implements_is_open _ _ _ _ _ Hi).
  destruct (blocks _ _ now failed); [done|]. by destruct (opened_at b).
Qed.
