(* ===== verification/Worker.v ===== *)
(** * The execution worker service

    [gateway/workers/models.py] and [gateway/workers/service.py]: authenticated
    jobs, the bounded queue with its worker tasks, deduplication by idempotency
    key, shutdown and reconciliation.

    A coroutine runs without interruption between two suspensions, and no lock is
    held across one, so the service is a deterministic function of the order of
    these pieces: [service_event] names one piece (a submission up to its wait,
    the end of a wait, a worker taking a job, a handler ending, ...) and
    [service_step] runs it, or is [None] when the piece cannot run now.  Futures
    live in a heap.  HMAC-SHA256 and the handlers' results come from outside;
    every reading of the clock is part of its event. *)

From S2P Require Import Prelude Dict Pystr Json Models Errors Registry Circuit.
Open Scope Z_scope.

Record WorkerJob := {
  wj_job_id : string;
  wj_call_id : string;
  wj_tenant_id : string;
  wj_tool_name : string;
  wj_risk_class : RiskClass;
  wj_arguments : jdict;
  wj_idempotency_key : string;
  wj_submitted_at : Z;
  wj_auth_token : string
}.

Record WorkerResult := {
  wr_job_id : string;
  wr_outcome : string;
  wr_output : option jdict;
  wr_error_code : option string;
  wr_error_message : option string;
  wr_completed_at : Z
}.

Record ReconciliationRecord := {
  rr_job_id : string;
  rr_call_id : string;
  rr_idempotency_key : string;
  rr_risk_class : RiskClass;
  rr_status : string;
  rr_detail : string;
  rr_updated_at : Z
}.

Global Instance WorkerJob_eq_dec : EqDecision WorkerJob.
Proof. solve_decision. Defined.
Global Instance WorkerResult_eq_dec : EqDecision WorkerResult.
Proof. solve_decision. Defined.

(* ------------------------------------------------------------------ *)
(** ** Signatures *)

Section signatures.
Context `{Rendering}.

(** [job.model_dump(mode="json", exclude={"auth_token"})] *)
Definition job_payload (job : WorkerJob) : jdict :=
  [("job_id", JStr (wj_job_id job));
   ("call_id", JStr (wj_call_id job));
   ("tenant_id", JStr (wj_tenant_id job));
   ("tool_name", JStr (wj_tool_name job));
   ("risk_class", JStr (value (wj_risk_class job)));
   ("arguments", JObj (wj_arguments job));
   ("idempotency_key", JStr (wj_idempotency_key job));
   ("submitted_at", dump_datetime (wj_submitted_at job))].

(** [_canonical_job_payload] *)
Definition canonical_job_payload (job : WorkerJob) : string := dumps_compact (JObj (job_payload job)).

(** [hmac.new(key, message, sha256).hexdigest()] *)
Variable hmac_sha256 : string -> string -> string.

(** [_sign_job] *)
Definition sign_job (job : WorkerJob) (secret : string) : string :=
  hmac_sha256 secret (canonical_job_payload job).

Definition with_token (token : string) (job : WorkerJob) : WorkerJob :=
  {| wj_job_id := wj_job_id job; wj_call_id := wj_call_id job; wj_tenant_id := wj_tenant_id job;
     wj_tool_name := wj_tool_name job; wj_risk_class := wj_risk_class job;
     wj_arguments := wj_arguments job; wj_idempotency_key := wj_idempotency_key job;
     wj_submitted_at := wj_submitted_at job; wj_auth_token := token |}.

(** [hmac.compare_digest] of two texts: only ASCII text may be compared. *)
Definition is_ascii (s : string) : bool := forall_chars (fun c => (code c <? 128)%nat) s.
Definition compare_digest (a b : string) : result exc bool :=
  if is_ascii a && is_ascii b then Ok (String.eqb a b)
  else Err (EPy TypeError "comparing strings with non-ASCII characters is not supported").

(** [WorkerService.authenticate] *)
Definition authenticate (secret : string) (job : WorkerJob) : result exc unit :=
  let expected := sign_job (with_token "" job) secret in
  match compare_digest expected (wj_auth_token job) with
  | Ok true => Ok tt
  | Ok false => Err (EGateway (tool_execution_error "Worker authentication failed"))
  | Err e => Err e
  end.
End signatures.

(** [_idempotency_key] *)
Definition stable_key (sha256 : string -> string) (tool_name : string) (arguments : jdict) : string :=
  tool_name +:+ ":" +:+ sha256 (dumps_compact (JObj arguments)).

(* ------------------------------------------------------------------ *)
(** ** The state of the service *)

(** An [asyncio.Future]. *)
Inductive future :=
| Pending
| Resolved (r : WorkerResult)
| Raised (e : exc)
| Cancelled.

(** A task of the pool: waiting for a job, running a handler, or over. *)
Inductive worker :=
| Idle
| Running (job : WorkerJob) (fut : nat) (request : BaseModel)
| Ended.

Record WorkerService := {
  tasks : list worker;
  stopping : bool;
  queue : list (WorkerJob * nat);
  inflight : dict string (WorkerJob * nat);
  idempotent_results : dict string WorkerResult;
  reconciliation : dict string ReconciliationRecord;
  breaker : CircuitBreaker;
  futures : list future
}.

Definition set_tasks (x : list worker) (s : WorkerService) : WorkerService :=
  {| tasks := x; stopping := stopping s; queue := queue s; inflight := inflight s;
     idempotent_results := idempotent_results s; reconciliation := reconciliation s;
     breaker := breaker s; futures := futures s |}.
Definition set_stopping (x : bool) (s : WorkerService) : WorkerService :=
  {| tasks := tasks s; stopping := x; queue := queue s; inflight := inflight s;
     idempotent_results := idempotent_results s; reconciliation := reconciliation s;
     breaker := breaker s; futures := futures s |}.
Definition set_queue (x : list (WorkerJob * nat)) (s : WorkerService) : WorkerService :=
  {| tasks := tasks s; stopping := stopping s; queue := x; inflight := inflight s;
     idempotent_results := idempotent_results s; reconciliation := reconciliation s;
     breaker := breaker s; futures := futures s |}.
Definition set_inflight (x : dict string (WorkerJob * nat)) (s : WorkerService) : WorkerService :=
  {| tasks := tasks s; stopping := stopping s; queue := queue s; inflight := x;
     idempotent_results := idempotent_results s; reconciliation := reconciliation s;
     breaker := breaker s; futures := futures s |}.
Definition set_results (x : dict string WorkerResult) (s : WorkerService) : WorkerService :=
  {| tasks := tasks s; stopping := stopping s; queue := queue s; inflight := inflight s;
     idempotent_results := x; reconciliation := reconciliation s;
     breaker := breaker s; futures := futures s |}.
Definition set_reconciliation (x : dict string ReconciliationRecord) (s : WorkerService) : WorkerService :=
  {| tasks := tasks s; stopping := stopping s; queue := queue s; inflight := inflight s;
     idempotent_results := idempotent_results s; reconciliation := x;
     breaker := breaker s; futures := futures s |}.
Definition set_circuit (x : CircuitBreaker) (s : WorkerService) : WorkerService :=
  {| tasks := tasks s; stopping := stopping s; queue := queue s; inflight := inflight s;
     idempotent_results := idempotent_results s; reconciliation := reconciliation s;
     breaker := x; futures := futures s |}.
Definition set_futures (x : list future) (s : WorkerService) : WorkerService :=
  {| tasks := tasks s; stopping := stopping s; queue := queue s; inflight := inflight s;
     idempotent_results := idempotent_results s; reconciliation := reconciliation s;
     breaker := breaker s; futures := x |}.

(** [future.done()], and setting the outcome of a future that is not done. *)
Definition is_pending (f : option future) : bool := match f with Some Pending => true | _ => false end.
Definition resolve (fut : nat) (outcome : future) (s : WorkerService) : WorkerService :=
  if is_pending (futures s !! fut) then set_futures (<[fut := outcome]> (futures s)) s else s.

Definition pop_inflight (key : string) (s : WorkerService) : WorkerService :=
  set_inflight (dict_del key (inflight s)) s.
Definition set_task (w : nat) (t : worker) (s : WorkerService) : WorkerService :=
  set_tasks (<[w := t]> (tasks s)) s.

Definition read_only (job : WorkerJob) : bool := bool_decide (wj_risk_class job = READ_ONLY).

(** [_mark_uncertain] *)
Definition mark_uncertain (job : WorkerJob) (detail : string) (now : Z) (s : WorkerService) : WorkerService :=
  set_reconciliation
    (dict_set (wj_job_id job)
       {| rr_job_id := wj_job_id job; rr_call_id := wj_call_id job;
          rr_idempotency_key := wj_idempotency_key job; rr_risk_class := wj_risk_class job;
          rr_status := "needs_review"; rr_detail := detail; rr_updated_at := now |}
       (reconciliation s)) s.

(** [reconcile] *)
Definition reconcile (job_id : string) (confirmed_outcome : option string) (now : Z) (s : WorkerService) :
    result exc (ReconciliationRecord * WorkerService) :=
  match dict_get job_id (reconciliation s) with
  | None => Err (EGateway (tool_execution_error "No reconciliation record exists for this job"))
  | Some record =>
      match confirmed_outcome with
      | None => Ok (record, s)
      | Some outcome =>
          let record := {| rr_job_id := rr_job_id record; rr_call_id := rr_call_id record;
                           rr_idempotency_key := rr_idempotency_key record;
                           rr_risk_class := rr_risk_class record; rr_status := outcome;
                           rr_detail := "Outcome confirmed by an operator or tool-specific reconciler";
                           rr_updated_at := now |} in
          Ok (record, set_reconciliation (dict_set job_id record (reconciliation s)) s)
      end
  end.

(* ------------------------------------------------------------------ *)
(** ** Submissions and workers *)

(** How far a [submit] has come. *)
Inductive submission :=
| WaitShared (fut : nat)
| WaitOwn (fut : nat)
| TimedOut
| Returned (r : result exc WorkerResult).

Section service.
Context {H : Type} `{Rendering} (hmac_sha256 : string -> string -> string).
Context (registry : ToolRegistry H) (shared_secret : string).
Context (max_concurrency queue_size failure_threshold reset_timeout : Z).

(** [WorkerService.__init__] *)
Definition new_service : WorkerService :=
  {| tasks := []; stopping := false; queue := []; inflight := []; idempotent_results := [];
     reconciliation := []; breaker := new_breaker failure_threshold reset_timeout; futures := [] |}.

(** [asyncio.Queue.full] *)
Definition queue_full (s : WorkerService) : bool :=
  (0 <? queue_size) && (queue_size <=? Z.of_nat (length (queue s))).

(** [healthcheck] *)
Definition service_healthcheck (now : Z) (s : WorkerService) : bool :=
  match tasks s with [] => false | _ => negb (is_open now (breaker s)) end.

(** [start] *)
Definition start (s : WorkerService) : WorkerService :=
  match tasks s with
  | [] => set_tasks (replicate (Z.to_nat (Z.max 1 max_concurrency)) Idle) s
  | _ => s
  end.

Definition tool_failed (message : string) : exc := EGateway (tool_execution_error message).
Definition needs_review (message : string) : exc := EGateway (needs_review_error message).

(** [submit], up to its wait.  A future that could not be enqueued is dropped. *)
Definition submit (job : WorkerJob) (now now' : Z) (s : WorkerService) : WorkerService * submission :=
  match tasks s with
  | [] => (s, Returned (Err (tool_failed "Execution worker service is not running")))
  | _ =>
    match breaker_allow now (breaker s) with
    | Err e => (s, Returned (Err (tool_failed (str_exc e))))
    | Ok b =>
      let s := set_circuit b s in
      match authenticate hmac_sha256 shared_secret job with
      | Err e => (s, Returned (Err e))
      | Ok _ =>
        match dict_get (wj_idempotency_key job) (idempotent_results s) with
        | Some completed => (s, Returned (Ok completed))
        | None =>
          match dict_get (wj_idempotency_key job) (inflight s) with
          | Some existing => (s, WaitShared existing.2)
          | None =>
            let fut := length (futures s) in
            let s := set_futures (futures s ++ [Pending]) s in
            let s := set_inflight (dict_set (wj_idempotency_key job) (job, fut) (inflight s)) s in
            if queue_full s then
              (set_circuit (record_failure now' (breaker s)) (pop_inflight (wj_idempotency_key job) s),
               Returned (Err (tool_failed "Execution worker queue is full")))
            else (set_queue (queue s ++ [(job, fut)]) s, WaitOwn fut)
          end
        end
      end
    end
  end.

(** [submit], after its wait returned a result. *)
Definition submit_result (r : WorkerResult) (now : Z) (s : WorkerService) :
    WorkerService * result exc WorkerResult :=
  if negb (String.eqb (wr_outcome r) "succeeded") then
    (set_circuit (record_failure now (breaker s)) s,
     Err (if bool_decide (wr_error_code r = Some "needs_review")
          then needs_review (or_default (wr_error_message r) "Worker outcome requires review")
          else tool_failed (or_default (wr_error_message r) "Execution worker failed")))
  else (set_circuit (record_success (breaker s)) s, Ok r).

(** [submit], after its wait exceeded the timeout. *)
Definition submit_timeout (job : WorkerJob) (now now' : Z) (s : WorkerService) :
    WorkerService * result exc WorkerResult :=
  let s := if read_only job then s
           else mark_uncertain job "Worker job exceeded the gateway wait timeout" now s in
  (set_circuit (record_failure now' (breaker s)) s,
   Err (if read_only job then tool_failed "Execution worker timed out"
        else needs_review "Mutation outcome is uncertain; reconciliation required")).

Definition cancelled_error : exc := EPy CancelledError "".

(** The end of the wait of a submission: [None] while there is nothing to resume. *)
Definition resume (job : WorkerJob) (status : submission) (now now' : Z) (s : WorkerService) :
    option (WorkerService * submission) :=
  match status with
  | WaitShared fut =>
      match futures s !! fut with
      | Some (Resolved r) => Some (s, Returned (Ok r))
      | Some (Raised e) => Some (s, Returned (Err e))
      | Some Cancelled => Some (s, Returned (Err cancelled_error))
      | _ => None
      end
  | WaitOwn fut =>
      match futures s !! fut with
      | Some (Resolved r) => let '(s, r) := submit_result r now s in Some (s, Returned r)
      | Some (Raised e) => Some (s, Returned (Err e))
      | Some Cancelled => Some (s, Returned (Err cancelled_error))
      | _ => None
      end
  | TimedOut => let '(s, r) := submit_timeout job now now' s in Some (s, Returned r)
  | Returned _ => None
  end.

(** [wait_for] gives up: the future is cancelled with the wait. *)
Definition time_out (status : submission) (s : WorkerService) : option (WorkerService * submission) :=
  match status with
  | WaitOwn fut => Some (resolve fut Cancelled s, TimedOut)
  | _ => None
  end.

(** The waiting task is cancelled, and the future with it. *)
Definition cancel_wait (status : submission) (s : WorkerService) : option (WorkerService * submission) :=
  match status with
  | WaitOwn fut | WaitShared fut => Some (resolve fut Cancelled s, Returned (Err cancelled_error))
  | TimedOut => Some (s, Returned (Err cancelled_error))
  | Returned _ => None
  end.

(** The end of [_execute] and of the iteration of [_worker_loop], after an
    exception.  A cancellation is no [Exception]: it ends the task. *)
Definition worker_failed (w : nat) (job : WorkerJob) (fut : nat) (e : exc) (now now' : Z)
    (s : WorkerService) : WorkerService :=
  if is_exception e then
    let s := if read_only job then s else mark_uncertain job (str_exc e) now s in
    let s := resolve fut (Resolved
      {| wr_job_id := wj_job_id job; wr_outcome := "failed"; wr_output := None;
         wr_error_code := Some (match e with EGateway g => ge_code g | EPy _ _ => "worker_error" end);
         wr_error_message := Some (str_exc e); wr_completed_at := now' |}) s in
    set_task w Idle (pop_inflight (wj_idempotency_key job) s)
  else set_task w Ended (pop_inflight (wj_idempotency_key job) s).

Definition success_result (job : WorkerJob) (output : BaseModel) (now : Z) : WorkerResult :=
  {| wr_job_id := wj_job_id job; wr_outcome := "succeeded"; wr_output := Some (model_dump output);
     wr_error_code := None; wr_error_message := None; wr_completed_at := now |}.

(** The same, after the handler returned a validated output. *)
Definition worker_succeeded (w : nat) (job : WorkerJob) (fut : nat) (output : BaseModel) (now : Z)
    (s : WorkerService) : WorkerService :=
  let r := success_result job output now in
  let s := set_results (dict_set (wj_idempotency_key job) r (idempotent_results s)) s in
  set_task w Idle (pop_inflight (wj_idempotency_key job) (resolve fut (Resolved r) s)).

(** [_worker_loop] takes a job; [_execute] validates it and calls the handler. *)
Definition worker_take (w : nat) (now now' : Z) (s : WorkerService) : option WorkerService :=
  match tasks s !! w, queue s with
  | Some Idle, (job, fut) :: rest =>
      if stopping s then None else
      let s := set_queue rest s in
      match registry_validate registry (wj_tool_name job) (wj_arguments job) with
      | Ok request => Some (set_task w (Running job fut request) s)
      | Err e => Some (worker_failed w job fut e now now' s)
      end
  | _, _ => None
  end.

(** The handler of a running job ends. *)
Definition worker_output (job : WorkerJob) (out : result exc json) : result exc BaseModel :=
  result_bind (registry_get registry (wj_tool_name job)) (fun d =>
    result_bind out (validate_output d)).

Definition worker_finish (w : nat) (out : result exc json) (now now' : Z) (s : WorkerService) :
    option WorkerService :=
  match tasks s !! w with
  | Some (Running job fut _) =>
      if stopping s then None else
      Some (match worker_output job out with
            | Ok output => worker_succeeded w job fut output now s
            | Err e => worker_failed w job fut e now now' s
            end)
  | _ => None
  end.

(** [stop]: the unfinished jobs are settled, the queue drained, the tasks cancelled. *)
Definition stop_job (now : Z) (s : WorkerService) (entry : WorkerJob * nat) : WorkerService :=
  let '(job, fut) := entry in
  if is_pending (futures s !! fut) then
    if negb (read_only job) then
      resolve fut (Raised (needs_review "Worker stopped; mutation outcome requires review"))
        (mark_uncertain job "Worker service stopped before completion" now s)
    else resolve fut (Raised (tool_failed "Worker stopped before read-only job completion")) s
  else s.
Definition stop_begin (now : Z) (s : WorkerService) : option WorkerService :=
  if stopping s then None else
  let unfinished := dict_values (inflight s) ++ queue s in
  Some (set_stopping true (fold_left (stop_job now) unfinished (set_queue [] s))).

(** The cancellation reaches a task. *)
Definition task_cancelled (w : nat) (s : WorkerService) : option WorkerService :=
  if negb (stopping s) then None else
  match tasks s !! w with
  | Some Idle => Some (set_task w Ended s)
  | Some (Running job fut _) => Some (worker_failed w job fut cancelled_error 0 0 s)
  | _ => None
  end.

(** [gather] returns once all tasks are over. *)
Definition stop_end (s : WorkerService) : option WorkerService :=
  if stopping s && forallb (fun t => match t with Ended => true | _ => false end) (tasks s)
  then Some (set_stopping false (set_tasks [] s)) else None.

(* ------------------------------------------------------------------ *)
(** ** The service with its callers *)

Inductive service_event :=
| EStart
| ESubmit (job : WorkerJob) (now now' : Z)
| EResume (c : nat) (now now' : Z)
| ETimeout (c : nat)
| ECancel (c : nat)
| ETake (w : nat) (now now' : Z)
| EFinish (w : nat) (out : result exc json) (now now' : Z)
| EStop (now : Z)
| ETaskCancelled (w : nat)
| EStopped
| EReconcile (job_id : string) (confirmed_outcome : option string) (now : Z).

(** The service and the submissions made so far, by their number. *)
Record world := {
  service : WorkerService;
  clients : list (WorkerJob * submission)
}.
Definition initial_world : world := {| service := new_service; clients := [] |}.

Definition in_service (w : world) (s : option WorkerService) : option world :=
  s ← s; Some {| service := s; clients := clients w |}.

(** A piece of the submission [c]. *)
Definition client_piece (w : world) (c : nat)
    (piece : WorkerJob -> submission -> WorkerService -> option (WorkerService * submission)) : option world :=
  client ← clients w !! c;
  r ← piece client.1 client.2 (service w);
  Some {| service := r.1; clients := <[c := (client.1, r.2)]> (clients w) |}.

Definition service_step (w : world) (ev : service_event) : option world :=
  match ev with
  | EStart => in_service w (Some (start (service w)))
  | ESubmit job now now' =>
      let '(s, status) := submit job now now' (service w) in
      Some {| service := s; clients := clients w ++ [(job, status)] |}
  | EResume c now now' => client_piece w c (fun job status => resume job status now now')
  | ETimeout c => client_piece w c (fun _ => time_out)
  | ECancel c => client_piece w c (fun _ => cancel_wait)
  | ETake i now now' => in_service w (worker_take i now now' (service w))
  | EFinish i out now now' => in_service w (worker_finish i out now now' (service w))
  | EStop now => in_service w (stop_begin now (service w))
  | ETaskCancelled i => in_service w (task_cancelled i (service w))
  | EStopped => in_service w (stop_end (service w))
  | EReconcile job_id outcome now =>
      in_service w (Some (match reconcile job_id outcome now (service w) with
                          | Ok rs => rs.2
                          | Err _ => service w
                          end))
  end.

Fixpoint service_run (w : world) (events : list service_event) : option world :=
  match events with
  | [] => Some w
  | ev :: events => w ← service_step w ev; service_run w events
  end.
End service.

(* ------------------------------------------------------------------ *)
(** ** The in-process client *)

(** The signed job of [InProcessWorkerClient.execute] and of
    [RemoteWorkerClient._job]; the identifier and the clock are read from outside. *)
Definition make_job `{Rendering} (hmac_sha256 : string -> string -> string) (shared_secret : string)
    (tool_name : string) (arguments : jdict) (risk_class : RiskClass) (call_id tenant_id : string)
    (idempotency_key : option string) (job_id : string) (submitted_at : Z) : WorkerJob :=
  let job := {| wj_job_id := job_id; wj_call_id := call_id; wj_tenant_id := tenant_id;
                wj_tool_name := tool_name; wj_risk_class := risk_class; wj_arguments := arguments;
                wj_idempotency_key := or_default idempotency_key (call_id +:+ ":" +:+ tool_name);
                wj_submitted_at := submitted_at; wj_auth_token := "" |} in
  with_token (sign_job hmac_sha256 job shared_secret) job.

(** What the client makes of the outcome of [submit]. *)
Definition in_process_output (r : result exc WorkerResult) : result exc jdict :=
  result_bind r (fun r =>
    match wr_output r with
    | Some output => Ok output
    | None => Err (EGateway (tool_execution_error
                     (or_default (wr_error_message r) "Execution worker returned no output")))
    end).
