(* ===== verification/WorkerSpec.v ===== *)
(** * What the worker service promises

    Properties of every order of events of the service ([Worker.v]): one handler
    at a time and one success per idempotency key, results that come from a run
    of the same key, no mutation without an account of it, and the behaviours a
    caller must know about (duplicates of a failing or timed out job). *)

From S2P Require Import Prelude Dict Pystr Json Models Errors Registry Circuit Worker.
Open Scope Z_scope.

(** What happens to the handlers. *)
Inductive handler_event :=
| HandlerStarted (job : WorkerJob) (request : BaseModel)
| HandlerSucceeded (job : WorkerJob) (r : WorkerResult)
| HandlerFailed (job : WorkerJob).

(** A job and its future, in the queue or in a task. *)
Definition key (e : WorkerJob * nat) : string := wj_idempotency_key e.1.
Definition running_entry (t : worker) : option (WorkerJob * nat) :=
  match t with Running job fut _ => Some (job, fut) | _ => None end.
Definition running_entries (ts : list worker) : list (WorkerJob * nat) := omap running_entry ts.
Definition entries (s : WorkerService) : list (WorkerJob * nat) :=
  queue s ++ running_entries (tasks s).

Lemma running_entries_insert ts w old :
  ts !! w = Some old ->
  exists rest, running_entries ts ≡ₚ option_list (running_entry old) ++ rest /\
    forall t, running_entries (<[w := t]> ts) ≡ₚ option_list (running_entry t) ++ rest.
Proof.
  intros Hw. exists (running_entries (take w ts) ++ running_entries (drop (S w) ts)).
  assert (Happ : forall l l', running_entries (l ++ l') = running_entries l ++ running_entries l')
    by (intros; apply omap_app).
  assert (Hcons : forall t l l', running_entries (l ++ t :: l') ≡ₚ
            option_list (running_entry t) ++ running_entries l ++ running_entries l').
  { intros t l l'. rewrite Happ. unfold running_entries at 2. cbn.
    destruct (running_entry t); cbn; [|done]. by rewrite <- Permutation_middle. }
  split.
  - rewrite <- (take_drop_middle ts w old Hw) at 1. apply Hcons.
  - intros t. rewrite insert_take_drop by (by eapply lookup_lt_Some). apply Hcons.
Qed.

(* ------------------------------------------------------------------ *)
(** ** The state of the entries *)

Section flight.
Context {H : Type} `{Rendering} (hmac_sha256 : string -> string -> string) (secret : string).
Abbreviation authentic := (authenticate hmac_sha256 secret).

(** The entries have different keys, each is in [_inflight], none has succeeded. *)
Definition flight_ok (es : list (WorkerJob * nat)) (infl : dict string (WorkerJob * nat))
    (results : dict string WorkerResult) : Prop :=
  NoDup (map key es) /\
  Forall (fun e => dict_get (key e) infl = Some e /\ dict_get (key e) results = None /\
                   authentic e.1 = Ok tt) es.

#[global] Instance flight_ok_proper : Proper ((≡ₚ) ==> eq ==> eq ==> iff) flight_ok.
Proof.
  intros es es' Hes ? ? <- ? ? <-. unfold flight_ok. by rewrite Hes.
Qed.

Lemma flight_ok_app es es' infl results : flight_ok (es ++ es') infl results -> flight_ok es' infl results.
Proof.
  intros [Hnd Hall]. rewrite map_app in Hnd. apply NoDup_app in Hnd as (_ & _ & Hnd).
  apply Forall_app in Hall as [_ Hall]. done.
Qed.

Lemma flight_ok_remove e es infl results results' :
  dict_ok infl -> flight_ok (e :: es) infl results ->
  (forall k, k <> key e -> dict_get k results' = dict_get k results) ->
  flight_ok es (dict_del (key e) infl) results'.
Proof.
  intros Hok [Hnd Hall] Hres. cbn in Hnd. apply NoDup_cons in Hnd as [He Hnd].
  apply Forall_cons in Hall as [_ Hall]. split; [done|].
  apply Forall_forall. intros e' He'. rewrite Forall_forall in Hall.
  destruct (Hall e' He') as (Hi & Hr & Ha).
  assert (Hne : key e' <> key e).
  { intros Heq. apply He. rewrite <- Heq. by apply list_elem_of_fmap_2. }
  rewrite dict_get_del by done. case_decide; [done|]. by rewrite Hres.
Qed.

Lemma flight_ok_add e es infl results :
  flight_ok es infl results -> dict_get (key e) infl = None -> dict_get (key e) results = None ->
  authentic e.1 = Ok tt -> flight_ok (e :: es) (dict_set (key e) e infl) results.
Proof.
  intros [Hnd Hall] Hi Hr Ha. rewrite Forall_forall in Hall. split; cbn.
  - apply NoDup_cons. split; [|done]. intros (e' & Heq & He')%list_elem_of_fmap.
    destruct (Hall e' He') as (Hi' & _). congruence.
  - apply Forall_cons. split; [by rewrite dict_get_set_eq|].
    apply Forall_forall. intros e' He'. destruct (Hall e' He') as (Hi' & Hr' & Ha').
    rewrite dict_get_set_ne; [done|]. congruence.
Qed.
End flight.

(* ------------------------------------------------------------------ *)
(** ** Handlers observed along a run *)

(** The life of the handlers of one idempotency key. *)
Inductive phase := NotRunning | HandlerRunning | Succeeded (r : WorkerResult).

Definition event_job (o : handler_event) : WorkerJob :=
  match o with HandlerStarted job _ | HandlerSucceeded job _ | HandlerFailed job => job end.

Definition phase_step (k : string) (p : phase) (o : handler_event) : option phase :=
  if negb (String.eqb (wj_idempotency_key (event_job o)) k) then Some p else
  match o, p with
  | HandlerStarted _ _, NotRunning => Some HandlerRunning
  | HandlerSucceeded _ r, HandlerRunning => Some (Succeeded r)
  | HandlerFailed _, HandlerRunning => Some NotRunning
  | _, _ => None
  end.

Fixpoint phases (k : string) (p : phase) (os : list handler_event) : option phase :=
  match os with
  | [] => Some p
  | o :: os => p ← phase_step k p o; phases k p os
  end.

Lemma phases_app k p os os' : phases k p (os ++ os') = (p ← phases k p os; phases k p os').
Proof. revert p. induction os as [|o os IH]; intros p; cbn; [done|]. destruct (phase_step k p o); cbn; [apply IH|done]. Qed.

Section spec.
Context {H : Type} `{Rendering} (hmac_sha256 : string -> string -> string).
Context (registry : ToolRegistry H) (secret : string) (max_concurrency queue_size : Z).
Abbreviation step := (service_step hmac_sha256 registry secret max_concurrency queue_size).
Abbreviation steps := (service_run hmac_sha256 registry secret max_concurrency queue_size).

Definition observe (s : WorkerService) (ev : service_event) : list handler_event :=
  match ev with
  | ETake i _ _ =>
      match tasks s !! i, queue s with
      | Some Idle, (job, _) :: _ =>
          match registry_validate registry (wj_tool_name job) (wj_arguments job) with
          | Ok request => [HandlerStarted job request]
          | Err _ => []
          end
      | _, _ => []
      end
  | EFinish i out now _ =>
      match tasks s !! i with
      | Some (Running job _ _) =>
          match worker_output registry job out with
          | Ok output => [HandlerSucceeded job (success_result job output now)]
          | Err _ => [HandlerFailed job]
          end
      | _ => []
      end
  | ETaskCancelled i =>
      match tasks s !! i with Some (Running job _ _) => [HandlerFailed job] | _ => [] end
  | _ => []
  end.

Fixpoint observations (w : world) (events : list service_event) : list handler_event :=
  match events with
  | [] => []
  | ev :: events =>
      match step w ev with
      | Some w' => observe (service w) ev ++ observations w' events
      | None => []
      end
  end.

(** An invariant of the world and of what was observed, kept by each event. *)
Lemma run_invariant (ok : service_event -> Prop) (Inv : world -> list handler_event -> Prop) :
  (forall w os ev w', ok ev -> Inv w os -> step w ev = Some w' -> Inv w' (os ++ observe (service w) ev)) ->
  forall events w os w', Forall ok events -> Inv w os -> steps w events = Some w' ->
    Inv w' (os ++ observations w events).
Proof.
  intros Hstep events. induction events as [|ev events IH]; intros w os w' Hok HI Hrun; cbn in *.
  - injection Hrun as <-. by rewrite app_nil_r.
  - apply Forall_cons in Hok as [Hev Hok]. destruct (step w ev) as [w1|] eqn:Hs; [|done].
    rewrite app_assoc. cbn in Hrun. eapply IH; eauto.
Qed.

(* ------------------------------------------------------------------ *)
(** ** One handler at a time *)

Definition task_ok (t : worker) : Prop :=
  match t with
  | Running job _ request =>
      registry_validate registry (wj_tool_name job) (wj_arguments job) = Ok request
  | _ => True
  end.

Record service_ok (s : WorkerService) : Prop := {
  so_inflight : dict_ok (inflight s);
  so_flight : flight_ok hmac_sha256 secret (entries s) (inflight s) (idempotent_results s);
  so_tasks : Forall task_ok (tasks s)
}.

Definition phase_of (k : string) (s : WorkerService) : phase :=
  match dict_get k (idempotent_results s) with
  | Some r => Succeeded r
  | None => if decide (k ∈ map key (running_entries (tasks s))) then HandlerRunning else NotRunning
  end.

(** The fields the handlers depend on are the same. *)
Definition quiet (s s' : WorkerService) : Prop :=
  queue s' = queue s /\ tasks s' = tasks s /\ inflight s' = inflight s /\
  idempotent_results s' = idempotent_results s.

Lemma quiet_refl s : quiet s s.
Proof. done. Qed.
Lemma quiet_trans s1 s2 s3 : quiet s1 s2 -> quiet s2 s3 -> quiet s1 s3.
Proof. unfold quiet. intuition congruence. Qed.

Lemma quiet_ok s s' : quiet s s' -> service_ok s -> service_ok s'.
Proof.
  intros (Hq & Ht & Hi & Hr) [H1 H2 H3]. unfold entries in *.
  split; unfold entries; rewrite ?Hq, ?Ht, ?Hi, ?Hr; done.
Qed.
Lemma quiet_phase k s s' : quiet s s' -> phase_of k s' = phase_of k s.
Proof. intros (Hq & Ht & Hi & Hr). unfold phase_of. by rewrite Ht, Hr. Qed.

Lemma resolve_quiet fut o s : quiet s (resolve fut o s).
Proof. unfold resolve. by destruct (is_pending _). Qed.
Lemma mark_quiet job detail now s : quiet s (mark_uncertain job detail now s).
Proof. done. Qed.
Lemma circuit_quiet b s : quiet s (set_circuit b s).
Proof. done. Qed.
Lemma stop_job_quiet now s e : quiet s (stop_job now s e).
Proof.
  unfold stop_job. destruct e as [job fut].
  destruct (is_pending _); [|apply quiet_refl]. destruct (read_only job); cbn [negb].
  - apply resolve_quiet.
  - eapply quiet_trans; [apply mark_quiet|apply resolve_quiet].
Qed.
Lemma stop_jobs_quiet now es s : quiet s (fold_left (stop_job now) es s).
Proof.
  revert s. induction es as [|e es IH]; intros s; cbn; [apply quiet_refl|].
  eapply quiet_trans; [apply stop_job_quiet|apply IH].
Qed.

Lemma resume_quiet job status now now' s s' status' :
  resume job status now now' s = Some (s', status') -> quiet s s'.
Proof.
  unfold resume, submit_result, submit_timeout. intros Hr.
  repeat (cases_in Hr; simplify_eq/=); try done.
  - destruct (negb _); simplify_eq; done.
  - by destruct (read_only job).
Qed.
Lemma time_out_quiet status s s' status' : time_out status s = Some (s', status') -> quiet s s'.
Proof. destruct status; cbn; intros; simplify_eq; apply resolve_quiet. Qed.
Lemma cancel_wait_quiet status s s' status' : cancel_wait status s = Some (s', status') -> quiet s s'.
Proof. destruct status; cbn; intros; simplify_eq; first [apply resolve_quiet|apply quiet_refl]. Qed.

Lemma client_piece_inv w c piece w' :
  client_piece w c piece = Some w' ->
  exists job status s' status', clients w !! c = Some (job, status) /\
    piece job status (service w) = Some (s', status') /\
    w' = {| service := s'; clients := <[c := (job, status')]> (clients w) |}.
Proof.
  unfold client_piece. destruct (clients w !! c) as [[job status]|]; cbn; [|done].
  destruct (piece job status (service w)) as [[s' status']|] eqn:Hp; cbn; [|done].
  intros [= <-]. eauto 10.
Qed.

Lemma in_service_inv (w : world) s w' :
  in_service w s = Some w' -> exists s', s = Some s' /\ w' = {| service := s'; clients := clients w |}.
Proof. unfold in_service. destruct s; cbn; [|done]. intros [= <-]. eauto. Qed.

(** What [worker_failed] does to those fields. *)
Lemma worker_failed_fields w job fut e now now' s :
  exists t, (t = Idle \/ t = Ended) /\
    quiet (set_task w t (pop_inflight (wj_idempotency_key job) s)) (worker_failed w job fut e now now' s).
Proof.
  unfold worker_failed. destruct (is_exception e); [|exists Ended; auto using quiet_refl].
  exists Idle. split; [auto|]. unfold resolve.
  destruct (read_only job), (is_pending _); done.
Qed.
Lemma worker_succeeded_fields w job fut output now s :
  quiet (set_results (dict_set (wj_idempotency_key job) (success_result job output now)
           (idempotent_results s)) (set_task w Idle (pop_inflight (wj_idempotency_key job) s)))
        (worker_succeeded w job fut output now s).
Proof. unfold worker_succeeded, resolve. by destruct (is_pending _). Qed.

Lemma phase_same k s s' :
  dict_get k (idempotent_results s') = dict_get k (idempotent_results s) ->
  (k ∈ map key (running_entries (tasks s')) <-> k ∈ map key (running_entries (tasks s))) ->
  phase_of k s' = phase_of k s.
Proof.
  intros Hr Hk. unfold phase_of. rewrite Hr. destruct (dict_get k (idempotent_results s)); [done|].
  by rewrite (decide_ext _ _ _ _ Hk).
Qed.

(** Events of one key leave the others alone. *)
Lemma phases_one k p o :
  phases k p [o] = if String.eqb (wj_idempotency_key (event_job o)) k then phase_step k p o else Some p.
Proof. cbn. unfold phase_step. destruct (String.eqb _ k); cbn; [by repeat case_match|done]. Qed.

(** An event leaves the state consistent and the handlers' lives well formed. *)
Definition step_ok (s s' : WorkerService) (os : list handler_event) : Prop :=
  service_ok s' /\ forall k, phases k (phase_of k s) os = Some (phase_of k s').

Lemma quiet_step_ok s s' : quiet s s' -> service_ok s -> step_ok s s' [].
Proof. intros Hq Hs. split; [by eapply quiet_ok|]. intros k. cbn. by rewrite (quiet_phase k s s'). Qed.

(** A handler ends: its entry leaves its task and [_inflight]. *)
Lemma ended_step_ok s s' w job fut request t results o :
  service_ok s -> tasks s !! w = Some (Running job fut request) ->
  running_entry t = None -> task_ok t ->
  (forall k, k <> wj_idempotency_key job -> dict_get k results = dict_get k (idempotent_results s)) ->
  event_job o = job ->
  phase_step (wj_idempotency_key job) HandlerRunning o =
    Some (match dict_get (wj_idempotency_key job) results with Some r => Succeeded r | None => NotRunning end) ->
  quiet (set_results results (set_task w t (pop_inflight (wj_idempotency_key job) s))) s' ->
  step_ok s s' [o].
Proof.
  intros [Hok Hf Ht] Hw Hr Htok Hres Hjob Ho Hq.
  destruct (running_entries_insert (tasks s) w _ Hw) as (rest & Hrest & Hins). cbn in Hrest.
  specialize (Hins t). rewrite Hr in Hins. cbn in Hins.
  assert (Hes : flight_ok hmac_sha256 secret ((job, fut) :: queue s ++ rest) (inflight s) (idempotent_results s)).
  { rewrite Permutation_middle, <- Hrest. exact Hf. }
  pose proof Hes as [Hnd Hall]. cbn in Hnd. apply NoDup_cons in Hnd as [Hnew _].
  apply Forall_cons in Hall as [(_ & Hnone & _) _]. unfold key in Hnone, Hnew. cbn in Hnone, Hnew.
  split.
  - eapply quiet_ok; [exact Hq|]. split; cbn.
    + by apply dict_del_ok.
    + unfold entries. cbn. rewrite Hins. by eapply (flight_ok_remove _ _ (job, fut)).
    + by apply Forall_insert.
  - intros k. rewrite phases_one, Hjob, (quiet_phase k _ s' Hq).
    destruct (String.eqb_spec (wj_idempotency_key job) k) as [<-|Hne].
    + unfold phase_of at 1. rewrite Hnone, decide_True, Ho.
      2: { rewrite Hrest. cbn. unfold key at 1. cbn. apply elem_of_cons. auto. }
      unfold phase_of. cbn. destruct (dict_get _ results); [done|].
      rewrite decide_False; [done|]. rewrite Hins. rewrite map_app in Hnew.
      intros Hin. apply Hnew, elem_of_app. auto.
    + f_equal. symmetry. apply phase_same; cbn; [by apply Hres|].
      rewrite Hins, Hrest. cbn. unfold key at 3. cbn. rewrite elem_of_cons. naive_solver.
Qed.

Lemma take_step_ok s w now now' s' :
  service_ok s -> worker_take registry w now now' s = Some s' ->
  step_ok s s' (observe s (ETake w now now')).
Proof.
  intros Hs Htake. pose proof Hs as [Hok Hf Ht]. unfold worker_take in Htake. unfold observe.
  destruct (tasks s !! w) as [[]|] eqn:Hw; try done.
  destruct (queue s) as [|[job fut] rest] eqn:Hq; [done|]. destruct (stopping s); [done|].
  assert (Hes : flight_ok hmac_sha256 secret ((job, fut) :: rest ++ running_entries (tasks s))
            (inflight s) (idempotent_results s)).
  { unfold entries in Hf. by rewrite Hq in Hf. }
  destruct (running_entries_insert (tasks s) w _ Hw) as (others & Hrest & Hins). cbn in Hrest.
  pose proof Hes as [Hnd Hall]. cbn in Hnd. apply NoDup_cons in Hnd as [Hnew _].
  apply Forall_cons in Hall as [(_ & Hnone & _) _]. unfold key in Hnone, Hnew. cbn in Hnone, Hnew.
  destruct (registry_validate _ _ _) as [request|e] eqn:Hv; injection Htake as <-.
  - split.
    + split; cbn; [done| |by apply Forall_insert].
      unfold entries. cbn. rewrite Hins. cbn. rewrite <- Permutation_middle, <- Hrest. done.
    + intros k. rewrite phases_one. cbn [event_job].
      destruct (String.eqb_spec (wj_idempotency_key job) k) as [<-|Hne].
      * unfold phase_of, phase_step. cbn. rewrite String.eqb_refl, Hnone. cbn.
        rewrite decide_False; [rewrite decide_True; [done|]|].
        -- rewrite Hins. cbn. unfold key at 1. cbn. apply elem_of_cons. auto.
        -- rewrite map_app in Hnew. intros Hin. apply Hnew, elem_of_app. auto.
      * f_equal. symmetry. apply phase_same; cbn; [done|].
        rewrite Hins, Hrest. cbn. unfold key at 1. cbn. rewrite elem_of_cons. naive_solver.
  - destruct (worker_failed_fields w job fut e now now' (set_queue rest s)) as (t & Ht' & Hquiet).
    assert (Hnr : running_entry t = None /\ task_ok t) by (by destruct Ht' as [-> | ->]).
    destruct Hnr as [Hnr Htok]. specialize (Hins t). rewrite Hnr in Hins. cbn in Hins.
    split.
    + eapply quiet_ok; [exact Hquiet|]. split; cbn; [by apply dict_del_ok| |by apply Forall_insert].
      unfold entries. cbn. rewrite Hins, <- Hrest. by eapply (flight_ok_remove _ _ (job, fut)).
    + intros k. cbn [phases]. f_equal. rewrite (quiet_phase k _ _ Hquiet). symmetry.
      apply phase_same; cbn; [done|]. by rewrite Hins, <- Hrest.
Qed.

Lemma phases_nil_same s s' :
  service_ok s' -> idempotent_results s' = idempotent_results s ->
  running_entries (tasks s') = running_entries (tasks s) -> step_ok s s' [].
Proof.
  intros Hs Hr Ht. split; [done|]. intros k. cbn. f_equal. symmetry.
  apply phase_same; [by rewrite Hr|by rewrite Ht].
Qed.

Lemma submit_step_ok job now now' s s' status :
  service_ok s -> submit hmac_sha256 secret queue_size job now now' s = (s', status) -> step_ok s s' [].
Proof.
  intros Hs. unfold submit. destruct (tasks s) as [|t0 ts] eqn:Ht.
  { intros [= <- _]. by apply quiet_step_ok; [apply quiet_refl|]. }
  destruct (breaker_allow now (breaker s)) as [b|e].
  2: { intros [= <- _]. by apply quiet_step_ok; [apply quiet_refl|]. }
  cbn [set_circuit idempotent_results inflight].
  destruct (authenticate hmac_sha256 secret job) as [[]|e] eqn:Ha.
  2: { intros [= <- _]. by apply quiet_step_ok. }
  destruct (dict_get (wj_idempotency_key job) (idempotent_results s)) eqn:Hr.
  { intros [= <- _]. by apply quiet_step_ok. }
  destruct (dict_get (wj_idempotency_key job) (inflight s)) as [existing|] eqn:Hi.
  { intros [= <- _]. by apply quiet_step_ok. }
  pose proof Hs as [Hok Hf Htasks].
  destruct (queue_full queue_size _); intros [= <- <-]; apply phases_nil_same; try done; split; cbn; try done.
  - apply dict_del_ok, dict_set_ok, Hok.
  - destruct Hf as [Hnd Hall]. split; [done|]. eapply Forall_impl; [exact Hall|].
    intros e (Hei & Her & Hea). split; [|done].
    rewrite dict_get_del by (by apply dict_set_ok). case_decide as Hk; [congruence|].
    by rewrite dict_get_set_ne.
  - by apply dict_set_ok.
  - unfold entries. cbn. rewrite <- app_assoc. cbn. rewrite <- Permutation_middle.
    by apply (flight_ok_add _ _ (job, length (futures s))).
Qed.

Lemma running_in s w job fut request :
  tasks s !! w = Some (Running job fut request) -> (job, fut) ∈ entries s.
Proof using.
  intros Hw. apply elem_of_app. right.
  destruct (running_entries_insert (tasks s) w _ Hw) as (rest & -> & _). cbn. apply elem_of_cons. auto.
Qed.
Lemma running_not_done s w job fut request :
  service_ok s -> tasks s !! w = Some (Running job fut request) ->
  dict_get (wj_idempotency_key job) (idempotent_results s) = None.
Proof.
  intros [_ [_ Hall] _] Hw%running_in. rewrite Forall_forall in Hall. apply (Hall _ Hw).
Qed.

Lemma finish_step_ok s w out now now' s' :
  service_ok s -> worker_finish registry w out now now' s = Some s' ->
  step_ok s s' (observe s (EFinish w out now now')).
Proof.
  intros Hs. unfold worker_finish, observe. destruct (tasks s !! w) as [[|job fut request|]|] eqn:Hw; try done.
  destruct (stopping s); [done|]. destruct (worker_output registry job out) as [output|e]; intros [= <-].
  - eapply (ended_step_ok _ _ w job fut request Idle
              (dict_set (wj_idempotency_key job) (success_result job output now) (idempotent_results s))
              _ Hs Hw); try done; [| |apply worker_succeeded_fields].
    + intros k Hk. by rewrite dict_get_set_ne.
    + unfold phase_step. cbn. by rewrite String.eqb_refl, dict_get_set_eq.
  - destruct (worker_failed_fields w job fut e now now' s) as (t & Ht & Hq).
    eapply (ended_step_ok _ _ w job fut request t (idempotent_results s) _ Hs Hw); try done;
      try (by destruct Ht as [-> | ->]).
    unfold phase_step. cbn. rewrite String.eqb_refl. cbn.
    by rewrite (running_not_done s w job fut request).
Qed.

Lemma cancelled_step_ok s w s' :
  service_ok s -> task_cancelled w s = Some s' -> step_ok s s' (observe s (ETaskCancelled w)).
Proof.
  intros Hs. unfold task_cancelled, observe. destruct (stopping s); cbn [negb]; [|done].
  destruct (tasks s !! w) as [[|job fut request|]|] eqn:Hw; try done; intros [= <-].
  - destruct Hs as [Hok Hf Ht]. destruct (running_entries_insert (tasks s) w _ Hw) as (rest & Hrest & Hins).
    specialize (Hins Ended). cbn in Hrest, Hins. split.
    + split; cbn; [done| |by apply Forall_insert]. unfold entries. cbn. by rewrite Hins, <- Hrest.
    + intros k. cbn. f_equal. symmetry. apply phase_same; cbn; [done|]. by rewrite Hins, <- Hrest.
  - eapply (ended_step_ok _ _ w job fut request Ended (idempotent_results s) _ Hs Hw); try done.
    unfold phase_step. cbn. rewrite String.eqb_refl. cbn.
    by rewrite (running_not_done s w job fut request).
Qed.

Lemma stop_step_ok s now s' : service_ok s -> stop_begin now s = Some s' -> step_ok s s' [].
Proof.
  intros Hs. unfold stop_begin. destruct (stopping s); [done|]. intros [= <-].
  set (s1 := fold_left (stop_job now) _ (set_queue [] s)).
  assert (Hq : quiet (set_queue [] s) (set_stopping true s1)).
  { eapply quiet_trans; [apply stop_jobs_quiet|]. done. }
  pose proof Hq as (_ & Ht & _ & Hr). apply phases_nil_same; [|by rewrite Hr|by rewrite Ht].
  eapply quiet_ok; [exact Hq|]. destruct Hs as [Hok Hf Hts]. split; cbn; [done| |done].
  unfold entries. cbn. by eapply flight_ok_app.
Qed.

Lemma all_ended ts :
  forallb (fun t => match t with Ended => true | _ => false end) ts = true -> running_entries ts = [].
Proof. induction ts as [|[] ts IH]; cbn; try done. Qed.

Lemma stop_end_step_ok s s' : service_ok s -> stop_end s = Some s' -> step_ok s s' [].
Proof.
  intros [Hok Hf Ht]. unfold stop_end. destruct (stopping s); cbn [andb]; [|done].
  destruct (forallb _ (tasks s)) eqn:He; [|done]. intros [= <-]. apply all_ended in He.
  apply phases_nil_same; [|done|by rewrite He].
  split; cbn; [done| |constructor]. unfold entries in *. cbn. by rewrite He in Hf.
Qed.

Lemma start_step_ok s : service_ok s -> step_ok s (start max_concurrency s) [].
Proof.
  intros Hs. unfold start. destruct (tasks s) eqn:Ht; [|by apply quiet_step_ok; [apply quiet_refl|]].
  assert (Hr : forall n, running_entries (replicate n Idle) = []) by (induction n; done).
  destruct Hs as [Hok Hf Hts]. apply phases_nil_same; [|done|by cbn; rewrite Hr, Ht].
  split; cbn; [done| |].
  - unfold entries in *. cbn. rewrite Hr. by rewrite Ht in Hf.
  - apply Forall_replicate. done.
Qed.

Lemma service_step_ok w ev w' :
  service_ok (service w) -> step w ev = Some w' ->
  step_ok (service w) (service w') (observe (service w) ev).
Proof.
  intros Hs Hstep.
  assert (Hpiece : forall c piece, client_piece w c piece = Some w' ->
     (forall job st s' st', piece job st (service w) = Some (s', st') -> quiet (service w) s') ->
     step_ok (service w) (service w') []).
  { intros c piece (job & st & s' & st' & _ & Hp & ->)%client_piece_inv Hq. cbn.
    apply quiet_step_ok; eauto. }
  destruct ev; cbn [service_step] in Hstep;
    try (apply in_service_inv in Hstep as (s' & Hs' & ->); cbn [service]).
  - injection Hs' as <-. by apply start_step_ok.
  - destruct (submit _ _ _ _ _ _ _) as [s' status] eqn:Hsub. injection Hstep as <-. cbn [service].
    by eapply submit_step_ok.
  - eapply Hpiece; [exact Hstep|]. intros job st s1 st1 Hp. exact (resume_quiet _ _ _ _ _ _ _ Hp).
  - eapply Hpiece; [exact Hstep|]. intros job st s1 st1 Hp. exact (time_out_quiet _ _ _ _ Hp).
  - eapply Hpiece; [exact Hstep|]. intros job st s1 st1 Hp. exact (cancel_wait_quiet _ _ _ _ Hp).
  - by apply take_step_ok.
  - by apply finish_step_ok.
  - by eapply stop_step_ok.
  - by apply cancelled_step_ok.
  - by apply stop_end_step_ok.
  - injection Hs' as <-. apply quiet_step_ok; [|done]. unfold reconcile.
    destruct (dict_get _ _); [|done]. by destruct confirmed_outcome.
Qed.

(* ------------------------------------------------------------------ *)
(** ** Where results come from, and what becomes of accepted jobs *)

(** A successful result is that of a run under the key. *)
Definition from_key (os : list handler_event) (k : string) (r : WorkerResult) : Prop :=
  wr_outcome r = "succeeded" ->
  exists job, HandlerSucceeded job r ∈ os /\ wj_idempotency_key job = k.

Definition status_ok (os : list handler_event) (acc : list (WorkerJob * nat)) (job : WorkerJob)
    (status : submission) : Prop :=
  match status with
  | WaitShared fut => exists job', (job', fut) ∈ acc /\ wj_idempotency_key job' = wj_idempotency_key job
  | WaitOwn fut => (job, fut) ∈ acc
  | Returned (Ok r) => from_key os (wj_idempotency_key job) r
  | _ => True
  end.

(** [acc] lists the jobs enqueued so far with their futures. *)
Record tracked (s : WorkerService) (cl : list (WorkerJob * submission)) (os : list handler_event)
    (acc : list (WorkerJob * nat)) : Prop := {
  tr_nodup : NoDup (map snd acc);
  tr_bound : forall e, e ∈ acc -> (e.2 < length (futures s))%nat;
  tr_inflight : forall k e, dict_get k (inflight s) = Some e -> e ∈ acc /\ key e = k;
  tr_entries : forall e, e ∈ entries s -> e ∈ acc;
  tr_clients : forall c job status, cl !! c = Some (job, status) -> status_ok os acc job status;
  tr_futures : forall e r, e ∈ acc -> futures s !! e.2 = Some (Resolved r) ->
    wr_outcome r = "succeeded" -> HandlerSucceeded e.1 r ∈ os;
  tr_results : forall k r, dict_get k (idempotent_results s) = Some r -> from_key os k r;
  tr_started : forall job request, HandlerStarted job request ∈ os -> exists fut, (job, fut) ∈ acc
}.

(** A mutation is accounted for: it succeeded, or it is marked for review. *)
Definition settled (s : WorkerService) (job : WorkerJob) : Prop :=
  read_only job = true \/
  (exists r, dict_get (wj_idempotency_key job) (idempotent_results s) = Some r /\ wr_job_id r = wj_job_id job) \/
  is_Some (dict_get (wj_job_id job) (reconciliation s)).

Definition accounted_for (s : WorkerService) (cl : list (WorkerJob * submission)) (job : WorkerJob)
    (fut : nat) : Prop :=
  settled s job \/
  (exists c, cl !! c = Some (job, WaitOwn fut) /\ futures s !! fut = Some Pending) \/
  (exists c, cl !! c = Some (job, TimedOut)).
Definition accounted (s : WorkerService) (cl : list (WorkerJob * submission))
    (acc : list (WorkerJob * nat)) : Prop :=
  forall job fut, (job, fut) ∈ acc -> accounted_for s cl job fut.

Lemma from_key_mono os os' k r : from_key os k r -> from_key (os ++ os') k r.
Proof. intros Hf Hr. destruct (Hf Hr) as (job & Hin & Hk). exists job. rewrite elem_of_app. auto. Qed.

Lemma status_ok_mono os os' acc job status : status_ok os acc job status -> status_ok (os ++ os') acc job status.
Proof. destruct status as [| | |[]]; cbn; auto using from_key_mono. Qed.

(** Entries and reservations may go, results stay. *)
Lemma tracked_shrink s s' cl os acc :
  tracked s cl os acc -> futures s' = futures s -> idempotent_results s' = idempotent_results s ->
  (forall e, e ∈ entries s' -> e ∈ entries s) ->
  (forall k e, dict_get k (inflight s') = Some e -> dict_get k (inflight s) = Some e) ->
  tracked s' cl os acc.
Proof.
  intros [] Hf Hr He Hi. split; rewrite ?Hf, ?Hr; auto.
Qed.

Lemma tracked_observe s cl os os' acc :
  tracked s cl os acc ->
  (forall job request, HandlerStarted job request ∈ os' -> exists fut, (job, fut) ∈ acc) ->
  tracked s cl (os ++ os') acc.
Proof.
  intros [] Hs. split; auto.
  - intros c job status Hc. eapply status_ok_mono; eauto.
  - intros. apply elem_of_app. eauto.
  - intros. apply from_key_mono. auto.
  - intros job request [Hin|Hin]%elem_of_app; eauto.
Qed.

Lemma tracked_resolve s cl os acc fut o :
  tracked s cl os acc ->
  (forall job r, (job, fut) ∈ acc -> o = Resolved r -> wr_outcome r = "succeeded" -> HandlerSucceeded job r ∈ os) ->
  tracked (resolve fut o s) cl os acc.
Proof.
  intros [] Ho. unfold resolve. destruct (is_pending _); [|done].
  split; cbn; auto; rewrite ?length_insert; auto.
  intros [job f] r He. cbn. destruct (decide (f = fut)) as [->|Hne].
  - rewrite list_lookup_insert_eq by (by apply (tr_bound0 (job, fut))). intros [= ->]. eauto.
  - rewrite list_lookup_insert_ne by done. apply (tr_futures0 (job, f) r He).
Qed.

Lemma tracked_result s cl os acc k r :
  tracked s cl os acc -> from_key os k r -> tracked (set_results (dict_set k r (idempotent_results s)) s) cl os acc.
Proof.
  intros [] Hf. split; cbn; auto. intros k' r'. rewrite dict_get_set. case_decide; [|auto].
  intros [= <-]. subst. done.
Qed.

Lemma tracked_client s cl os acc c job status :
  tracked s cl os acc -> status_ok os acc job status -> tracked s (<[c := (job, status)]> cl) os acc.
Proof.
  intros [] Hst. split; auto. intros c' job' status' Hc.
  apply list_lookup_insert_Some in Hc as [(-> & [= <- <-] & _)|[_ Hc]]; eauto.
Qed.

Lemma settled_mono s s' job :
  (forall k r, dict_get k (idempotent_results s) = Some r -> dict_get k (idempotent_results s') = Some r) ->
  (forall k, is_Some (dict_get k (reconciliation s)) -> is_Some (dict_get k (reconciliation s'))) ->
  settled s job -> settled s' job.
Proof. intros Hr Hc [?|[(r & Hk & ?)|?]]; unfold settled; eauto 6. Qed.

Lemma settled_marked s job detail now : settled (mark_uncertain job detail now s) job.
Proof. right. right. cbn. rewrite dict_get_set_eq. eauto. Qed.

Lemma mark_settled s job job' detail now : settled s job' -> settled (mark_uncertain job detail now s) job'.
Proof.
  apply settled_mono; [done|]. intros k Hk. cbn. rewrite dict_get_set. case_decide; eauto.
Qed.

Lemma accounted_mono s s' cl acc :
  futures s' = futures s -> (forall job, settled s job -> settled s' job) ->
  accounted s cl acc -> accounted s' cl acc.
Proof.
  intros Hf Hs Ha job fut Hin. unfold accounted_for. rewrite Hf.
  destruct (Ha job fut Hin) as [?|[?|?]]; auto.
Qed.

Lemma resolve_other s fut fut' o : fut' <> fut -> futures (resolve fut o s) !! fut' = futures s !! fut'.
Proof.
  intros Hne. unfold resolve. destruct (is_pending _); [|done]. cbn. by rewrite list_lookup_insert_ne.
Qed.

Lemma resolve_settled s fut o job : settled (resolve fut o s) job <-> settled s job.
Proof. unfold resolve. by destruct (is_pending _). Qed.

Lemma accounted_resolve s cl acc fut o :
  (forall job, (job, fut) ∈ acc -> settled s job) ->
  accounted s cl acc -> accounted (resolve fut o s) cl acc.
Proof.
  intros Hs Ha job f Hin. unfold accounted_for. rewrite resolve_settled.
  destruct (decide (f = fut)) as [->|Hne]; [auto|]. rewrite resolve_other by done. by apply Ha.
Qed.

(** *** The pieces of the service *)

Lemma owner_unique s cl os acc job job' fut :
  tracked s cl os acc -> (job, fut) ∈ acc -> (job', fut) ∈ acc -> job = job'.
Proof.
  intros [Hnd _ _ _ _ _ _ _] Hin Hin'.
  apply list_elem_of_lookup in Hin as [i Hi]. apply list_elem_of_lookup in Hin' as [j Hj].
  assert (Hij : i = j); [|congruence].
  eapply NoDup_lookup; [exact Hnd| |]; by rewrite list_lookup_fmap, ?Hi, ?Hj.
Qed.

Lemma entries_set_task s w t e :
  running_entry t = None -> e ∈ entries (set_task w t s) -> e ∈ entries s.
Proof.
  intros Ht. unfold entries. cbn. rewrite !elem_of_app. intros [?|He]; [auto|right].
  destruct (tasks s !! w) as [old|] eqn:Hw.
  - destruct (running_entries_insert (tasks s) w old Hw) as (rest & -> & Hins).
    rewrite Hins, Ht in He. apply elem_of_app. auto.
  - by rewrite list_insert_ge in He by (by apply lookup_ge_None).
Qed.

Lemma tracked_leave s cl os acc w t k :
  dict_ok (inflight s) -> running_entry t = None -> tracked s cl os acc ->
  tracked (set_task w t (pop_inflight k s)) cl os acc.
Proof.
  intros Hok Ht Htr. eapply tracked_shrink; [exact Htr|done|done| |].
  - intros e He. apply (entries_set_task (pop_inflight k s) w t e Ht He).
  - intros k' e. cbn. rewrite dict_get_del by done. by case_decide.
Qed.

Lemma tracked_mark s cl os acc job detail now :
  tracked s cl os acc -> tracked (mark_uncertain job detail now s) cl os acc.
Proof. intros Htr. by eapply tracked_shrink. Qed.

Lemma tracked_failed s cl os acc w job fut e now now' :
  dict_ok (inflight s) -> tracked s cl os acc -> tracked (worker_failed w job fut e now now' s) cl os acc.
Proof.
  intros Hok Htr. unfold worker_failed. destruct (is_exception e); [|by apply tracked_leave].
  apply tracked_leave; [|done|].
  - unfold resolve. by destruct (read_only job), (is_pending _).
  - apply tracked_resolve; [|by intros job' r _ [= <-]].
    destruct (read_only job); [done|by apply tracked_mark].
Qed.

Lemma settled_leave s w t k job : settled (set_task w t (pop_inflight k s)) job <-> settled s job.
Proof. done. Qed.

Lemma accounted_failed s cl os acc w job fut e now now' :
  tracked s cl os acc -> (job, fut) ∈ acc ->
  accounted s cl acc -> accounted (worker_failed w job fut e now now' s) cl acc.
Proof.
  intros Htr Hin Ha. unfold worker_failed.
  destruct (is_exception e); [|by eapply (accounted_mono s)].
  set (s1 := if read_only job then s else _).
  assert (Hs1 : (forall job', settled s job' -> settled s1 job') /\ settled s1 job).
  { unfold s1. destruct (read_only job) eqn:Hro; [by split; [|left]|].
    split; [intros job'; apply mark_settled|apply settled_marked]. }
  destruct Hs1 as [Hmono Hjob].
  eapply (accounted_mono (resolve fut _ s1)); [done| |].
  { intros job'. by rewrite settled_leave. }
  apply accounted_resolve.
  - intros job' Hin'. by rewrite <- (owner_unique s cl os acc job job' fut).
  - eapply accounted_mono; [|exact Hmono|exact Ha]. unfold s1. by destruct (read_only job).
Qed.

Lemma tracked_succeeded s cl os acc w job fut output now :
  dict_ok (inflight s) -> tracked s cl os acc ->
  (job, fut) ∈ acc ->
  tracked (worker_succeeded w job fut output now s) cl
    (os ++ [HandlerSucceeded job (success_result job output now)]) acc.
Proof.
  intros Hok Htr Hin. unfold worker_succeeded. set (r := success_result job output now).
  set (os' := os ++ [HandlerSucceeded job r]).
  assert (Hnew : HandlerSucceeded job r ∈ os').
  { apply elem_of_app. right. by apply list_elem_of_singleton. }
  assert (Htr' : tracked s cl os' acc).
  { apply tracked_observe; [done|]. intros job' request. by rewrite list_elem_of_singleton. }
  apply tracked_leave; [|done|].
  - unfold resolve. by destruct (is_pending _).
  - apply tracked_resolve.
    + apply tracked_result; [done|]. intros _. eauto.
    + intros job' r' Hin' [= <-] _. by rewrite <- (owner_unique s cl os acc job job' fut).
Qed.

Lemma accounted_succeeded s cl os acc w job fut output now :
  tracked s cl os acc -> (job, fut) ∈ acc ->
  dict_get (wj_idempotency_key job) (idempotent_results s) = None ->
  accounted s cl acc -> accounted (worker_succeeded w job fut output now s) cl acc.
Proof.
  intros Htr Hin Hnone Ha. unfold worker_succeeded.
  set (s1 := set_results _ s).
  eapply (accounted_mono (resolve fut _ s1)); [done| |].
  { intros job'. by rewrite settled_leave. }
  apply accounted_resolve.
  - intros job' Hin'. rewrite <- (owner_unique s cl os acc job job' fut) by done.
    right. left. eexists. split; [apply dict_get_set_eq|done].
  - eapply (accounted_mono s); [done| |exact Ha]. intros job'.
    apply settled_mono; [|done]. intros k r Hk. cbn. rewrite dict_get_set_ne; [done|]. congruence.
Qed.

Lemma tracked_stop_jobs now es s cl os acc :
  tracked s cl os acc -> tracked (fold_left (stop_job now) es s) cl os acc.
Proof.
  revert s. induction es as [|[job fut] es IH]; intros s Htr; cbn [fold_left]; [done|].
  apply IH. unfold stop_job. destruct (is_pending _); [|done].
  destruct (read_only job); cbn [negb]; (apply tracked_resolve; [|done]); auto using tracked_mark.
Qed.

Lemma accounted_stop_jobs now es s cl os acc :
  tracked s cl os acc -> (forall e, e ∈ es -> e ∈ acc) ->
  accounted s cl acc -> accounted (fold_left (stop_job now) es s) cl acc.
Proof.
  revert s. induction es as [|[job fut] es IH]; intros s Htr Hes Ha; cbn [fold_left]; [done|].
  assert (Hin : (job, fut) ∈ acc) by (apply Hes, elem_of_cons; auto).
  apply IH.
  - apply (tracked_stop_jobs now [(job, fut)] s). done.
  - intros e He. apply Hes, elem_of_cons. auto.
  - unfold stop_job. destruct (is_pending _); [|done].
    destruct (read_only job) eqn:Hro; cbn [negb]; apply accounted_resolve.
    + intros job' Hin'. rewrite <- (owner_unique s cl os acc job job' fut) by done. by left.
    + done.
    + intros job' Hin'. rewrite <- (owner_unique s cl os acc job job' fut) by done. apply settled_marked.
    + eapply (accounted_mono s); [done| |exact Ha]. intros job'. apply mark_settled.
Qed.

(** *** The pieces of the callers *)

Lemma accounted_client (s : WorkerService) cl acc c job old new :
  cl !! c = Some (job, old) ->
  (forall fut, old = WaitOwn fut -> futures s !! fut = Some Pending -> new = WaitOwn fut \/ new = TimedOut) ->
  (old = TimedOut -> settled s job) ->
  accounted s cl acc -> accounted s (<[c := (job, new)]> cl) acc.
Proof.
  intros Hc Hown Hto Ha j f Hin. unfold accounted_for.
  destruct (Ha j f Hin) as [?|[(c' & Hc' & Hp)|(c' & Hc')]]; [auto| |];
    (destruct (decide (c' = c)) as [->|Hne];
      [rewrite Hc in Hc'; injection Hc' as -> -> |
       rewrite <- (list_lookup_insert_ne cl c c' (job, new)) in Hc' by done; eauto 6]).
  - destruct (Hown f eq_refl Hp) as [-> | ->]; right; [left|right]; exists c;
      rewrite list_lookup_insert_eq by (by eapply lookup_lt_Some); auto.
  - auto.
Qed.

Lemma submit_result_status r now s s' r' os k :
  submit_result r now s = (s', r') -> (wr_outcome r = "succeeded" -> from_key os k r) ->
  (forall v, r' = Ok v -> from_key os k v) /\ (exists b, s' = set_circuit b s).
Proof.
  unfold submit_result. destruct (String.eqb_spec (wr_outcome r) "succeeded") as [Hs|]; cbn [negb];
    intros [= <- <-] Hf; (split; [|eauto]); [|done]. intros v [= <-]. auto.
Qed.

Lemma resume_tracked s cl os acc c job status now now' s' status' :
  tracked s cl os acc -> cl !! c = Some (job, status) ->
  resume job status now now' s = Some (s', status') ->
  tracked s' (<[c := (job, status')]> cl) os acc /\
  (accounted s cl acc -> accounted s' (<[c := (job, status')]> cl) acc).
Proof.
  intros Htr Hc Hr. pose proof (tr_clients _ _ _ _ Htr c job status Hc) as Hst.
  destruct status as [fut|fut| |r]; cbn in Hr, Hst; [| | |done].
  - destruct Hst as (job' & Hin & Hk).
    destruct (futures s !! fut) as [[|r|e|]|] eqn:Hf; simplify_eq; split;
      try (apply tracked_client; [done|]); try done; try (by apply accounted_client with (old := WaitShared fut)).
    cbn. intros Hout. exists job'. split; [|done]. by apply (tr_futures _ _ _ _ Htr (job', fut)).
  - assert (Hacc : forall st, futures s !! fut <> Some Pending ->
        accounted s cl acc -> accounted s (<[c := (job, st)]> cl) acc).
    { intros st Hp. eapply accounted_client; [exact Hc|by intros ? [= <-]|done]. }
    destruct (futures s !! fut) as [[|r|e|]|] eqn:Hf; [done| | | |done].
    + destruct (submit_result r now s) as [s1 r1] eqn:Hs. simplify_eq.
      destruct (submit_result_status r now s s' r1 os (wj_idempotency_key job) Hs) as [Hok [b ->]].
      { intros _ Hout. exists job. split; [|done]. by apply (tr_futures _ _ _ _ Htr (job, fut)). }
      split.
      * apply tracked_client; [by eapply tracked_shrink|]. destruct r1; cbn; auto.
      * intros Ha. eapply (accounted_mono s); [done|done|]. by apply Hacc.
    + simplify_eq. split; [by apply tracked_client|]. by apply Hacc.
    + simplify_eq. split; [by apply tracked_client|]. by apply Hacc.
  - destruct (submit_timeout job now now' s) as [s1 r1] eqn:Hs. simplify_eq.
    unfold submit_timeout in Hs. injection Hs as <- <-.
    set (s1 := if read_only job then s else mark_uncertain job _ now s).
    assert (Hs1 : tracked s1 cl os acc /\ (forall j, settled s j -> settled s1 j) /\ settled s1 job /\
              futures s1 = futures s).
    { unfold s1. destruct (read_only job) eqn:Hro; [split_and!; [done|done|by left|done]|].
      split_and!; [by apply tracked_mark|intros j; apply mark_settled|apply settled_marked|done]. }
    destruct Hs1 as (Htr1 & Hmono & Hjob & Hfut). split.
    + apply tracked_client; [|done]. by eapply tracked_shrink.
    + intros Ha. eapply (accounted_mono s1); [done|done|].
      eapply accounted_client; [exact Hc|done|done|]. by eapply accounted_mono.
Qed.

Lemma time_out_tracked s cl os acc c job status s' status' :
  tracked s cl os acc -> cl !! c = Some (job, status) ->
  time_out status s = Some (s', status') ->
  tracked s' (<[c := (job, status')]> cl) os acc /\
  (accounted s cl acc -> accounted s' (<[c := (job, status')]> cl) acc).
Proof.
  intros Htr Hc Hr. pose proof (tr_clients _ _ _ _ Htr c job status Hc) as Hst.
  destruct status as [|fut| |]; cbn in Hr, Hst; simplify_eq. split.
  - apply tracked_client; [|done]. by apply tracked_resolve.
  - intros Ha j f Hin. unfold accounted_for. rewrite resolve_settled.
    destruct (decide (f = fut)) as [->|Hne].
    + rewrite (owner_unique s cl os acc j job fut Htr Hin Hst). right. right. exists c.
      rewrite list_lookup_insert_eq by (by eapply lookup_lt_Some). done.
    + rewrite resolve_other by done.
      destruct (accounted_client s cl acc c job (WaitOwn fut) TimedOut Hc ltac:(auto) ltac:(done) Ha j f Hin)
        as [?|[?|?]]; auto.
Qed.

Lemma cancel_wait_tracked s cl os acc c job status s' status' :
  tracked s cl os acc -> cancel_wait status s = Some (s', status') ->
  tracked s' (<[c := (job, status')]> cl) os acc.
Proof.
  intros Htr Hr. destruct status; cbn in Hr; simplify_eq; (apply tracked_client; [|done]);
    first [done|by apply tracked_resolve].
Qed.

Lemma tracked_snoc s cl os acc job status :
  tracked s cl os acc -> status_ok os acc job status -> tracked s (cl ++ [(job, status)]) os acc.
Proof.
  intros [] Hst. split; auto. intros c job' status' Hc.
  apply lookup_app_Some in Hc as [Hc|[_ Hc]]; [eauto|].
  apply list_lookup_singleton_Some in Hc as [_ [= <- <-]]. done.
Qed.

Lemma accounted_snoc s cl acc x : accounted s cl acc -> accounted s (cl ++ [x]) acc.
Proof.
  intros Ha j f Hin. destruct (Ha j f Hin) as [?|[(c & Hc & ?)|(c & Hc)]]; unfold accounted_for; [auto| |];
    apply (lookup_app_l_Some _ [x]) in Hc; eauto 6.
Qed.

(** A new future, and the job that owns it. *)
Lemma tracked_alloc s cl os acc :
  tracked s cl os acc -> tracked (set_futures (futures s ++ [Pending]) s) cl os acc.
Proof.
  intros []. split; cbn; auto.
  - intros e He. rewrite length_app. cbn. specialize (tr_bound0 e He). lia.
  - intros e r He. rewrite lookup_app_l by auto. eauto.
Qed.

Lemma tracked_enqueue s cl os acc job :
  tracked s cl os acc ->
  let fut := length (futures s) in
  let s' := set_inflight (dict_set (wj_idempotency_key job) (job, fut) (inflight s))
              (set_futures (futures s ++ [Pending]) s) in
  tracked (set_queue (queue s ++ [(job, fut)]) s') (cl ++ [(job, WaitOwn fut)]) os ((job, fut) :: acc).
Proof.
  intros Htr fut s'. pose proof (tracked_alloc s cl os acc Htr) as [Hnd Hb Hi He Hc Hf Hr Hs].
  apply tracked_snoc; [|by apply elem_of_cons; left]. split; cbn.
  - apply NoDup_cons. split; [|done]. intros ([j f] & Heq & Hin)%list_elem_of_fmap.
    cbn in Heq. apply (tr_bound _ _ _ _ Htr) in Hin. cbn in Hin. lia.
  - intros e [-> |Hin]%elem_of_cons; [cbn; rewrite length_app; cbn; lia|]. by apply Hb.
  - intros k e. rewrite dict_get_set. case_decide as Hk.
    + intros [= <-]. subst k. split; [apply elem_of_cons; auto|done].
    + intros Hg. destruct (Hi k e Hg). split; [apply elem_of_cons; auto|done].
  - intros e. unfold entries. cbn. rewrite <- app_assoc, !elem_of_app, !elem_of_cons.
    intros [Hq|[[->|[]%elem_of_nil]|Hq]]; [|by left|]; right; apply He; apply elem_of_app; auto.
  - intros c job' status Hcl. specialize (Hc c job' status Hcl).
    destruct status as [f|f| |[]]; cbn in *; [|by apply elem_of_cons; auto|done..].
    destruct Hc as (j & Hin & ?). exists j. split; [apply elem_of_cons; auto|done].
  - intros e r [->|Hin]%elem_of_cons; [|by apply Hf]. cbn.
    by rewrite lookup_app_r, Nat.sub_diag by lia.
  - exact Hr.
  - intros j request Hj. destruct (Hs j request Hj) as [f Hin]. exists f. apply elem_of_cons. auto.
Qed.

Lemma submit_tracked s cl os acc job now now' s' status :
  service_ok s -> tracked s cl os acc ->
  submit hmac_sha256 secret queue_size job now now' s = (s', status) ->
  exists acc', tracked s' (cl ++ [(job, status)]) os acc' /\
    (accounted s cl acc -> accounted s' (cl ++ [(job, status)]) acc').
Proof.
  intros Hs Htr.
  assert (Hsame : forall s1 st, s1 = s \/ (exists b, s1 = set_circuit b s) -> status_ok os acc job st ->
     exists acc', tracked s1 (cl ++ [(job, st)]) os acc' /\
       (accounted s cl acc -> accounted s1 (cl ++ [(job, st)]) acc')).
  { intros s1 st Hs1 Hst. exists acc. split.
    - apply tracked_snoc; [|done]. destruct Hs1 as [->|[b ->]]; [done|by eapply tracked_shrink].
    - intros Ha. apply accounted_snoc. destruct Hs1 as [->|[b ->]]; [done|by eapply (accounted_mono s)]. }
  unfold submit. destruct (tasks s) as [|t0 ts] eqn:Ht.
  { intros [= <- <-]. by apply Hsame; [left|]. }
  destruct (breaker_allow now (breaker s)) as [b|e].
  2: { intros [= <- <-]. by apply Hsame; [left|]. }
  cbn [set_circuit idempotent_results inflight].
  destruct (authenticate hmac_sha256 secret job) as [[]|e] eqn:Ha.
  2: { intros [= <- <-]. by apply Hsame; [eauto|]. }
  destruct (dict_get (wj_idempotency_key job) (idempotent_results s)) as [r|] eqn:Hr.
  { intros [= <- <-]. apply Hsame; [eauto|]. by apply (tr_results _ _ _ _ Htr). }
  destruct (dict_get (wj_idempotency_key job) (inflight s)) as [[job' fut]|] eqn:Hi.
  { intros [= <- <-]. apply Hsame; [eauto|].
    destruct (tr_inflight _ _ _ _ Htr _ _ Hi) as [Hin Hk]. exists job'. done. }
  set (s1 := set_circuit b s).
  assert (Htr1 : tracked s1 cl os acc) by (by eapply tracked_shrink).
  destruct (queue_full queue_size _); intros [= <- <-].
  - exists acc. split.
    + apply tracked_snoc; [|done].
      eapply tracked_shrink; [apply (tracked_alloc s1 cl os acc Htr1)|done|done|done|].
      cbn. intros k e. rewrite dict_get_del by (apply dict_set_ok, Hs). case_decide; [done|].
      by rewrite dict_get_set_ne.
    + intros Hacc. apply accounted_snoc. intros j f Hin.
      destruct (Hacc j f Hin) as [?|[(c & Hc & Hp)|?]]; [by left| |right; by right].
      right. left. exists c. split; [done|]. cbn. by apply lookup_app_l_Some.
  - exists ((job, length (futures s)) :: acc). split; [by apply (tracked_enqueue s1)|].
    intros Hacc j f [[= -> ->]|Hin]%elem_of_cons.
    + right. left. exists (length cl). cbn.
      by rewrite !lookup_app_r, !Nat.sub_diag by lia.
    + destruct (accounted_snoc s cl acc (job, WaitOwn (length (futures s))) Hacc j f Hin)
        as [?|[(c & Hc & Hp)|?]]; [by left| |right; by right].
      right. left. exists c. split; [done|]. cbn. by apply lookup_app_l_Some.
Qed.

(** Nothing cancels a waiting caller. *)
Definition benign (ev : service_event) : Prop := match ev with ECancel _ => False | _ => True end.

(** What a piece keeps that starts no submission. *)
Definition keeps (s s' : WorkerService) (cl : list (WorkerJob * submission)) (os os' : list handler_event)
    (acc : list (WorkerJob * nat)) : Prop :=
  tracked s' cl (os ++ os') acc /\ (accounted s cl acc -> accounted s' cl acc).

Lemma start_keeps s cl os acc : tracked s cl os acc -> keeps s (start max_concurrency s) cl os [] acc.
Proof.
  intros Htr. unfold keeps, start. rewrite app_nil_r. destruct (tasks s) eqn:Ht; [|done].
  split; [|by apply accounted_mono]. eapply tracked_shrink; [done..| |done].
  intros e. unfold entries. cbn. rewrite Ht. cbn. intros [?|He]%elem_of_app; apply elem_of_app; auto.
  exfalso. revert He. clear. induction (Z.to_nat _); cbn; [apply not_elem_of_nil|done].
Qed.

Lemma take_keeps s s' cl os acc i now now' :
  dict_ok (inflight s) -> tracked s cl os acc -> worker_take registry i now now' s = Some s' ->
  keeps s s' cl os (observe s (ETake i now now')) acc.
Proof.
  intros Hok Htr Hs'. unfold keeps, worker_take in *. cbn [observe].
  destruct (tasks s !! i) as [[]|] eqn:Hw; try done.
  destruct (queue s) as [|[job fut] rest] eqn:Hq; [done|].
  destruct (stopping s); [done|].
  assert (Hin : (job, fut) ∈ acc).
  { apply (tr_entries _ _ _ _ Htr). unfold entries. rewrite Hq. by apply elem_of_cons; left. }
  assert (Htr' : tracked (set_queue rest s) cl os acc).
  { eapply tracked_shrink; [done..| |done]. intros e. unfold entries. cbn. rewrite Hq. cbn.
    rewrite elem_of_cons. auto. }
  destruct (registry_validate _ _ _) as [request|e]; injection Hs' as <-.
  - split; [|by apply accounted_mono]. apply tracked_observe.
    + eapply tracked_shrink; [exact Htr|done|done| |done]. intros e. unfold entries. cbn. rewrite Hq. cbn.
      rewrite elem_of_app, elem_of_cons, elem_of_app.
      destruct (running_entries_insert (tasks s) i _ Hw) as (others & Hr & Hins).
      rewrite Hins, Hr. cbn. rewrite elem_of_cons. tauto.
    + intros j request' [= -> _]%list_elem_of_singleton. eauto.
  - rewrite app_nil_r. split; [by apply tracked_failed|]. intros Ha.
    eapply accounted_failed; [exact Htr'|done|]. by apply (accounted_mono s).
Qed.

(** A handler that ends badly, by an error or by cancellation. *)
Lemma handler_failed_keeps s cl os acc i job fut request e now now' :
  dict_ok (inflight s) -> tracked s cl os acc -> tasks s !! i = Some (Running job fut request) ->
  keeps s (worker_failed i job fut e now now' s) cl os [HandlerFailed job] acc.
Proof.
  intros Hok Htr Hw.
  assert (Hin : (job, fut) ∈ acc) by (eapply (tr_entries _ _ _ _ Htr), running_in; exact Hw).
  split; [|by eapply accounted_failed].
  apply tracked_observe; [by apply tracked_failed|]. intros j r. by rewrite list_elem_of_singleton.
Qed.

Lemma finish_keeps s s' cl os acc i out now now' :
  service_ok s -> tracked s cl os acc -> worker_finish registry i out now now' s = Some s' ->
  keeps s s' cl os (observe s (EFinish i out now now')) acc.
Proof.
  intros Hs Htr Hs'. pose proof (so_inflight _ Hs) as Hok. unfold worker_finish in Hs'. cbn [observe].
  destruct (tasks s !! i) as [[|job fut request|]|] eqn:Hw; try done.
  destruct (stopping s); [done|]. injection Hs' as <-.
  destruct (worker_output registry job out) as [output|e]; [|by eapply handler_failed_keeps].
  assert (Hin : (job, fut) ∈ acc) by (eapply (tr_entries _ _ _ _ Htr), running_in; exact Hw).
  split; [by apply tracked_succeeded|]. eapply accounted_succeeded; [done..|]. by eapply running_not_done.
Qed.

Lemma stop_begin_keeps s s' cl os acc now :
  dict_ok (inflight s) -> tracked s cl os acc -> stop_begin now s = Some s' -> keeps s s' cl os [] acc.
Proof.
  intros Hok Htr Hs'. unfold keeps. rewrite app_nil_r. unfold stop_begin in Hs'.
  destruct (stopping s); [done|]. injection Hs' as <-.
  assert (Htr' : tracked (set_queue [] s) cl os acc).
  { eapply tracked_shrink; [done..| |done]. intros e. unfold entries. cbn. rewrite elem_of_app. auto. }
  split.
  - eapply tracked_shrink; [by apply tracked_stop_jobs|done..].
  - intros Ha. eapply (accounted_mono (fold_left (stop_job now) _ (set_queue [] s))); [done|done|].
    eapply accounted_stop_jobs; [exact Htr'| |by apply (accounted_mono s)].
    intros e [He|He]%elem_of_app.
    + unfold dict_values in He. apply list_elem_of_fmap in He as ([k e'] & -> & He).
      apply dict_In_get in He; [|done]. by apply (tr_inflight _ _ _ _ Htr k).
    + apply (tr_entries _ _ _ _ Htr), elem_of_app. auto.
Qed.

Lemma task_cancelled_keeps s s' cl os acc i :
  dict_ok (inflight s) -> tracked s cl os acc -> task_cancelled i s = Some s' ->
  keeps s s' cl os (observe s (ETaskCancelled i)) acc.
Proof.
  intros Hok Htr Hs'. unfold task_cancelled in Hs'. cbn [observe].
  destruct (stopping s); cbn [negb] in Hs'; [|done].
  destruct (tasks s !! i) as [[|job fut request|]|] eqn:Hw; try done; injection Hs' as <-.
  - unfold keeps. rewrite app_nil_r. split; [|by apply accounted_mono].
    eapply tracked_shrink; [exact Htr|done|done| |done]. intros e. by apply entries_set_task.
  - by eapply handler_failed_keeps.
Qed.

Lemma stop_end_keeps s s' cl os acc :
  tracked s cl os acc -> stop_end s = Some s' -> keeps s s' cl os [] acc.
Proof.
  intros Htr Hs'. unfold keeps. rewrite app_nil_r. unfold stop_end in Hs'.
  destruct (stopping s); cbn [andb] in Hs'; [|done].
  destruct (forallb _ _); [|done]. injection Hs' as <-.
  split; [|by apply accounted_mono]. eapply tracked_shrink; [exact Htr|done|done| |done].
  intros e. unfold entries. cbn. rewrite app_nil_r, elem_of_app. auto.
Qed.

Lemma reconcile_keeps s s' cl os acc job_id outcome now r :
  tracked s cl os acc -> reconcile job_id outcome now s = Ok (r, s') -> keeps s s' cl os [] acc.
Proof.
  intros Htr Hs'. unfold keeps. rewrite app_nil_r. unfold reconcile in Hs'.
  destruct (dict_get job_id (reconciliation s)) as [record|]; [|done].
  destruct outcome; [|by injection Hs' as _ <-]. injection Hs' as _ <-. split; [by eapply tracked_shrink|].
  apply accounted_mono; [done|]. intros job. apply settled_mono; [done|].
  intros k Hk. cbn. rewrite dict_get_set. case_decide; eauto.
Qed.

Lemma tracked_step w ev w' os acc :
  service_ok (service w) -> tracked (service w) (clients w) os acc -> step w ev = Some w' ->
  exists acc', tracked (service w') (clients w') (os ++ observe (service w) ev) acc' /\
    (benign ev -> accounted (service w) (clients w) acc -> accounted (service w') (clients w') acc').
Proof.
  intros Hs Htr Hstep. pose proof (so_inflight _ Hs) as Hok.
  assert (Hkeeps : forall s', keeps (service w) s' (clients w) os (observe (service w) ev) acc ->
    exists acc', tracked s' (clients w) (os ++ observe (service w) ev) acc' /\
      (benign ev -> accounted (service w) (clients w) acc -> accounted s' (clients w) acc')).
  { intros s' [? ?]. eauto. }
  destruct ev; cbn [service_step] in Hstep;
    try (apply in_service_inv in Hstep as (s' & Hs' & ->); cbn [service clients]; apply Hkeeps);
    try (apply client_piece_inv in Hstep as (job & st & s' & st' & Hc & Hp & ->); cbn [service clients];
         cbn [observe]; rewrite app_nil_r).
  - injection Hs' as <-. by apply start_keeps.
  - destruct (submit _ _ _ _ _ _ _) as [s' status] eqn:Hsub. injection Hstep as <-. cbn [service clients observe].
    rewrite app_nil_r. destruct (submit_tracked _ _ _ _ _ _ _ _ _ Hs Htr Hsub) as (acc' & ? & ?). eauto.
  - exists acc. destruct (resume_tracked _ _ _ _ _ _ _ _ _ _ _ Htr Hc Hp). auto.
  - exists acc. destruct (time_out_tracked _ _ _ _ _ _ _ _ _ Htr Hc Hp). auto.
  - exists acc. split; [by eapply cancel_wait_tracked|done].
  - by eapply take_keeps.
  - by eapply finish_keeps.
  - by eapply stop_begin_keeps.
  - by eapply task_cancelled_keeps.
  - by eapply stop_end_keeps.
  - injection Hs' as <-. destruct (reconcile _ _ _ _) as [[r s']|] eqn:Hr; cbn [snd].
    + by eapply reconcile_keeps.
    + unfold keeps. by rewrite app_nil_r.
Qed.
End spec.
