(* ===== verification/WorkerProps.v ===== *)
(** * Properties of the worker service

    Theorems about every run of the service ([Worker.v]), by the invariants of
    [WorkerSpec.v], with an executable example service. *)

From S2P Require Import Prelude Dict Pystr Json Models Errors Registry Circuit Worker WorkerSpec.
Open Scope Z_scope.

Section runs.
Context {H : Type} `{Rendering} (hmac_sha256 : string -> string -> string).
Context (registry : ToolRegistry H) (secret : string).
Context (max_concurrency queue_size failure_threshold reset_timeout : Z).
Abbreviation steps := (service_run hmac_sha256 registry secret max_concurrency queue_size).
Abbreviation seen := (observations hmac_sha256 registry secret max_concurrency queue_size).
Abbreviation start_world := (initial_world failure_threshold reset_timeout).

Lemma initial_ok : service_ok hmac_sha256 registry secret (service start_world).
Proof. split; cbn; [constructor|split; constructor|constructor]. Qed.

(** What is observed up to an event that cannot happen is that of a run. *)
Lemma observations_prefix events w :
  exists events' w', steps w events' = Some w' /\ seen w events' = seen w events.
Proof.
  revert w. induction events as [|ev events IH]; intros w; [by exists [], w|].
  cbn. destruct (service_step _ _ _ _ _ w ev) as [w1|] eqn:Hs; [|by exists [], w].
  destruct (IH w1) as (events' & w' & Hrun & Hobs). exists (ev :: events'), w'.
  cbn. rewrite Hs. cbn. by rewrite Hrun, Hobs.
Qed.

Definition started_ok (o : handler_event) : Prop :=
  match o with
  | HandlerStarted job request =>
      authenticate hmac_sha256 secret job = Ok tt /\
      registry_validate registry (wj_tool_name job) (wj_arguments job) = Ok request
  | _ => True
  end.

Lemma observe_started s ev :
  service_ok hmac_sha256 registry secret s -> Forall started_ok (observe registry s ev).
Proof.
  intros [_ [_ Hall] _]. destruct ev; cbn; try constructor.
  - destruct (tasks s !! w) as [[]|]; try constructor. destruct (queue s) as [|[job fut] rest] eqn:Hq; [constructor|].
    destruct (registry_validate registry _ _) eqn:Hv; [|constructor]. constructor; [|constructor].
    split; [|done]. rewrite Forall_forall in Hall. apply (Hall (job, fut)).
    unfold entries. rewrite Hq. by apply elem_of_cons; left.
  - destruct (tasks s !! w) as [[]|]; try constructor. destruct (worker_output _ _ _); by constructor.
  - destruct (tasks s !! w) as [[]|]; try constructor; by constructor.
Qed.

Lemma run_flight events w :
  steps start_world events = Some w ->
  service_ok hmac_sha256 registry secret (service w) /\
  (forall k, phases k NotRunning (seen start_world events) = Some (phase_of k (service w))) /\
  Forall started_ok (seen start_world events).
Proof.
  apply (run_invariant hmac_sha256 registry secret max_concurrency queue_size (fun _ => True)
           (fun w os => service_ok hmac_sha256 registry secret (service w) /\
              (forall k, phases k NotRunning os = Some (phase_of k (service w))) /\
              Forall started_ok os)) with (os := []).
  - intros w0 os ev w' _ (Hs & Hp & Hst) Hstep.
    destruct (service_step_ok _ _ _ _ _ _ _ _ Hs Hstep) as [Hs' Hp'].
    split_and!; [done| |].
    + intros k. rewrite phases_app, Hp. cbn. apply Hp'.
    + apply Forall_app. split; [done|]. by apply observe_started.
  - by apply Forall_true.
  - split_and!; [apply initial_ok|done|constructor].
Qed.

Lemma initial_tracked : tracked (service start_world) (clients start_world) [] [].
Proof.
  split; cbn; try done; try constructor; try (intros; by exfalso; eapply not_elem_of_nil).
Qed.

Lemma run_tracked (strict : bool) events w :
  Forall (fun ev => strict = true -> benign ev) events -> steps start_world events = Some w ->
  exists acc, tracked (service w) (clients w) (seen start_world events) acc /\
    (strict = true -> accounted (service w) (clients w) acc).
Proof.
  intros Hben Hrun.
  refine (proj2 (run_invariant hmac_sha256 registry secret max_concurrency queue_size
           (fun ev => strict = true -> benign ev)
           (fun w os => service_ok hmac_sha256 registry secret (service w) /\
              exists acc, tracked (service w) (clients w) os acc /\
                (strict = true -> accounted (service w) (clients w) acc))
           _ events start_world [] w Hben _ Hrun)).
  - intros w0 os ev w' Hev (Hs & acc & Htr & Ha) Hstep.
    split; [by apply (service_step_ok _ _ _ _ _ _ _ _ Hs Hstep)|].
    destruct (tracked_step _ _ _ _ _ _ _ _ _ _ Hs Htr Hstep) as (acc' & Htr' & Ha').
    exists acc'. split; [done|]. auto.
  - split; [apply initial_ok|]. exists []. split; [apply initial_tracked|].
    intros _ j f Hin. by apply not_elem_of_nil in Hin.
Qed.
End runs.

(* ------------------------------------------------------------------ *)
(** ** An example service *)

Module example.
#[export] Instance rendering : Rendering := {| iso_datetime := print_int; float_text _ := "1.5" |}.

Definition hmac (secret message : string) : string := secret +:+ message.
Definition any_model : ModelClass :=
  {| model_validate v := match v with JObj kvs => Ok {| fields := kvs |} | _ => Err [] end;
     model_json_schema := [] |}.
Definition shell : ToolDefinition unit :=
  {| td_name := "shell_exec"; td_description := ""; td_risk_class := MUTATING;
     td_input_model := any_model; td_output_model := any_model; td_handler := tt; td_idempotent := false |}.
Definition registry : ToolRegistry unit := {| definitions := [("shell_exec", shell)] |}.

(** The job of the call ["call"], and a second request for it. *)
Definition job (job_id : string) : WorkerJob :=
  make_job hmac "secret" "shell_exec" [("command", JStr "touch x")] MUTATING "call" "acme" None job_id 1.

Definition run : world -> list service_event -> option world :=
  service_run hmac registry "secret" 1 8.
Definition seen : world -> list service_event -> list handler_event :=
  observations hmac registry "secret" 1 8.
Definition begin_world : world := initial_world 3 30000000.

(** A mutation runs and succeeds; its output is reused by a second request. *)
Definition success_events : list service_event :=
  [EStart; ESubmit (job "1") 0 0; ETake 0 1 1; EFinish 0 (Ok (JObj [("exit_code", JInt 0)])) 2 2;
   EResume 0 3 3; ESubmit (job "2") 4 4].
End example.
#[local] Existing Instance example.rendering.

(* ------------------------------------------------------------------ *)
(** ** Properties *)

Section properties.
Context {H : Type} `{Rendering} (hmac_sha256 : string -> string -> string).
Context (registry : ToolRegistry H) (secret : string).
Context (max_concurrency queue_size failure_threshold reset_timeout : Z).
Abbreviation steps := (service_run hmac_sha256 registry secret max_concurrency queue_size).
Abbreviation seen := (observations hmac_sha256 registry secret max_concurrency queue_size).
Abbreviation start_world := (initial_world failure_threshold reset_timeout).

(** C17: for any number of workers and callers and any order of events, the
    handlers run for one idempotency key follow each other, none is started after
    one succeeded, and each is started with the validated arguments of a job whose
    signature verifies under the service's secret. *)
Theorem handlers_single_flight (events : list service_event) :
  (forall key, is_Some (phases key NotRunning (seen start_world events))) /\
  (forall job request, HandlerStarted job request ∈ seen start_world events ->
     authenticate hmac_sha256 secret job = Ok tt /\
     registry_validate registry (wj_tool_name job) (wj_arguments job) = Ok request).
Proof.
  destruct (observations_prefix hmac_sha256 registry secret max_concurrency queue_size events start_world)
    as (events' & w & Hrun & <-).
  destruct (run_flight _ _ _ _ _ _ _ _ _ Hrun) as (_ & Hp & Hst). split.
  - intros k. rewrite Hp. eauto.
  - intros job request Hin. rewrite Forall_forall in Hst. apply (Hst _ Hin).
Qed.

(** A submission returns a successful result only if the handler of a job
    with the same idempotency key returned it, and completed results are never
    replaced: a result stored for a key is that of a run of the key. *)
Theorem results_come_from_runs (events : list service_event) (w : world)
    (Hrun : steps start_world events = Some w) :
  (forall c job r, clients w !! c = Some (job, Returned (Ok r)) ->
     from_key (seen start_world events) (wj_idempotency_key job) r) /\
  (forall key r, dict_get key (idempotent_results (service w)) = Some r <->
     phases key NotRunning (seen start_world events) = Some (Succeeded r)).
Proof.
  destruct (run_tracked hmac_sha256 registry secret max_concurrency queue_size
    failure_threshold reset_timeout false events w) as (acc & Htr & _); [by apply Forall_true|done|].
  destruct (run_flight _ _ _ _ _ _ _ _ _ Hrun) as (_ & Hp & _). split.
  - intros c job r Hc. apply (tr_clients _ _ _ _ Htr c job _ Hc).
  - intros k r. rewrite Hp. unfold phase_of. destruct (dict_get k _) as [r'|]; [naive_solver|].
    split; [done|]. case_decide; done.
Qed.

(** C18: no mutation is lost.  As long as no waiting caller is cancelled, every
    job whose handler was started either succeeded with its result stored, is in
    the reconciliation records, or its submitter is still waiting. *)
Theorem mutations_accounted_for (events : list service_event) (w : world)
    (Hbenign : Forall benign events) (Hrun : steps start_world events = Some w) job request :
  HandlerStarted job request ∈ seen start_world events ->
  wj_risk_class job = READ_ONLY \/
  (exists r, dict_get (wj_idempotency_key job) (idempotent_results (service w)) = Some r /\
     wr_job_id r = wj_job_id job) \/
  is_Some (dict_get (wj_job_id job) (reconciliation (service w))) \/
  (exists c fut, clients w !! c = Some (job, WaitOwn fut) \/ clients w !! c = Some (job, TimedOut)).
Proof.
  intros Hin. destruct (run_tracked hmac_sha256 registry secret max_concurrency queue_size
    failure_threshold reset_timeout true events w) as (acc & Htr & Ha); [|done|].
  { eapply Forall_impl; [exact Hbenign|]. auto. }
  destruct (tr_started _ _ _ _ Htr job request Hin) as [fut Hacc].
  destruct (Ha eq_refl job fut Hacc) as [[Hro|[?|?]]|[(c & Hc & _)|(c & Hc)]]; [|auto..| |].
  - left. by apply bool_decide_eq_true in Hro.
  - right. right. right. exists c, fut. auto.
  - right. right. right. exists c, fut. auto.
Qed.
End properties.

(** Two different messages with the same code under the secret. *)
Definition mac_collision (hmac_sha256 : string -> string -> string) (secret : string) : Prop :=
  exists m m', m <> m' /\ hmac_sha256 secret m = hmac_sha256 secret m'.

Definition same_request `{Rendering} (j j' : WorkerJob) : Prop :=
  wj_job_id j = wj_job_id j' /\ wj_call_id j = wj_call_id j' /\ wj_tenant_id j = wj_tenant_id j' /\
  wj_tool_name j = wj_tool_name j' /\ wj_risk_class j = wj_risk_class j' /\
  json_same (JObj (wj_arguments j)) (JObj (wj_arguments j')) /\
  wj_idempotency_key j = wj_idempotency_key j' /\
  iso_datetime (wj_submitted_at j) = iso_datetime (wj_submitted_at j').

Lemma authenticate_ok `{Rendering} hmac_sha256 secret job :
  authenticate hmac_sha256 secret job = Ok tt ->
  wj_auth_token job = hmac_sha256 secret (canonical_job_payload job).
Proof.
  unfold authenticate, compare_digest. destruct (_ && _); [|done].
  destruct (String.eqb_spec (sign_job hmac_sha256 (with_token "" job) secret) (wj_auth_token job)) as [<-|];
    [|done]. intros _. done.
Qed.

Lemma job_payload_wf `{Rendering} float_norm job :
  json_wf float_norm (JObj (wj_arguments job)) = true ->
  json_wf float_norm (JObj (job_payload job)) = true.
Proof.
  intros Hwf. cbn [json_wf forallb job_payload snd]. apply andb_true_iff. split; [done|].
  cbn [forallb snd json_wf] in *. by rewrite Hwf.
Qed.

Lemma payload_same `{Rendering} j j' :
  json_same (JObj (job_payload j)) (JObj (job_payload j')) -> same_request j j'.
Proof.
  intros Hsame.
  assert (Hkeys : forall job, dict_ok (job_payload job)).
  { intros job. apply (bool_decide_unpack (NoDup (dict_keys (job_payload job)))). done. }
  assert (Hget := fun k => json_same_get k _ _ (Hkeys j) (Hkeys j') Hsame).
  unfold same_request, json_same.
  pose proof (Hget "job_id" : Some (JStr (wj_job_id j)) = Some (JStr (wj_job_id j'))).
  pose proof (Hget "call_id" : Some (JStr (wj_call_id j)) = Some (JStr (wj_call_id j'))).
  pose proof (Hget "tenant_id" : Some (JStr (wj_tenant_id j)) = Some (JStr (wj_tenant_id j'))).
  pose proof (Hget "tool_name" : Some (JStr (wj_tool_name j)) = Some (JStr (wj_tool_name j'))).
  pose proof (Hget "idempotency_key" : Some (JStr (wj_idempotency_key j)) = Some (JStr (wj_idempotency_key j'))).
  pose proof (Hget "risk_class" : Some (JStr (value (wj_risk_class j))) = Some (JStr (value (wj_risk_class j')))).
  pose proof (Hget "arguments" : Some (sort_keys (JObj (wj_arguments j))) = Some (sort_keys (JObj (wj_arguments j')))).
  pose proof (Hget "submitted_at" : Some (JStr (iso_datetime (wj_submitted_at j))) =
                                    Some (JStr (iso_datetime (wj_submitted_at j')))).
  split_and!; try congruence. apply value_inj. congruence.
Qed.

(** C31: a signature covers every field of a job.  If two jobs carry the same
    token and both are accepted, they are the same request (up to the order of
    the arguments' keys), unless two messages share an HMAC under the secret. *)
Theorem signature_covers_job `{Rendering} (hmac_sha256 : string -> string -> string)
    (float_norm : string -> string) (secret : string) (j j' : WorkerJob)
    (Hwf : json_wf float_norm (JObj (wj_arguments j)) = true)
    (Hwf' : json_wf float_norm (JObj (wj_arguments j')) = true) :
  authenticate hmac_sha256 secret j = Ok tt -> authenticate hmac_sha256 secret j' = Ok tt ->
  wj_auth_token j = wj_auth_token j' ->
  same_request j j' \/ mac_collision hmac_sha256 secret.
Proof.
  intros Hj%authenticate_ok Hj'%authenticate_ok Htok.
  destruct (decide (canonical_job_payload j = canonical_job_payload j')) as [Heq|Hne].
  - left. apply payload_same. eapply dumps_compact_inj; [..|exact Heq]; by apply job_payload_wf.
  - right. exists (canonical_job_payload j), (canonical_job_payload j'). split; [done|]. congruence.
Qed.

(** The state after some events of the example service. *)
Definition after (events : list service_event) : option world := example.run example.begin_world events.
Definition outcomes (w : world) : list submission := map snd (clients w).

(** A mutation whose caller is cancelled while it runs, then a shutdown. *)
Definition cancel_events : list service_event :=
  [EStart; ESubmit (example.job "1") 0 0; ETake 0 1 1; ECancel 0; EStop 2; ETaskCancelled 0; EStopped].

(** A second request joins a mutation that ends in doubt. *)
Definition duplicate_events : list service_event :=
  [EStart; ESubmit (example.job "1") 0 0; ESubmit (example.job "2") 0 0; ETake 0 1 1;
   EFinish 0 (Err (EGateway (needs_review_error "unknown outcome"))) 2 2; EResume 0 3 3; EResume 1 3 3].

(** A request is repeated while the timed out job still runs; a queued request is
    repeated after the service was stopped and started again. *)
Definition timeout_events : list service_event :=
  [EStart; ESubmit (example.job "1") 0 0; ETake 0 1 1; ETimeout 0; EResume 0 2 2;
   ESubmit (example.job "2") 3 3; EResume 1 4 4].
Definition restart_events : list service_event :=
  [EStart; ESubmit (example.job "1") 0 0; EStop 1; EResume 0 1 1; ETaskCancelled 0; EStopped; EStart;
   ESubmit (example.job "2") 3 3; EResume 1 4 4].

(** A mutation can be lost.  If the caller of a running mutation is cancelled
    and the service is then stopped, the handler is interrupted and nothing is
    left to tell: [stop] skips a job whose future is done, so there is neither a
    result nor a reconciliation record. *)
Theorem cancelled_call_loses_mutation :
  exists w, after cancel_events = Some w /\
    example.seen example.begin_world cancel_events =
      [HandlerStarted (example.job "1") {| fields := wj_arguments (example.job "1") |};
       HandlerFailed (example.job "1")] /\
    wj_risk_class (example.job "1") = MUTATING /\
    tasks (service w) = [] /\ outcomes w = [Returned (Err cancelled_error)] /\
    idempotent_results (service w) = [] /\ reconciliation (service w) = [].
Proof. eexists. split; [vm_compute; reflexivity|]. split_and!; vm_compute; reflexivity. Qed.

(** The outcome of a duplicate is not checked.  When a mutation ends in
    doubt, its submitter is told that it needs review, and a second request with
    the same key, which joined it, gets the failed result as if it were one; the
    in-process client then reports an ordinary tool failure. *)
Theorem duplicate_result_unchecked :
  exists w r, after duplicate_events = Some w /\
    outcomes w = [Returned (Err (needs_review "unknown outcome")); Returned (Ok r)] /\
    wr_outcome r = "failed" /\ wr_error_code r = Some "needs_review" /\
    in_process_output (Ok r) = Err (tool_failed "unknown outcome").
Proof. eexists _, _. split; [vm_compute; reflexivity|]. split_and!; vm_compute; reflexivity. Qed.

(** A repeated request gets a stale outcome.  While a timed out job still
    runs, a request with its key is cancelled (which no handler of the gateway
    catches as an error); and a job drained by [stop] keeps its key reserved, so
    after a restart a request with the key fails although a worker is idle. *)
Theorem retries_get_stale_outcome :
  (exists w, after timeout_events = Some w /\
     outcomes w = [Returned (Err (needs_review "Mutation outcome is uncertain; reconciliation required"));
                   Returned (Err cancelled_error)] /\
     is_exception cancelled_error = false) /\
  (exists w, after restart_events = Some w /\
     outcomes w = [Returned (Err (needs_review "Worker stopped; mutation outcome requires review"));
                   Returned (Err (needs_review "Worker stopped; mutation outcome requires review"))] /\
     tasks (service w) = [Idle] /\ queue (service w) = [] /\
     example.seen example.begin_world restart_events = []).
Proof. split; eexists; (split; [vm_compute; reflexivity|]); split_and!; vm_compute; reflexivity. Qed.

(* ------------------------------------------------------------------ *)
(** ** Witnesses *)

(** The worlds the events lead to. *)
Definition success_world : world :=
  Eval vm_compute in default example.begin_world (after example.success_events).
Definition timeout_world : world :=
  Eval vm_compute in default example.begin_world (after timeout_events).
Definition reused : WorkerResult :=
  success_result (example.job "1") {| fields := [("exit_code", JInt 0)] |} 2.

Lemma results_come_from_runs_witness :
  service_run example.hmac example.registry "secret" 1 8 (initial_world 3 30000000)
    example.success_events = Some success_world /\
  outcomes success_world = [Returned (Ok reused); Returned (Ok reused)] /\
  from_key (observations example.hmac example.registry "secret" 1 8 (initial_world 3 30000000)
              example.success_events)
    (wj_idempotency_key (example.job "2")) reused.
Proof.
  assert (Hw : service_run example.hmac example.registry "secret" 1 8 (initial_world 3 30000000)
    example.success_events = Some success_world) by (vm_compute; reflexivity).
  split; [exact Hw|]. split; [vm_compute; reflexivity|].
  apply (proj1 (results_come_from_runs example.hmac example.registry "secret" 1 8 3 30000000
    example.success_events success_world Hw) 1%nat).
  vm_compute. reflexivity.
Defined.

Lemma mutations_accounted_for_witness :
  service_run example.hmac example.registry "secret" 1 8 (initial_world 3 30000000)
    timeout_events = Some timeout_world /\
  (wj_risk_class (example.job "1") = READ_ONLY \/
   (exists r, dict_get (wj_idempotency_key (example.job "1")) (idempotent_results (service timeout_world)) = Some r /\
      wr_job_id r = wj_job_id (example.job "1")) \/
   is_Some (dict_get (wj_job_id (example.job "1")) (reconciliation (service timeout_world))) \/
   (exists c fut, clients timeout_world !! c = Some (example.job "1", WaitOwn fut) \/
      clients timeout_world !! c = Some (example.job "1", TimedOut))).
Proof.
  assert (Hw : service_run example.hmac example.registry "secret" 1 8 (initial_world 3 30000000)
    timeout_events = Some timeout_world) by (vm_compute; reflexivity).
  split; [exact Hw|].
  apply (mutations_accounted_for example.hmac example.registry "secret" 1 8 3 30000000
    timeout_events timeout_world) with (request := {| fields := wj_arguments (example.job "1") |}).
  - repeat constructor.
  - exact Hw.
  - vm_compute. constructor.
Defined.

Lemma signature_covers_job_witness :
  let j := example.job "1" in
  let j' := with_token (wj_auth_token j) (example.job "1") in
  authenticate example.hmac "secret" j = Ok tt /\ authenticate example.hmac "secret" j' = Ok tt /\
  (same_request j j' \/ mac_collision example.hmac "secret").
Proof.
  split; [vm_compute; reflexivity|]. split; [vm_compute; reflexivity|].
  apply (signature_covers_job example.hmac id "secret"); vm_compute; reflexivity.
Defined.
