(* ===== verification/WorkerJobs.v ===== *)
(** * Where the jobs of the workers come from

    Two more invariants of every run of the worker service, for its clients: a
    handler is started at most once for each submission, on the submitted job; and
    a result with an output is a success.  [workers_ok] collects what a client may
    rely on. *)

From S2P Require Import Prelude Dict Pystr Json Models Errors Registry Circuit Worker WorkerSpec WorkerProps.
Open Scope Z_scope.

(** The jobs of the handlers that were started. *)
Definition started_job (o : handler_event) : option WorkerJob :=
  match o with HandlerStarted job _ => Some job | _ => None end.
Definition starts (os : list handler_event) : list WorkerJob := omap started_job os.

Lemma starts_app os os' : starts (os ++ os') = starts os ++ starts os'.
Proof. apply omap_app. Qed.

Lemma starts_in os job request : HandlerStarted job request ∈ os -> job ∈ starts os.
Proof. intros Hin. apply list_elem_of_omap. eauto. Qed.

Definition count (P : WorkerJob -> bool) (l : list WorkerJob) : nat := length (List.filter P l).
#[global] Arguments count : simpl never.

Lemma count_app P l l' : count P (l ++ l') = (count P l + count P l')%nat.
Proof. unfold count. by rewrite List.filter_app, length_app. Qed.
Lemma count_cons P x l : count P (x :: l) = (count P [x] + count P l)%nat.
Proof. apply (count_app P [x]). Qed.
Lemma count_in P x l : x ∈ l -> P x = true -> (1 <= count P l)%nat.
Proof.
  induction 1 as [|x y l _ IH]; intros Hp; rewrite count_cons; [unfold count at 1; cbn; rewrite Hp; cbn; lia|].
  specialize (IH Hp). lia.
Qed.

(** A result with an output is a success. *)
Definition plain (r : WorkerResult) : Prop := wr_outcome r = "succeeded" \/ wr_output r = None.
Definition plain_future (f : future) : Prop := match f with Resolved r => plain r | _ => True end.
Definition plain_status (st : submission) : Prop := match st with Returned (Ok r) => plain r | _ => True end.
Record results_plain (s : WorkerService) : Prop := {
  rp_futures : Forall plain_future (futures s);
  rp_results : Forall (fun kr => plain kr.2) (idempotent_results s)
}.

Section jobs.
Context {H : Type} `{Rendering} (hmac_sha256 : string -> string -> string).
Context (registry : ToolRegistry H) (secret : string) (max_concurrency queue_size : Z).
Abbreviation step := (service_step hmac_sha256 registry secret max_concurrency queue_size).

(* ------------------------------------------------------------------ *)
(** ** Results *)

Lemma plain_resolve fut f s : plain_future f -> results_plain s -> results_plain (resolve fut f s).
Proof.
  intros Hf [H1 H2]. unfold resolve. destruct (is_pending _); [|done]. split; [|done]. by apply Forall_insert.
Qed.

Lemma plain_same s s' :
  futures s' = futures s -> idempotent_results s' = idempotent_results s -> results_plain s -> results_plain s'.
Proof. intros Hf Hr [H1 H2]. by split; rewrite ?Hf, ?Hr. Qed.

(** A task is settled and its reservation removed around a change of the results. *)
Ltac plain_frame :=
  lazymatch goal with
  | |- results_plain (set_task _ _ (pop_inflight _ ?s)) => apply (plain_same s); [done|done|]
  end.

Lemma plain_failed w job fut e now now' s :
  results_plain s -> results_plain (worker_failed w job fut e now now' s).
Proof.
  intros Hs. unfold worker_failed. destruct (is_exception e); [|by apply (plain_same s)].
  plain_frame. apply plain_resolve; [by right|].
  destruct (read_only job); [done|by apply (plain_same s)].
Qed.

Lemma plain_stored k r (d : dict string WorkerResult) :
  plain r -> Forall (fun kr => plain kr.2) d -> Forall (fun kr => plain kr.2) (dict_set k r d).
Proof.
  intros Hr. induction 1 as [|[k' r'] d Hr' Hd IH]; cbn.
  - by apply Forall_cons.
  - case_decide; by apply Forall_cons.
Qed.

Lemma plain_succeeded w job fut output now s :
  results_plain s -> results_plain (worker_succeeded w job fut output now s).
Proof.
  intros [H1 H2]. unfold worker_succeeded. plain_frame.
  apply plain_resolve; [by left|]. split; [done|]. apply plain_stored; [by left|done].
Qed.

Lemma plain_stop_jobs now es s : results_plain s -> results_plain (fold_left (stop_job now) es s).
Proof.
  revert s. induction es as [|[job fut] es IH]; intros s Hs; cbn; [done|]. apply IH. unfold stop_job.
  destruct (is_pending _); [|done]. destruct (negb _); apply plain_resolve; try done; by apply (plain_same s).
Qed.

Lemma plain_submit job now now' s s' status :
  submit hmac_sha256 secret queue_size job now now' s = (s', status) -> results_plain s ->
  results_plain s' /\ plain_status status.
Proof.
  intros Hsub Hs. pose proof Hs as [H1 H2]. unfold submit in Hsub.
  repeat (cases_in Hsub; simplify_eq/=); try done.
  - split; [done|]. rewrite Forall_forall in H2. eapply (H2 (_, _)), dict_get_In. eassumption.
  - split; [|done]. split; [|done]. apply Forall_app. by repeat constructor.
  - split; [|done]. split; [|done]. apply Forall_app. by repeat constructor.
Qed.

Lemma plain_resume job status now now' s s' status' :
  resume job status now now' s = Some (s', status') -> results_plain s ->
  results_plain s' /\ plain_status status'.
Proof.
  intros Hr Hs. pose proof Hs as [H1 _]. rewrite Forall_lookup in H1.
  destruct status as [fut|fut| |r]; cbn in Hr; [| | |done].
  - destruct (futures s !! fut) as [[|r|e|]|] eqn:Hf; simplify_eq; split; try done. exact (H1 _ _ Hf).
  - destruct (futures s !! fut) as [[|r|e|]|] eqn:Hf; simplify_eq; try (split; done).
    unfold submit_result in Hr. destruct (negb _) eqn:Ho; simplify_eq; (split; [by apply (plain_same s)|]); [done|].
    left. by apply negb_false_iff, String.eqb_eq in Ho.
  - unfold submit_timeout in Hr. simplify_eq. split; [|done]. apply (plain_same s); by destruct (read_only job).
Qed.

(* ------------------------------------------------------------------ *)
(** ** Jobs *)

(** The jobs started, queued and submitted: none comes from nowhere. *)
Definition jobs_ok (w : world) (os : list handler_event) : Prop :=
  forall P, (count P (starts os) + count P (map fst (queue (service w))) <= count P (map fst (clients w)))%nat.

Lemma queue_kept s s' : queue s' = queue s -> forall P, count P (map fst (queue s')) = count P (map fst (queue s)).
Proof. by intros ->. Qed.

Lemma submit_queue job now now' s s' status :
  submit hmac_sha256 secret queue_size job now now' s = (s', status) ->
  queue s' = queue s \/ exists fut, queue s' = queue s ++ [(job, fut)].
Proof. intros Hsub. unfold submit in Hsub. repeat (cases_in Hsub; simplify_eq/=); eauto. Qed.

Lemma stop_queue now s s' : stop_begin now s = Some s' -> queue s' = [].
Proof.
  unfold stop_begin. destruct (stopping s); [done|]. intros [= <-].
  by destruct (stop_jobs_quiet hmac_sha256 secret now (dict_values (inflight s) ++ queue s) (set_queue [] s)) as (Hq & _).
Qed.

Lemma take_queue i now now' s s' :
  worker_take registry i now now' s = Some s' ->
  exists job fut rest, queue s = (job, fut) :: rest /\ queue s' = rest /\
    (starts (observe registry s (ETake i now now')) = [] \/
     starts (observe registry s (ETake i now now')) = [job]).
Proof.
  unfold worker_take, observe. destruct (tasks s !! i) as [[]|]; try done.
  destruct (queue s) as [|[job fut] rest]; [done|]. destruct (stopping s); [done|].
  destruct (registry_validate _ _ _) as [request|e]; intros [= <-]; exists job, fut, rest; (split; [done|split]); auto.
  destruct (worker_failed_fields i job fut e now now' (set_queue rest s)) as (t & _ & Hq & _). by rewrite Hq.
Qed.

(** No other event starts a handler or touches the queue. *)
Lemma finish_queue i out now now' s s' :
  worker_finish registry i out now now' s = Some s' ->
  queue s' = queue s /\ starts (observe registry s (EFinish i out now now')) = [].
Proof.
  unfold worker_finish, observe. destruct (tasks s !! i) as [[|job fut request|]|]; try done.
  destruct (stopping s); [done|]. destruct (worker_output registry job out) as [output|e]; intros [= <-]; (split; [|done]).
  - by destruct (worker_succeeded_fields i job fut output now s) as (Hq & _).
  - by destruct (worker_failed_fields i job fut e now now' s) as (t & _ & Hq & _).
Qed.
Lemma cancelled_queue i s s' :
  task_cancelled i s = Some s' ->
  queue s' = queue s /\ starts (observe registry s (ETaskCancelled i)) = [].
Proof.
  unfold task_cancelled, observe. destruct (negb _); [done|].
  by destruct (tasks s !! i) as [[|job fut request|]|]; intros [= <-].
Qed.

Lemma piece_jobs w c piece w' os :
  client_piece w c piece = Some w' ->
  (forall job st s' st', piece job st (service w) = Some (s', st') -> quiet (service w) s') ->
  jobs_ok w os -> jobs_ok w' os.
Proof.
  intros (job & st & s' & st' & Hc & Hp & ->)%client_piece_inv Hq Hjobs P. cbn.
  destruct (Hq _ _ _ _ Hp) as (-> & _). specialize (Hjobs P).
  assert (Hmap : map fst (<[c:=(job, st')]> (clients w)) = map fst (clients w)); [|by rewrite Hmap].
  rewrite list_fmap_insert. cbn. apply list_insert_id. by rewrite list_lookup_fmap, Hc.
Qed.

Lemma jobs_step w ev w' os :
  step w ev = Some w' -> jobs_ok w os -> jobs_ok w' (os ++ observe registry (service w) ev).
Proof.
  intros Hstep Hjobs.
  assert (Hsame : forall s', queue s' = queue (service w) -> starts (observe registry (service w) ev) = [] ->
    jobs_ok {| service := s'; clients := clients w |} (os ++ observe registry (service w) ev)).
  { intros s' Hq Hst P. specialize (Hjobs P). rewrite starts_app, Hst, app_nil_r. cbn. by rewrite Hq. }
  destruct ev; cbn [service_step] in Hstep;
    try (apply in_service_inv in Hstep as (s' & Hs' & ->));
    try (cbn [observe]; rewrite app_nil_r).
  - injection Hs' as <-. intros P. cbn. unfold start. by destruct (tasks (service w)); apply Hjobs.
  - destruct (submit _ _ _ _ _ _ _) as [s' status] eqn:Hsub. injection Hstep as <-. intros P. specialize (Hjobs P).
    cbn. rewrite map_app, count_app. cbn.
    destruct (submit_queue _ _ _ _ _ _ Hsub) as [->|(fut & ->)]; [lia|]. rewrite map_app, count_app. cbn. lia.
  - eapply piece_jobs; [exact Hstep| |exact Hjobs]. intros job st s1 st1 Hp. exact (resume_quiet _ _ _ _ _ _ _ Hp).
  - eapply piece_jobs; [exact Hstep| |exact Hjobs]. intros job st s1 st1 Hp. exact (time_out_quiet _ _ _ _ Hp).
  - eapply piece_jobs; [exact Hstep| |exact Hjobs]. intros job st s1 st1 Hp. exact (cancel_wait_quiet _ _ _ _ Hp).
  - destruct (take_queue _ _ _ _ _ Hs') as (job & fut & rest & Hq & Hq' & Hst). intros P. specialize (Hjobs P).
    rewrite Hq in Hjobs. cbn [map fst] in Hjobs. rewrite count_cons in Hjobs.
    rewrite starts_app, count_app. cbn [service clients]. rewrite Hq'.
    destruct Hst as [-> | ->]; [|lia]. unfold count at 2. cbn. lia.
  - destruct (finish_queue _ _ _ _ _ _ Hs'). by apply Hsame.
  - intros P. specialize (Hjobs P). cbn. rewrite (stop_queue _ _ _ Hs'). unfold count at 2. cbn. lia.
  - destruct (cancelled_queue _ _ _ Hs'). by apply Hsame.
  - unfold stop_end in Hs'. destruct (_ && _); [|done]. by injection Hs' as <-.
  - injection Hs' as <-. unfold reconcile. destruct (dict_get _ _); [|done]. by destruct confirmed_outcome.
Qed.

(** Every running handler was started. *)
Definition task_started (os : list handler_event) (t : worker) : Prop :=
  match t with Running job _ _ => job ∈ starts os | _ => True end.

Lemma task_started_mono os os' t : task_started os t -> task_started (os ++ os') t.
Proof. destruct t; cbn; [done| |done]. rewrite starts_app, elem_of_app. auto. Qed.

Lemma running_set s s0 s' i t os :
  quiet (set_task i t s0) s' -> tasks s0 = tasks s -> Forall (task_started os) (tasks s) ->
  task_started os t -> Forall (task_started os) (tasks s').
Proof. intros (_ & -> & _) Hs0 Hall Ht. cbn. rewrite Hs0. by apply Forall_insert. Qed.

Lemma running_failed i job fut e now now' s s0 os :
  tasks s0 = tasks s -> Forall (task_started os) (tasks s) ->
  Forall (task_started os) (tasks (worker_failed i job fut e now now' s0)).
Proof.
  intros Hs0 Hall. destruct (worker_failed_fields i job fut e now now' s0) as (t & Ht & Hq).
  eapply running_set; [exact Hq|exact Hs0|exact Hall|by destruct Ht as [-> | ->]].
Qed.

Lemma running_step w ev w' os :
  step w ev = Some w' -> Forall (task_started os) (tasks (service w)) ->
  Forall (task_started (os ++ observe registry (service w) ev)) (tasks (service w')).
Proof.
  intros Hstep Hall.
  assert (Hall' : Forall (task_started (os ++ observe registry (service w) ev)) (tasks (service w)))
    by (eapply Forall_impl; [exact Hall|]; intros t; apply task_started_mono).
  clear Hall. set (os' := os ++ observe registry (service w) ev) in *.
  assert (Hpiece : forall c piece, client_piece w c piece = Some w' ->
     (forall job st s' st', piece job st (service w) = Some (s', st') -> quiet (service w) s') ->
     Forall (task_started os') (tasks (service w'))).
  { intros c piece (job & st & s' & st' & _ & Hp & ->)%client_piece_inv Hq. cbn.
    by destruct (Hq _ _ _ _ Hp) as (_ & -> & _). }
  destruct ev; cbn [service_step] in Hstep;
    try (apply in_service_inv in Hstep as (s' & Hs' & ->); cbn [service]).
  - injection Hs' as <-. unfold start. destruct (tasks (service w)) eqn:Ht; [by apply Forall_replicate|by rewrite Ht].
  - destruct (submit _ _ _ _ _ _ _) as [s' status] eqn:Hsub. injection Hstep as <-. cbn [service].
    assert (Ht : tasks s' = tasks (service w)); [|by rewrite Ht].
    unfold submit in Hsub. repeat (cases_in Hsub; simplify_eq/=); done.
  - eapply Hpiece; [exact Hstep|]. intros job st s1 st1 Hp. exact (resume_quiet _ _ _ _ _ _ _ Hp).
  - eapply Hpiece; [exact Hstep|]. intros job st s1 st1 Hp. exact (time_out_quiet _ _ _ _ Hp).
  - eapply Hpiece; [exact Hstep|]. intros job st s1 st1 Hp. exact (cancel_wait_quiet _ _ _ _ Hp).
  - unfold worker_take in Hs'. subst os'. cbn [observe] in *. destruct (tasks (service w) !! w0) as [[]|]; try done.
    destruct (queue (service w)) as [|[job fut] rest]; [done|]. destruct (stopping (service w)); [done|].
    destruct (registry_validate _ _ _) as [request|e]; injection Hs' as <-; [|by eapply running_failed].
    apply Forall_insert; [done|]. cbn. rewrite starts_app, elem_of_app. right. by apply elem_of_cons; left.
  - unfold worker_finish in Hs'. destruct (tasks (service w) !! w0) as [[|job fut request|]|]; try done.
    destruct (stopping (service w)); [done|].
    destruct (worker_output registry job out) as [output|e]; injection Hs' as <-; [|by eapply running_failed].
    destruct (worker_succeeded_fields w0 job fut output now (service w)) as (_ & -> & _). by apply Forall_insert.
  - unfold stop_begin in Hs'. destruct (stopping (service w)); [done|]. injection Hs' as <-.
    destruct (stop_jobs_quiet hmac_sha256 secret now (dict_values (inflight (service w)) ++ queue (service w))
      (set_queue [] (service w))) as (_ & Ht & _). cbn. by rewrite Ht.
  - unfold task_cancelled in Hs'. destruct (negb _); [done|].
    destruct (tasks (service w) !! w0) as [[|job fut request|]|]; try done; injection Hs' as <-.
    + by apply Forall_insert.
    + by eapply running_failed.
  - unfold stop_end in Hs'. destruct (_ && _); [|done]. injection Hs' as <-. constructor.
  - injection Hs' as <-. unfold reconcile. destruct (dict_get _ _); [|done]. by destruct confirmed_outcome.
Qed.

(* ------------------------------------------------------------------ *)
(** ** What a client relies on *)

Record workers_ok (w : world) (os : list handler_event) : Prop := {
  wo_service : service_ok hmac_sha256 registry secret (service w);
  wo_phases k : phases k NotRunning os = Some (phase_of k (service w));
  wo_started : Forall (started_ok hmac_sha256 registry secret) os;
  wo_tracked : exists acc, tracked (service w) (clients w) os acc;
  wo_jobs : jobs_ok w os;
  wo_running : Forall (task_started os) (tasks (service w));
  wo_plain : results_plain (service w) /\ Forall (fun c => plain_status c.2) (clients w)
}.

Lemma piece_plain w c piece w' :
  client_piece w c piece = Some w' ->
  (forall job st s' st', piece job st (service w) = Some (s', st') -> results_plain (service w) ->
     results_plain s' /\ plain_status st') ->
  results_plain (service w) /\ Forall (fun c => plain_status c.2) (clients w) ->
  results_plain (service w') /\ Forall (fun c => plain_status c.2) (clients w').
Proof.
  intros (job & st & s' & st' & Hc & Hp & ->)%client_piece_inv Hq [Hs Hcl]. cbn.
  destruct (Hq _ _ _ _ Hp Hs) as [Hs' Hst']. split; [done|]. by apply Forall_insert.
Qed.

Lemma plain_step w ev w' :
  step w ev = Some w' -> results_plain (service w) /\ Forall (fun c => plain_status c.2) (clients w) ->
  results_plain (service w') /\ Forall (fun c => plain_status c.2) (clients w').
Proof.
  intros Hstep Hp. pose proof Hp as [Hs Hcl].
  destruct ev; cbn [service_step] in Hstep;
    try (apply in_service_inv in Hstep as (s' & Hs' & ->); cbn [service clients]; split; [|done]).
  - injection Hs' as <-. unfold start. destruct (tasks (service w)); [by apply (plain_same (service w))|done].
  - destruct (submit _ _ _ _ _ _ _) as [s' status] eqn:Hsub. injection Hstep as <-.
    destruct (plain_submit _ _ _ _ _ _ Hsub Hs). split; [done|]. apply Forall_app. by repeat constructor.
  - eapply piece_plain; [exact Hstep| |done]. intros job st s1 st1. apply plain_resume.
  - eapply piece_plain; [exact Hstep| |done]. intros job st s1 st1.
    destruct st; intros [= <- <-]. intros. split; [by apply plain_resolve|done].
  - eapply piece_plain; [exact Hstep| |done]. intros job st s1 st1.
    destruct st; intros [= <- <-]; intros; (split; [|done]); try done; by apply plain_resolve.
  - unfold worker_take in Hs'. destruct (tasks _ !! _) as [[]|]; try done.
    destruct (queue _) as [|[job fut] rest]; [done|]. destruct (stopping _); [done|].
    destruct (registry_validate _ _ _); injection Hs' as <-; [by apply (plain_same (service w))|].
    apply plain_failed. by apply (plain_same (service w)).
  - unfold worker_finish in Hs'. destruct (tasks _ !! _) as [[]|]; try done. destruct (stopping _); [done|].
    injection Hs' as <-. destruct (worker_output _ _ _); [by apply plain_succeeded|by apply plain_failed].
  - unfold stop_begin in Hs'. destruct (stopping _); [done|]. injection Hs' as <-.
    eapply plain_same; [| |apply (plain_stop_jobs now)]; [done|done|]. by apply (plain_same (service w)).
  - unfold task_cancelled in Hs'. destruct (negb _); [done|].
    destruct (tasks _ !! _) as [[]|]; try done; injection Hs' as <-; by apply (plain_same (service w)).
  - unfold stop_end in Hs'. destruct (_ && _); [|done]. injection Hs' as <-. by apply (plain_same (service w)).
  - injection Hs' as <-. unfold reconcile. destruct (dict_get _ _); [|done].
    destruct confirmed_outcome; [|done]. by apply (plain_same (service w)).
Qed.

Lemma workers_step w ev w' os :
  step w ev = Some w' -> workers_ok w os -> workers_ok w' (os ++ observe registry (service w) ev).
Proof.
  intros Hstep [Hs Hp Hst (acc & Htr) Hj Hrun Hpl].
  destruct (service_step_ok _ _ _ _ _ _ _ _ Hs Hstep) as [Hs' Hp'].
  destruct (tracked_step _ _ _ _ _ _ _ _ _ _ Hs Htr Hstep) as (acc' & Htr' & _).
  split; [done| |..].
  - intros k. rewrite phases_app, Hp. cbn. apply Hp'.
  - apply Forall_app. split; [done|]. by apply observe_started.
  - eauto.
  - by apply jobs_step.
  - by apply running_step.
  - by eapply plain_step.
Qed.
End jobs.

Section initial.
Context {H : Type} `{Rendering} (hmac_sha256 : string -> string -> string).
Context (registry : ToolRegistry H) (secret : string).

Lemma initial_workers_ok failure_threshold reset_timeout :
  workers_ok hmac_sha256 registry secret (initial_world failure_threshold reset_timeout) [].
Proof.
  split; [apply initial_ok|done|constructor| | |constructor|].
  - exists []. apply initial_tracked.
  - intros P. cbn. unfold count. cbn. lia.
  - split; [split; constructor|constructor].
Qed.

(** A submission that has returned stays as it is. *)
Lemma returned_stays max_concurrency queue_size w ev w' n job r :
  service_step hmac_sha256 registry secret max_concurrency queue_size w ev = Some w' ->
  clients w !! n = Some (job, Returned r) -> clients w' !! n = Some (job, Returned r).
Proof.
  intros Hstep Hn. destruct ev; cbn [service_step] in Hstep;
    try (apply in_service_inv in Hstep as (s' & Hs' & ->); done).
  - destruct (submit _ _ _ _ _ _ _). injection Hstep as <-. by apply lookup_app_l_Some.
  - apply client_piece_inv in Hstep as (job' & st & s' & st' & Hc & Hp & ->). cbn.
    rewrite list_lookup_insert_ne; [done|]. intros ->. by simplify_eq.
  - apply client_piece_inv in Hstep as (job' & st & s' & st' & Hc & Hp & ->). cbn.
    rewrite list_lookup_insert_ne; [done|]. intros ->. by simplify_eq.
  - apply client_piece_inv in Hstep as (job' & st & s' & st' & Hc & Hp & ->). cbn.
    rewrite list_lookup_insert_ne; [done|]. intros ->. by simplify_eq.
Qed.

(** Only a submission adds a client. *)
Definition is_submit (ev : service_event) : bool := match ev with ESubmit _ _ _ => true | _ => false end.
Lemma clients_kept max_concurrency queue_size w ev w' :
  service_step hmac_sha256 registry secret max_concurrency queue_size w ev = Some w' -> is_submit ev = false ->
  map fst (clients w') = map fst (clients w).
Proof.
  intros Hstep Hev. destruct ev; try done; cbn [service_step] in Hstep;
    try (apply in_service_inv in Hstep as (s' & Hs' & ->); done);
    (apply client_piece_inv in Hstep as (job' & st & s' & st' & Hc & Hp & ->); cbn;
     rewrite list_fmap_insert; cbn; apply list_insert_id; by rewrite list_lookup_fmap, Hc).
Qed.
End initial.
