(* ===== verification/WorkerClients.v ===== *)
(** * Clients of the worker service

    [gateway/workers/remote.py] (the HTTP client), the job endpoint of
    [gateway/workers/http_server.py], and the proxy registry of
    [gateway/workers/service.py], whose handlers submit jobs.  pydantic's parser
    of a job and of a result, and the serialisers of the HTTP libraries, are
    arguments. *)

From S2P Require Import Prelude Dict Pystr Json Models Errors Effects Registry Encoding Http Circuit Worker.
Open Scope Z_scope.

(* ------------------------------------------------------------------ *)
(** ** The remote client *)

Definition dump_WorkerJob `{Rendering} (job : WorkerJob) : jdict :=
  job_payload job ++ [("auth_token", JStr (wj_auth_token job))].

Definition dump_WorkerResult `{Rendering} (r : WorkerResult) : jdict :=
  [("job_id", JStr (wr_job_id r));
   ("outcome", JStr (wr_outcome r));
   ("output", opt_json JObj (wr_output r));
   ("error_code", opt_json JStr (wr_error_code r));
   ("error_message", opt_json JStr (wr_error_message r));
   ("completed_at", dump_datetime (wr_completed_at r))].

Section remote.
Context `{Rendering}.
Context (result_of_text : string -> result exc WorkerResult) (base_url : string).

(** [RemoteWorkerClient.execute], from the signed job of [make_job]. *)
Definition remote_execute (job : WorkerJob) : M http_sig unit jdict :=
  response ← try_with
    (call (E := http_sig) (HPost (rstrip_slash base_url +:+ "/jobs") [] (JObj (dump_WorkerJob job))))
    (fun e =>
       if catches [HTTPError; TimeoutError] e then
         if negb (read_only job)
         then raise (needs_review "Worker transport failed; mutation outcome requires review")
         else raise (tool_failed "Execution worker is unavailable")
       else raise e);
  if 400 <=? status_code response then
    raise (tool_failed ("Execution worker returned HTTP " +:+ print_int (status_code response)))
  else
  result ← try_with (lift_result (result_of_text (text response)))
    (fun e =>
       if catches [PydanticValidationError; ValueError; TypeError] e
       then raise (tool_failed "Execution worker returned invalid JSON") else raise e);
  if negb (String.eqb (wr_outcome result) "succeeded") then
    if bool_decide (wr_error_code result = Some "needs_review")
    then raise (needs_review (or_default (wr_error_message result) "Worker outcome requires review"))
    else raise (tool_failed (or_default (wr_error_message result) "Execution worker failed"))
  else
  match wr_output result with
  | None => raise (tool_failed "Execution worker returned no output")
  | Some output => mret output
  end.

(** [RemoteWorkerClient.healthcheck] *)
Definition remote_healthcheck : M http_sig unit bool :=
  try_with
    (response ← call (E := http_sig) (HGet (rstrip_slash base_url +:+ "/readyz"));
     mret (status_code response =? 200))
    (fun e => if catches [HTTPError; TimeoutError] e then mret false else raise e).
End remote.

(* ------------------------------------------------------------------ *)
(** ** The job endpoint *)

Inductive jobs_op := WSubmit (job : WorkerJob) | WNow.
Definition jobs_sig : signature :=
  {| op := jobs_op; ans o := match o with WSubmit _ => WorkerResult | WNow => Z end |}.

Section endpoint.
Context `{Rendering} (hmac_sha256 : string -> string -> string) (shared_secret : string).
Context (job_of_text : string -> result exc WorkerJob) (render : json -> string).

(** [JSONResponse(content, status_code)] *)
Definition json_response (content : jdict) (status : Z) : http_response :=
  {| status_code := status; text := render (JObj content) |}.

Definition failed_result (job : WorkerJob) (error : GatewayError) (now : Z) : WorkerResult :=
  {| wr_job_id := wj_job_id job; wr_outcome := "failed"; wr_output := None;
     wr_error_code := Some (ge_code error); wr_error_message := Some (ge_message error);
     wr_completed_at := now |}.

(** [submit_job] *)
Definition submit_job (body : string) : M jobs_sig unit http_response :=
  match job_of_text body with
  | Err e =>
      if catches [PydanticValidationError] e
      then mret (json_response [("error", JStr "invalid worker job")] 422)
      else raise e
  | Ok job =>
      try_with
        (lift_result (authenticate hmac_sha256 shared_secret job);;
         result ← call (E := jobs_sig) (WSubmit job);
         mret (json_response (dump_WorkerResult result) 200))
        (fun e =>
           match e with
           | EGateway error =>
               now ← call (E := jobs_sig) WNow;
               mret (json_response (dump_WorkerResult (failed_result job error now))
                       (if String.eqb (ge_message error) "Worker authentication failed" then 401 else 200))
           | EPy _ _ => raise e
           end)
  end.

(** [_health_payload], and the readiness of the service. *)
Definition worker_health_payload (version status : string) : http_response :=
  json_response [("status", JStr status); ("version", JStr version)]
    (if String.eqb status "ok" then 200 else 503).
Definition worker_readyz (version : string) (now : Z) (s : WorkerService) : http_response :=
  worker_health_payload version (if service_healthcheck now s then "ok" else "unready").
End endpoint.

(* ------------------------------------------------------------------ *)
(** ** The proxy registry *)

(** The handler of a proxy: the name and the risk class of the tool. *)
Record proxy_handler := {
  definition_name : string;
  definition_risk : RiskClass
}.

(** What a proxy handler calls. *)
Inductive proxy_op :=
| PUuid
| PExecute (tool_name : string) (arguments : jdict) (risk_class : RiskClass)
    (call_id tenant_id : string) (idempotency_key : option string).
Definition proxy_sig : signature :=
  {| op := proxy_op; ans o := match o with PUuid => string | PExecute _ _ _ _ _ _ => jdict end |}.

(** [handler]; [context] is the worker context of the task. *)
Definition proxy_handle (sha256 : string -> string) (h : proxy_handler)
    (context : option (string * string)) (request : BaseModel) : M proxy_sig unit jdict :=
  let arguments := model_dump request in
  match context with
  | Some (call_id, tenant_id) =>
      call (E := proxy_sig) (PExecute (definition_name h) arguments (definition_risk h) call_id tenant_id
        (Some (call_id +:+ ":" +:+ definition_name h)))
  | None =>
      call_id ← call (E := proxy_sig) PUuid;
      call (E := proxy_sig) (PExecute (definition_name h) arguments (definition_risk h) call_id "worker-proxy"
        (Some (stable_key sha256 (definition_name h) arguments)))
  end.

Definition proxy_definition {H} (d : ToolDefinition H) : ToolDefinition proxy_handler :=
  {| td_name := td_name d; td_description := td_description d; td_risk_class := td_risk_class d;
     td_input_model := td_input_model d; td_output_model := td_output_model d;
     td_handler := {| definition_name := td_name d; definition_risk := td_risk_class d |};
     td_idempotent := td_idempotent d |}.

(** [create_worker_proxy_registry] *)
Definition create_worker_proxy_registry {H} (source : ToolRegistry H) :
    result exc (ToolRegistry proxy_handler) :=
  register_all (map proxy_definition (list_tools source)) empty_registry.

(* ------------------------------------------------------------------ *)
(** ** Lemmas *)

(** The outcome of the remote client, as a function of the answer it gets. *)
Definition remote_result (result_of_text : string -> result exc WorkerResult) (job : WorkerJob)
    (answer : result exc http_response) : result exc jdict :=
  match answer with
  | Err e =>
      Err (if catches [HTTPError; TimeoutError] e then
             if read_only job then tool_failed "Execution worker is unavailable"
             else needs_review "Worker transport failed; mutation outcome requires review"
           else e)
  | Ok response =>
      if 400 <=? status_code response then
        Err (tool_failed ("Execution worker returned HTTP " +:+ print_int (status_code response)))
      else
        match result_of_text (text response) with
        | Err e => Err (if catches [PydanticValidationError; ValueError; TypeError] e
                        then tool_failed "Execution worker returned invalid JSON" else e)
        | Ok r =>
            if String.eqb (wr_outcome r) "succeeded"
            then ok_or (wr_output r) (tool_failed "Execution worker returned no output")
            else Err (if bool_decide (wr_error_code r = Some "needs_review")
                      then needs_review (or_default (wr_error_message r) "Worker outcome requires review")
                      else tool_failed (or_default (wr_error_message r) "Execution worker failed"))
        end
  end.

Lemma remote_execute_call `{Rendering} result_of_text base_url job :
  one_request (remote_execute result_of_text base_url job tt)
    (HPost (rstrip_slash base_url +:+ "/jobs") [] (JObj (dump_WorkerJob job)))
    (remote_result result_of_text job).
Proof.
  eexists. split; [reflexivity|]. intros [response|e]; cbn -[catches].
  - destruct (400 <=? status_code response); [done|]. cbn -[catches].
    destruct (result_of_text (text response)) as [r|e];
      unfold mbind, M_bind, try_with, lift_result; cbn -[catches].
    + destruct (String.eqb (wr_outcome r) "succeeded"); cbn; [by destruct (wr_output r)|].
      by case_bool_decide.
    + by destruct (catches _ e).
  - destruct (catches _ e); [|done]. by destruct (read_only job).
Qed.

Lemma proxy_names {H} (ds : list (ToolDefinition H)) :
  map td_name (map proxy_definition ds) = map td_name ds.
Proof. rewrite map_map. done. Qed.

Lemma registered_names {H} (r : ToolRegistry H) : registry_ok r -> map td_name (list_tools r) = dict_keys (definitions r).
Proof.
  intros [_ Hnames]. unfold list_tools, dict_values, dict_keys. rewrite map_map.
  apply map_ext_in. intros [name d] Hin. apply Hnames. by apply list_elem_of_In.
Qed.

Lemma proxy_get {H} (ds : list (string * ToolDefinition H)) name :
  (forall name d, (name, d) ∈ ds -> td_name d = name) ->
  dict_get name (map (fun d => (td_name d, d)) (map proxy_definition (map snd ds))) =
  proxy_definition <$> dict_get name ds.
Proof.
  intros Hnames. induction ds as [|[n d] ds IH]; cbn; [done|].
  rewrite (Hnames n d) by (apply elem_of_cons; auto). case_decide; [done|]. apply IH.
  intros name' d' Hin. apply Hnames, elem_of_cons. auto.
Qed.

Lemma proxies_get {H} (source : ToolRegistry H) :
  registry_ok source -> exists proxy, create_worker_proxy_registry source = Ok proxy /\
    map td_name (list_tools proxy) = map td_name (list_tools source) /\
    forall name, registry_get proxy name = result_map proxy_definition (registry_get source name).
Proof.
  destruct source as [ds]. intros Hok. pose proof Hok as [Hd Hnames]. cbn in Hd, Hnames.
  destruct (register_all_spec (map proxy_definition (list_tools {| definitions := ds |})) empty_registry
              empty_registry_ok) as [Hreg _].
  cbn [definitions empty_registry dict_keys map app] in Hreg.
  rewrite proxy_names, registered_names in Hreg by done. specialize (Hreg Hd).
  unfold list_tools, dict_values in Hreg. cbn [definitions] in Hreg.
  eexists. split; [exact Hreg|]. split.
  - unfold list_tools, dict_values. cbn. rewrite !map_map. done.
  - intros name. unfold registry_get. cbn [definitions]. rewrite (proxy_get ds name Hnames).
    by destruct (dict_get name ds).
Qed.

Lemma registry_get_name {H} (r : ToolRegistry H) name d :
  registry_ok r -> registry_get r name = Ok d -> td_name d = name.
Proof.
  intros [_ Hnames]. unfold registry_get. destruct (dict_get name (definitions r)) as [d'|] eqn:Hg; cbn; [|done].
  intros [= <-]. by apply Hnames, dict_get_In.
Qed.

(* ------------------------------------------------------------------ *)
(** ** Properties *)

(** The remote client fails safe.  It sends the signed job once; it returns
    an output only if the worker answered below 400 with a well-formed result
    whose outcome is success; and when the transport fails after the job may have
    been sent, a mutation is reported as needing review, never as a plain failure. *)
Theorem remote_worker_fails_safe `{Rendering} result_of_text base_url job :
  let p := remote_execute result_of_text base_url job tt in
  total p /\
  forall tr r u, exec p tr (r, u) ->
  exists answer : result exc http_response,
    tr = [Event (E := http_sig) (HPost (rstrip_slash base_url +:+ "/jobs") [] (JObj (dump_WorkerJob job))) answer] /\
    (forall output, r = Ok output -> exists response res,
       answer = Ok response /\ status_code response < 400 /\
       result_of_text (text response) = Ok res /\ wr_outcome res = "succeeded" /\ wr_output res = Some output) /\
    (forall e, answer = Err e -> catches [HTTPError; TimeoutError] e = true -> wj_risk_class job <> READ_ONLY ->
       exists message, r = Err (needs_review message)).
Proof.
  intros p. destruct (one_request_exec p _ _ (remote_execute_call result_of_text base_url job)) as [Ht Hex].
  split; [done|]. intros tr r u (answer & -> & ->)%Hex. exists answer. split; [done|]. split.
  - intros output. destruct answer as [response|e]; cbn -[catches]; [|done].
    destruct (Z.leb_spec 400 (status_code response)); [done|].
    destruct (result_of_text (text response)) as [res|e] eqn:Hres; [|done].
    destruct (String.eqb_spec (wr_outcome res) "succeeded"); [|done].
    destruct (wr_output res) as [o|] eqn:Ho; [|done]. intros [= ->]. exists response, res. done.
  - intros e -> Hc Hro. cbn -[catches]. rewrite Hc. unfold read_only.
    rewrite bool_decide_eq_false_2 by done. eauto.
Qed.

(** An HTTP error is a plain failure, also for a mutation: a gateway timeout after
    the worker ran the job is not reported as needing review. *)
Theorem http_error_is_plain_failure `{Rendering} result_of_text base_url job response
    (Hstatus : 400 <= status_code response) :
  runs (answer_all (Ok response)) (remote_execute result_of_text base_url job) tt tt
    (Err (tool_failed ("Execution worker returned HTTP " +:+ print_int (status_code response)))) tt tt.
Proof.
  eexists. rewrite (one_request_run _ _ _ _ (remote_execute_call result_of_text base_url job)).
  cbn -[catches print_int]. apply Z.leb_le in Hstatus as ->. reflexivity.
Qed.

(** A job whose token is not ASCII is not answered: comparing the signatures raises. *)
Theorem non_ascii_token_not_answered `{Rendering} hmac_sha256 secret job_of_text render body job
    (Hjob : job_of_text body = Ok job) (Htoken : is_ascii (wj_auth_token job) = false) :
  exists message, submit_job hmac_sha256 secret job_of_text render body tt = Ret (Err (EPy TypeError message), tt).
Proof.
  unfold submit_job, authenticate, compare_digest. rewrite Hjob, Htoken, andb_false_r. by eexists.
Qed.

(** An environment of the endpoint: the service ends the submission with [r]. *)
Definition endpoint_env (r : result exc WorkerResult) (now : Z) : handler jobs_sig unit :=
  fun o _ => (match o return result exc (ans jobs_sig o) with WSubmit _ => r | WNow => Ok now end, tt).

(** The outcomes a submission has for its own caller: those of [submit_result],
    [submit_timeout] and [stop_job], with their message. *)
Definition reportable (r : result exc WorkerResult) : Prop :=
  (exists res output, r = Ok res /\ wr_outcome res = "succeeded" /\ wr_output res = Some output) \/
  (exists message, truthy message = true /\ message <> "Worker authentication failed" /\
     (r = Err (needs_review message) \/ r = Err (tool_failed message))).

(** What the remote client reports of an outcome of the service, other than an
    exception the endpoint does not answer. *)
Definition failure_view (code message : option string) : exc :=
  if bool_decide (code = Some "needs_review")
  then needs_review (or_default message "Worker outcome requires review")
  else tool_failed (or_default message "Execution worker failed").
Definition remote_view (r : result exc WorkerResult) : result exc jdict :=
  match r with
  | Ok res =>
      if String.eqb (wr_outcome res) "succeeded"
      then ok_or (wr_output res) (tool_failed "Execution worker returned no output")
      else Err (failure_view (wr_error_code res) (wr_error_message res))
  | Err (EGateway g) =>
      Err (if String.eqb (ge_message g) "Worker authentication failed"
           then tool_failed "Execution worker returned HTTP 401"
           else failure_view (Some (ge_code g)) (Some (ge_message g)))
  | Err e => Err e
  end.

Lemma reportable_view r : reportable r -> remote_view r = in_process_output r.
Proof.
  intros [(res & output & -> & Hs & Ho)|(m & Hm & Hne & Hr)].
  - cbn. by rewrite Hs, Ho.
  - assert (Hm' : String.eqb m "Worker authentication failed" = false) by (by apply String.eqb_neq).
    destruct Hr as [-> | ->]; cbn -[String.eqb]; unfold ge_message; cbn -[String.eqb]; rewrite Hm';
      unfold failure_view, or_default, ge_message; cbn; by rewrite Hm.
Qed.

(** The endpoint and the client together. *)
Definition remote_reports `{Rendering} hmac_sha256 secret job_of_text result_of_text render base_url job
    (r : result exc WorkerResult) (now : Z) (report : result exc jdict) : Prop :=
  exists response tr tr',
    run (endpoint_env r now)
      (submit_job hmac_sha256 secret job_of_text render (render (JObj (dump_WorkerJob job))) tt) tt =
      Some ((Ok response, tt), tt, tr) /\
    run (answer_all (Ok response)) (remote_execute result_of_text base_url job tt) tt =
      Some ((report, tt), tt, tr').

Section agrees.
Context `{Rendering} (hmac_sha256 : string -> string -> string) (secret : string).
Context (job_of_text : string -> result exc WorkerJob) (result_of_text : string -> result exc WorkerResult).
Context (render : json -> string) (base_url : string) (job : WorkerJob) (now : Z).
Context (Hjob : job_of_text (render (JObj (dump_WorkerJob job))) = Ok job).
Context (Hresult : forall res, result_of_text (render (JObj (dump_WorkerResult res))) = Ok res).
Abbreviation reports := (remote_reports hmac_sha256 secret job_of_text result_of_text render base_url job).

Lemma response_reports r tr response report :
  run (endpoint_env r now)
    (submit_job hmac_sha256 secret job_of_text render (render (JObj (dump_WorkerJob job))) tt) tt =
    Some ((Ok response, tt), tt, tr) ->
  remote_result result_of_text job (Ok response) = report -> reports r now report.
Proof.
  intros Hend <-. eexists response, _, _. split; [exact Hend|].
  by rewrite (one_request_run _ _ _ _ (remote_execute_call result_of_text base_url job)).
Qed.

Lemma answered_reports r :
  authenticate hmac_sha256 secret job = Ok tt -> (forall cls m, r <> Err (EPy cls m)) ->
  reports r now (remote_view r).
Proof.
  intros Hauth Hpy. destruct r as [res|[g|cls m]]; [| |by destruct (Hpy cls m)].
  - eapply response_reports; [unfold submit_job; rewrite Hjob, Hauth; reflexivity|].
    cbn. by rewrite Hresult.
  - eapply response_reports; [unfold submit_job; rewrite Hjob, Hauth; reflexivity|].
    cbn -[String.eqb]. destruct (String.eqb (ge_message g) _); [done|]. cbn -[String.eqb]. by rewrite Hresult.
Qed.

Lemma unauthenticated_reports r e :
  authenticate hmac_sha256 secret job = Err (EGateway e) ->
  reports r now (Err (tool_failed "Execution worker returned HTTP 401")).
Proof.
  intros Hauth.
  assert (He : ge_message e = "Worker authentication failed").
  { unfold authenticate in Hauth. destruct (compare_digest _ _) as [[]|e'] eqn:Hc; try done.
    - by injection Hauth as <-.
    - unfold compare_digest in Hc. destruct (_ && _); [done|]. injection Hc as <-. done. }
  eapply response_reports; [unfold submit_job; rewrite Hjob, Hauth; reflexivity|].
  cbn -[String.eqb]. by rewrite He.
Qed.

(** C32: a remote worker compared with an in-process one, for every outcome of the
    service.  Of a job signed with the worker's secret, an output, a failure or a need for
    review of its own submission is reported by the endpoint and the remote client together
    exactly as by the in-process client.  They differ for a failed result that was
    computed for another submission under the same key: the in-process client reports a
    plain failure, and the remote one a need for review if the result says so.  An
    exception of the service that is no gateway error is not answered by the endpoint.  An
    unauthenticated job is a plain failure of both, but the remote client names the
    HTTP status. *)
Theorem remote_agrees_with_in_process (r : result exc WorkerResult) :
  (authenticate hmac_sha256 secret job = Ok tt ->
     (reportable r -> reports r now (in_process_output r)) /\
     (forall res m, r = Ok res -> wr_outcome res <> "succeeded" -> wr_output res = None ->
        wr_error_message res = Some m -> truthy m = true ->
        in_process_output r = Err (tool_failed m) /\
        reports r now (Err (if bool_decide (wr_error_code res = Some "needs_review")
                            then needs_review m else tool_failed m))) /\
     (forall cls m, r = Err (EPy cls m) -> exists tr,
        run (endpoint_env r now)
          (submit_job hmac_sha256 secret job_of_text render (render (JObj (dump_WorkerJob job))) tt) tt =
          Some ((Err (EPy cls m), tt), tt, tr))) /\
  (forall e, authenticate hmac_sha256 secret job = Err (EGateway e) ->
     e = tool_execution_error "Worker authentication failed" /\
     reports r now (Err (tool_failed "Execution worker returned HTTP 401"))).
Proof.
  split; [intros Hauth; split_and!|].
  - intros Hr. rewrite <- (reportable_view _ Hr). apply answered_reports; [done|].
    intros cls m ->. by destruct Hr as [(? & ? & [=] & _)|(? & _ & _ & [[=]|[=]])].
  - intros res m -> Hs Ho Hm Ht. apply String.eqb_neq in Hs.
    assert (Hview : remote_view (Ok res) = Err (if bool_decide (wr_error_code res = Some "needs_review")
      then needs_review m else tool_failed m)).
    { cbn. rewrite Hs. unfold failure_view. rewrite Hm. unfold or_default. by rewrite Ht. }
    split; [cbn; rewrite Ho, Hm; unfold or_default; by rewrite Ht|].
    rewrite <- Hview. by apply answered_reports.
  - intros cls m ->. eexists. unfold submit_job. rewrite Hjob, Hauth. reflexivity.
  - intros e He. split; [|by eapply unauthenticated_reports].
    unfold authenticate in He. destruct (compare_digest _ _) as [[]|e'] eqn:Hc; try done.
    + by injection He as <-.
    + unfold compare_digest in Hc. destruct (_ && _); [done|]. by injection Hc as <-.
Qed.
End agrees.

(** The proxy registry of a registry offers the same tools: the same names in
    the same order, the same schemas, risk classes and validation; and its
    handlers submit the validated arguments for the tool's name and risk class,
    with a key that is the same for every attempt of one call. *)
Theorem proxy_registry_faithful {H} (source : ToolRegistry H) (Hok : registry_ok source) :
  exists proxy, create_worker_proxy_registry source = Ok proxy /\
    map td_name (list_tools proxy) = map td_name (list_tools source) /\
    (forall name arguments, registry_validate proxy name arguments = registry_validate source name arguments) /\
    (forall name d, registry_get source name = Ok d -> exists d',
       registry_get proxy name = Ok d' /\ td_risk_class d' = td_risk_class d /\
       td_idempotent d' = td_idempotent d /\ input_schema d' = input_schema d /\
       forall sha256 call_id tenant_id request,
         proxy_handle sha256 (td_handler d') (Some (call_id, tenant_id)) request =
         call (E := proxy_sig) (PExecute name (model_dump request) (td_risk_class d) call_id tenant_id
           (Some (call_id +:+ ":" +:+ name)))).
Proof.
  destruct (proxies_get source Hok) as (proxy & Hreg & Hnames & Hget).
  exists proxy. split_and!; [done..| |].
  - intros name arguments. unfold registry_validate. rewrite Hget. by destruct (registry_get source name).
  - intros name d Hd. rewrite Hget, Hd. cbn. eexists. split; [done|]. split_and!; try done. intros. cbn.
    by rewrite (registry_get_name _ _ _ Hok Hd).
Qed.

(* ------------------------------------------------------------------ *)
(** ** Witnesses *)

Module witness.
#[export] Instance rendering : Rendering := {| iso_datetime := print_int; float_text _ := "1.5" |}.

Definition opt_of {A} (f : json -> option A) (v : json) : option (option A) :=
  match v with JNull => Some None | _ => Some <$> f v end.
Definition str_of (v : json) : option string := match v with JStr s => Some s | _ => None end.
Definition obj_of (v : json) : option jdict := match v with JObj kvs => Some kvs | _ => None end.

(** A serialiser of JSON, and parsers that read back what the models dump. *)
Definition render (v : json) : string := to_text v.
Definition parse {A} (f : json -> option A) (s : string) : result exc A :=
  result_bind (of_text (EPy JSONDecodeError "") s) (fun v => ok_or (f v) (EPy PydanticValidationError "")).

Definition result_of_json (v : json) : option WorkerResult :=
  match v with
  | JObj [(_, JStr job_id); (_, JStr outcome); (_, output); (_, code); (_, message); (_, JStr at_)] =>
      output ← opt_of obj_of output; code ← opt_of str_of code; message ← opt_of str_of message;
      t ← parse_int at_;
      Some {| wr_job_id := job_id; wr_outcome := outcome; wr_output := output; wr_error_code := code;
              wr_error_message := message; wr_completed_at := t |}
  | _ => None
  end.
Definition job_of_json (v : json) : option WorkerJob :=
  match v with
  | JObj [(_, JStr job_id); (_, JStr call_id); (_, JStr tenant_id); (_, JStr tool_name); (_, JStr risk);
          (_, JObj arguments); (_, JStr idempotency_key); (_, JStr at_); (_, JStr token)] =>
      risk ← of_value risk; t ← parse_int at_;
      Some {| wj_job_id := job_id; wj_call_id := call_id; wj_tenant_id := tenant_id;
              wj_tool_name := tool_name; wj_risk_class := risk; wj_arguments := arguments;
              wj_idempotency_key := idempotency_key; wj_submitted_at := t; wj_auth_token := token |}
  | _ => None
  end.

Lemma parse_result res : parse result_of_json (render (JObj (dump_WorkerResult res))) = Ok res.
Proof.
  unfold parse, render. rewrite of_text_to_text. cbn [result_bind].
  destruct res as [j o output code message t]. cbn -[print_int parse_int].
  destruct output, code, message; cbn -[print_int parse_int]; by rewrite parse_print_int.
Qed.
Lemma parse_job job : parse job_of_json (render (JObj (dump_WorkerJob job))) = Ok job.
Proof.
  unfold parse, render. rewrite of_text_to_text. cbn [result_bind].
  destruct job as [? ? ? ? risk ? ? t ?]. unfold dump_WorkerJob. cbn -[print_int parse_int value of_value].
  rewrite of_value_value. cbn -[print_int parse_int]. by rewrite parse_print_int.
Qed.

Definition hmac (secret message : string) : string := secret +:+ message.
Definition job : WorkerJob :=
  make_job hmac "secret" "shell_exec" [("command", JStr "ls")] MUTATING "call" "acme" None "1" 5.
Definition source : ToolRegistry unit :=
  {| definitions := [("shell_exec",
       {| td_name := "shell_exec"; td_description := ""; td_risk_class := MUTATING;
          td_input_model := {| model_validate _ := Ok {| fields := [] |}; model_json_schema := [] |};
          td_output_model := {| model_validate _ := Ok {| fields := [] |}; model_json_schema := [] |};
          td_handler := tt; td_idempotent := false |})] |}.
End witness.
#[local] Existing Instance witness.rendering.

Lemma remote_agrees_with_in_process_witness :
  remote_reports witness.hmac "secret" (witness.parse witness.job_of_json) (witness.parse witness.result_of_json)
    witness.render "http://worker/" witness.job (Err (needs_review "unknown outcome")) 7
    (Err (needs_review "unknown outcome")).
Proof.
  apply (remote_agrees_with_in_process witness.hmac "secret" (witness.parse witness.job_of_json)
           (witness.parse witness.result_of_json) witness.render "http://worker/" witness.job 7
           (witness.parse_job witness.job) witness.parse_result (Err (needs_review "unknown outcome"))).
  - vm_compute. reflexivity.
  - right. exists "unknown outcome". split; [reflexivity|]. split; [discriminate|]. left. reflexivity.
Defined.

Lemma proxy_registry_faithful_witness :
  exists proxy, create_worker_proxy_registry witness.source = Ok proxy /\
    map td_name (list_tools proxy) = ["shell_exec"].
Proof.
  destruct (proxy_registry_faithful witness.source) as (proxy & Hp & Hnames & _).
  - split; [apply NoDup_singleton|]. intros name d Hin. apply list_elem_of_singleton in Hin.
    injection Hin as -> ->. reflexivity.
  - exists proxy. split; [exact Hp|exact Hnames].
Defined.
