(* ===== verification/DbQuery.v ===== *)
(** * The database query tool

    [gateway/tools/db_query.py]: the authorizer, the seeding of the synthetic
    table, the conversion of rows, and the execution of one bounded query.  The
    [sqlite3] module is a set of operations whose answers come from the database;
    the URI of a path and the [repr] of a column name are arguments. *)

From S2P Require Import Prelude Dict Pystr Json Models Errors Effects.
Open Scope Z_scope.

(* ------------------------------------------------------------------ *)
(** ** The authorizer *)

(** The action codes SQLite passes to an authorizer. *)
Inductive sqlite_action :=
| SQLITE_COPY | SQLITE_CREATE_INDEX | SQLITE_CREATE_TABLE | SQLITE_CREATE_TEMP_INDEX
| SQLITE_CREATE_TEMP_TABLE | SQLITE_CREATE_TEMP_TRIGGER | SQLITE_CREATE_TEMP_VIEW
| SQLITE_CREATE_TRIGGER | SQLITE_CREATE_VIEW | SQLITE_DELETE | SQLITE_DROP_INDEX
| SQLITE_DROP_TABLE | SQLITE_DROP_TEMP_INDEX | SQLITE_DROP_TEMP_TABLE
| SQLITE_DROP_TEMP_TRIGGER | SQLITE_DROP_TEMP_VIEW | SQLITE_DROP_TRIGGER | SQLITE_DROP_VIEW
| SQLITE_INSERT | SQLITE_PRAGMA | SQLITE_READ | SQLITE_SELECT | SQLITE_TRANSACTION
| SQLITE_UPDATE | SQLITE_ATTACH | SQLITE_DETACH | SQLITE_ALTER_TABLE | SQLITE_REINDEX
| SQLITE_ANALYZE | SQLITE_CREATE_VTABLE | SQLITE_DROP_VTABLE | SQLITE_FUNCTION
| SQLITE_SAVEPOINT | SQLITE_RECURSIVE.

Global Instance sqlite_action_eq_dec : EqDecision sqlite_action.
Proof. solve_decision. Defined.

(** [_WRITE_ACTIONS] *)
Definition write_actions : list sqlite_action :=
  [SQLITE_ALTER_TABLE; SQLITE_ANALYZE; SQLITE_ATTACH; SQLITE_CREATE_INDEX; SQLITE_CREATE_TABLE;
   SQLITE_CREATE_TEMP_INDEX; SQLITE_CREATE_TEMP_TABLE; SQLITE_CREATE_TEMP_TRIGGER;
   SQLITE_CREATE_TEMP_VIEW; SQLITE_CREATE_TRIGGER; SQLITE_CREATE_VIEW; SQLITE_DELETE;
   SQLITE_DETACH; SQLITE_DROP_INDEX; SQLITE_DROP_TABLE; SQLITE_DROP_TEMP_INDEX;
   SQLITE_DROP_TEMP_TABLE; SQLITE_DROP_TEMP_TRIGGER; SQLITE_DROP_TEMP_VIEW; SQLITE_DROP_TRIGGER;
   SQLITE_DROP_VIEW; SQLITE_INSERT; SQLITE_PRAGMA; SQLITE_REINDEX; SQLITE_TRANSACTION; SQLITE_UPDATE].

Inductive verdict := SQLITE_OK | SQLITE_DENY.

Global Instance verdict_eq_dec : EqDecision verdict.
Proof. solve_decision. Defined.

(** [_read_only_authorizer] *)
Definition read_only_authorizer (action : sqlite_action) : verdict :=
  if bool_decide (action ∈ write_actions) then SQLITE_DENY else SQLITE_OK.

(* ------------------------------------------------------------------ *)
(** ** Requests, values and results *)

(** [SqlScalar]; a float is carried by its text, as in JSON. *)
Inductive SqlScalar := SNull | SInt (z : Z) | SFloat (text : string) | SStr (s : string).

(** [SqlParameters] *)
Inductive SqlParameters := Positional (values : list SqlScalar) | Named (values : dict string SqlScalar).

(** A value SQLite returns: a scalar or a blob ([bytes]). *)
Inductive sqlite_value := Scalar (v : SqlScalar) | Blob (bytes : string).

Record DbQueryInput := {
  query : string;
  parameters : SqlParameters;
  max_rows : Z
}.

(** The bounds of the fields of [DbQueryInput]. *)
Definition DbQueryInput_valid (r : DbQueryInput) : bool :=
  (1 <=? String.length (query r))%nat && (Z.of_nat (String.length (query r)) <=? 10000) &&
  (1 <=? max_rows r) && (max_rows r <=? 500).

Record DbQueryOutput := {
  columns : list string;
  rows : list (dict string SqlScalar);
  row_count : Z;
  truncated : bool
}.

(** [model_dump(mode="json")] *)
Definition dump_scalar (v : SqlScalar) : json :=
  match v with
  | SNull => JNull
  | SInt z => JInt z
  | SFloat t => JFloat t
  | SStr s => JStr s
  end.
Definition dump_row (row : dict string SqlScalar) : jdict := prod_map id dump_scalar <$> row.
Definition dump_parameters (p : SqlParameters) : json :=
  match p with
  | Positional values => JList (dump_scalar <$> values)
  | Named values => JObj (dump_row values)
  end.
Definition dump_DbQueryInput (r : DbQueryInput) : jdict :=
  [("query", JStr (query r)); ("parameters", dump_parameters (parameters r));
   ("max_rows", JInt (max_rows r))].
Definition dump_DbQueryOutput (o : DbQueryOutput) : jdict :=
  [("columns", JList (JStr <$> columns o)); ("rows", JList (JObj ∘ dump_row <$> rows o));
   ("row_count", JInt (row_count o)); ("truncated", JBool (truncated o))].

(* ------------------------------------------------------------------ *)
(** ** Seeding *)

(** A row of [orders] under its primary key [order_id]. *)
Record order := {
  customer_name : string;
  customer_email : string;
  order_status : string;
  total_cents : Z
}.
Global Instance order_eq_dec : EqDecision order.
Proof. solve_decision. Defined.

Definition seed_orders : list (string * order) :=
  [("ORD-1001", {| customer_name := "Max Mustermann"; customer_email := "user@example.com";
                   order_status := "pending"; total_cents := 12900 |});
   ("ORD-1002", {| customer_name := "Erika Musterfrau"; customer_email := "erika@example.com";
                   order_status := "shipped"; total_cents := 4599 |});
   ("ORD-1003", {| customer_name := "Alex Example"; customer_email := "alex@example.com";
                   order_status := "cancelled"; total_cents := 8750 |})].

(** [INSERT OR IGNORE]: a row whose primary key exists is left alone. *)
Definition insert_or_ignore (table : dict string order) (row : string * order) : dict string order :=
  if dict_mem row.1 table then table else dict_set row.1 row.2 table.

(** [_seed_database] on the table [orders], if it exists. *)
Definition seed_database (table : option (dict string order)) : dict string order :=
  fold_left insert_or_ignore seed_orders (default [] table).

(* ------------------------------------------------------------------ *)
(** ** One query *)

(** What [_execute_query] calls. *)
Inductive sqlite_op :=
| SConnect (uri : string)
| SExecute (sql : string) (parameters : option SqlParameters)
| SSetAuthorizer (authorizer : sqlite_action -> verdict)
| SFetchMany (size : Z)
| SExit (failed : bool).

(** Executing a statement answers the names of its columns, if it has any. *)
Definition sqlite_sig : signature :=
  {| op := sqlite_op;
     ans o := match o with
              | SExecute _ _ => option (list string)
              | SFetchMany _ => list (list sqlite_value)
              | _ => unit
              end |}.

Section query.
Context (resolve_uri : string -> string) (repr_str : string -> string).
Abbreviation E := sqlite_sig.
Abbreviation QM := (M sqlite_sig unit).

(** [_normalize_row]: the loop over [zip(columns, row, strict=True)]. *)
Fixpoint normalize_from (normalized : dict string SqlScalar) (columns : list string)
    (row : list sqlite_value) : result exc (dict string SqlScalar) :=
  match columns, row with
  | [], [] => Ok normalized
  | column :: columns', Scalar v :: row' => normalize_from (dict_set column v normalized) columns' row'
  | column :: _, Blob _ :: _ =>
      Err (EGateway (tool_execution_error
        ("Column " +:+ repr_str column +:+ " returned an unsupported SQLite value type")))
  | _ :: _, [] => Err (EPy ValueError "zip() argument 2 is shorter than argument 1")
  | [], _ :: _ => Err (EPy ValueError "zip() argument 2 is longer than argument 1")
  end.
Definition normalize_row (columns : list string) (row : list sqlite_value) :
    result exc (dict string SqlScalar) := normalize_from [] columns row.

(** [with connection: body]: leaving the block commits, or rolls back after an
    exception, which is then raised again. *)
Definition with_connection {A} (body : QM A) : QM A :=
  outcome ← try_with (a ← body; mret (Ok a)) (fun e => mret (Err e));
  call (E := E) (SExit (negb (is_ok outcome)));;
  lift_result outcome.

(** The body of the [with] block: the columns and the rows fetched. *)
Definition query_connection (request : DbQueryInput) : QM (list string * list (list sqlite_value)) :=
  call (E := E) (SExecute "PRAGMA query_only = ON" None);;
  call (E := E) (SSetAuthorizer read_only_authorizer);;
  description ← call (E := E) (SExecute (query request) (Some (parameters request)));
  match description with
  | None => raise (EGateway (tool_execution_error "The SQL statement did not return rows"))
  | Some columns =>
      fetched ← call (E := E) (SFetchMany (max_rows request + 1));
      mret (columns, fetched)
  end.

(** The output, from the columns and the rows fetched. *)
Definition query_output (request : DbQueryInput) (columns : list string)
    (fetched : list (list sqlite_value)) : result exc DbQueryOutput :=
  let truncated := max_rows request <? Z.of_nat (length fetched) in
  let visible_rows := take (Z.to_nat (max_rows request)) fetched in
  result_map (fun rows => {| columns := columns; rows := rows; row_count := Z.of_nat (length rows);
                             truncated := truncated |})
    (result_mapM (normalize_row columns) visible_rows).

(** [_execute_query] *)
Definition execute_query (database_path : string) (request : DbQueryInput) : QM DbQueryOutput :=
  let database_uri := resolve_uri database_path +:+ "?mode=ro" in
  fetched ← try_with
    (call (E := E) (SConnect database_uri);;
     with_connection (query_connection request))
    (fun e =>
       if catches [SqliteError] e then
         raise (EGateway (tool_execution_error ("SQLite rejected the query: " +:+ str_exc e)))
       else raise e);
  lift_result (query_output request fetched.1 fetched.2).
End query.

(* ------------------------------------------------------------------ *)
(** ** Seeding is idempotent and keeps existing rows *)

Lemma insert_or_ignore_get table row id :
  dict_get id (insert_or_ignore table row) =
  match dict_get id table with
  | Some o => Some o
  | None => if decide (id = row.1) then Some row.2 else None
  end.
Proof.
  unfold insert_or_ignore, dict_mem. destruct (dict_get row.1 table) eqn:Hrow.
  - destruct (dict_get id table) eqn:Hid; [done|]. case_decide; congruence.
  - rewrite dict_get_set. case_decide; [subst; by rewrite Hrow|]. by destruct (dict_get id table).
Qed.

Lemma seed_get table id :
  dict_get id (seed_database table) =
  match dict_get id (default [] table) with Some o => Some o | None => dict_get id seed_orders end.
Proof.
  unfold seed_database.
  generalize (default [] table). intros d. unfold seed_orders. cbn -[insert_or_ignore dict_get].
  rewrite !insert_or_ignore_get. cbn -[decide]. by destruct (dict_get id d); repeat case_decide.
Qed.

Lemma insert_or_ignore_present table row :
  is_Some (dict_get row.1 table) -> insert_or_ignore table row = table.
Proof. unfold insert_or_ignore, dict_mem. by intros [o ->]. Qed.

Lemma seed_idempotent table : seed_database (Some (seed_database table)) = seed_database table.
Proof.
  unfold seed_database at 1. cbn [default].
  assert (Hin : forall row, row ∈ seed_orders -> is_Some (dict_get row.1 (seed_database table))).
  { intros row Hrow. rewrite seed_get. destruct (dict_get row.1 _); [eauto|].
    apply dict_get_is_Some. unfold dict_keys. apply list_elem_of_fmap. eauto. }
  revert Hin. generalize seed_orders (seed_database table). intros l d.
  induction l as [|row l IH]; intros Hin; cbn; [done|].
  rewrite insert_or_ignore_present by (apply Hin; apply elem_of_cons; by left).
  apply IH. intros row' Hrow'. apply Hin. apply elem_of_cons. by right.
Qed.

(* ------------------------------------------------------------------ *)
(** ** Rows *)

Section rows.
Context (repr_str : string -> string).

(** A row of scalars, one for each column, becomes the dict of its cells (the
    last one of a repeated column name). *)
Lemma normalize_from_zip acc columns row out :
  normalize_from repr_str acc columns row = Ok out <->
  exists cells, row = Scalar <$> cells /\ length cells = length columns /\
    out = fold_left (fun d kv => dict_set kv.1 kv.2 d) (zip columns cells) acc.
Proof.
  revert acc row. induction columns as [|column columns IH]; intros acc [|[v|b] row]; cbn.
  - split; [intros [= <-]; by exists []|]. by intros ([|] & _ & _ & ->).
  - split; [done|]. by intros ([|] & Hc & ? & _).
  - split; [done|]. by intros ([|] & Hc & ? & _).
  - split; [done|]. by intros ([|] & Hc & ? & _).
  - rewrite IH. split.
    + intros (cells & -> & Hl & ->). exists (v :: cells). cbn. auto.
    + intros ([|c cells] & Hc & Hl & ->); [done|]. injection Hc as -> ->. exists cells. auto.
  - split; [done|]. by intros ([|] & Hc & ? & _).
Qed.

Lemma normalize_row_zip columns row out :
  normalize_row repr_str columns row = Ok out <->
  exists cells, row = Scalar <$> cells /\ length cells = length columns /\
    out = dict_of_pairs (zip columns cells).
Proof. apply normalize_from_zip. Qed.

Lemma normalize_rows columns (table : list (list SqlScalar)) :
  Forall (fun cells => length cells = length columns) table ->
  result_mapM (normalize_row repr_str columns) (map (map Scalar) table) =
  Ok (map (fun cells => dict_of_pairs (zip columns cells)) table).
Proof.
  intros Hall. apply result_mapM_ok. induction Hall as [|cells table Hc _ IH]; cbn; [constructor|].
  constructor; [|done]. apply normalize_row_zip. eauto.
Qed.
End rows.

(* ------------------------------------------------------------------ *)
(** ** Properties *)

(** The answers of [query_output], for the rows fetched. *)
Definition answers_with (request : DbQueryInput) (names : list string)
    (fetched : list (list sqlite_value)) (out : DbQueryOutput) : Prop :=
  columns out = names /\
  Forall2 (fun row cells => exists values, row = Scalar <$> values /\
      length values = length names /\ cells = dict_of_pairs (zip names values))
    (take (Z.to_nat (max_rows request)) fetched) (rows out) /\
  row_count out = Z.of_nat (length (rows out)) /\
  (truncated out = true <-> max_rows request < Z.of_nat (length fetched)).

Lemma query_output_ok repr_str request columns fetched out :
  query_output repr_str request columns fetched = Ok out -> answers_with request columns fetched out.
Proof.
  unfold query_output. destruct (result_mapM _ _) as [l|e] eqn:Hl; cbn; [|done].
  intros [= <-]. unfold answers_with; cbn. split_and!; [done| |done|apply Z.ltb_lt].
  apply result_mapM_ok in Hl. eapply Forall2_impl; [exact Hl|].
  intros row cells. by rewrite normalize_row_zip.
Qed.

Section properties.
Context (resolve_uri : string -> string) (repr_str : string -> string).
Context (database_path : string) (request : DbQueryInput).
Abbreviation ev := (Event (E := sqlite_sig)).
Abbreviation query_run := (execute_query resolve_uri repr_str database_path request tt).

(** The events before the caller's statement. *)
Definition guard_events (cursor : option (list string)) : list (event sqlite_sig) :=
  [ev (SConnect (resolve_uri database_path +:+ "?mode=ro")) (Ok tt);
   ev (SExecute "PRAGMA query_only = ON" None) (Ok cursor);
   ev (SSetAuthorizer read_only_authorizer) (Ok tt)].

Definition is_caller_statement (e : event sqlite_sig) : bool :=
  match e with existT (SExecute _ (Some _)) _ => true | _ => false end.

(** The connections opened and left along a trace. *)
Definition connections (tr : list (event sqlite_sig)) : nat :=
  length (List.filter (fun e => match e with existT (SConnect _) (Ok _) => true | _ => false end) tr).
Definition exits (tr : list (event sqlite_sig)) : nat :=
  length (List.filter (fun e => match e with existT (SExit _) _ => true | _ => false end) tr).

(** What a run shows: the caller's statement only right after the guards and only
    once; an output only of the rows it returned; no error of SQLite; the
    connection left as often as it was opened. *)
Definition guarded_run (r : result exc DbQueryOutput) (tr : list (event sqlite_sig)) : Prop :=
  (existsb is_caller_statement tr = true -> exists cursor answer tail,
     tr = guard_events cursor ++ ev (SExecute (query request) (Some (parameters request))) answer :: tail /\
     existsb is_caller_statement tail = false) /\
  (forall out, r = Ok out -> exists cursor columns fetched,
     tr = guard_events cursor ++
       [ev (SExecute (query request) (Some (parameters request))) (Ok (Some columns));
        ev (SFetchMany (max_rows request + 1)) (Ok fetched); ev (SExit false) (Ok tt)] /\
     answers_with request columns fetched out) /\
  (forall e, r = Err e -> catches [SqliteError] e = false) /\
  exits tr = connections tr.

Lemma normalize_row_error columns row e :
  normalize_row repr_str columns row = Err e -> catches [SqliteError] e = false.
Proof using.
  unfold normalize_row. generalize (@nil (string * SqlScalar)). intros acc. revert acc row.
  induction columns as [|column columns IH]; intros acc [|[v|b] row]; cbn; try by intros [= <-].
  apply IH.
Qed.

Lemma query_output_error columns fetched e :
  query_output repr_str request columns fetched = Err e -> catches [SqliteError] e = false.
Proof using.
  unfold query_output. generalize (take (Z.to_nat (max_rows request)) fetched). intros l.
  assert (Hl : forall e, result_mapM (normalize_row repr_str columns) l = Err e ->
                 catches [SqliteError] e = false).
  { clear e. induction l as [|row l IH]; intros e; cbn; [done|].
    destruct (normalize_row repr_str columns row) eqn:Hrow; [|intros [= <-]; by eapply normalize_row_error].
    destruct (result_mapM _ l); cbn; [done|]. intros [= <-]. by apply IH. }
  destruct (result_mapM _ l) as [a|e'] eqn:Hm; cbn; [done|]. intros [= <-]. by apply Hl.
Qed.

Lemma execute_query_wp :
  wpM (history sqlite_sig) (execute_query resolve_uri repr_str database_path request) tt []
    (fun r _ tr => guarded_run r tr).
Proof.
  unfold execute_query, with_connection, query_connection. run_calls; cbn [mnext history app];
    repeat match goal with a : ans sqlite_sig _ |- _ => progress cbn in a end;
    repeat match goal with u : unit |- _ => destruct u end; simplify_eq;
    (split_and!;
      [intros Hc; try discriminate Hc; repeat eexists|
       intros out Hout; try discriminate Hout; repeat eexists; apply query_output_ok in Hout; try apply Hout|
       intros err Herr; try discriminate Herr; try (by apply query_output_error in Herr);
         simplify_eq; try done|
       reflexivity]).
Qed.

Lemma query_runs_total : total query_run.
Proof. eapply wp_total; [|apply execute_query_wp]. done. Qed.

End properties.

(** The authorizer does not refuse every action that changes the database. *)
Theorem virtual_tables_authorized :
  read_only_authorizer SQLITE_CREATE_VTABLE = SQLITE_OK /\ read_only_authorizer SQLITE_DROP_VTABLE = SQLITE_OK.
Proof. by split. Qed.

(** SQLite answering the caller's statement with the given outcome: an error, or
    its columns (none for a statement without a result) and its rows. *)
Definition sqlite_env (statement : result exc (option (list string) * list (list sqlite_value))) :
    handler sqlite_sig unit := fun o _ =>
  (match o return result exc (ans sqlite_sig o) with
   | SConnect _ | SSetAuthorizer _ | SExit _ => Ok tt
   | SExecute _ None => Ok None
   | SExecute _ (Some _) => result_map fst statement
   | SFetchMany size => result_map (fun answer => take (Z.to_nat size) answer.2) statement
   end, tt).

Section outcome.
Context (resolve_uri : string -> string) (repr_str : string -> string) (database_path : string).
Abbreviation query_outcome statement request r :=
  (runs (sqlite_env statement) (execute_query resolve_uri repr_str database_path request) tt tt r tt tt).

Lemma take_fetched (request : DbQueryInput) {A} (table : list A) :
  1 <= max_rows request ->
  (max_rows request <? Z.of_nat (length (take (Z.to_nat (max_rows request + 1)) table))) =
    (max_rows request <? Z.of_nat (length table)) /\
  take (Z.to_nat (max_rows request)) (take (Z.to_nat (max_rows request + 1)) table) =
    take (Z.to_nat (max_rows request)) table.
Proof.
  intros Hm. split.
  - rewrite length_take. destruct (Z.ltb_spec (max_rows request) (Z.of_nat (length table))) as [Hl|Hl];
      [apply Z.ltb_lt|apply Z.ltb_ge]; lia.
  - rewrite take_take. f_equal. lia.
Qed.

(** What a query answers.  For a statement that returns rows, the output has
    its columns and its first [max_rows] rows, each the dict of its cells, and says
    whether rows were left out; a value that is not a scalar, a statement without a
    result and an error of SQLite are each reported as a failed execution. *)
Theorem query_returns_first_rows (request : DbQueryInput) (Hvalid : DbQueryInput_valid request = true) :
  (forall names (table : list (list SqlScalar)),
     Forall (fun cells => length cells = length names) table ->
     query_outcome (Ok (Some names, map (map Scalar) table)) request
       (Ok {| columns := names;
              rows := map (fun cells => dict_of_pairs (zip names cells)) (take (Z.to_nat (max_rows request)) table);
              row_count := Z.min (max_rows request) (Z.of_nat (length table));
              truncated := max_rows request <? Z.of_nat (length table) |})) /\
  (forall name before bytes,
     query_outcome (Ok (Some [name], [Blob bytes] :: before)) request
       (Err (EGateway (tool_execution_error
          ("Column " +:+ repr_str name +:+ " returned an unsupported SQLite value type"))))) /\
  (forall answer, query_outcome (Ok (None, answer)) request
     (Err (EGateway (tool_execution_error "The SQL statement did not return rows")))) /\
  (forall message, query_outcome (Err (EPy SqliteError message)) request
     (Err (EGateway (tool_execution_error ("SQLite rejected the query: " +:+ message))))).
Proof.
  assert (Hm : 1 <= max_rows request) by (unfold DbQueryInput_valid in Hvalid; lia).
  split; [|split; [|split]].
  - intros names table Hall. eexists.
    unfold execute_query, with_connection, query_connection, try_with, mbind, M_bind.
    cbn -[Z.to_nat query_output]. unfold query_output.
    destruct (take_fetched request (map (map Scalar) table) Hm) as [-> ->].
    rewrite firstn_map, normalize_rows by (by apply Forall_take). cbn -[Z.to_nat].
    rewrite !length_map, length_take, Nat2Z.inj_min, Z2Nat.id by lia. reflexivity.
  - intros name before bytes. eexists.
    unfold execute_query, with_connection, query_connection, try_with, mbind, M_bind.
    cbn -[Z.to_nat query_output]. unfold query_output.
    destruct (take_fetched request ([Blob bytes] :: before) Hm) as [-> ->].
    destruct (Z.to_nat (max_rows request)) eqn:Hn; [lia|]. reflexivity.
  - intros answer. eexists. reflexivity.
  - intros message. eexists. reflexivity.
Qed.
End outcome.

(** Three orders, of which the query asks for two. *)
Definition example_request : DbQueryInput :=
  {| query := "SELECT order_id, total_cents FROM orders"; parameters := Named []; max_rows := 2 |}.
Definition example_rows : list (list SqlScalar) :=
  [[SStr "ORD-1001"; SInt 12900]; [SStr "ORD-1002"; SInt 4599]; [SStr "ORD-1003"; SInt 8750]].

Lemma query_returns_first_rows_witness :
  DbQueryInput_valid example_request = true /\
  runs (sqlite_env (Ok (Some ["order_id"; "total_cents"], map (map Scalar) example_rows)))
    (execute_query id id "orders.sqlite" example_request) tt tt
    (Ok {| columns := ["order_id"; "total_cents"];
           rows := [[("order_id", SStr "ORD-1001"); ("total_cents", SInt 12900)];
                    [("order_id", SStr "ORD-1002"); ("total_cents", SInt 4599)]];
           row_count := 2; truncated := true |}) tt tt.
Proof.
  split; [reflexivity|].
  apply (proj1 (query_returns_first_rows id id "orders.sqlite" example_request eq_refl)
           ["order_id"; "total_cents"] example_rows).
  by repeat constructor.
Defined.

(** Columns of the same name are merged: only the last value is kept. *)
Lemma duplicate_columns_merged repr_str :
  normalize_row repr_str ["id"; "id"] [Scalar (SInt 1); Scalar (SInt 2)] = Ok [("id", SInt 2)].
Proof. reflexivity. Qed.
