(* ===== verification/Sandbox.v ===== *)
(** * The container sandbox

    [gateway/sandbox/]: the profiles, the docker command, the life of a container
    and the worker inside it; and [gateway/tools/shell_exec.py].  The docker
    processes are operations whose answers come from outside; paths, the text of a
    float and the decoding of bytes are arguments.  Log messages are left out. *)

From S2P Require Import Prelude Dict Pystr Json Models Errors Effects Http DbQuery.
From Stdlib Require Import QArith Ascii DecimalString DecimalPos DecimalZ.
Open Scope Z_scope.

Inductive SandboxRuntime := GVISOR | HARDENED_DOCKER.

Definition SandboxRuntime_value (r : SandboxRuntime) : string :=
  match r with GVISOR => "gvisor" | HARDENED_DOCKER => "hardened-docker" end.
Definition SandboxRuntimes : list SandboxRuntime := [GVISOR; HARDENED_DOCKER].
#[export, refine] Instance SandboxRuntime_enum : StrEnum SandboxRuntime :=
  {| value := SandboxRuntime_value; of_value := member_of SandboxRuntime_value SandboxRuntimes |}.
Proof. by intros []. Defined.

Definition runtime_arguments (runtime : SandboxRuntime) : list string :=
  match runtime with
  | GVISOR => ["--runtime"; "runsc"]
  | HARDENED_DOCKER => ["--security-opt"; "no-new-privileges"]
  end.

Record SandboxProfile := {
  sp_name : string;
  timeout_seconds : Q;
  memory : string;
  cpus : Q;
  pids_limit : Z;
  network : bool;
  workspace : string
}.

Definition profile_for_tool (tool_name workspace : string) : result exc SandboxProfile :=
  if String.eqb tool_name "db_query" then
    Ok {| sp_name := "db_query"; timeout_seconds := 10; memory := "256m"; cpus := 1;
          pids_limit := 32; network := false; workspace := workspace |}
  else if String.eqb tool_name "shell_exec" then
    Ok {| sp_name := "shell_exec"; timeout_seconds := 5; memory := "128m"; cpus := 1 # 2;
          pids_limit := 16; network := false; workspace := workspace |}
  else Err (EPy ValueError ("No sandbox profile exists for " +:+ tool_name)).

(* ------------------------------------------------------------------ *)
(** ** The docker command *)

(** A mount: the host path, the path in the container, whether it is read-only. *)
Definition mount : Type := (string * string * bool)%type.

Section command.
Context (float_str : Q -> string) (resolve_path : string -> string) (seccomp_path : string).
Context (runtime : SandboxRuntime) (image : string).

Definition mount_arguments (m : mount) : list string :=
  let '(host_path, container_path, read_only) := m in
  let mode := if read_only then "ro" else "rw" in
  ["--mount"; "type=bind,src=" +:+ resolve_path host_path +:+ ",dst=" +:+ container_path +:+ "," +:+ mode].

(** The options of [docker run], before the image. *)
Definition docker_options (container_name : string) (profile : SandboxProfile) (mounts : list mount) :
    list string :=
  ["--name"; container_name; "--rm"; "--interactive"; "--init"; "--read-only"; "--cap-drop=ALL";
   "--security-opt=no-new-privileges";
   if negb (network profile) then "--network=none" else "--network=bridge";
   "--memory"; memory profile; "--cpus"; float_str (cpus profile);
   "--pids-limit"; print_int (pids_limit profile);
   "--tmpfs"; "/workspace:rw,noexec,nosuid,nodev"; "--workdir"; "/workspace";
   "--env"; "PYTHONPATH=/opt/gateway"] ++
  runtime_arguments runtime ++
  match runtime with
  | HARDENED_DOCKER => ["--security-opt"; "seccomp=" +:+ seccomp_path]
  | GVISOR => []
  end ++
  ["--label"; "mcp-gateway.sandbox=true"] ++
  concat (map mount_arguments mounts).

Definition docker_command (container_name : string) (command : list string) (profile : SandboxProfile)
    (mounts : list mount) : list string :=
  ["docker"; "run"] ++ docker_options container_name profile mounts ++ [image] ++ command.
End command.

(** [shlex.join] *)
Definition shell_safe (c : ascii) : bool :=
  is_digit c || (let n := code c in (65 <=? n)%nat && (n <=? 90)%nat || (97 <=? n)%nat && (n <=? 122)%nat) ||
  existsb (fun n => (code c =? n)%nat) [95; 64; 37; 43; 61; 58; 44; 46; 47; 45]%nat.
Definition quoted_quote : string :=
  "'" +:+ char_string quote_char +:+ "'" +:+ char_string quote_char +:+ "'".
Fixpoint replace_quotes (s : string) : string :=
  match s with
  | String c s' => (if decide (c = "'"%char) then quoted_quote else char_string c) +:+ replace_quotes s'
  | EmptyString => ""
  end.
Definition shlex_quote (s : string) : string :=
  if negb (truthy s) then "''"
  else if forall_chars shell_safe s then s
  else "'" +:+ replace_quotes s +:+ "'".
Definition shlex_join (command : list string) : string := join " " (map shlex_quote command).

(* ------------------------------------------------------------------ *)
(** ** The life of a container *)

(** What [SandboxRunner.run] calls. *)
Inductive docker_op :=
| DUuid
| DSpawn (command : list string) (piped : bool)
| DCommunicate (stdin : option string) (timeout : Q)
| DReturncode
| DKill
| DWait
| DRemove (container_name : string)
| DRemoveWait.

Definition docker_sig : signature :=
  {| op := docker_op;
     ans o := match o with
              | DUuid => string
              | DCommunicate _ _ => (string * string)%type
              | DReturncode => option Z
              | _ => unit
              end |}.

Record SandboxResult := {
  exit_code : Z;
  sr_stdout : string;
  sr_stderr : string
}.

Section runner.
Context (float_str : Q -> string) (resolve_path : string -> string) (seccomp_path : string).
Context (decode : string -> string).
Context (runtime : SandboxRuntime) (image : string) (output_limit : Z).
Abbreviation E := docker_sig.

(** The variable [process] is bound once the process exists. *)
Abbreviation DM := (M docker_sig bool).

Definition size (s : string) : Z := Z.of_nat (String.length s).

(** After the process ended: the output limit and the exit code. *)
Definition finished_result (command : list string) (stdout stderr : string) (returncode : option Z) :
    result exc SandboxResult :=
  if (output_limit <? size stdout) || (output_limit <? size stderr) then
    Err (EGateway (sandbox_error "Sandbox output exceeded the configured limit"))
  else
    let r := {| exit_code := default 0 returncode; sr_stdout := decode stdout; sr_stderr := decode stderr |} in
    if negb (exit_code r =? 0) then
      Err (EGateway (sandbox_error
        ("Sandbox command failed with exit code " +:+ print_int (exit_code r) +:+ ": " +:+
         shlex_join command +:+ "; " +:+ strip (sr_stderr r))))
    else Ok r.

(** The [try] body. *)
Definition run_container (container_name : string) (command : list string) (profile : SandboxProfile)
    (mounts : list mount) (stdin : option string) : DM SandboxResult :=
  try_with
    (call (E := E) (DSpawn (docker_command float_str resolve_path seccomp_path runtime image
                              container_name command profile mounts)
                           (match stdin with Some _ => true | None => false end));;
     modify (fun _ => true);;
     output ← try_with (call (E := E) (DCommunicate stdin (timeout_seconds profile)))
       (fun e =>
          if catches [TimeoutError] e then
            call (E := E) DKill;;
            call (E := E) DWait;;
            raise (EGateway sandbox_timeout_error)
          else raise e);
     returncode ← call (E := E) DReturncode;
     lift_result (finished_result command output.1 output.2 returncode))
    (fun e =>
       if catches [FileNotFoundError] e
       then raise (EGateway (sandbox_error "Docker executable is unavailable")) else raise e).

(** The [finally] body. *)
Definition reap_container (container_name : string) : DM unit :=
  process ← get;
  (if negb process then mret tt else
   returncode ← call (E := E) DReturncode;
   match returncode with
   | None => call (E := E) DKill;; call (E := E) DWait
   | Some _ => mret tt
   end);;
  try_with (call (E := E) (DRemove container_name);; call (E := E) DRemoveWait)
    (fun e => if catches [OSError] e then mret tt else raise e).

(** [SandboxRunner.run] *)
Definition sandbox_run (command : list string) (profile : SandboxProfile) (mounts : list mount)
    (stdin : option string) : DM SandboxResult :=
  uuid ← call (E := E) DUuid;
  let container_name := "mcp-tool-" +:+ uuid in
  finally (run_container container_name command profile mounts stdin) (reap_container container_name).

Context (float_norm : string -> string).

(** [SandboxRunner.run_worker] *)
Definition worker_command : list string := ["python"; "-m"; "gateway.sandbox.worker"].
Definition run_worker (payload : jdict) (profile : SandboxProfile) (mounts : list mount) : DM jdict :=
  result ← sandbox_run worker_command profile mounts (Some (dumps (JObj payload)));
  decoded ← lift_result (ok_or (loads float_norm (sr_stdout result)) (EPy JSONDecodeError "Expecting value"));
  match decoded with
  | JObj decoded => mret decoded
  | _ => raise (EGateway (sandbox_error "Sandbox worker returned an invalid JSON object"))
  end.
End runner.

(* ------------------------------------------------------------------ *)
(** ** The worker inside the container *)

(** What the container-side program calls: a shell, and the database query. *)
Inductive container_op :=
| CShell (command : json)
| CQuery (database_path : string) (request : DbQueryInput).
Definition container_sig : signature :=
  {| op := container_op;
     ans o := match o with
              | CShell _ => (Z * string * string)%type
              | CQuery _ _ => DbQueryOutput
              end |}.

(** [main] of [sandbox/worker.py]: the text it prints.  [validate_query] is
    [DbQueryInput.model_validate]. *)
Definition worker_main (float_norm : string -> string) (repr : json -> string)
    (validate_query : json -> result exc DbQueryInput) (stdin : string) : M container_sig unit string :=
  payload ← lift_result (ok_or (loads float_norm stdin) (EPy JSONDecodeError "Expecting value"));
  kind ← lift_result (json_index payload "kind");
  if bool_decide (kind = JStr "shell_exec") then
    command ← lift_result (json_index payload "command");
    completed ← call (E := container_sig) (CShell command);
    let '(returncode, stdout, stderr) := completed in
    mret (dumps (JObj [("exit_code", JInt returncode); ("stdout", JStr stdout); ("stderr", JStr stderr)]))
  else if bool_decide (kind = JStr "db_query") then
    request ← lift_result (json_index payload "request");
    request ← lift_result (validate_query request);
    database_path ← lift_result (json_index payload "database_path");
    output ← call (E := container_sig) (CQuery (py_str repr database_path) request);
    mret (dumps (JObj (dump_DbQueryOutput output)))
  else raise (EPy ValueError "Unknown sandbox worker command").

(* ------------------------------------------------------------------ *)
(** ** tools/shell_exec.py *)

(** [int(text)]: blanks around, a sign, digits with single underscores between. *)
Fixpoint remove_underscores (s : string) (after_digit : bool) : option string :=
  match s with
  | EmptyString => if after_digit then Some EmptyString else None
  | String c s' =>
      if is_digit c then String c <$> remove_underscores s' true
      else if decide (c = "_"%char) then (if after_digit then remove_underscores s' false else None)
      else None
  end.
Definition int_digits (s : string) : option Z :=
  d ← remove_underscores s false; Z.of_uint <$> NilEmpty.uint_of_string d.
Definition py_int (s : string) : result exc Z :=
  ok_or (match strip s with
         | String "-" d => Z.opp <$> int_digits d
         | String "+" d => int_digits d
         | d => int_digits d
         end) (EPy ValueError "invalid literal for int() with base 10").

Record ShellExecOutput := {
  so_exit_code : Z;
  so_stdout : string;
  so_stderr : string
}.

(** [handler]; [runner] runs the worker in the sandbox, if there is one. *)
Definition shell_exec {E S} (repr : json -> string)
    (runner : option (jdict -> SandboxProfile -> M E S jdict)) (command : string) : M E S ShellExecOutput :=
  match runner with
  | None => raise (EGateway (tool_not_enabled_error
              "shell_exec is not enabled until Phase 4 sandboxing is implemented"))
  | Some run_worker =>
      profile ← lift_result (profile_for_tool "shell_exec" ".");
      result ← run_worker [("kind", JStr "shell_exec"); ("command", JStr command)] profile;
      code ← lift_result (json_index (JObj result) "exit_code");
      code ← lift_result (py_int (py_str repr code));
      out ← lift_result (json_index (JObj result) "stdout");
      err ← lift_result (json_index (JObj result) "stderr");
      mret {| so_exit_code := code; so_stdout := py_str repr out; so_stderr := py_str repr err |}
  end.

Lemma remove_underscores_digits s b :
  forall_chars is_digit s = true -> truthy s || b = true -> remove_underscores s b = Some s.
Proof.
  revert b. induction s as [|c s IH]; intros b; cbn; [by intros _ ->|].
  intros [-> Hs]%andb_true_iff _. rewrite IH; [done..|by rewrite orb_true_r].
Qed.

Lemma is_digit_not_space c : int_char c = true -> is_space c = false.
Proof. destruct c as [[] [] [] [] [] [] [] []]; vm_compute; done. Qed.

Lemma lstrip_digits s : forall_chars int_char s = true -> lstrip s = s.
Proof. destruct s as [|c s]; cbn; [done|]. intros [Hc _]%andb_true_iff. by rewrite is_digit_not_space. Qed.

Lemma strip_digits s : forall_chars int_char s = true -> strip s = s.
Proof.
  intros Hs. unfold strip, rstrip. rewrite (lstrip_digits s Hs), lstrip_digits.
  - apply rev_string_involutive.
  - by rewrite forall_chars_rev.
Qed.

Lemma int_digits_uint d : d <> Decimal.Nil -> int_digits (NilZero.string_of_uint d) = Some (Z.of_uint d).
Proof.
  intros Hd. assert (Heq : NilZero.string_of_uint d = NilEmpty.string_of_uint d) by (by destruct d).
  unfold int_digits. rewrite Heq, remove_underscores_digits.
  - cbn. by rewrite NilEmpty.usu.
  - apply string_of_uint_digits.
  - by destruct d.
Qed.

Lemma py_int_print z : py_int (print_int z) = Ok z.
Proof.
  unfold py_int. rewrite strip_digits by apply print_int_chars.
  destruct z as [|p|p]; [reflexivity| |].
  - assert (Hd := int_digits_uint (Pos.to_uint p) (DecimalPos.Unsigned.to_uint_nonnil p)).
    unfold print_int. cbn [Z.to_int NilZero.string_of_int].
    destruct (NilZero.string_of_uint (Pos.to_uint p)) as [|c s] eqn:Hs; [done|].
    assert (Hc : is_digit c = true).
    { pose proof (string_of_uint_digits (Pos.to_uint p)) as Hall.
      assert (Heq : NilZero.string_of_uint (Pos.to_uint p) = NilEmpty.string_of_uint (Pos.to_uint p))
        by (pose proof (DecimalPos.Unsigned.to_uint_nonnil p); by destruct (Pos.to_uint p)).
      rewrite <- Heq, Hs in Hall. cbn in Hall. by apply andb_true_iff in Hall as [? _]. }
    assert (Hz : Z.of_uint (Pos.to_uint p) = Z.pos p).
    { apply (DecimalZ.of_to (Z.pos p)). }
    rewrite Hz in Hd. destruct c as [[] [] [] [] [] [] [] []]; try (vm_compute in Hc; discriminate Hc);
      by rewrite Hd.
  - assert (Hd := int_digits_uint (Pos.to_uint p) (DecimalPos.Unsigned.to_uint_nonnil p)).
    unfold print_int. cbn [Z.to_int NilZero.string_of_int]. rewrite Hd. cbn.
    f_equal. apply (DecimalZ.of_to (Z.neg p)).
Qed.

(* ------------------------------------------------------------------ *)
(** ** Properties *)

(** What a trace shows: the processes started, their output and the return codes
    read, whether the process was killed, the containers whose removal was started,
    and whether reading the return code, killing the process or waiting for it failed. *)
Definition docker_event : Type := event docker_sig.
Definition spawned_of (ev : docker_event) : option (list string * result exc unit) :=
  match ev with existT (DSpawn command _) a => Some (command, a) | _ => None end.
Definition output_of (ev : docker_event) : option (result exc (string * string)) :=
  match ev with existT (DCommunicate _ _) a => Some a | _ => None end.
Definition spawned (tr : list docker_event) : list (list string * result exc unit) := omap spawned_of tr.
Definition outputs (tr : list docker_event) : list (result exc (string * string)) := omap output_of tr.
Definition returncode_of (ev : docker_event) : option (result exc (option Z)) :=
  match ev with existT DReturncode a => Some a | _ => None end.
Definition returncodes (tr : list docker_event) : list (result exc (option Z)) := omap returncode_of tr.
Definition killed (tr : list docker_event) : bool :=
  existsb (fun ev : docker_event => match ev with existT DKill _ => true | _ => false end) tr.
Definition removed (tr : list docker_event) : list string :=
  omap (fun ev : docker_event => match ev with existT (DRemove name) _ => Some name | _ => None end) tr.
Definition reap_fault (tr : list docker_event) : bool :=
  existsb (fun ev : docker_event =>
    match ev with
    | existT DReturncode (Err _) | existT DKill (Err _) | existT DWait (Err _) => true
    | _ => false
    end) tr.
(** The removal ended, or starting it or waiting for its end raised an error. *)
Definition removal_ended (tr : list docker_event) : bool :=
  existsb (fun ev : docker_event => match ev with existT DRemoveWait (Ok _) => true | _ => false end) tr.
Definition removal_error (tr : list docker_event) : bool :=
  existsb (fun ev : docker_event =>
    match ev with existT (DRemove _) (Err _) | existT DRemoveWait (Err _) => true | _ => false end) tr.
(** An error of the removal that is not an operating system error is raised. *)
Definition removal_raised (tr : list docker_event) : bool :=
  existsb (fun ev : docker_event =>
    match ev with
    | existT (DRemove _) (Err e) | existT DRemoveWait (Err e) => negb (catches [OSError] e)
    | _ => false
    end) tr.

Lemma finished_result_ok decode output_limit command stdout stderr returncode res :
  finished_result decode output_limit command stdout stderr returncode = Ok res ->
  size stdout <= output_limit /\ size stderr <= output_limit /\ default 0 returncode = 0 /\
  res = {| exit_code := 0; sr_stdout := decode stdout; sr_stderr := decode stderr |}.
Proof.
  unfold finished_result.
  destruct (Z.ltb_spec output_limit (size stdout)); [done|].
  destruct (Z.ltb_spec output_limit (size stderr)); [done|]. cbn.
  destruct (Z.eqb_spec (default 0 returncode) 0) as [Hz|]; cbn; [|done].
  intros [= <-]. by rewrite Hz.
Qed.

Section container.
Context (float_str : Q -> string) (resolve_path : string -> string) (seccomp_path : string).
Context (decode : string -> string) (runtime : SandboxRuntime) (image : string) (output_limit : Z).
Context (command : list string) (profile : SandboxProfile) (mounts : list mount) (stdin : option string).

(** What the process part of a run shows. *)
Definition ran (name : string) (tr : list docker_event) (r : result exc SandboxResult) : Prop :=
  (forall e, outputs tr = [Err e] -> catches [TimeoutError] e = true ->
     killed tr = true /\ exists e', r = Err e' /\
       (reap_fault tr = false -> e' = EGateway sandbox_timeout_error)) /\
  (forall res, r = Ok res -> exists stdout stderr,
     spawned tr = [(docker_command float_str resolve_path seccomp_path runtime image name command profile mounts,
                    Ok tt)] /\
     outputs tr = [Ok (stdout, stderr)] /\
     (exists returncode rest, returncodes tr = Ok returncode :: rest /\ default 0 returncode = 0) /\
     size stdout <= output_limit /\ size stderr <= output_limit /\
     res = {| exit_code := 0; sr_stdout := decode stdout; sr_stderr := decode stderr |}).

Lemma run_container_wp name tr :
  wpM (history docker_sig)
    (run_container float_str resolve_path seccomp_path decode runtime image output_limit
       name command profile mounts stdin) false tr (fun r _ tr' =>
    exists tail, tr' = tr ++ tail /\
      (removed tail = [] /\ removal_error tail = false /\ removal_ended tail = false /\ removal_raised tail = false) /\
      ran name tail r).
Proof.
  unfold run_container. run_calls; cbn [mnext history]; rewrite <- ?app_assoc; (eexists; split; [reflexivity|]);
    (split; [by split_and!|]);
    (split; [intros err Herr Hc; cbn -[catches] in Herr; try discriminate Herr; simplify_eq|
             intros res Hres; try discriminate Hres]);
    try congruence;
    try (split; [reflexivity|]; eexists; split; [reflexivity|]; cbn -[catches]; intros; congruence).
  injection Hres as <-. exists a0.1, a0.2. apply finished_result_ok in Heqr as (? & ? & ? & ->).
  destruct a, a0. split_and!; try done. by eexists _, [].
Qed.
End container.

Lemma reap_container_wp name b tr :
  wpM (history docker_sig) (reap_container name) b tr (fun r _ tr' =>
    exists tail, tr' = tr ++ tail /\ spawned tail = [] /\ outputs tail = [] /\
      (removed tail = [name] /\ removal_error tail = negb (removal_ended tail) \/ reap_fault tail = true) /\
      (forall e, r = Err e -> reap_fault tail = true \/ removal_raised tail = true)).
Proof.
  unfold reap_container. run_calls; cbn [mnext history]; rewrite <- ?app_assoc;
    (eexists; split; [reflexivity|]); (split; [reflexivity|]); (split; [reflexivity|]);
    cbn -[catches]; (split; [auto|]); intros err Herr; try discriminate Herr; simplify_eq; auto;
    right; match goal with Hc : catches [OSError] _ = false |- _ => by rewrite Hc end.
Qed.

Section properties.
Context (float_str : Q -> string) (resolve_path : string -> string) (seccomp_path : string).
Context (decode : string -> string) (runtime : SandboxRuntime) (image : string) (output_limit : Z).

Lemma spawned_app tr tr' : spawned (tr ++ tr') = spawned tr ++ spawned tr'.
Proof using. apply omap_app. Qed.
Lemma outputs_app tr tr' : outputs (tr ++ tr') = outputs tr ++ outputs tr'.
Proof using. apply omap_app. Qed.
Lemma removed_app tr tr' : removed (tr ++ tr') = removed tr ++ removed tr'.
Proof using. apply omap_app. Qed.
Lemma killed_app tr tr' : killed (tr ++ tr') = killed tr || killed tr'.
Proof using. apply existsb_app. Qed.
Lemma returncodes_app tr tr' : returncodes (tr ++ tr') = returncodes tr ++ returncodes tr'.
Proof using. apply omap_app. Qed.
Lemma removal_ended_app tr tr' : removal_ended (tr ++ tr') = removal_ended tr || removal_ended tr'.
Proof using. apply existsb_app. Qed.
Lemma removal_error_app tr tr' : removal_error (tr ++ tr') = removal_error tr || removal_error tr'.
Proof using. apply existsb_app. Qed.
Lemma reap_fault_app tr tr' : reap_fault (tr ++ tr') = reap_fault tr || reap_fault tr'.
Proof using. apply existsb_app. Qed.
Lemma removal_raised_app tr tr' : removal_raised (tr ++ tr') = removal_raised tr || removal_raised tr'.
Proof using. apply existsb_app. Qed.

(** What a call with a named container shows: the container is removed, a timeout
    kills the process, and a result is that of one process that succeeded.  The
    removal is a process of its own, which ended unless starting it or waiting for it
    raised an error. *)
Definition contained command profile mounts (name : string) (tr : list docker_event)
    (r : result exc SandboxResult) : Prop :=
  (removed tr = [name] /\ removal_error tr = negb (removal_ended tr) \/ reap_fault tr = true) /\
  (forall e, outputs tr = [Err e] -> catches [TimeoutError] e = true ->
     killed tr = true /\ exists e', r = Err e' /\
       (reap_fault tr = false -> removal_raised tr = false -> e' = EGateway sandbox_timeout_error)) /\
  (forall res, r = Ok res -> exists stdout stderr,
     spawned tr = [(docker_command float_str resolve_path seccomp_path runtime image name command
                        profile mounts, Ok tt)] /\
     outputs tr = [Ok (stdout, stderr)] /\
     (exists returncode rest, returncodes tr = Ok returncode :: rest /\ default 0 returncode = 0) /\
     size stdout <= output_limit /\ size stderr <= output_limit /\
     res = {| exit_code := 0; sr_stdout := decode stdout; sr_stderr := decode stderr |}).

Definition named command profile mounts (r : result exc SandboxResult) (tr : list docker_event) : Prop :=
  (exists e, tr = [Event (E := docker_sig) DUuid (Err e)] /\ r = Err e) \/
  exists uuid tail, tr = Event (E := docker_sig) DUuid (Ok uuid) :: tail /\
    contained command profile mounts ("mcp-tool-" +:+ uuid) tail r.

Lemma ran_reaped command profile mounts name t1 t2 r (r' : result exc unit) :
  removed t1 = [] /\ removal_error t1 = false /\ removal_ended t1 = false /\ removal_raised t1 = false ->
  ran float_str resolve_path seccomp_path decode runtime image output_limit command profile mounts name t1 r ->
  spawned t2 = [] -> outputs t2 = [] ->
  (removed t2 = [name] /\ removal_error t2 = negb (removal_ended t2) \/ reap_fault t2 = true) ->
  (forall e, r' = Err e -> reap_fault t2 = true \/ removal_raised t2 = true) ->
  contained command profile mounts name (t1 ++ t2) (match r' with Ok _ => r | Err e => Err e end).
Proof.
  intros (Hrm & Herror & Hended & Hraise) [Hto Hok] Hsp Hout Hrm' Herr. unfold contained.
  rewrite removed_app, reap_fault_app, spawned_app, outputs_app, killed_app, removal_raised_app,
    removal_error_app, removal_ended_app, returncodes_app, Hrm, Hraise, Herror, Hended, Hsp, Hout, !app_nil_r. cbn [app orb].
  split; [destruct Hrm' as [? | ->]; rewrite ?orb_true_r; auto|]. split.
  - intros e He Hc. destruct (Hto e He Hc) as (-> & e' & -> & Hto'). split; [done|].
    destruct r' as [[]|e'']; eexists; (split; [reflexivity|]).
    + intros [? _]%orb_false_iff _. auto.
    + intros [_ Hf]%orb_false_iff Hr. destruct (Herr e'' eq_refl); congruence.
  - intros res Hres. destruct (Hok res) as (stdout & stderr & H1 & H2 & (rc & rest & Hrc & Hz) & H3); [by destruct r'|].
    exists stdout, stderr. split_and!; try done; [|by apply H3..]. exists rc, (rest ++ returncodes t2). by rewrite Hrc.
Qed.

Lemma sandbox_run_wp command profile mounts stdin :
  wpM (history docker_sig)
    (sandbox_run float_str resolve_path seccomp_path decode runtime image output_limit
       command profile mounts stdin) false [] (fun r _ tr => named command profile mounts r tr).
Proof.
  unfold sandbox_run. wp_step. wp_call; [exact I|]. intros [uuid|e] _; [|left; eauto].
  cbn beta iota zeta. wp_step.
  eapply wpM_mono; [apply run_container_wp|]. intros r b tr (t1 & -> & Hquiet & Hran).
  eapply wpM_mono; [apply reap_container_wp|]. intros r' b' tr (t2 & -> & Hsp & Hout & Hrm' & Herr).
  pose proof (ran_reaped _ _ _ _ _ _ _ r' Hquiet Hran Hsp Hout Hrm' Herr) as Hc.
  destruct r'; right; exists uuid, (t1 ++ t2); (split; [reflexivity|exact Hc]).
Qed.

(** C22: the call cleans up after its container.  Once the call has a container
    name, [docker rm -f] is started for this name, and only once, whatever
    happened, unless reading the status of the docker process, killing it or waiting
    for it raised an error; and the removal ended before the call did, unless starting it
    or waiting for it raised an error (of which an OSError is swallowed).  A timeout
    kills the process and raises the sandbox timeout, unless the clean-up raised.
    A result is returned only for one process, started with the sandbox's command,
    with output within the limit and whose return code, when read after its
    output, was zero (or not known, which the code takes for zero). *)
Theorem sandbox_container_reaped command profile mounts stdin :
  let p := sandbox_run float_str resolve_path seccomp_path decode runtime image output_limit
             command profile mounts stdin false in
  total p /\
  forall tr r b, exec p tr (r, b) ->
    (exists e, tr = [Event (E := docker_sig) DUuid (Err e)] /\ r = Err e) \/
    exists uuid tail, tr = Event (E := docker_sig) DUuid (Ok uuid) :: tail /\
      contained command profile mounts ("mcp-tool-" +:+ uuid) tail r.
Proof.
  intros p. split.
  - eapply wp_total; [|apply (sandbox_run_wp command profile mounts stdin)]. done.
  - intros tr r b Hex. exact (history_exec p _ tr (r, b) (sandbox_run_wp command profile mounts stdin) Hex).
Qed.
End properties.

(* ------------------------------------------------------------------ *)
(** ** From the tool to the shell in the container and back *)

(** A container whose shell completes a command with a given outcome, and whose
    queries have given outcomes. *)
Definition container_env (shell : json -> Z * string * string)
    (outcome : string -> DbQueryInput -> result exc DbQueryOutput) : handler container_sig unit := fun o _ =>
  (match o return result exc (ans container_sig o) with
   | CShell command => Ok (shell command)
   | CQuery database_path request => outcome database_path request
   end, tt).

(** Docker runs [program] on the standard input: its exit code, its output and its
    errors.  The state is the return code of the process, once it ended. *)
Definition docker_env (program : string -> Z * string * string) : handler docker_sig (option Z) := fun o w =>
  match o return result exc (ans docker_sig o) * option Z with
  | DUuid => (Ok "id", w)
  | DSpawn _ _ => (Ok tt, None)
  | DKill | DWait | DRemove _ | DRemoveWait => (Ok tt, w)
  | DCommunicate (Some stdin) _ =>
      let '(code, stdout, stderr) := program stdin in (Ok (stdout, stderr), Some code)
  | DCommunicate None _ => (Err (EPy TimeoutError ""), w)
  | DReturncode => (Ok w, w)
  end.

Definition completed_text (rc : Z) (out err : string) : string :=
  dumps (JObj [("exit_code", JInt rc); ("stdout", JStr out); ("stderr", JStr err)]).

Lemma loads_dumps float_norm v : json_wf float_norm v = true -> loads float_norm (dumps v) = Some v.
Proof. apply loads_print. Qed.

(** The worker run in a container on an input: an exception that leaves [main] is
    printed by the interpreter, which exits with code 1. *)
Definition worker_output float_norm repr validate_query (shell : json -> Z * string * string) outcome
    (traceback : exc -> string) (stdin : string) : Z * string * string :=
  match run (container_env shell outcome) (worker_main float_norm repr validate_query stdin tt) tt with
  | Some ((Ok text, _), _, _) => (0, text, "")
  | Some ((Err e, _), _, _) => (1, "", traceback e)
  | None => (1, "", "")
  end.

Lemma worker_output_shell float_norm repr validate_query shell rc out err outcome traceback command :
  shell (JStr command) = (rc, out, err) ->
  worker_output float_norm repr validate_query shell outcome traceback
    (dumps (JObj [("kind", JStr "shell_exec"); ("command", JStr command)])) =
  (0, completed_text rc out err, "").
Proof.
  intros Hshell.
  assert (Hrun : runs (container_env shell outcome)
    (worker_main float_norm repr validate_query (dumps (JObj [("kind", JStr "shell_exec"); ("command", JStr command)])))
    tt tt (Ok (completed_text rc out err)) tt tt).
  { unfold worker_main.
    rewrite (loads_dumps float_norm (JObj [("kind", JStr "shell_exec"); ("command", JStr command)])) by done.
    eapply runs_bind; [apply runs_lift|]. eapply runs_bind; [apply (runs_lift _ (Ok (JStr "shell_exec")))|].
    eapply runs_bind; [apply (runs_lift _ (Ok (JStr command)))|].
    eapply runs_bind; [apply (runs_call _ (CShell (JStr command) : op container_sig) tt tt (Ok (rc, out, err)) tt)|apply runs_ret].
    by rewrite <- Hshell. }
  unfold worker_output. by destruct Hrun as [tr ->].
Qed.

Lemma completed_loads float_norm rc out err :
  loads float_norm (completed_text rc out err) =
  Some (JObj [("exit_code", JInt rc); ("stdout", JStr out); ("stderr", JStr err)]).
Proof. by apply loads_dumps. Qed.

Lemma finished_failed decode output_limit command stderr code :
  size stderr <= output_limit -> code <> 0 ->
  finished_result decode output_limit command "" stderr (Some code) =
  Err (EGateway (sandbox_error
    ("Sandbox command failed with exit code " +:+ print_int code +:+ ": " +:+
     shlex_join command +:+ "; " +:+ strip (decode stderr)))).
Proof.
  intros Hsize Hcode. unfold finished_result.
  assert (0 <= size stderr) by (unfold size; lia). assert (Hnil : size "" = 0) by done.
  rewrite Hnil. destruct (Z.ltb_spec output_limit (size stderr)); [lia|].
  destruct (Z.ltb_spec output_limit 0); [lia|]. cbn.
  by destruct (Z.eqb_spec code 0).
Qed.

Lemma finished_result_err decode output_limit command stdout stderr returncode e :
  finished_result decode output_limit command stdout stderr returncode = Err e ->
  exists m, e = EGateway (sandbox_error m).
Proof. unfold finished_result. intros Hf. repeat case_match; simplify_eq; eauto. Qed.

(** A run of the sandbox is what became of its process. *)
Lemma sandbox_run_docker float_str resolve_path seccomp_path decode runtime image output_limit
    program command profile mounts stdin code stdout stderr :
  program stdin = (code, stdout, stderr) ->
  runs (docker_env program)
    (sandbox_run float_str resolve_path seccomp_path decode runtime image output_limit
       command profile mounts (Some stdin)) false None
    (finished_result decode output_limit command stdout stderr (Some code)) true (Some code).
Proof.
  intros Hprogram.
  eexists. unfold sandbox_run, run_container, reap_container, finally, try_with, mbind, M_bind.
  cbn -[docker_command finished_result catches]. rewrite Hprogram.
  cbn -[docker_command finished_result catches].
  destruct (finished_result decode output_limit command stdout stderr (Some code)) as [r|e] eqn:Hf;
    [reflexivity|].
  apply finished_result_err in Hf as [m ->]. reflexivity.
Qed.

Lemma finished_ok decode output_limit command stdout :
  size stdout <= output_limit ->
  finished_result decode output_limit command stdout "" (Some 0) =
  Ok {| exit_code := 0; sr_stdout := decode stdout; sr_stderr := decode "" |}.
Proof.
  intros Hsize. unfold finished_result.
  assert (0 <= size stdout) by (unfold size; lia). assert (Hnil : size "" = 0) by done.
  rewrite Hnil. destruct (Z.ltb_spec output_limit (size stdout)); [lia|].
  by destruct (Z.ltb_spec output_limit 0); [lia|].
Qed.

(** The sandbox of a worker that prints a JSON object. *)
Lemma run_worker_docker float_str resolve_path seccomp_path decode runtime image output_limit float_norm
    program payload profile mounts text result :
  program (dumps (JObj payload)) = (0, text, "") -> size text <= output_limit ->
  decode text = text -> loads float_norm text = Some (JObj result) ->
  runs (docker_env program)
    (run_worker float_str resolve_path seccomp_path decode runtime image output_limit float_norm
       payload profile mounts) false None (Ok result) true (Some 0).
Proof.
  intros Hprogram Hsize Hdecode Hloads. unfold run_worker.
  eapply runs_bind; [rewrite <- (finished_ok decode output_limit worker_command text Hsize);
                     by apply sandbox_run_docker|].
  cbn [sr_stdout]. rewrite Hdecode, Hloads.
  eapply runs_bind; [apply runs_lift|]. apply runs_ret.
Qed.

(** C33: the shell tool returns what the shell in the container returned for its
    command.  The command travels as
    JSON through docker's standard input to the worker in the container, unchanged, and its
    exit code and output travel back through docker's standard output, unchanged;
    without a sandbox the tool is refused. *)
Theorem shell_exec_roundtrip float_str resolve_path seccomp_path decode runtime image output_limit
    float_norm repr validate_query shell outcome traceback (rc : Z) (out err command : string)
    (Hshell : shell (JStr command) = (rc, out, err))
    (Hdecode : decode (completed_text rc out err) = completed_text rc out err)
    (Hlimit : size (completed_text rc out err) <= output_limit) :
  runs (docker_env (worker_output float_norm repr validate_query shell outcome traceback))
    (shell_exec repr (Some (fun payload profile =>
       run_worker float_str resolve_path seccomp_path decode runtime image output_limit float_norm
         payload profile [])) command) false None
    (Ok {| so_exit_code := rc; so_stdout := out; so_stderr := err |}) true (Some 0) /\
  forall program, runs (docker_env program) (shell_exec repr None command) false None
    (Err (EGateway (tool_not_enabled_error
      "shell_exec is not enabled until Phase 4 sandboxing is implemented"))) false None.
Proof.
  set (p := {| sp_name := "shell_exec"; timeout_seconds := 5; memory := "128m"; cpus := 1 # 2;
               pids_limit := 16; network := false; workspace := "." |}).
  split; [|by intros program; eexists].
  eapply runs_bind; [apply (runs_lift _ (Ok p))|].
  eapply runs_bind; [eapply run_worker_docker; [by apply worker_output_shell|done|done|apply completed_loads]|].
  eapply runs_bind; [apply (runs_lift _ (Ok (JInt rc)))|].
  eapply runs_bind; [cbn [py_str]; rewrite py_int_print; apply runs_lift|].
  eapply runs_bind; [apply (runs_lift _ (Ok (JStr out)))|].
  eapply runs_bind; [apply (runs_lift _ (Ok (JStr err)))|].
  apply runs_ret.
Qed.

(* ------------------------------------------------------------------ *)
(** ** Isolation *)

(** The arguments that follow an option, each time it is given. *)
Fixpoint option_values (name : string) (options : list string) : list string :=
  match options with
  | a :: ((b :: _) as rest) => if String.eqb a name then b :: option_values name rest else option_values name rest
  | _ => []
  end.

Definition isolation_flags : list string :=
  ["--rm"; "--init"; "--read-only"; "--cap-drop=ALL"; "--security-opt=no-new-privileges"; "--network=none"].

Lemma mounts_options (resolve_path : string -> string) (mounts : list mount) o :
  o ∈ concat (map (mount_arguments resolve_path) mounts) ->
  o = "--mount" \/ exists m : mount, m ∈ mounts /\ startswith "type=bind,src=" o = true /\
    endswith (if m.2 then ",ro" else ",rw") o = true.
Proof.
  intros (l & Hl & Ho)%list_elem_of_In%in_concat.
  apply in_map_iff in Hl as (m & <- & Hm). destruct m as [[host path] ro]. cbn in Ho.
  destruct Ho as [<-|[<-|[]]]; [by left|]. right. exists (host, path, ro).
  split; [by apply list_elem_of_In|]. split; [by apply startswith_spec; eexists|].
  unfold endswith. apply startswith_spec.
  exists (rev_string ("type=bind,src=" +:+ resolve_path host +:+ ",dst=" +:+ path)).
  rewrite <- rev_string_app. f_equal. rewrite !sapp_assoc. by destruct ro.
Qed.

(** An option that is neither the bridge network nor a mount. *)
Definition plain_option (o : string) : Prop :=
  o <> "--network=bridge" /\ startswith "type=bind" o = false.

Lemma numeric_plain s : forall_chars is_num_char s = true -> plain_option s.
Proof.
  intros Hs. split; [by intros ->|]. destruct (startswith "type=bind" s) eqn:Hp; [|done].
  apply startswith_spec in Hp as [rest ->]. by rewrite forall_chars_app in Hs.
Qed.

Lemma docker_options_plain float_str resolve_path seccomp_path runtime uuid profile mounts :
  network profile = false -> (forall q, forall_chars is_num_char (float_str q) = true) ->
  plain_option (memory profile) ->
  exists fixed, Forall plain_option fixed /\
    docker_options float_str resolve_path seccomp_path runtime ("mcp-tool-" +:+ uuid) profile mounts =
    fixed ++ concat (map (mount_arguments resolve_path) mounts).
Proof.
  intros Hnet Hnum Hmem. unfold docker_options. rewrite !app_assoc.
  eexists. split; [|reflexivity]. rewrite Hnet. cbn [negb].
  rewrite !Forall_app. split_and!; [|by destruct runtime; repeat constructor| |by repeat constructor].
  - repeat (apply Forall_cons; split); try done; try (by apply numeric_plain).
    apply numeric_plain. eapply forall_chars_impl; [apply int_char_num|apply print_int_chars].
  - destruct runtime; [done|]. by repeat constructor.
Qed.

(** Mounts give no value to another option. *)
Lemma option_values_mount resolve_path name (mounts : list mount) :
  String.eqb "--mount" name = false -> startswith "type=bind" name = false ->
  option_values name (concat (map (mount_arguments resolve_path) mounts)) = [].
Proof.
  intros Hname Hbind. induction mounts as [|[[host path] ro] mounts IH]; [done|].
  cbn [map concat mount_arguments app].
  assert (Hval : String.eqb ("type=bind,src=" +:+ resolve_path host +:+ ",dst=" +:+ path +:+ "," +:+
                    (if ro then "ro" else "rw")) name = false).
  { apply String.eqb_neq. intros <-. done. }
  set (v := "type=bind,src=" +:+ _) in *. cbn [option_values]. rewrite Hname.
  destruct (concat _); [done|]. by rewrite Hval.
Qed.

(** C23: the gateway's tools run isolated, whatever runtime is configured.  Before the
    image the docker command of every sandboxed tool has all isolation flags, one
    memory, CPU and process limit each, those of the tool, one temporary file system
    that executes nothing, and what the runtime asks for: the gVisor runtime, or no new
    privileges and the seccomp profile.  Whatever the mounts and the command are, no
    option enables the network, everything after the image is the command, and a
    mount is read-only unless it was asked to be writable.  No other tool has a
    profile. *)
Theorem tool_sandbox_isolated float_str resolve_path seccomp_path runtime image tool_name ws
    (profile : SandboxProfile) (Hprofile : profile_for_tool tool_name ws = Ok profile)
    (Hfloat : forall q, is_float_literal (float_str q) = true)
    uuid command (mounts : list mount) :
  In tool_name ["db_query"; "shell_exec"] /\
  exists options,
    docker_command float_str resolve_path seccomp_path runtime image ("mcp-tool-" +:+ uuid)
      command profile mounts = "docker" :: "run" :: options ++ image :: command /\
    Forall (fun flag => flag ∈ options) isolation_flags /\ "--network=bridge" ∉ options /\
    option_values "--memory" options = [if String.eqb tool_name "db_query" then "256m" else "128m"] /\
    option_values "--cpus" options = [float_str (if String.eqb tool_name "db_query" then 1 else 1 # 2)%Q] /\
    option_values "--pids-limit" options = [if String.eqb tool_name "db_query" then "32" else "16"] /\
    option_values "--tmpfs" options = ["/workspace:rw,noexec,nosuid,nodev"] /\
    option_values "--runtime" options = (match runtime with GVISOR => ["runsc"] | HARDENED_DOCKER => [] end) /\
    option_values "--security-opt" options =
      (match runtime with GVISOR => [] | HARDENED_DOCKER => ["no-new-privileges"; "seccomp=" +:+ seccomp_path] end) /\
    (forall o, o ∈ options -> startswith "type=bind" o = true ->
       exists m : mount, m ∈ mounts /\ endswith (if m.2 then ",ro" else ",rw") o = true).
Proof.
  assert (Hcases : (tool_name = "db_query" \/ tool_name = "shell_exec") /\ network profile = false /\
            memory profile = (if String.eqb tool_name "db_query" then "256m" else "128m") /\
            cpus profile = (if String.eqb tool_name "db_query" then 1 else 1 # 2)%Q /\
            pids_limit profile = (if String.eqb tool_name "db_query" then 32 else 16)).
  { unfold profile_for_tool in Hprofile.
    destruct (String.eqb_spec tool_name "db_query"); [injection Hprofile as <-; auto|].
    destruct (String.eqb_spec tool_name "shell_exec"); [injection Hprofile as <-; auto|done]. }
  destruct Hcases as (Htool & Hnet & Hmem & Hcpus & Hpids). split; [cbn; intuition|].
  exists (docker_options float_str resolve_path seccomp_path runtime ("mcp-tool-" +:+ uuid) profile mounts).
  split; [reflexivity|].
  assert (Hnum : forall q, forall_chars is_num_char (float_str q) = true).
  { intros q. specialize (Hfloat q). unfold is_float_literal in Hfloat.
    by apply andb_true_iff in Hfloat as [[? _]%andb_true_iff _]. }
  destruct (docker_options_plain float_str resolve_path seccomp_path runtime uuid profile mounts Hnet Hnum)
    as (fixed & Hfixed & Hopts).
  { rewrite Hmem. by destruct (String.eqb _ _). }
  rewrite Forall_forall in Hfixed.
  assert (Hcpu : forall name, forall_chars is_num_char name = false -> String.eqb (float_str (cpus profile)) name = false).
  { intros name Hname. apply String.eqb_neq. intros Heq. specialize (Hnum (cpus profile)). congruence. }
  assert (Hvalues : forall name, startswith "--" name = true -> String.eqb "--mount" name = false ->
    option_values name (concat (map (mount_arguments resolve_path) mounts)) = []).
  { intros name Hname Hmount. apply option_values_mount; [done|]. by apply startswith_spec in Hname as [rest ->]. }
  split; [unfold docker_options; rewrite Hnet; repeat constructor; set_solver|]. split.
  { rewrite Hopts, elem_of_app. intros [Hin|Hin]; [by destruct (Hfixed _ Hin)|].
    destruct (mounts_options _ _ _ Hin) as [|(m & _ & Hs & _)]; [done|]. by vm_compute in Hs. }
  do 6 (split; [unfold docker_options; rewrite Hnet, Hmem, Hpids; destruct runtime, Htool as [-> | ->];
    cbn -[concat map print_int String.append]; rewrite Hcpu by done; rewrite ?Hcpus; cbn -[concat map];
    rewrite ?Hvalues by done; by destruct (concat _)|]).
  intros o Ho Hs. rewrite Hopts, elem_of_app in Ho. destruct Ho as [Hin|Hin].
  - destruct (Hfixed _ Hin). congruence.
  - destruct (mounts_options _ _ _ Hin) as [->|(m & Hm & _ & He)]; [done|eauto].
Qed.

(* ------------------------------------------------------------------ *)
(** ** Witnesses *)

Definition example_shell (command : json) : Z * string * string :=
  if bool_decide (command = JStr "ls") then (1, "out", "err") else (127, "", "not found").
Lemma shell_exec_roundtrip_witness :
  let worker := worker_output id (fun _ => "") (fun _ => Err (EPy PydanticValidationError ""))
                  example_shell (fun _ _ => Err (EPy SqliteError "")) str_exc in
  runs (docker_env worker)
    (shell_exec (fun _ => "") (Some (fun payload profile =>
       run_worker (fun _ => "0.5") id "/seccomp.json" id GVISOR "image" 1048576 id payload profile []))
       "ls") false None
    (Ok {| so_exit_code := 1; so_stdout := "out"; so_stderr := "err" |}) true (Some 0).
Proof.
  apply (shell_exec_roundtrip (fun _ => "0.5") id "/seccomp.json" id GVISOR "image" 1048576 id
           (fun _ => "") (fun _ => Err (EPy PydanticValidationError "")) example_shell
           (fun _ _ => Err (EPy SqliteError "")) str_exc 1 "out" "err" "ls").
  - reflexivity.
  - reflexivity.
  - vm_compute. discriminate.
Defined.

Lemma tool_sandbox_isolated_witness :
  exists profile, profile_for_tool "shell_exec" "." = Ok profile /\
    exists options,
      docker_command (fun _ => "0.5") id "/seccomp.json" HARDENED_DOCKER "image" ("mcp-tool-" +:+ "1")
        ["ls"] profile [("/data", "/data", true)] = "docker" :: "run" :: options ++ ["image"; "ls"] /\
      Forall (fun flag => flag ∈ options) isolation_flags.
Proof.
  eexists. split; [reflexivity|].
  destruct (tool_sandbox_isolated (fun _ => "0.5") id "/seccomp.json" HARDENED_DOCKER "image"
              "shell_exec" "." _ eq_refl (fun _ => eq_refl) "1" ["ls"] [("/data", "/data", true)])
    as (_ & options & Hcmd & Hflags & _).
  exists options. split; [exact Hcmd|exact Hflags].
Defined.
