(* ===== verification/Tools.v ===== *)
(** * The gateway's tools

    The handlers of [gateway/tools/db_query.py] and [gateway/tools/shell_exec.py]
    with their declarations, and [create_registry] of [gateway/server.py]. *)

From S2P Require Import Prelude Dict Pystr Json Models Errors Effects Registry Repair Http DbQuery Sandbox.
From Stdlib Require Import QArith.
Open Scope Z_scope.

(** [SandboxRunner.__init__] *)
Record SandboxRunner := {
  runner_runtime : SandboxRuntime;
  runner_image : string;
  runner_output_limit : Z
}.

(** What a handler closes over: the database, and the sandbox it runs in. *)
Inductive tool_handler :=
| db_query_handler (database_path : string) (runner : option SandboxRunner)
| shell_exec_handler (runner : option SandboxRunner).

Section tools.
Context (db_query_input db_query_output shell_exec_input shell_exec_output : ModelClass).

Definition create_db_query_tool (database_path : string) (runner : option SandboxRunner) :
    ToolDefinition tool_handler :=
  {| td_name := "db_query";
     td_description := "Run one read-only, parameterized query against synthetic orders";
     td_risk_class := READ_ONLY; td_input_model := db_query_input; td_output_model := db_query_output;
     td_handler := db_query_handler database_path runner; td_idempotent := true |}.

Definition create_shell_exec_tool (runner : option SandboxRunner) : ToolDefinition tool_handler :=
  {| td_name := "shell_exec"; td_description := "Run a shell command inside an isolated sandbox";
     td_risk_class := DESTRUCTIVE; td_input_model := shell_exec_input;
     td_output_model := shell_exec_output; td_handler := shell_exec_handler runner;
     td_idempotent := false |}.

(** [create_registry] *)
Definition create_registry (database_path : string) (runner : option SandboxRunner) :
    result exc (ToolRegistry tool_handler) :=
  register_all [create_db_query_tool database_path runner; create_shell_exec_tool runner] empty_registry.

Lemma create_registry_ok database_path runner :
  exists r, create_registry database_path runner = Ok r /\
    list_tools r = [create_db_query_tool database_path runner; create_shell_exec_tool runner].
Proof. eexists. split; reflexivity. Qed.
End tools.

(** [handler] of the database tool: in the process, or by the worker in the
    sandbox. [validate_output] is [DbQueryOutput.model_validate]. *)
Definition db_query {E S} (query_database : string -> DbQueryInput -> M E S DbQueryOutput)
    (validate_output : json -> result exc DbQueryOutput)
    (runner : option (jdict -> SandboxProfile -> list mount -> M E S jdict))
    (database_path : string) (request : DbQueryInput) : M E S DbQueryOutput :=
  match runner with
  | Some run_worker =>
      profile ← lift_result (profile_for_tool "db_query" ".");
      result ← run_worker
        [("kind", JStr "db_query"); ("database_path", JStr "/data/gateway.sqlite");
         ("request", JObj (dump_DbQueryInput request))]
        profile [(database_path, "/data/gateway.sqlite", true)];
      lift_result (validate_output (JObj result))
  | None => query_database database_path request
  end.

(* ------------------------------------------------------------------ *)
(** ** The sandboxed query agrees with the local one *)

Section sandboxed.
Context (resolve_uri : string -> string) (repr_str : string -> string).
Context (float_str : Q -> string) (resolve_path : string -> string) (seccomp_path : string).
Context (decode : string -> string) (runtime : SandboxRuntime) (image : string) (output_limit : Z).
Context (float_norm : string -> string) (repr : json -> string) (traceback : exc -> string).
Context (validate_input : json -> result exc DbQueryInput) (validate_output : json -> result exc DbQueryOutput).

(** The outcome of a query on a database that answers the statement so. *)
Definition query_outcome statement (database_path : string) (request : DbQueryInput) :
    result exc DbQueryOutput :=
  match run (sqlite_env statement) (execute_query resolve_uri repr_str database_path request tt) tt with
  | Some ((r, _), _, _) => r
  | None => Err (EPy OtherException "")
  end.

(** The container of the sandbox, with the database mounted. *)
Definition query_container statement : string -> Z * string * string :=
  worker_output float_norm repr validate_input (fun _ => (0, "", "")) (query_outcome statement) traceback.

Definition sandboxed_query (database_path : string) (request : DbQueryInput) : M docker_sig bool DbQueryOutput :=
  db_query (fun _ _ => out_of_fuel) validate_output
    (Some (run_worker float_str resolve_path seccomp_path decode runtime image output_limit float_norm))
    database_path request.

Definition db_query_profile : SandboxProfile :=
  {| sp_name := "db_query"; timeout_seconds := 10; memory := "256m"; cpus := 1;
     pids_limit := 32; network := false; workspace := "." |}.

Definition query_payload (request : DbQueryInput) : jdict :=
  [("kind", JStr "db_query"); ("database_path", JStr "/data/gateway.sqlite");
   ("request", JObj (dump_DbQueryInput request))].

Lemma worker_main_query outcome request :
  json_wf float_norm (JObj (dump_DbQueryInput request)) = true ->
  validate_input (JObj (dump_DbQueryInput request)) = Ok request ->
  runs (container_env (fun _ => (0, "", "")) outcome)
    (worker_main float_norm repr validate_input (dumps (JObj (query_payload request)))) tt tt
    (result_map (fun out => dumps (JObj (dump_DbQueryOutput out))) (outcome "/data/gateway.sqlite" request))
    tt tt.
Proof.
  intros Hwf Hvalid. unfold worker_main. rewrite loads_dumps.
  2: { cbn in Hwf |- *. by rewrite Hwf. }
  eapply runs_bind; [apply (runs_lift _ (Ok (JObj (query_payload request))))|].
  eapply runs_bind; [apply (runs_lift _ (Ok (JStr "db_query")))|].
  replace (bool_decide (JStr "db_query" = JStr "shell_exec")) with false by reflexivity.
  replace (bool_decide (JStr "db_query" = JStr "db_query")) with true by reflexivity.
  eapply runs_bind; [apply (runs_lift _ (Ok (JObj (dump_DbQueryInput request))))|].
  eapply runs_bind; [rewrite Hvalid; apply runs_lift|].
  eapply runs_bind; [apply (runs_lift _ (Ok (JStr "/data/gateway.sqlite")))|].
  cbn [py_str].
  assert (Hq : runs (container_env (fun _ => (0, "", "")) outcome)
                 (call (E := container_sig) (CQuery "/data/gateway.sqlite" request)) tt tt
                 (outcome "/data/gateway.sqlite" request) tt tt).
  { by apply (runs_call _ (CQuery "/data/gateway.sqlite" request : op container_sig)). }
  destruct (outcome "/data/gateway.sqlite" request) as [out|e].
  - eapply runs_bind; [exact Hq|]. apply runs_ret.
  - by eapply runs_bind_err.
Qed.

Lemma query_container_output statement request :
  json_wf float_norm (JObj (dump_DbQueryInput request)) = true ->
  validate_input (JObj (dump_DbQueryInput request)) = Ok request ->
  query_container statement (dumps (JObj (query_payload request))) =
  match query_outcome statement "/data/gateway.sqlite" request with
  | Ok out => (0, dumps (JObj (dump_DbQueryOutput out)), "")
  | Err e => (1, "", traceback e)
  end.
Proof.
  intros Hwf Hvalid. unfold query_container, worker_output.
  destruct (worker_main_query (query_outcome statement) request Hwf Hvalid) as [tr Hrun].
  unfold M in Hrun. rewrite Hrun. by destruct (query_outcome _ _ _).
Qed.
Lemma query_outcome_path statement path path' request :
  query_outcome statement path request = query_outcome statement path' request.
Proof using.
  unfold query_outcome, execute_query, with_connection, query_connection, try_with, mbind, M_bind, lift_result.
  destruct statement as [[[names|] table]|e]; cbn -[query_output catches]; [|reflexivity|].
  - by destruct (query_output _ _ _ _).
  - by destruct (catches _ _).
Qed.

Lemma query_outcome_runs statement path request :
  runs (sqlite_env statement) (execute_query resolve_uri repr_str path request) tt tt
    (query_outcome statement path request) tt tt.
Proof using.
  destruct (total_run (execute_query resolve_uri repr_str path request tt) (sqlite_env statement) tt)
    as [[[[r []] []] tr] Hrun].
  { apply (query_runs_total resolve_uri repr_str path request). }
  exists tr. unfold query_outcome. by rewrite Hrun.
Qed.

(** Running the query in the sandbox changes nothing but its errors.  The
    request reaches the worker through docker's standard input and the output comes
    back through its standard output: when the query succeeds locally the sandboxed
    tool returns the same output, and when it fails the tool reports a sandbox error
    that carries what the worker printed. *)
Theorem db_query_sandbox_agrees statement database_path request
    (Hwf : json_wf float_norm (JObj (dump_DbQueryInput request)) = true)
    (Hinput : validate_input (JObj (dump_DbQueryInput request)) = Ok request)
    (Houtput : forall out, query_outcome statement database_path request = Ok out ->
       let text := dumps (JObj (dump_DbQueryOutput out)) in
       decode text = text /\ size text <= output_limit /\
       json_wf float_norm (JObj (dump_DbQueryOutput out)) = true /\
       validate_output (JObj (dump_DbQueryOutput out)) = Ok out)
    (Hlimit : forall e, query_outcome statement database_path request = Err e ->
       size (traceback e) <= output_limit) :
  runs (sqlite_env statement) (execute_query resolve_uri repr_str database_path request) tt tt
    (query_outcome statement database_path request) tt tt /\
  match query_outcome statement database_path request with
  | Ok out => runs (docker_env (query_container statement)) (sandboxed_query database_path request) false None
                (Ok out) true (Some 0)
  | Err e => runs (docker_env (query_container statement)) (sandboxed_query database_path request) false None
      (Err (EGateway (sandbox_error
         ("Sandbox command failed with exit code 1: python -m gateway.sandbox.worker; " +:+
          strip (decode (traceback e)))))) true (Some 1)
  end.
Proof.
  split; [apply query_outcome_runs|].
  pose proof (query_container_output statement request Hwf Hinput) as Hcontainer.
  rewrite (query_outcome_path _ _ database_path) in Hcontainer.
  unfold sandboxed_query, db_query.
  destruct (query_outcome statement database_path request) as [out|e].
  - destruct (Houtput out eq_refl) as (Hdecode & Hsize & Hwfo & Hvo).
    eapply runs_bind; [apply (runs_lift _ (Ok db_query_profile))|].
    eapply runs_bind; [eapply run_worker_docker; [exact Hcontainer|done|done|by apply loads_dumps]|].
    rewrite Hvo. apply runs_lift.
  - eapply runs_bind; [apply (runs_lift _ (Ok db_query_profile))|].
    apply runs_bind_err, runs_bind_err. eapply runs_eq; [by apply sandbox_run_docker|].
    apply finished_failed; [by apply Hlimit|done].
Qed.
End sandboxed.

(** A failed query is diagnosed as a tool error, but as a crash of the sandbox
    when it ran there, whatever its message is. *)
Lemma sandboxed_failure_diagnosis m m' :
  fd_category (diagnose (EGateway (tool_execution_error m))) = TOOL_ERROR /\
  fd_category (diagnose (EGateway (sandbox_error m'))) = SANDBOX_CRASH.
Proof. split; reflexivity. Qed.

Definition example_output : DbQueryOutput :=
  {| columns := ["order_id"; "total_cents"];
     rows := [[("order_id", SStr "ORD-1001"); ("total_cents", SInt 12900)];
              [("order_id", SStr "ORD-1002"); ("total_cents", SInt 4599)]];
     row_count := 2; truncated := true |}.

Lemma db_query_sandbox_agrees_witness :
  let statement := Ok (Some ["order_id"; "total_cents"], map (map Scalar) example_rows) in
  let container := query_container id id id (fun _ => "") str_exc (fun _ => Ok example_request) statement in
  runs (docker_env container)
    (sandboxed_query (fun _ => "1.0") id "/seccomp.json" id GVISOR "image" 1048576 id
       (fun _ => Ok example_output) "orders.sqlite" example_request) false None
    (Ok example_output) true (Some 0).
Proof.
  intros statement container.
  apply (db_query_sandbox_agrees id id (fun _ => "1.0") id "/seccomp.json" id GVISOR "image" 1048576 id
           (fun _ => "") str_exc (fun _ => Ok example_request) (fun _ => Ok example_output) statement
           "orders.sqlite" example_request).
  - reflexivity.
  - reflexivity.
  - intros out Hout. assert (Heq : Ok example_output = Ok (E := exc) out) by (rewrite <- Hout; reflexivity).
    injection Heq as <-. split; [reflexivity|]. split; [vm_compute; discriminate|]. split; reflexivity.
  - intros e He. exfalso. discriminate He.
Defined.
