(* ===== verification/Auth.v ===== *)
(** * Authentication

    [gateway/auth.py] (the OIDC verifier, its key cache and the principal of a
    request) and [AuthenticationMiddleware] of [gateway/http_server.py].  PyJWT is
    not part of the repository: reading a token's header, building a key from its
    JWK and verifying a token are arguments.  One request is followed at a time:
    nothing of the cache is read between fetching the keys and storing them. *)

From S2P Require Import Prelude Dict Pystr Json Models Errors Effects Http.
Open Scope Z_scope.

(** What authenticating a request calls: the key server, the application behind
    the middleware (with the principal it can read), and the client. *)
Inductive asgi_op :=
| AFetch (url : string)
| AApp (current_principal : option Principal)
| ARespond (status : Z) (headers : dict string string) (body : jdict).

Definition asgi_sig : signature :=
  {| op := asgi_op; ans o := match o with AFetch _ => http_response | _ => unit end |}.

(** [self._keys] of the authenticator and the context variable of the task. *)
Record auth_state := {
  jwks_keys : dict string jdict;
  principal_context : option Principal
}.

(** [principal_from_static_token] *)
Definition principal_from_static_token : Principal :=
  {| pr_subject := "static-local-user"; pr_tenant_id := "local"; pr_roles := [ADMIN];
     pr_issuer := Some "local-static-token"; pr_agent_id := None |}.

(** [set_current_principal] and [reset_current_principal] *)
Definition set_current_principal (principal : option Principal) (s : auth_state) : auth_state :=
  {| jwks_keys := jwks_keys s; principal_context := principal |}.
Definition set_keys (keys : dict string jdict) (s : auth_state) : auth_state :=
  {| jwks_keys := keys; principal_context := principal_context s |}.

Definition auth_failed (message : string) : exc := EGateway (authentication_error message).

(** The entries of a JWKS document that are objects with a [kid]. *)
Definition jwk_entry (item : json) : option (string * jdict) :=
  match item with
  | JObj kvs => match dict_get "kid" kvs with Some (JStr kid) => Some (kid, kvs) | _ => None end
  | _ => None
  end.
Definition jwks_of (keys : list json) : dict string jdict := dict_of_pairs (omap jwk_entry keys).

Section oidc.
Context {Key : Type}.
Context (get_unverified_header : string -> result exc jdict).
Context (from_jwk : string -> result exc Key).
Context (decode_token : string -> Key -> string -> string -> result exc jdict).
Context (float_norm : string -> string) (repr : json -> string).

(** [OIDCAuthenticator.__init__] *)
Record OIDCAuthenticator := {
  issuer_url : string;
  audience : string;
  jwks_url : string
}.
Definition new_authenticator (issuer audience jwks : string) : OIDCAuthenticator :=
  {| issuer_url := rstrip_slash issuer; audience := audience; jwks_url := jwks |}.

Abbreviation E := asgi_sig.
Abbreviation AM := (M asgi_sig auth_state).

(** [_get_key] *)
Definition get_key (a : OIDCAuthenticator) (key_id : string) : AM jdict :=
  s ← get;
  match dict_get key_id (jwks_keys s) with
  | Some key => mret key
  | None =>
      response ← call (E := E) (AFetch (jwks_url a));
      lift_result (raise_for_status response);;
      document ← lift_result (response_json float_norm response);
      match document with
      | JObj kvs =>
          match dict_get "keys" kvs with
          | Some (JList keys) =>
              modify (set_keys (jwks_of keys));;
              match dict_get key_id (jwks_of keys) with
              | Some key => mret key
              | None => raise (auth_failed "Token signing key was not found")
              end
          | _ => raise (auth_failed "OIDC JWKS response is invalid")
          end
      | _ => raise (auth_failed "OIDC JWKS response is invalid")
      end
  end.

(** [claims.get("tenant_id", claims.get("tenant"))] and the roles. *)
Definition tenant_claim (claims : jdict) : json :=
  default (default JNull (dict_get "tenant" claims)) (dict_get "tenant_id" claims).
Definition roles_claim (claims : jdict) : json :=
  match default JNull (dict_get "roles" claims) with
  | JNull => match dict_get "realm_access" claims with
             | Some (JObj access) => default JNull (dict_get "roles" access)
             | _ => JNull
             end
  | roles => roles
  end.

(** [_principal_from_claims] *)
Definition principal_from_claims (claims : jdict) : result exc Principal :=
  match dict_get "sub" claims, tenant_claim claims with
  | Some (JStr subject), JStr tenant_id =>
      match roles_claim claims with
      | JList ((_ :: _) as roles) =>
          match omap (fun role => of_value (py_str repr role)) roles with
          | [] => Err (auth_failed "Token contains an unsupported role")
          | parsed_roles =>
              let principal :=
                {| pr_subject := subject; pr_tenant_id := tenant_id; pr_roles := parsed_roles;
                   pr_issuer := Some (py_str repr (default JNull (dict_get "iss" claims)));
                   pr_agent_id := match dict_get "agent_id" claims with
                                  | None | Some JNull => None
                                  | Some v => Some (py_str repr v)
                                  end |} in
              if Principal_valid principal then Ok principal
              else Err (EPy PydanticValidationError "validation error for Principal")
          end
      | _ => Err (auth_failed "Token requires at least one role")
      end
  | _, _ => Err (auth_failed "Token requires sub and tenant_id claims")
  end.

(** The [try] body of [authenticate]: the verified claims. *)
Definition verified_claims (a : OIDCAuthenticator) (token : string) : AM jdict :=
  header ← lift_result (get_unverified_header token);
  match dict_get "kid" header with
  | Some (JStr key_id) =>
      if negb (bool_decide (dict_get "alg" header = Some (JStr "RS256")))
      then raise (auth_failed "Token must use an RS256 key with kid")
      else
        jwk ← get_key a key_id;
        public_key ← lift_result (from_jwk (dumps (JObj jwk)));
        lift_result (decode_token token public_key (audience a) (issuer_url a))
  | _ => raise (auth_failed "Token must use an RS256 key with kid")
  end.

(** [authenticate] *)
Definition oidc_authenticate (a : OIDCAuthenticator) (token : string) : AM Principal :=
  claims ← try_with (verified_claims a token)
    (fun e =>
       if is_gateway_class AuthenticationError e then raise e
       else if catches [HTTPError; PyJWTError; TypeError; ValueError] e
       then raise (auth_failed "Token validation failed") else raise e);
  lift_result (principal_from_claims claims).

(* ------------------------------------------------------------------ *)
(** ** The middleware *)

(** The parts of an ASGI scope the middleware reads. *)
Record http_scope := {
  scope_type : string;
  scope_path : option string;
  scope_headers : list (string * string)
}.

(** [AuthenticationMiddleware]: [mode] is its text. *)
Record AuthenticationMiddleware := {
  mode : string;
  static_token : option string;
  oidc : option OIDCAuthenticator
}.

Definition open_paths : list string := ["/livez"; "/readyz"; "/startupz"].

(** A scope that is passed on without authentication. *)
Definition passes (m : AuthenticationMiddleware) (scope : http_scope) : bool :=
  negb (String.eqb (scope_type scope) "http") ||
  match scope_path scope with Some p => existsb (String.eqb p) open_paths | None => false end ||
  String.eqb (mode m) "none".

(** The scheme and the credential of the authorization header. *)
Definition credentials (scope : http_scope) : string * string :=
  let headers := dict_of_pairs (prod_map lower id <$> scope_headers scope) in
  let '(scheme, _, credential) := partition_space (default "" (dict_get "authorization" headers)) in
  (scheme, credential).

Definition unauthorized : AM unit :=
  call (E := E) (ARespond 401 [("WWW-Authenticate", "Bearer")] [("error", JStr "unauthorized")]).

(** The [try] body: the principal of the credential. *)
Definition authenticate_request (m : AuthenticationMiddleware) (credential : string) : AM Principal :=
  if String.eqb (mode m) "static_token" then
    match static_token m with
    | Some token => if String.eqb credential token then mret principal_from_static_token
                    else raise (auth_failed "Bearer token is invalid")
    | None => raise (auth_failed "Bearer token is invalid")
    end
  else if String.eqb (mode m) "oidc" then
    match oidc m with
    | None => raise (auth_failed "OIDC authentication is not configured")
    | Some a => oidc_authenticate a credential
    end
  else raise (auth_failed "HTTP authentication mode is invalid").

Definition call_app : AM unit := s ← get; call (E := E) (AApp (principal_context s)).

(** [__call__] *)
Definition middleware (m : AuthenticationMiddleware) (scope : http_scope) : AM unit :=
  if passes m scope then call_app
  else
    let '(scheme, credential) := credentials scope in
    if negb (String.eqb (lower scheme) "bearer") || negb (truthy credential) then unauthorized
    else
      principal ← try_with (p ← authenticate_request m credential; mret (Some p))
        (fun e => if is_gateway_class AuthenticationError e then mret None else raise e);
      match principal with
      | None => unauthorized
      | Some principal =>
          s ← get;
          modify (set_current_principal (Some principal));;
          finally call_app (modify (set_current_principal (principal_context s)))
      end.
End oidc.

(* ------------------------------------------------------------------ *)
(** ** Properties *)

(** What a trace shows: the calls of the application, with the principal it can
    read, the statuses answered to the client, and the keys fetched. *)
Definition asgi_event : Type := event asgi_sig.
Definition apps (tr : list asgi_event) : list (option Principal) :=
  omap (fun e : asgi_event => match e with existT (AApp p) _ => Some p | _ => None end) tr.
Definition responses (tr : list asgi_event) : list Z :=
  omap (fun e : asgi_event => match e with existT (ARespond status _ _) _ => Some status | _ => None end) tr.

Lemma apps_app tr tr' : apps (tr ++ tr') = apps tr ++ apps tr'.
Proof. apply omap_app. Qed.
Lemma responses_app tr tr' : responses (tr ++ tr') = responses tr ++ responses tr'.
Proof. apply omap_app. Qed.

Section keys.
Context (float_norm : string -> string).

(** The key server answered with a document that lists these keys. *)
Definition fetched_keys (a : OIDCAuthenticator) (tr : list asgi_event) (keys : dict string jdict) : Prop :=
  exists response kvs items,
    Event (E := asgi_sig) (AFetch (jwks_url a)) (Ok response) ∈ tr /\ is_success response = true /\
    response_json float_norm response = Ok (JObj kvs) /\ dict_get "keys" kvs = Some (JList items) /\
    keys = jwks_of items.

(** The keys and the principal context after some events. *)
Definition auth_frame (a : OIDCAuthenticator) (s s' : auth_state) (tr : list asgi_event) : Prop :=
  apps tr = [] /\ responses tr = [] /\ principal_context s' = principal_context s /\
  (jwks_keys s' = jwks_keys s \/ fetched_keys a tr (jwks_keys s')).

Lemma auth_frame_refl a s : auth_frame a s s [].
Proof. by split_and!; [..|left]. Qed.

Lemma fetched_one a response u kvs items :
  raise_for_status response = Ok u -> response_json float_norm response = Ok (JObj kvs) ->
  dict_get "keys" kvs = Some (JList items) ->
  fetched_keys a [Event (E := asgi_sig) (AFetch (jwks_url a)) (Ok response)] (jwks_of items).
Proof.
  unfold raise_for_status. intros Hstatus Hjson Hkeys. exists response, kvs, items.
  destruct (is_success response); [|done]. split_and!; try done. by apply list_elem_of_singleton.
Qed.

Lemma get_key_wp a kid s tr :
  wpM (history asgi_sig) (get_key float_norm a kid) s tr (fun r s' tr' =>
    exists tail, tr' = tr ++ tail /\ auth_frame a s s' tail /\
      forall jwk, r = Ok jwk -> dict_get kid (jwks_keys s) = Some jwk \/
        exists keys, fetched_keys a tail keys /\ dict_get kid keys = Some jwk).
Proof.
  unfold get_key. wp_step. wp_step. cbn beta iota zeta.
  destruct (dict_get kid (jwks_keys s)) as [key|] eqn:Hcached.
  { wp_step. exists []. rewrite app_nil_r. split; [done|]. split; [apply auth_frame_refl|]. naive_solver. }
  run_calls; cbn [mnext history]; (eexists; split; [reflexivity|]);
    subst; (split; [split_and!; try reflexivity;
             first [left; reflexivity|right; by eapply fetched_one]|
           intros jwk Hjwk; try discriminate Hjwk]).
  injection Hjwk as <-. right. eexists. split; [by eapply fetched_one|done].
Qed.

End keys.

Section properties.
Context {Key : Type}.
Context (get_unverified_header : string -> result exc jdict).
Context (from_jwk : string -> result exc Key).
Context (decode_token : string -> Key -> string -> string -> result exc jdict).
Context (float_norm : string -> string) (repr : json -> string).

(** A token PyJWT verified, for the audience and the issuer of the gateway, under
    the RS256 key its header names, which was cached or fetched; and the principal
    of its claims. *)
Definition verified (a : OIDCAuthenticator) (cached : dict string jdict) (tr : list asgi_event)
    (token : string) (p : Principal) : Prop :=
  exists header kid jwk key claims,
    get_unverified_header token = Ok header /\ dict_get "kid" header = Some (JStr kid) /\
    dict_get "alg" header = Some (JStr "RS256") /\
    (dict_get kid cached = Some jwk \/ exists keys, fetched_keys float_norm a tr keys /\ dict_get kid keys = Some jwk) /\
    from_jwk (dumps (JObj jwk)) = Ok key /\
    decode_token token key (audience a) (issuer_url a) = Ok claims /\
    principal_from_claims repr claims = Ok p.

Lemma oidc_authenticate_wp a token s tr :
  wpM (history asgi_sig)
    (oidc_authenticate get_unverified_header from_jwk decode_token float_norm repr a token) s tr
    (fun r s' tr' => exists tail, tr' = tr ++ tail /\ auth_frame float_norm a s s' tail /\
       forall p, r = Ok p -> verified a (jwks_keys s) tail token p).
Proof.
  assert (Hfail : forall e : exc, exists tail, tr = tr ++ tail /\ auth_frame float_norm a s s tail /\
             forall p, Err e = Ok p -> verified a (jwks_keys s) tail token p).
  { intros e. exists []. rewrite app_nil_r. split_and!; auto using auth_frame_refl. done. }
  unfold oidc_authenticate, verified_claims. do 4 wp_step.
  destruct (get_unverified_header token) as [header|e] eqn:Hheader; cbn beta iota zeta; [|run_calls; auto].
  destruct (dict_get "kid" header) as [[| | | |kid| |]|] eqn:Hkid; try (run_calls; auto; fail).
  case_bool_decide as Halg; cbn [negb]; [|run_calls; auto].
  wp_step. eapply wpM_mono; [apply get_key_wp|]. intros r s' tr' (tail & -> & Hframe & Hkey).
  destruct r as [jwk|e]; cbn beta iota zeta; [|run_calls; naive_solver].
  specialize (Hkey jwk eq_refl).
  run_calls; (eexists; split; [reflexivity|]); (split; [exact Hframe|]); intros p Hp; try discriminate Hp.
  repeat eexists; eauto.
Qed.
(** A principal the middleware may let a request act for. *)
Definition vouched (m : AuthenticationMiddleware) (cached : dict string jdict) (tr : list asgi_event)
    (credential : string) (p : Principal) : Prop :=
  (mode m = "static_token" /\ static_token m = Some credential /\ p = principal_from_static_token) \/
  (mode m = "oidc" /\ exists a, oidc m = Some a /\ verified a cached tr credential p).

(** Events before the application is called. *)
Definition auth_only (s s' : auth_state) (tr : list asgi_event) : Prop :=
  apps tr = [] /\ responses tr = [] /\ principal_context s' = principal_context s.

Lemma authenticate_request_wp m credential s tr :
  wpM (history asgi_sig)
    (authenticate_request get_unverified_header from_jwk decode_token float_norm repr m credential) s tr
    (fun r s' tr' => exists tail, tr' = tr ++ tail /\ auth_only s s' tail /\
       forall p, r = Ok p -> vouched m (jwks_keys s) tail credential p).
Proof.
  assert (Hnone : forall r : result exc Principal,
      (forall p, r = Ok p -> vouched m (jwks_keys s) [] credential p) ->
      exists tail, tr = tr ++ tail /\ auth_only s s tail /\
        forall p, r = Ok p -> vouched m (jwks_keys s) tail credential p).
  { intros r Hr. exists []. by rewrite app_nil_r. }
  unfold authenticate_request.
  destruct (String.eqb_spec (mode m) "static_token") as [Hs|_].
  { destruct (static_token m) as [token|] eqn:Ht; [|wp_step; apply Hnone; done].
    destruct (String.eqb_spec credential token) as [->|_]; wp_step; apply Hnone; [|done].
    intros p [= <-]. by left. }
  destruct (String.eqb_spec (mode m) "oidc") as [Ho|_]; [|wp_step; apply Hnone; done].
  destruct (oidc m) as [a|] eqn:Ha; [|wp_step; apply Hnone; done].
  eapply wpM_mono; [apply oidc_authenticate_wp|].
  intros r s' tr' (tail & -> & (Happs & Hresp & Hctx & _) & Hr). exists tail.
  split_and!; try done. intros p Hp. right. eauto.
Qed.

(** What the middleware does with a request. *)
Definition gated (m : AuthenticationMiddleware) (scope : http_scope) (s : auth_state)
    (r : result exc unit) (s' : auth_state) (tr : list asgi_event) : Prop :=
  principal_context s' = principal_context s /\
  if passes m scope then apps tr = [principal_context s] /\ responses tr = []
  else
    (lower (credentials scope).1 = "bearer" /\ responses tr = [] /\
     exists p, apps tr = [Some p] /\ vouched m (jwks_keys s) tr (credentials scope).2 p) \/
    (apps tr = [] /\
     (responses tr = [401] \/
      responses tr = [] /\ exists e, r = Err e /\ is_gateway_class AuthenticationError e = false)).

Lemma vouched_app m cached tr tr' credential p :
  vouched m cached tr credential p -> vouched m cached (tr ++ tr') credential p.
Proof.
  intros [?|(Ho & a & Ha & header & kid & jwk & key & claims & H1 & H2 & H3 & Hk & Hrest)]; [by left|right].
  split; [done|]. exists a. split; [done|]. exists header, kid, jwk, key, claims. split_and!; try apply Hrest; try done.
  destruct Hk as [Hk|(keys & (response & kvs & items & Hin & Hf) & Hkey)]; [by left|right].
  exists keys. split; [|done]. exists response, kvs, items. split; [|done]. apply elem_of_app. by left.
Qed.

Lemma middleware_wp m scope s :
  wpM (history asgi_sig)
    (middleware get_unverified_header from_jwk decode_token float_norm repr m scope) s []
    (fun r s' tr => gated m scope s r s' tr).
Proof.
  unfold middleware, gated, call_app, unauthorized.
  destruct (passes m scope); [run_calls; done|].
  destruct (credentials scope) as [scheme credential] eqn:Hc.
  destruct (String.eqb_spec (lower scheme) "bearer") as [Hs|_]; cbn [negb orb].
  2: { run_calls; (split; [done|]); right; (split; [done|]); by left. }
  destruct (truthy credential); cbn [negb]; [|run_calls; (split; [done|]); right; (split; [done|]); by left].
  do 3 wp_step. eapply wpM_mono; [apply authenticate_request_wp|].
  intros r s' tr (tail & -> & (Happs & Hresp & Hctx) & Hr). cbn [app].
  destruct r as [p|e]; cbn beta iota zeta.
  - specialize (Hr p eq_refl).
    run_calls; cbn [mnext history]; (split; [done|]); left;
      rewrite apps_app, responses_app, Happs, Hresp; (split; [done|]); (split; [done|]);
      exists p; (split; [done|]); by apply vouched_app.
  - run_calls; cbn [mnext history]; (split; [done|]); right;
      rewrite ?apps_app, ?responses_app, Happs, ?Hresp; (split; [done|]); eauto.
Qed.

(** C35: the application is reached only by authenticated requests.  Unless the
    request is for an open path, is no HTTP request, or authentication is off, the
    application is called at most once, for a principal that the configured static
    token or a verified token vouches for, given as a bearer credential; otherwise
    the client gets 401, or an error that is no authentication error is raised.
    The principal context is always restored. *)
Theorem request_reaches_app_authenticated m scope s :
  let p := middleware get_unverified_header from_jwk decode_token float_norm repr m scope s in
  total p /\ forall tr r s', exec p tr (r, s') -> gated m scope s r s' tr.
Proof.
  intros p. split.
  - eapply wp_total; [|apply (middleware_wp m scope s)]. done.
  - intros tr r s' Hex. exact (history_exec p _ tr (r, s') (middleware_wp m scope s) Hex).
Qed.
End properties.

(* ------------------------------------------------------------------ *)
(** ** Requests in a concrete environment *)

(** A key server with a document, an application that answers, and a client. *)
Definition asgi_env (jwks : string) : handler asgi_sig unit := fun o _ =>
  (match o return result exc (ans asgi_sig o) with
   | AFetch _ => Ok {| status_code := 200; text := jwks |}
   | AApp _ | ARespond _ _ _ => Ok tt
   end, tt).

(** An issuer whose tokens are the names of their subjects. *)
Definition example_header (_ : string) : result exc jdict := Ok [("kid", JStr "k"); ("alg", JStr "RS256")].
Definition example_claims (token : string) (_ : string) (_ _ : string) : result exc jdict :=
  Ok [("sub", JStr token); ("tenant_id", JStr "acme"); ("roles", JList [JStr "operator"])].
Definition example_jwks : string := dumps (JObj [("keys", JList [JObj [("kid", JStr "k")]])]).
Definition example_middleware : AuthenticationMiddleware :=
  {| mode := "oidc"; static_token := None;
     oidc := Some (new_authenticator "https://issuer/" "gateway" "https://issuer/jwks") |}.
Definition example_scope (token : string) : http_scope :=
  {| scope_type := "http"; scope_path := Some "/mcp"; scope_headers := [("Authorization", "Bearer " +:+ token)] |}.

Definition example_request (token : string) :=
  run (asgi_env example_jwks)
    (middleware example_header Ok example_claims id (fun _ => "") example_middleware (example_scope token)
       {| jwks_keys := []; principal_context := None |}) tt.

(** A verified token reaches the application as its principal. *)
Lemma verified_token_accepted :
  match example_request "alice" with
  | Some ((Ok tt, _), _, tr) =>
      apps tr = [Some {| pr_subject := "alice"; pr_tenant_id := "acme"; pr_roles := [OPERATOR];
                         pr_issuer := Some "None"; pr_agent_id := None |}]
  | _ => False
  end.
Proof. vm_compute. reflexivity. Qed.

(** A verified token whose subject is empty is not answered with 401: building the
    principal raises an error the middleware does not handle. *)
Lemma empty_subject_not_answered :
  match principal_from_claims (fun _ => "")
          [("sub", JStr ""); ("tenant_id", JStr "acme"); ("roles", JList [JStr "operator"])] with
  | Err e => is_gateway_class AuthenticationError e = false
  | Ok _ => False
  end.
Proof. vm_compute. reflexivity. Qed.
