(* ===== verification/Advisor.v ===== *)
(** * The repair advisors

    [gateway/repair/advisor.py]: what is sent to the repair model, and what is
    accepted of its answer. *)

From S2P Require Import Prelude Dict Pystr Json Models Errors Effects Repair Http.
From Stdlib Require Import Ascii.
Open Scope Z_scope.

Definition newline : string := String "010"%char EmptyString.

(** [lines[1:-1]] *)
Definition inner_lines (lines : list string) : list string :=
  match lines with [] => [] | _ :: rest => removelast rest end.

(** The answer without its Markdown code fence. *)
Definition unfence (content : string) : string :=
  let normalized := strip content in
  if startswith "```" normalized && endswith "```" normalized
  then strip (join newline (inner_lines (splitlines normalized)))
  else normalized.

Section advisor.
Context (float_norm : string -> string).

(** [_parse_arguments] *)
Definition parse_arguments (content : json) : result exc jdict :=
  match content with
  | JStr content =>
      match loads float_norm (unfence content) with
      | None => Err (EPy JSONDecodeError "Expecting value")
      | Some (JObj decoded) =>
          match dict_get "arguments" decoded with
          | Some (JObj repaired) => Ok repaired
          | _ => Err (EPy ValueError "The repair model must return an arguments object")
          end
      | Some _ => Err (EPy ValueError "The repair model must return an arguments object")
      end
  | _ => Err (EPy ValueError "The repair model response must be text")
  end.

Definition db_query_contract : string :=
  "Query only the orders table. Its columns are order_id, customer_name, customer_email, status, and total_cents. max_rows limits returned rows and must not be used as a SQL parameter.".

(** The prompt both advisors send; they differ in the instruction. *)
Definition repair_prompt (instruction tool_name : string) (arguments tool_schema : jdict)
    (diagnosis : FailureDiagnosis) : jdict :=
  [("tool_name", JStr tool_name); ("tool_schema", JObj tool_schema); ("arguments", JObj arguments);
   ("failure_category", JStr (value (fd_category diagnosis)));
   ("validation_error", JStr (fd_message diagnosis)); ("instruction", JStr instruction)] ++
  if String.eqb tool_name "db_query" then [("tool_contract", JStr db_query_contract)] else [].

Definition llm_instruction : string :=
  "Return only a JSON object named arguments with corrected tool arguments.".
Definition anthropic_instruction : string :=
  "Return only a JSON object named arguments with corrected tool arguments. Do not change the requested operation.".

(** The two providers: where the request goes and with which model and key. *)
Record Advisor := {
  endpoint : string;
  model : string;
  api_key : string
}.

Definition user_message (prompt : jdict) : json :=
  JObj [("role", JStr "user"); ("content", JStr (dumps_sorted (JObj prompt)))].

Definition llm_body (a : Advisor) (prompt : jdict) : json :=
  JObj [("model", JStr (model a)); ("temperature", JInt 0);
        ("response_format", JObj [("type", JStr "json_object")]);
        ("messages", JList
          [JObj [("role", JStr "system");
                 ("content", JStr "Repair tool arguments without changing the requested operation.")];
           user_message prompt])].
Definition llm_headers (a : Advisor) : dict string string :=
  [("Authorization", "Bearer " +:+ api_key a)].

Definition anthropic_body (a : Advisor) (max_tokens : Z) (prompt : jdict) : json :=
  JObj [("model", JStr (model a)); ("max_tokens", JInt max_tokens); ("temperature", JInt 0);
        ("system", JStr "Repair tool arguments without changing the requested operation. Return valid JSON only.");
        ("messages", JList [user_message prompt])].
Definition anthropic_headers (a : Advisor) (version : string) : dict string string :=
  [("x-api-key", api_key a); ("anthropic-version", version); ("content-type", "application/json")].

(** [payload["choices"][0]["message"]["content"]] and [payload["content"][0]["text"]] *)
Definition llm_content (payload : json) : result exc json :=
  result_bind (json_index payload "choices") (fun choices =>
  result_bind (json_first choices) (fun choice =>
  result_bind (json_index choice "message") (fun message => json_index message "content"))).
Definition anthropic_content (payload : json) : result exc json :=
  result_bind (json_index payload "content") (fun content =>
  result_bind (json_first content) (fun part => json_index part "text")).

(** The exceptions of the exchange that both advisors turn into a [ValueError]. *)
Definition invalid_response : list py_class := [HTTPError; KeyError; IndexError; TypeError; ValueError; JSONDecodeError].

(** The body both [repair] methods share: one request, the parsed answer, and no
    repair of a policy denial. *)
Definition ask (url : string) (headers : dict string string) (body : json)
    (content_of : json -> result exc json) (invalid : string) (diagnosis : FailureDiagnosis) :
    M http_sig unit jdict :=
  repaired ← try_with
    (response ← call (E := http_sig) (HPost url headers body);
     lift_result (raise_for_status response);;
     payload ← lift_result (response_json float_norm response);
     content ← lift_result (content_of payload);
     lift_result (parse_arguments content))
    (fun e => if catches invalid_response e then raise (EPy ValueError invalid) else raise e);
  if decide (fd_category diagnosis = POLICY_DENIED)
  then raise (EPy ValueError "Policy denials cannot be repaired")
  else mret repaired.

(** [LLMRepairAdvisor.repair] *)
Definition llm_repair (a : Advisor) (tool_name : string) (arguments tool_schema : jdict)
    (diagnosis : FailureDiagnosis) : M http_sig unit jdict :=
  ask (endpoint a) (llm_headers a)
    (llm_body a (repair_prompt llm_instruction
       tool_name arguments tool_schema diagnosis))
    llm_content "The repair model returned an invalid response" diagnosis.

(** [AnthropicRepairAdvisor.repair] *)
Definition anthropic_repair (a : Advisor) (version : string) (max_tokens : Z) (tool_name : string)
    (arguments tool_schema : jdict) (diagnosis : FailureDiagnosis) : M http_sig unit jdict :=
  ask (endpoint a) (anthropic_headers a version)
    (anthropic_body a max_tokens (repair_prompt anthropic_instruction
       tool_name arguments tool_schema diagnosis))
    anthropic_content "The Anthropic repair model returned an invalid response" diagnosis.

(* ------------------------------------------------------------------ *)
(** ** The exchange *)

(** The outcome of [ask], as a function of the answer. *)
Definition answer_arguments (content_of : json -> result exc json) (answer : result exc http_response) :
    result exc jdict :=
  result_bind answer (fun response =>
  result_bind (raise_for_status response) (fun _ =>
  result_bind (response_json float_norm response) (fun payload =>
  result_bind (content_of payload) parse_arguments))).

Definition ask_result content_of invalid diagnosis (answer : result exc http_response) : result exc jdict :=
  match answer_arguments content_of answer with
  | Ok repaired => if decide (fd_category diagnosis = POLICY_DENIED)
                   then Err (EPy ValueError "Policy denials cannot be repaired") else Ok repaired
  | Err e => Err (if catches invalid_response e then EPy ValueError invalid else e)
  end.

Lemma ask_request url headers body content_of invalid diagnosis :
  one_request (ask url headers body content_of invalid diagnosis tt) (HPost url headers body)
    (ask_result content_of invalid diagnosis).
Proof.
  eexists. split; [reflexivity|]. intros answer. unfold ask_result, answer_arguments.
  destruct answer as [response|e]; cbn -[catches];
    [|by destruct (catches invalid_response e)].
  unfold raise_for_status. destruct (is_success response); cbn -[catches]; [|reflexivity].
  unfold mbind, M_bind, try_with, lift_result. cbn -[catches invalid_response].
  destruct (response_json float_norm response) as [payload|e]; cbn -[catches invalid_response];
    [|by destruct (catches invalid_response e)].
  destruct (content_of payload) as [content|e]; cbn -[catches invalid_response];
    [|by destruct (catches invalid_response e)].
  destruct (parse_arguments content) as [repaired|e]; cbn -[catches invalid_response decide];
    [by case_decide|by destruct (catches invalid_response e)].
Qed.
End advisor.

(* ------------------------------------------------------------------ *)
(** ** Fenced and plain answers *)

Definition no_breaks (s : string) : bool := forall_chars (fun c => negb (is_line_break c)) s.

Lemma splitlines_char c s acc :
  is_line_break c = false -> splitlines_acc (String c s) acc = splitlines_acc s (String c acc).
Proof.
  destruct c as [[] [] [] [] [] [] [] []]; intros Hc; vm_compute in Hc; first [discriminate Hc|reflexivity].
Qed.

Lemma splitlines_line s rest acc :
  no_breaks s = true ->
  splitlines_acc (s +:+ String "010" rest) acc = rev_string (rev_string_onto s acc) :: splitlines_acc rest "".
Proof.
  revert acc. induction s as [|c s IH]; intros acc; [reflexivity|].
  intros [Hc Hs]%andb_true_iff. apply negb_true_iff in Hc. cbn [String.append rev_string_onto].
  rewrite splitlines_char by done. by apply IH.
Qed.

Lemma rev_onto_nil s : rev_string (rev_string_onto s "") = s.
Proof. apply rev_string_involutive. Qed.

Lemma printable_no_breaks s : forall_chars is_printable s = true -> no_breaks s = true.
Proof.
  apply forall_chars_impl. intros c.
  destruct c as [[] [] [] [] [] [] [] []]; vm_compute; congruence.
Qed.

(** A fence around one line of JSON. *)
Definition fenced (text : string) : string := "```json" +:+ newline +:+ text +:+ newline +:+ "```".

Lemma splitlines_fenced text :
  no_breaks text = true -> splitlines (fenced text) = ["```json"; text; "```"].
Proof.
  intros Ht. unfold splitlines, fenced, newline. cbn [String.append].
  change (splitlines_acc (("```json") +:+ String "010" (text +:+ String "010" "```")) "" = ["```json"; text; "```"]).
  rewrite splitlines_line by reflexivity. by rewrite splitlines_line, !rev_onto_nil.
Qed.

Lemma printed_object_ends kvs :
  exists body, print true (JObj kvs) = String "{" (body +:+ "}").
Proof.
  destruct kvs as [|[k x] kvs]; [by exists ""|]. rewrite print_obj_cons.
  assert (Hm : exists body, print_members true kvs = body +:+ "}").
  { induction kvs as [|[j y] kvs [body IH]]; [by exists ""|]. cbn [print_members]. rewrite IH.
    eexists. rewrite <- !sapp_assoc. reflexivity. }
  destruct Hm as [body ->]. eexists. rewrite <- !sapp_assoc. reflexivity.
Qed.

Lemma strip_printed kvs : strip (print true (JObj kvs)) = print true (JObj kvs).
Proof.
  destruct (printed_object_ends kvs) as [body ->]. by apply strip_id.
Qed.

(** A printed object, bare or in a fence, is what the fence is removed to. *)
Lemma unfence_plain kvs : unfence (print true (JObj kvs)) = print true (JObj kvs).
Proof.
  unfold unfence. rewrite strip_printed. destruct (printed_object_ends kvs) as [body ->]. reflexivity.
Qed.

Lemma strip_fenced text : strip (fenced text) = fenced text.
Proof.
  assert (fenced text = String "`" (("``json" +:+ newline +:+ text +:+ newline +:+ "``") +:+ "`")) as ->
    by (unfold fenced; by rewrite !sapp_assoc).
  by apply strip_id.
Qed.

Lemma unfence_fenced float_norm kvs :
  json_wf float_norm (JObj kvs) = true -> unfence (fenced (print true (JObj kvs))) = print true (JObj kvs).
Proof.
  intros Hwf. unfold unfence. rewrite strip_fenced.
  assert (startswith "```" (fenced (print true (JObj kvs))) = true) as -> by reflexivity.
  assert (endswith "```" (fenced (print true (JObj kvs))) = true) as ->.
  { unfold endswith, fenced. rewrite !rev_string_app, !sapp_assoc. reflexivity. }
  cbn [andb]. rewrite splitlines_fenced by (by eapply printable_no_breaks, print_printable).
  cbn [inner_lines removelast join]. apply strip_printed.
Qed.

(* ------------------------------------------------------------------ *)
(** ** Properties *)

(** The text of an answer that carries the model's reply. *)
Definition llm_answer (reply : string) : json :=
  JObj [("choices", JList [JObj [("message", JObj [("content", JStr reply)])]])].
Definition anthropic_answer (reply : string) : json :=
  JObj [("content", JList [JObj [("text", JStr reply)]])].
Definition answered (payload : json) : result exc http_response :=
  Ok {| status_code := 200; text := dumps payload |}.

Section properties.
Context (float_norm : string -> string).

(** What one call of an advisor shows: one request, a proposal exactly when the
    answer holds one and the failure may be repaired, and otherwise a [ValueError]
    or the exception of the transport. *)
Definition proposes (url : string) (headers : dict string string) (body : json)
    (content_of : json -> result exc json) (diagnosis : FailureDiagnosis)
    (p : prog http_sig (result exc jdict * unit)) : Prop :=
  total p /\
  forall tr r u, exec p tr (r, u) -> exists answer : result exc http_response,
    tr = [Event (E := http_sig) (HPost url headers body) answer] /\
    (forall proposal, r = Ok proposal <->
       fd_category diagnosis <> POLICY_DENIED /\ answer_arguments float_norm content_of answer = Ok proposal) /\
    (forall e, r = Err e -> (exists message, e = EPy ValueError message) \/
       answer_arguments float_norm content_of answer = Err e).

Lemma ask_proposes url headers body content_of invalid diagnosis :
  proposes url headers body content_of diagnosis (ask float_norm url headers body content_of invalid diagnosis tt).
Proof.
  destruct (one_request_exec _ _ _ (ask_request float_norm url headers body content_of invalid diagnosis))
    as [Ht Hex]. split; [done|].
  intros tr r u (answer & -> & ->)%Hex. exists answer. split; [done|]. unfold ask_result.
  destruct (answer_arguments float_norm content_of answer) as [a|e] eqn:Ha.
  - case_decide as Hd; (split; [naive_solver|]); intros e [= <-]; eauto.
  - split; [naive_solver|]. intros e' [= <-]. destruct (catches invalid_response e); eauto.
Qed.

Lemma answer_of_reply content_of payload reply kvs args :
  json_wf float_norm payload = true -> content_of payload = Ok (JStr reply) ->
  unfence reply = print true (JObj kvs) -> json_wf float_norm (JObj kvs) = true ->
  dict_get "arguments" kvs = Some (JObj args) ->
  answer_arguments float_norm content_of (answered payload) = Ok args.
Proof.
  intros Hp Hc Hu Hwf Hargs. unfold answer_arguments, answered, response_json, raise_for_status. cbn [result_bind].
  cbn [is_success status_code Z.leb Z.ltb Z.compare Pos.compare Pos.compare_cont andb result_bind text].
  unfold dumps. rewrite loads_print by done. cbn [ok_or result_bind]. rewrite Hc. cbn [result_bind parse_arguments].
  by rewrite Hu, loads_print, Hargs by done.
Qed.

(** An advisor proposes exactly the arguments object the model answered.  Each
    call sends one request to the configured endpoint; a proposal is returned only
    for a failure that is no policy denial, and is the [arguments] object of the
    model's reply, with or without a code fence; every other answer, of whatever
    shape, is a [ValueError]. *)
Theorem advisors_propose_arguments a version max_tokens tool_name arguments schema diagnosis
    (kvs args : jdict) (Hwf : json_wf float_norm (JObj kvs) = true)
    (Hargs : dict_get "arguments" kvs = Some (JObj args)) :
  proposes (endpoint a) (llm_headers a)
    (llm_body a (repair_prompt llm_instruction tool_name arguments schema diagnosis)) llm_content diagnosis
    (llm_repair float_norm a tool_name arguments schema diagnosis tt) /\
  proposes (endpoint a) (anthropic_headers a version)
    (anthropic_body a max_tokens (repair_prompt anthropic_instruction tool_name arguments schema diagnosis))
    anthropic_content diagnosis
    (anthropic_repair float_norm a version max_tokens tool_name arguments schema diagnosis tt) /\
  (forall reply, reply = dumps (JObj kvs) \/ reply = fenced (dumps (JObj kvs)) ->
     answer_arguments float_norm llm_content (answered (llm_answer reply)) = Ok args /\
     answer_arguments float_norm anthropic_content (answered (anthropic_answer reply)) = Ok args).
Proof.
  split; [apply ask_proposes|]. split; [apply ask_proposes|].
  intros reply Hreply.
  assert (Hu : unfence reply = print true (JObj kvs))
    by (destruct Hreply as [-> | ->]; [apply unfence_plain|by eapply unfence_fenced]).
  split; by eapply answer_of_reply.
Qed.
End properties.

Lemma advisors_propose_arguments_witness :
  answer_arguments id llm_content
    (answered (llm_answer (fenced (dumps (JObj [("arguments", JObj [("max_rows", JInt 5)])]))))) =
  Ok [("max_rows", JInt 5)].
Proof.
  destruct (advisors_propose_arguments id {| endpoint := "https://llm"; model := "m"; api_key := "k" |} "2023-06-01" 1024
           "db_query" [] [] {| fd_category := TYPE_COERCION; fd_message := "bad" |}
           [("arguments", JObj [("max_rows", JInt 5)])] [("max_rows", JInt 5)] eq_refl eq_refl)
    as (_ & _ & Hreply).
  exact (proj1 (Hreply _ (or_intror eq_refl))).
Defined.
