(* ===== verification/Schema.v ===== *)
(** * The control-plane schema

    The tables declared in [gateway/control_plane/models.py] and the migration
    [alembic/versions/0001_control_plane.py] that creates them.  A column declared
    only by its foreign key takes the type of the column it refers to, as
    SQLAlchemy resolves it. *)

From S2P Require Import Prelude Dict Pystr Json Models Errors.

Inductive sql_type := String_ (length : nat) | Text | Integer | Boolean | DateTime | JSON.

Global Instance sql_type_eq_dec : EqDecision sql_type.
Proof. solve_decision. Defined.

(** A declared column; [None] leaves its type to the foreign key. *)
Record column (T : Type) := {
  col_name : string;
  col_type : T;
  col_nullable : bool
}.
Arguments col_name {T}. Arguments col_type {T}. Arguments col_nullable {T}.

Global Instance column_eq_dec {T} `{EqDecision T} : EqDecision (column T).
Proof. solve_decision. Defined.

Record table (T : Type) := {
  table_name : string;
  table_columns : list (column T);
  primary_key : list string;
  unique_keys : list (list string);
  foreign_keys : list (string * (string * string))
}.
Arguments table_name {T}. Arguments table_columns {T}. Arguments primary_key {T}.
Arguments unique_keys {T}. Arguments foreign_keys {T}.

Global Instance table_eq_dec {T} `{EqDecision T} : EqDecision (table T).
Proof. solve_decision. Defined.

Definition col {T} (name : string) (type : T) : column T :=
  {| col_name := name; col_type := type; col_nullable := false |}.
Definition nullable {T} (name : string) (type : T) : column T :=
  {| col_name := name; col_type := type; col_nullable := true |}.

(* ------------------------------------------------------------------ *)
(** ** models.py *)

Abbreviation declared := (table (option sql_type)).

Definition TenantModel_table : declared :=
  {| table_name := "tenants";
     table_columns := [col "id" (Some (String_ 128)); col "name" (Some (String_ 256));
                       col "created_at" (Some DateTime)];
     primary_key := ["id"]; unique_keys := []; foreign_keys := [] |}.

Definition PrincipalModel_table : declared :=
  {| table_name := "principals";
     table_columns := [col "id" (Some Integer); col "tenant_id" None; col "subject" (Some (String_ 256));
                       col "roles" (Some JSON); nullable "issuer" (Some (String_ 512));
                       nullable "agent_id" (Some (String_ 256)); col "created_at" (Some DateTime)];
     primary_key := ["id"]; unique_keys := [["tenant_id"; "subject"]];
     foreign_keys := [("tenant_id", ("tenants", "id"))] |}.

Definition ToolCallModel_table : declared :=
  {| table_name := "tool_calls";
     table_columns := [col "call_id" (Some (String_ 128)); col "trace_id" (Some (String_ 128));
                       col "session_id" (Some (String_ 128)); nullable "tenant_id" None;
                       nullable "subject" (Some (String_ 256)); col "tool_name" (Some (String_ 256));
                       nullable "risk_class" (Some (String_ 64)); col "arguments" (Some JSON);
                       col "current_state" (Some (String_ 64));
                       nullable "policy_decision" (Some (String_ 64));
                       nullable "policy_rule" (Some (String_ 256));
                       nullable "outcome" (Some (String_ 128)); col "created_at" (Some DateTime);
                       col "updated_at" (Some DateTime)];
     primary_key := ["call_id"]; unique_keys := [];
     foreign_keys := [("tenant_id", ("tenants", "id"))] |}.

Definition AttemptModel_table : declared :=
  {| table_name := "attempts";
     table_columns := [col "id" (Some Integer); col "call_id" None; col "attempt" (Some Integer);
                       col "started_at" (Some DateTime); nullable "finished_at" (Some DateTime);
                       nullable "outcome" (Some (String_ 128)); nullable "error" (Some Text)];
     primary_key := ["id"]; unique_keys := [["call_id"; "attempt"]];
     foreign_keys := [("call_id", ("tool_calls", "call_id"))] |}.

Definition ApprovalModel_table : declared :=
  {| table_name := "approvals";
     table_columns := [col "approval_id" (Some (String_ 128)); col "call_id" (Some (String_ 128));
                       nullable "tenant_id" None; col "tool_name" (Some (String_ 256));
                       col "arguments" (Some JSON); col "policy_input" (Some JSON);
                       col "matched_rule" (Some (String_ 256)); nullable "decision" (Some (String_ 64));
                       nullable "approver" (Some (String_ 256)); nullable "reason" (Some Text);
                       col "created_at" (Some DateTime); nullable "decided_at" (Some DateTime)];
     primary_key := ["approval_id"]; unique_keys := [];
     foreign_keys := [("tenant_id", ("tenants", "id"))] |}.

Definition IdempotencyKeyModel_table : declared :=
  {| table_name := "idempotency_keys";
     table_columns := [col "key" (Some (String_ 256)); col "tenant_id" None;
                       col "call_id" (Some (String_ 128)); col "status" (Some (String_ 64));
                       col "created_at" (Some DateTime); col "updated_at" (Some DateTime)];
     primary_key := ["key"; "tenant_id"]; unique_keys := [];
     foreign_keys := [("tenant_id", ("tenants", "id"))] |}.

Definition PolicyVersionModel_table : declared :=
  {| table_name := "policy_versions";
     table_columns := [col "version" (Some (String_ 128)); col "bundle_hash" (Some (String_ 128));
                       nullable "bundle_uri" (Some (String_ 1024)); col "signed" (Some Boolean);
                       col "created_at" (Some DateTime)];
     primary_key := ["version"]; unique_keys := []; foreign_keys := [] |}.

Definition ConfigurationModel_table : declared :=
  {| table_name := "configurations";
     table_columns := [col "key" (Some (String_ 256)); col "value" (Some JSON);
                       col "version" (Some Integer); col "updated_at" (Some DateTime)];
     primary_key := ["key"]; unique_keys := []; foreign_keys := [] |}.

(** [Base.metadata] *)
Definition metadata : list declared :=
  [TenantModel_table; PrincipalModel_table; ToolCallModel_table; AttemptModel_table;
   ApprovalModel_table; IdempotencyKeyModel_table; PolicyVersionModel_table; ConfigurationModel_table].

(** The type of a column, through its foreign key if it declares none. *)
Definition find_table {T} (name : string) (tables : list (table T)) : option (table T) :=
  List.find (fun t => String.eqb (table_name t) name) tables.
Definition find_column {T} (name : string) (t : table T) : option (column T) :=
  List.find (fun c => String.eqb (col_name c) name) (table_columns t).

Definition resolve_type (tables : list declared) (t : declared) (c : column (option sql_type)) : option sql_type :=
  match col_type c with
  | Some type => Some type
  | None =>
      key ← dict_get (col_name c) (foreign_keys t);
      target ← find_table key.1 tables;
      column ← find_column key.2 target;
      col_type column
  end.

Definition resolve_column tables t (c : column (option sql_type)) : option (column sql_type) :=
  type ← resolve_type tables t c;
  Some {| col_name := col_name c; col_type := type; col_nullable := col_nullable c |}.

Definition resolve_table (tables : list declared) (t : declared) : option (table sql_type) :=
  columns ← mapM (resolve_column tables t) (table_columns t);
  Some {| table_name := table_name t; table_columns := columns; primary_key := primary_key t;
          unique_keys := unique_keys t; foreign_keys := foreign_keys t |}.

Definition resolve_schema (tables : list declared) : option (list (table sql_type)) :=
  mapM (resolve_table tables) tables.

(* ------------------------------------------------------------------ *)
(** ** The migration *)

Inductive ddl := create_table (t : table sql_type) | drop_table (name : string).

(** The database refuses a table that exists or refers to a missing column, and
    the removal of a table that is missing or referred to. *)
Definition references_exist (schema : list (table sql_type)) (t : table sql_type) : bool :=
  forallb (fun key : string * (string * string) =>
    match find_table key.2.1 schema with
    | Some target => bool_decide (is_Some (find_column key.2.2 target))
    | None => false
    end) (foreign_keys t).

Definition run_ddl (schema : list (table sql_type)) (o : ddl) : result exc (list (table sql_type)) :=
  match o with
  | create_table t =>
      if bool_decide (is_Some (find_table (table_name t) schema)) then Err (EPy DatabaseError "table exists")
      else if references_exist schema t then Ok (schema ++ [t])
      else Err (EPy DatabaseError "undefined reference")
  | drop_table name =>
      if bool_decide (find_table name schema = None) then Err (EPy DatabaseError "no such table")
      else
        let rest := List.filter (fun t => negb (String.eqb (table_name t) name)) schema in
        if existsb (fun t => existsb (fun key : string * (string * string) => String.eqb key.2.1 name)
                               (foreign_keys t)) rest
        then Err (EPy DatabaseError "dependent objects") else Ok rest
  end.

Fixpoint run_migration (schema : list (table sql_type)) (steps : list ddl) : result exc (list (table sql_type)) :=
  match steps with
  | [] => Ok schema
  | o :: steps' => result_bind (run_ddl schema o) (fun schema' => run_migration schema' steps')
  end.

(** [upgrade] *)
Definition upgrade : list ddl :=
  [create_table
     {| table_name := "tenants";
        table_columns := [col "id" (String_ 128); col "name" (String_ 256); col "created_at" DateTime];
        primary_key := ["id"]; unique_keys := []; foreign_keys := [] |};
   create_table
     {| table_name := "principals";
        table_columns := [col "id" Integer; col "tenant_id" (String_ 128); col "subject" (String_ 256);
                          col "roles" JSON; nullable "issuer" (String_ 512);
                          nullable "agent_id" (String_ 256); col "created_at" DateTime];
        primary_key := ["id"]; unique_keys := [["tenant_id"; "subject"]];
        foreign_keys := [("tenant_id", ("tenants", "id"))] |};
   create_table
     {| table_name := "tool_calls";
        table_columns := [col "call_id" (String_ 128); col "trace_id" (String_ 128);
                          col "session_id" (String_ 128); nullable "tenant_id" (String_ 128);
                          nullable "subject" (String_ 256); col "tool_name" (String_ 256);
                          nullable "risk_class" (String_ 64); col "arguments" JSON;
                          col "current_state" (String_ 64); nullable "policy_decision" (String_ 64);
                          nullable "policy_rule" (String_ 256); nullable "outcome" (String_ 128);
                          col "created_at" DateTime; col "updated_at" DateTime];
        primary_key := ["call_id"]; unique_keys := [];
        foreign_keys := [("tenant_id", ("tenants", "id"))] |};
   create_table
     {| table_name := "attempts";
        table_columns := [col "id" Integer; col "call_id" (String_ 128); col "attempt" Integer;
                          col "started_at" DateTime; nullable "finished_at" DateTime;
                          nullable "outcome" (String_ 128); nullable "error" Text];
        primary_key := ["id"]; unique_keys := [["call_id"; "attempt"]];
        foreign_keys := [("call_id", ("tool_calls", "call_id"))] |};
   create_table
     {| table_name := "approvals";
        table_columns := [col "approval_id" (String_ 128); col "call_id" (String_ 128);
                          nullable "tenant_id" (String_ 128); col "tool_name" (String_ 256);
                          col "arguments" JSON; col "policy_input" JSON; col "matched_rule" (String_ 256);
                          nullable "decision" (String_ 64); nullable "approver" (String_ 256);
                          nullable "reason" Text; col "created_at" DateTime; nullable "decided_at" DateTime];
        primary_key := ["approval_id"]; unique_keys := [];
        foreign_keys := [("tenant_id", ("tenants", "id"))] |};
   create_table
     {| table_name := "idempotency_keys";
        table_columns := [col "key" (String_ 256); col "tenant_id" (String_ 128); col "call_id" (String_ 128);
                          col "status" (String_ 64); col "created_at" DateTime; col "updated_at" DateTime];
        primary_key := ["key"; "tenant_id"]; unique_keys := [];
        foreign_keys := [("tenant_id", ("tenants", "id"))] |};
   create_table
     {| table_name := "policy_versions";
        table_columns := [col "version" (String_ 128); col "bundle_hash" (String_ 128);
                          nullable "bundle_uri" (String_ 1024); col "signed" Boolean; col "created_at" DateTime];
        primary_key := ["version"]; unique_keys := []; foreign_keys := [] |};
   create_table
     {| table_name := "configurations";
        table_columns := [col "key" (String_ 256); col "value" JSON; col "version" Integer;
                          col "updated_at" DateTime];
        primary_key := ["key"]; unique_keys := []; foreign_keys := [] |}].

(** [downgrade] *)
Definition downgrade : list ddl :=
  [drop_table "configurations"; drop_table "policy_versions"; drop_table "idempotency_keys";
   drop_table "approvals"; drop_table "attempts"; drop_table "tool_calls"; drop_table "principals";
   drop_table "tenants"].

(* ------------------------------------------------------------------ *)
(** ** The migration and the models agree *)

Lemma run_migration_app schema steps steps' :
  run_migration schema (steps ++ steps') =
  result_bind (run_migration schema steps) (fun schema' => run_migration schema' steps').
Proof.
  revert schema. induction steps as [|o steps IH]; intros schema; cbn; [done|].
  destruct (run_ddl schema o); cbn; [apply IH|done].
Qed.

(** The migration creates the tables the models declare, with the same columns,
    types, keys and references, in an order the database accepts, and can be undone:
    upgrading an empty database gives the schema of the models, and upgrading then
    downgrading gives the empty database back. *)
Theorem migration_matches_models :
  (exists schema, resolve_schema metadata = Some schema /\ run_migration [] upgrade = Ok schema) /\
  run_migration [] (upgrade ++ downgrade) = Ok [].
Proof.
  assert (Hup : exists schema, resolve_schema metadata = Some schema /\ run_migration [] upgrade = Ok schema)
    by (eexists; split; vm_compute; reflexivity).
  split; [exact Hup|]. destruct Hup as (schema & Hschema & Hup).
  rewrite run_migration_app, Hup. cbn [result_bind].
  vm_compute in Hschema. injection Hschema as <-. vm_compute. reflexivity.
Qed.
