(* ===== verification/ControlPlane.v ===== *)
(** * The control-plane repository

    [gateway/control_plane/repository.py]: each method is one transaction over the
    tables of [Schema], which commits or leaves the database as it was.  The tables
    enforce what their models declare: lengths and nullability of columns, primary
    and unique keys, foreign keys.  Transactions are followed one after the other.
    [now] is the reading of [utc_now]. *)

From S2P Require Import Prelude Dict Pystr Json Models Errors Schema.
From stdpp Require Import sorting.
Open Scope Z_scope.

(* ------------------------------------------------------------------ *)
(** ** Rows *)

Record TenantModel := { tn_name : string; tn_created_at : Z }.
Record PrincipalModel := {
  pm_id : Z;
  pm_roles : list string;
  pm_issuer : option string;
  pm_agent_id : option string;
  pm_created_at : Z
}.
Record ToolCallModel := {
  tm_trace_id : string;
  tm_session_id : string;
  tm_tenant_id : option string;
  tm_subject : option string;
  tm_tool_name : string;
  tm_risk_class : option string;
  tm_arguments : jdict;
  tm_current_state : string;
  tm_created_at : Z;
  tm_updated_at : Z
}.
Record AttemptModel := { am_id : Z; am_call_id : string; am_record : AttemptRecord }.
Record ApprovalModel := {
  pv_call_id : string;
  pv_tenant_id : option string;
  pv_tool_name : string;
  pv_arguments : jdict;
  pv_policy_input : jdict;
  pv_matched_rule : string;
  pv_decision : option string;
  pv_approver : option string;
  pv_reason : option string;
  pv_created_at : Z;
  pv_decided_at : option Z
}.
Record IdempotencyKeyModel := { ik_call_id : string; ik_status : string; ik_created_at : Z; ik_updated_at : Z }.
Record PolicyVersionModel := {
  vm_bundle_hash : string;
  vm_bundle_uri : option string;
  vm_signed : bool;
  vm_created_at : Z
}.
Record ConfigurationModel := { cm_value : jdict; cm_version : Z; cm_updated_at : Z }.

(** The database: rows under their primary key, or the unique key of the table
    when the primary key is a number. *)
Record database := {
  tenants : gmap string TenantModel;
  principals : gmap (string * string) PrincipalModel;
  tool_calls : gmap string ToolCallModel;
  attempts : list AttemptModel;
  approvals : gmap string ApprovalModel;
  idempotency_keys : gmap (string * string) IdempotencyKeyModel;
  policy_versions : gmap string PolicyVersionModel;
  configurations : gmap string ConfigurationModel;
  next_id : Z
}.

Definition empty_database : database :=
  {| tenants := ∅; principals := ∅; tool_calls := ∅; attempts := []; approvals := ∅;
     idempotency_keys := ∅; policy_versions := ∅; configurations := ∅; next_id := 1 |}.

Definition set_tenants v db :=
  {| tenants := v; principals := principals db; tool_calls := tool_calls db; attempts := attempts db;
     approvals := approvals db; idempotency_keys := idempotency_keys db;
     policy_versions := policy_versions db; configurations := configurations db; next_id := next_id db |}.
Definition set_principals v n db :=
  {| tenants := tenants db; principals := v; tool_calls := tool_calls db; attempts := attempts db;
     approvals := approvals db; idempotency_keys := idempotency_keys db;
     policy_versions := policy_versions db; configurations := configurations db; next_id := n |}.
Definition set_calls v a n db :=
  {| tenants := tenants db; principals := principals db; tool_calls := v; attempts := a;
     approvals := approvals db; idempotency_keys := idempotency_keys db;
     policy_versions := policy_versions db; configurations := configurations db; next_id := n |}.
Definition set_approvals v db :=
  {| tenants := tenants db; principals := principals db; tool_calls := tool_calls db; attempts := attempts db;
     approvals := v; idempotency_keys := idempotency_keys db;
     policy_versions := policy_versions db; configurations := configurations db; next_id := next_id db |}.
Definition set_idempotency_keys v db :=
  {| tenants := tenants db; principals := principals db; tool_calls := tool_calls db; attempts := attempts db;
     approvals := approvals db; idempotency_keys := v;
     policy_versions := policy_versions db; configurations := configurations db; next_id := next_id db |}.
Definition set_policy_versions v db :=
  {| tenants := tenants db; principals := principals db; tool_calls := tool_calls db; attempts := attempts db;
     approvals := approvals db; idempotency_keys := idempotency_keys db;
     policy_versions := v; configurations := configurations db; next_id := next_id db |}.
Definition set_configurations v db :=
  {| tenants := tenants db; principals := principals db; tool_calls := tool_calls db; attempts := attempts db;
     approvals := approvals db; idempotency_keys := idempotency_keys db;
     policy_versions := policy_versions db; configurations := v; next_id := next_id db |}.

(* ------------------------------------------------------------------ *)
(** ** What the tables accept *)

Inductive cell := CNull | CStr (s : string) | CInt (z : Z) | CBool (b : bool) | CTime (t : Z) | CJson (v : json).

Definition opt_cell {A} (f : A -> cell) (o : option A) : cell := match o with Some a => f a | None => CNull end.

Definition schema : list (table sql_type) := Eval vm_compute in default [] (resolve_schema metadata).

Definition cell_accepted (c : column sql_type) (v : cell) : bool :=
  match v, col_type c with
  | CNull, _ => col_nullable c
  | CStr s, String_ n => (String.length s <=? n)%nat
  | CStr _, Text | CBool _, Boolean | CTime _, DateTime | CJson _, JSON => true
  | CInt z, Integer => (- 2 ^ 31 <=? z) && (z <? 2 ^ 31)
  | _, _ => false
  end.

(** A row of a table, column by column. *)
Definition row_accepted (name : string) (row : dict string cell) : bool :=
  match find_table name schema with
  | Some t => forallb (fun c => cell_accepted c (default CNull (dict_get (col_name c) row))) (table_columns t)
  | None => false
  end.

Definition tenant_row (id : string) (t : TenantModel) : dict string cell :=
  [("id", CStr id); ("name", CStr (tn_name t)); ("created_at", CTime (tn_created_at t))].
Definition principal_row (key : string * string) (p : PrincipalModel) : dict string cell :=
  [("id", CInt (pm_id p)); ("tenant_id", CStr key.1); ("subject", CStr key.2);
   ("roles", CJson (JList (JStr <$> pm_roles p))); ("issuer", opt_cell CStr (pm_issuer p));
   ("agent_id", opt_cell CStr (pm_agent_id p)); ("created_at", CTime (pm_created_at p))].
Definition tool_call_row (call_id : string) (t : ToolCallModel) : dict string cell :=
  [("call_id", CStr call_id); ("trace_id", CStr (tm_trace_id t)); ("session_id", CStr (tm_session_id t));
   ("tenant_id", opt_cell CStr (tm_tenant_id t)); ("subject", opt_cell CStr (tm_subject t));
   ("tool_name", CStr (tm_tool_name t)); ("risk_class", opt_cell CStr (tm_risk_class t));
   ("arguments", CJson (JObj (tm_arguments t))); ("current_state", CStr (tm_current_state t));
   ("created_at", CTime (tm_created_at t)); ("updated_at", CTime (tm_updated_at t))].
Definition attempt_row (a : AttemptModel) : dict string cell :=
  [("id", CInt (am_id a)); ("call_id", CStr (am_call_id a)); ("attempt", CInt (at_attempt (am_record a)));
   ("started_at", CTime (at_started_at (am_record a)));
   ("finished_at", opt_cell CTime (at_finished_at (am_record a)));
   ("outcome", opt_cell CStr (at_outcome (am_record a))); ("error", opt_cell CStr (at_error (am_record a)))].
Definition approval_row (approval_id : string) (a : ApprovalModel) : dict string cell :=
  [("approval_id", CStr approval_id); ("call_id", CStr (pv_call_id a));
   ("tenant_id", opt_cell CStr (pv_tenant_id a)); ("tool_name", CStr (pv_tool_name a));
   ("arguments", CJson (JObj (pv_arguments a))); ("policy_input", CJson (JObj (pv_policy_input a)));
   ("matched_rule", CStr (pv_matched_rule a)); ("decision", opt_cell CStr (pv_decision a));
   ("approver", opt_cell CStr (pv_approver a)); ("reason", opt_cell CStr (pv_reason a));
   ("created_at", CTime (pv_created_at a)); ("decided_at", opt_cell CTime (pv_decided_at a))].
Definition idempotency_row (key : string * string) (k : IdempotencyKeyModel) : dict string cell :=
  [("key", CStr key.1); ("tenant_id", CStr key.2); ("call_id", CStr (ik_call_id k));
   ("status", CStr (ik_status k)); ("created_at", CTime (ik_created_at k)); ("updated_at", CTime (ik_updated_at k))].
Definition version_row (version : string) (v : PolicyVersionModel) : dict string cell :=
  [("version", CStr version); ("bundle_hash", CStr (vm_bundle_hash v));
   ("bundle_uri", opt_cell CStr (vm_bundle_uri v)); ("signed", CBool (vm_signed v));
   ("created_at", CTime (vm_created_at v))].
Definition configuration_row (key : string) (c : ConfigurationModel) : dict string cell :=
  [("key", CStr key); ("value", CJson (JObj (cm_value c))); ("version", CInt (cm_version c));
   ("updated_at", CTime (cm_updated_at c))].

(** A foreign key to [tenants]: null, or the id of a tenant. *)
Definition tenant_exists (db : database) (tenant_id : option string) : bool :=
  match tenant_id with Some t => bool_decide (is_Some (tenants db !! t)) | None => true end.

(** A transaction: rolled back when a constraint is violated. *)
Definition require {A} (accepted : bool) (a : A) : result exc A :=
  if accepted then Ok a else Err (EPy DatabaseError "constraint violation").

(* ------------------------------------------------------------------ *)
(** ** The repository *)

Definition upsert_tenant (tenant_id name : string) (now : Z) (db : database) : result exc database :=
  let row := match tenants db !! tenant_id with
             | None => {| tn_name := name; tn_created_at := now |}
             | Some t => {| tn_name := name; tn_created_at := tn_created_at t |}
             end in
  require (row_accepted "tenants" (tenant_row tenant_id row))
    (set_tenants (<[tenant_id := row]> (tenants db)) db).

Definition upsert_principal (p : Principal) (now : Z) (db : database) : result exc database :=
  let key := (pr_tenant_id p, pr_subject p) in
  let existing := principals db !! key in
  let row :=
    {| pm_id := match existing with Some e => pm_id e | None => next_id db end;
       pm_roles := map value (pr_roles p); pm_issuer := pr_issuer p; pm_agent_id := pr_agent_id p;
       pm_created_at := match existing with Some e => pm_created_at e | None => now end |} in
  require (row_accepted "principals" (principal_row key row) && tenant_exists db (Some (pr_tenant_id p)))
    (set_principals (<[key := row]> (principals db))
       (match existing with Some _ => next_id db | None => next_id db + 1 end) db).

Definition create_approval (request : ApprovalRequest) (tenant_id : option string) (db : database) :
    result exc database :=
  let row :=
    {| pv_call_id := ap_call_id request; pv_tenant_id := tenant_id; pv_tool_name := ap_tool_name request;
       pv_arguments := ap_arguments request; pv_policy_input := ap_policy_input request;
       pv_matched_rule := ap_matched_rule request; pv_decision := ap_decision request;
       pv_approver := ap_approver request; pv_reason := ap_reason request;
       pv_created_at := ap_created_at request; pv_decided_at := None |} in
  require (bool_decide (approvals db !! ap_approval_id request = None) &&
           row_accepted "approvals" (approval_row (ap_approval_id request) row) && tenant_exists db tenant_id)
    (set_approvals (<[ap_approval_id request := row]> (approvals db)) db).

Definition decide_row (decision approver reason : string) (decided_at : Z) (a : ApprovalModel) : ApprovalModel :=
  {| pv_call_id := pv_call_id a; pv_tenant_id := pv_tenant_id a; pv_tool_name := pv_tool_name a;
     pv_arguments := pv_arguments a; pv_policy_input := pv_policy_input a;
     pv_matched_rule := pv_matched_rule a; pv_decision := Some decision; pv_approver := Some approver;
     pv_reason := Some reason; pv_created_at := pv_created_at a; pv_decided_at := Some decided_at |}.

(** [resolve_approval], with its answer. *)
Definition resolve_approval (approval_id decision approver reason : string) (decided_at : Z) (db : database) :
    result exc (bool * database) :=
  match approvals db !! approval_id with
  | Some a =>
      if bool_decide (pv_decision a = None) then
        let row := decide_row decision approver reason decided_at a in
        require (row_accepted "approvals" (approval_row approval_id row))
          (true, set_approvals (<[approval_id := row]> (approvals db)) db)
      else Ok (false, db)
  | None => Ok (false, db)
  end.

(** The attempts of a call, inserted one after the other. *)
Fixpoint add_attempts (call_id : string) (records : list AttemptRecord) (id : Z) (rows : list AttemptModel) :
    result exc (list AttemptModel) :=
  match records with
  | [] => Ok rows
  | r :: records' =>
      let row := {| am_id := id; am_call_id := call_id; am_record := r |} in
      if row_accepted "attempts" (attempt_row row) &&
         forallb (fun a => negb (String.eqb (am_call_id a) call_id && (at_attempt (am_record a) =? at_attempt r))) rows
      then add_attempts call_id records' (id + 1) (rows ++ [row])
      else Err (EPy DatabaseError "constraint violation")
  end.

(** The summary row of a call, created or replaced. *)
Definition call_row (record : ToolCallRecord) (existing : option ToolCallModel) : ToolCallModel :=
  {| tm_trace_id := tc_trace_id record; tm_session_id := tc_session_id record;
     tm_tenant_id := pr_tenant_id <$> tc_principal record; tm_subject := pr_subject <$> tc_principal record;
     tm_tool_name := tc_tool_name record; tm_risk_class := value <$> tc_risk_class record;
     tm_arguments := tc_arguments record; tm_current_state := value (tc_current_state record);
     tm_created_at := match existing with Some e => tm_created_at e | None => tc_created_at record end;
     tm_updated_at := tc_updated_at record |}.

Definition upsert_tool_call (record : ToolCallRecord) (db : database) : result exc database :=
  let call_id := tc_call_id record in
  let row := call_row record (tool_calls db !! call_id) in
  let kept := List.filter (fun a => negb (String.eqb (am_call_id a) call_id)) (attempts db) in
  if row_accepted "tool_calls" (tool_call_row call_id row) && tenant_exists db (tm_tenant_id row) then
    result_map (fun rows => set_calls (<[call_id := row]> (tool_calls db)) rows
                              (next_id db + Z.of_nat (length (tc_attempts record))) db)
      (add_attempts call_id (tc_attempts record) (next_id db) kept)
  else Err (EPy DatabaseError "constraint violation").

Definition put_idempotency_key (tenant_id key call_id status : string) (now : Z) (db : database) :
    result exc database :=
  let existing := idempotency_keys db !! (key, tenant_id) in
  let row := {| ik_call_id := call_id; ik_status := status;
                ik_created_at := match existing with Some e => ik_created_at e | None => now end;
                ik_updated_at := match existing with Some e => ik_updated_at e | None => now end |} in
  require (row_accepted "idempotency_keys" (idempotency_row (key, tenant_id) row) && tenant_exists db (Some tenant_id))
    (set_idempotency_keys (<[(key, tenant_id) := row]> (idempotency_keys db)) db).

Definition get_idempotency_key (tenant_id key : string) (db : database) : option IdempotencyKeyModel :=
  idempotency_keys db !! (key, tenant_id).

Definition record_policy_version (version bundle_hash : string) (bundle_uri : option string) (signed : bool)
    (now : Z) (db : database) : result exc database :=
  let row := {| vm_bundle_hash := bundle_hash; vm_bundle_uri := bundle_uri; vm_signed := signed;
                vm_created_at := now |} in
  require (bool_decide (policy_versions db !! version = None) && row_accepted "policy_versions" (version_row version row))
    (set_policy_versions (<[version := row]> (policy_versions db)) db).

Definition set_configuration (key : string) (config : jdict) (version now : Z) (db : database) :
    result exc database :=
  let row := {| cm_value := config; cm_version := version;
                cm_updated_at := match configurations db !! key with Some e => cm_updated_at e | None => now end |} in
  require (row_accepted "configurations" (configuration_row key row))
    (set_configurations (<[key := row]> (configurations db)) db).

(** [ORDER BY attempt] *)
Definition attempt_le (a b : AttemptModel) : Prop := at_attempt (am_record a) <= at_attempt (am_record b).
Global Instance attempt_le_dec : RelDecision attempt_le.
Proof. intros a b. unfold attempt_le. apply _. Defined.

Global Instance attempt_le_total : Total attempt_le.
Proof. intros a b. unfold attempt_le. lia. Qed.
Global Instance attempt_le_trans : Transitive attempt_le.
Proof. intros a b c. unfold attempt_le. lia. Qed.

Definition list_attempts (call_id : string) (db : database) : list AttemptModel :=
  merge_sort attempt_le (List.filter (fun a => String.eqb (am_call_id a) call_id) (attempts db)).

(** The transactions of the repository, and a sequence of them. *)
Inductive cp_op :=
| UpsertTenant (tenant_id name : string) (now : Z)
| UpsertPrincipal (p : Principal) (now : Z)
| CreateApproval (request : ApprovalRequest) (tenant_id : option string)
| ResolveApproval (approval_id decision approver reason : string) (decided_at : Z)
| UpsertToolCall (record : ToolCallRecord)
| PutIdempotencyKey (tenant_id key call_id status : string) (now : Z)
| RecordPolicyVersion (version bundle_hash : string) (bundle_uri : option string) (signed : bool) (now : Z)
| SetConfiguration (key : string) (config : jdict) (version now : Z).

Definition cp_transaction (o : cp_op) (db : database) : result exc database :=
  match o with
  | UpsertTenant t n now => upsert_tenant t n now db
  | UpsertPrincipal p now => upsert_principal p now db
  | CreateApproval r t => create_approval r t db
  | ResolveApproval i d a r t => result_map snd (resolve_approval i d a r t db)
  | UpsertToolCall r => upsert_tool_call r db
  | PutIdempotencyKey t k c s now => put_idempotency_key t k c s now db
  | RecordPolicyVersion v h u s now => record_policy_version v h u s now db
  | SetConfiguration k c v now => set_configuration k c v now db
  end.

Definition cp_step (db : database) (o : cp_op) : database :=
  match cp_transaction o db with Ok db' => db' | Err _ => db end.
Definition cp_run (db : database) (ops : list cp_op) : database := fold_left cp_step ops db.

(* ------------------------------------------------------------------ *)
(** ** Attempts *)

Lemma require_ok {A} b (a a' : A) : require b a = Ok a' <-> b = true /\ a' = a.
Proof. unfold require. destruct b; naive_solver. Qed.

Definition of_call (call_id : string) (a : AttemptModel) : bool := String.eqb (am_call_id a) call_id.
Definition number (a : AttemptModel) : Z := at_attempt (am_record a).

(** Attempt numbers of the rows of a call. *)
Definition numbers (call_id : string) (rows : list AttemptModel) : list Z :=
  map number (List.filter (of_call call_id) rows).

(** The rows inserted for the attempts of a call. *)
Definition attempt_rows (call_id : string) (id : Z) (records : list AttemptRecord) : list AttemptModel :=
  imap (fun i r => {| am_id := id + Z.of_nat i; am_call_id := call_id; am_record := r |}) records.

Lemma attempt_rows_cons call_id id r records :
  attempt_rows call_id id (r :: records) =
  {| am_id := id; am_call_id := call_id; am_record := r |} :: attempt_rows call_id (id + 1) records.
Proof.
  unfold attempt_rows. cbn. rewrite Z.add_0_r. f_equal. apply imap_ext. intros i x _. cbn. f_equal. lia.
Qed.

Lemma filter_attempt_rows call_id other id records :
  List.filter (of_call other) (attempt_rows call_id id records) =
  if String.eqb call_id other then attempt_rows call_id id records else [].
Proof.
  revert id. induction records as [|r records IH]; intros id; [by destruct (String.eqb call_id other)|].
  rewrite attempt_rows_cons. cbn. unfold of_call at 1. cbn. rewrite IH.
  by destruct (String.eqb call_id other).
Qed.

Lemma records_of_rows call_id id records : map am_record (attempt_rows call_id id records) = records.
Proof.
  revert id. induction records as [|r records IH]; intros id; [done|].
  rewrite attempt_rows_cons. cbn. by rewrite IH.
Qed.

Lemma numbers_rows call_id id records : numbers call_id (attempt_rows call_id id records) = map at_attempt records.
Proof.
  unfold numbers. rewrite filter_attempt_rows, String.eqb_refl.
  rewrite <- (records_of_rows call_id id records) at 2. by rewrite map_map.
Qed.

Lemma number_free call_id r rows :
  forallb (fun a => negb (String.eqb (am_call_id a) call_id && (at_attempt (am_record a) =? at_attempt r))) rows = true <->
  at_attempt r ∉ numbers call_id rows.
Proof.
  unfold numbers. rewrite forallb_forall, list_elem_of_In, in_map_iff. split.
  - intros Hall (a & Hn & Hin%filter_In). destruct Hin as [Hin Hc]. specialize (Hall a Hin).
    unfold number in Hn. unfold of_call in Hc. rewrite Hc, Hn, Z.eqb_refl in Hall. done.
  - intros Hn a Hin. destruct (String.eqb (am_call_id a) call_id) eqn:Hc; [|done]. cbn.
    destruct (Z.eqb_spec (at_attempt (am_record a)) (at_attempt r)) as [Heq|]; [|done].
    destruct Hn. exists a. split; [done|]. by apply filter_In.
Qed.

Lemma numbers_app call_id rows rows' : numbers call_id (rows ++ rows') = numbers call_id rows ++ numbers call_id rows'.
Proof. unfold numbers. by rewrite List.filter_app, map_app. Qed.

(** Inserting succeeds exactly when every row is accepted and no attempt number
    occurs twice. *)
Lemma add_attempts_ok call_id records id rows rows' :
  NoDup (numbers call_id rows) ->
  add_attempts call_id records id rows = Ok rows' <->
  rows' = rows ++ attempt_rows call_id id records /\
  Forall (fun a => row_accepted "attempts" (attempt_row a) = true) (attempt_rows call_id id records) /\
  NoDup (numbers call_id rows ++ map at_attempt records).
Proof.
  revert id rows. induction records as [|r records IH]; intros id rows Hnd; cbn [add_attempts map].
  { cbn. rewrite !app_nil_r. split; [by intros [= <-]|by intros (-> & _)]. }
  rewrite attempt_rows_cons, Forall_cons.
  destruct (row_accepted "attempts" _) eqn:Hacc; cbn [andb]; [|split; [done|naive_solver]].
  destruct (forallb _ rows) eqn:Hfree.
  - apply number_free in Hfree.
    assert (Hone : numbers call_id [{| am_id := id; am_call_id := call_id; am_record := r |}] = [at_attempt r])
      by (unfold numbers, of_call; cbn; by rewrite String.eqb_refl).
    rewrite IH, numbers_app, Hone.
    + rewrite <- !app_assoc. cbn [app]. naive_solver.
    + rewrite numbers_app, Hone. apply NoDup_app. split_and!; [done| |apply NoDup_singleton].
      intros x Hx ->%list_elem_of_singleton. done.
  - split; [done|]. intros (_ & _ & Hnd'). exfalso.
    enough (forallb (fun a => negb (String.eqb (am_call_id a) call_id && (at_attempt (am_record a) =? at_attempt r))) rows = true) by congruence.
    apply number_free. intros Hin. apply NoDup_app in Hnd' as (_ & Hdisj & _).
    apply (Hdisj _ Hin). apply elem_of_cons. by left.
Qed.

(* ------------------------------------------------------------------ *)
(** ** Recording a call *)

(** What the tables require of a record. *)
Definition recordable (record : ToolCallRecord) (db : database) : Prop :=
  row_accepted "tool_calls" (tool_call_row (tc_call_id record)
    (call_row record (tool_calls db !! tc_call_id record))) = true /\
  tenant_exists db (pr_tenant_id <$> tc_principal record) = true /\
  Forall (fun a => row_accepted "attempts" (attempt_row a) = true)
    (attempt_rows (tc_call_id record) (next_id db) (tc_attempts record)) /\
  NoDup (map at_attempt (tc_attempts record)).

Definition other_attempts (call_id : string) (rows : list AttemptModel) : list AttemptModel :=
  List.filter (fun a => negb (of_call call_id a)) rows.

Lemma other_attempts_numbers call_id rows : numbers call_id (other_attempts call_id rows) = [].
Proof.
  unfold numbers, other_attempts. induction rows as [|a rows IH]; [done|]. cbn.
  destruct (of_call call_id a) eqn:Ha; cbn; [done|]. by rewrite Ha.
Qed.

Lemma other_attempts_filter call_id other rows :
  other <> call_id -> List.filter (of_call other) (other_attempts call_id rows) = List.filter (of_call other) rows.
Proof.
  intros Hne. unfold other_attempts. induction rows as [|a rows IH]; [done|]. cbn.
  destruct (of_call call_id a) eqn:Ha; cbn; rewrite IH; [|done].
  unfold of_call in Ha |- *. apply String.eqb_eq in Ha. rewrite Ha.
  by destruct (String.eqb_spec call_id other).
Qed.

(** The database after a record was stored. *)
Definition recorded (record : ToolCallRecord) (db : database) : database :=
  let call_id := tc_call_id record in
  set_calls (<[call_id := call_row record (tool_calls db !! call_id)]> (tool_calls db))
    (other_attempts call_id (attempts db) ++ attempt_rows call_id (next_id db) (tc_attempts record))
    (next_id db + Z.of_nat (length (tc_attempts record))) db.

Lemma upsert_tool_call_ok record db db' :
  upsert_tool_call record db = Ok db' <-> recordable record db /\ db' = recorded record db.
Proof.
  unfold upsert_tool_call, recordable, recorded.
  change (List.filter _ (attempts db)) with (other_attempts (tc_call_id record) (attempts db)).
  set (row := call_row record _). cbn [tm_tenant_id call_row row].
  destruct (row_accepted "tool_calls" _) eqn:Hrow; cbn [andb]; [|split; [done|naive_solver]].
  change (tm_tenant_id row) with (pr_tenant_id <$> tc_principal record).
  destruct (tenant_exists db _) eqn:Htenant; [|split; [done|naive_solver]].
  assert (Hadd := add_attempts_ok (tc_call_id record) (tc_attempts record) (next_id db)
                    (other_attempts (tc_call_id record) (attempts db))).
  rewrite other_attempts_numbers in Hadd. specialize (fun r => Hadd r (NoDup_nil_2)).
  cbn [app] in Hadd. destruct (add_attempts _ _ _ _) as [rows|e]; cbn [result_map].
  - destruct (Hadd rows) as [H1 _]. specialize (H1 eq_refl) as (-> & ? & ?). naive_solver.
  - split; [done|]. intros [(_ & _ & Hacc & Hnd) _].
    destruct (Hadd (other_attempts (tc_call_id record) (attempts db) ++
      attempt_rows (tc_call_id record) (next_id db) (tc_attempts record))) as [_ H2].
    by discriminate H2.
Qed.

(** Storing a call replaces its summary and its attempts.  It succeeds exactly
    when the tables accept the record; then the call's row shows the record, with
    the time it was first stored, its attempts listed in order of their numbers are
    exactly those of the record, and no other call, tenant, principal or approval
    changes. *)
Theorem tool_call_summary_current record db :
  let call_id := tc_call_id record in
  (is_ok (upsert_tool_call record db) = true <-> recordable record db) /\
  forall db', upsert_tool_call record db = Ok db' ->
    tool_calls db' !! call_id = Some (call_row record (tool_calls db !! call_id)) /\
    map am_record (list_attempts call_id db') ≡ₚ tc_attempts record /\
    StronglySorted attempt_le (list_attempts call_id db') /\
    (forall other, other <> call_id ->
       tool_calls db' !! other = tool_calls db !! other /\ list_attempts other db' = list_attempts other db) /\
    tenants db' = tenants db /\ principals db' = principals db /\ approvals db' = approvals db.
Proof.
  intros call_id. split.
  { pose proof (upsert_tool_call_ok record db) as Hok. destruct (upsert_tool_call record db) as [db'|e]; cbn.
    - split; [|done]. intros _. by apply (Hok db').
    - split; [done|]. intros Hr.
      pose proof (proj2 (Hok (recorded record db)) (conj Hr eq_refl)) as Heq. discriminate Heq. }
  subst call_id. intros db' [_ ->]%upsert_tool_call_ok. cbn [recorded set_calls tool_calls tenants principals approvals].
  split; [apply lookup_insert_eq|]. split; [|split; [|split; [|done]]].
  - unfold list_attempts. rewrite merge_sort_Permutation. cbn [attempts recorded set_calls].
    change (fun a => String.eqb (am_call_id a) (tc_call_id record)) with (of_call (tc_call_id record)).
    rewrite List.filter_app, filter_attempt_rows, String.eqb_refl, map_app, records_of_rows.
    assert (Hnone := other_attempts_numbers (tc_call_id record) (attempts db)). unfold numbers in Hnone.
    apply map_eq_nil in Hnone. by rewrite Hnone.
  - apply (StronglySorted_merge_sort _).
  - intros other Hne. split; [by apply lookup_insert_ne|]. unfold list_attempts. cbn [attempts recorded set_calls].
    change (fun a => String.eqb (am_call_id a) other) with (of_call other).
    rewrite List.filter_app, filter_attempt_rows, other_attempts_filter by done.
    destruct (String.eqb_spec (tc_call_id record) other); [congruence|]. by rewrite app_nil_r.
Qed.

(* ------------------------------------------------------------------ *)
(** ** Invariants of the database *)

(** Every row is accepted by its table, every reference exists, and no attempt
    number occurs twice for a call. *)
Record consistent (db : database) : Prop := {
  tenants_accepted : map_Forall (fun i r => row_accepted "tenants" (tenant_row i r) = true) (tenants db);
  principals_accepted : map_Forall (fun k r =>
    row_accepted "principals" (principal_row k r) = true /\ tenant_exists db (Some k.1) = true) (principals db);
  calls_accepted : map_Forall (fun i r =>
    row_accepted "tool_calls" (tool_call_row i r) = true /\ tenant_exists db (tm_tenant_id r) = true) (tool_calls db);
  attempts_accepted : Forall (fun a =>
    row_accepted "attempts" (attempt_row a) = true /\ is_Some (tool_calls db !! am_call_id a)) (attempts db);
  attempts_unique : forall call_id, NoDup (numbers call_id (attempts db));
  approvals_accepted : map_Forall (fun i r =>
    row_accepted "approvals" (approval_row i r) = true /\ tenant_exists db (pv_tenant_id r) = true) (approvals db);
  keys_accepted : map_Forall (fun k r =>
    row_accepted "idempotency_keys" (idempotency_row k r) = true /\ tenant_exists db (Some k.2) = true)
    (idempotency_keys db);
  versions_accepted : map_Forall (fun i r => row_accepted "policy_versions" (version_row i r) = true)
    (policy_versions db);
  configurations_accepted : map_Forall (fun i r => row_accepted "configurations" (configuration_row i r) = true)
    (configurations db)
}.

Lemma tenant_exists_mono db db' t :
  (forall i, is_Some (tenants db !! i) -> is_Some (tenants db' !! i)) ->
  tenant_exists db t = true -> tenant_exists db' t = true.
Proof. intros Hmono. destruct t as [t|]; cbn; [|done]. rewrite !bool_decide_eq_true. apply Hmono. Qed.

Lemma upsert_tenant_mono id t db i :
  is_Some (tenants db !! i) -> is_Some (<[id := t]> (tenants db) !! i).
Proof. intros Hi. destruct (decide (i = id)) as [->|]; [rewrite lookup_insert_eq; eauto|by rewrite lookup_insert_ne]. Qed.

Lemma attempt_rows_Forall (P : AttemptModel -> Prop) call_id id records :
  (forall a, am_call_id a = call_id -> P a) -> Forall P (attempt_rows call_id id records).
Proof.
  intros HP. revert id. induction records as [|r records IH]; intros id; [constructor|].
  rewrite attempt_rows_cons. constructor; auto.
Qed.

Lemma recorded_consistent record db :
  consistent db -> recordable record db -> consistent (recorded record db).
Proof.
  intros [] (Hrow & Htenant & Hattempts & Hnd).
  assert (Hmono : forall c, is_Some (tool_calls db !! c) -> is_Some (tool_calls (recorded record db) !! c)).
  { intros c Hc. cbn. destruct (decide (c = tc_call_id record)) as [->|];
      [rewrite lookup_insert_eq; eauto|by rewrite lookup_insert_ne]. }
  split; try done.
  - by apply map_Forall_insert_2.
  - cbn [recorded set_calls attempts]. apply Forall_app. split.
    + unfold other_attempts. apply Forall_forall. intros a [Hin _]%list_elem_of_In%filter_In.
      rewrite Forall_forall in attempts_accepted0.
      destruct (attempts_accepted0 a (proj2 (list_elem_of_In _ _) Hin)). auto.
    + eapply Forall_impl; [apply Forall_and; split; [exact Hattempts|]|].
      * apply (attempt_rows_Forall (fun a => am_call_id a = tc_call_id record)). done.
      * intros a [Ha Hc]. split; [exact Ha|]. cbn [recorded set_calls tool_calls].
        rewrite Hc, lookup_insert_eq. eauto.
  - intros call_id. cbn [recorded set_calls attempts]. rewrite numbers_app.
    destruct (decide (call_id = tc_call_id record)) as [->|Hne].
    + rewrite other_attempts_numbers, numbers_rows. exact Hnd.
    + unfold numbers at 2. rewrite filter_attempt_rows.
      destruct (String.eqb_spec (tc_call_id record) call_id); [congruence|]. rewrite app_nil_r.
      unfold numbers. rewrite other_attempts_filter by done. apply attempts_unique0.
Qed.

Lemma tenant_stored_consistent id t db :
  consistent db -> row_accepted "tenants" (tenant_row id t) = true ->
  consistent (set_tenants (<[id := t]> (tenants db)) db).
Proof.
  intros [] Hrow.
  assert (Hmono : forall o, tenant_exists db o = true ->
            tenant_exists (set_tenants (<[id := t]> (tenants db)) db) o = true)
    by (intros o; apply tenant_exists_mono; intros i; apply upsert_tenant_mono).
  split; try done; [by apply map_Forall_insert_2|..];
    (eapply map_Forall_impl; [eassumption|]); intros ? ? []; auto.
Qed.

Lemma transaction_consistent o db db' : consistent db -> cp_transaction o db = Ok db' -> consistent db'.
Proof.
  intros Hdb. destruct o; cbn [cp_transaction]; unfold upsert_tenant, upsert_principal, create_approval,
    put_idempotency_key, record_policy_version, set_configuration.
  - intros [Hrow ->]%require_ok. by apply tenant_stored_consistent.
  - intros [[Hrow Ht]%andb_true_iff ->]%require_ok. destruct Hdb. split; try done. by apply map_Forall_insert_2.
  - intros [[[_ Hrow]%andb_true_iff Ht]%andb_true_iff ->]%require_ok. destruct Hdb. split; try done.
    by apply map_Forall_insert_2.
  - unfold resolve_approval. destruct (approvals db !! approval_id) as [a|] eqn:Ha; [|by intros [= <-]].
    case_bool_decide as Hd; [|by intros [= <-]].
    destruct (require _ _) as [[b db1]|e] eqn:Hr; [|done]. intros [= <-].
    apply require_ok in Hr as [Hrow [= -> ->]]. destruct Hdb. split; try done.
    apply map_Forall_insert_2; [|done]. split; [done|]. cbn. apply (approvals_accepted0 _ _ Ha).
  - intros [Hr ->]%upsert_tool_call_ok. by apply recorded_consistent.
  - intros [[Hrow Ht]%andb_true_iff ->]%require_ok. destruct Hdb. split; try done. by apply map_Forall_insert_2.
  - intros [[_ Hrow]%andb_true_iff ->]%require_ok. destruct Hdb. split; try done. by apply map_Forall_insert_2.
  - intros [Hrow ->]%require_ok. destruct Hdb. split; try done. by apply map_Forall_insert_2.
Qed.

Lemma cp_run_invariant (P : database -> Prop) ops db :
  (forall o db db', P db -> cp_transaction o db = Ok db' -> P db') -> P db -> P (cp_run db ops).
Proof.
  intros Hstep. unfold cp_run. revert db. induction ops as [|o ops IH]; intros db Hdb; cbn; [done|].
  apply IH. unfold cp_step. destruct (cp_transaction o db) as [db'|e] eqn:Ho; eauto.
Qed.

(** A decided approval is left as it is by every transaction. *)
Lemma transaction_keeps_decision o db db' id a :
  approvals db !! id = Some a -> pv_decision a <> None ->
  cp_transaction o db = Ok db' -> approvals db' !! id = Some a.
Proof.
  intros Ha Hdecided. destruct o; cbn [cp_transaction]; unfold upsert_tenant, upsert_principal, create_approval,
    put_idempotency_key, record_policy_version, set_configuration; try (by intros [_ ->]%require_ok).
  - intros [[[Hnone _]%andb_true_iff _]%andb_true_iff ->]%require_ok. apply bool_decide_eq_true in Hnone.
    cbn. rewrite lookup_insert_ne; congruence.
  - unfold resolve_approval. destruct (approvals db !! approval_id) as [a'|] eqn:Ha'; [|by intros [= <-]].
    case_bool_decide as Hd; [|by intros [= <-]].
    destruct (require _ _) as [[b db1]|e] eqn:Hr; [|done]. intros [= <-].
    apply require_ok in Hr as [_ [= _ ->]]. cbn. rewrite lookup_insert_ne; congruence.
  - by intros [_ ->]%upsert_tool_call_ok.
Qed.

(** C36: the control plane stays consistent and approvals are decided once.  After
    any sequence of transactions, failed ones included, every row is accepted by its
    table, every reference exists and attempt numbers are unique; and once an
    approval has a decision, no later transaction changes it: resolving answers true
    exactly for an existing approval without a decision, which then has the given
    one. *)
Theorem control_plane_consistent ops :
  consistent (cp_run empty_database ops) /\
  (forall ops' id a, approvals (cp_run empty_database ops) !! id = Some a -> pv_decision a <> None ->
     approvals (cp_run empty_database (ops ++ ops')) !! id = Some a) /\
  (forall id decision approver reason now db', let db := cp_run empty_database ops in
     resolve_approval id decision approver reason now db = Ok (true, db') ->
     (exists a, approvals db !! id = Some a /\ pv_decision a = None /\
        approvals db' !! id = Some (decide_row decision approver reason now a)) /\
     resolve_approval id decision approver reason now db' = Ok (false, db')).
Proof.
  split; [|split].
  - apply (cp_run_invariant consistent); [intros o db db'; apply transaction_consistent|].
    split; try done. intros call_id. constructor.
  - intros ops' id a Ha Hd. unfold cp_run. rewrite fold_left_app.
    apply (cp_run_invariant (fun db => approvals db !! id = Some a)); [|done].
    intros o db db' Hdb. by apply transaction_keeps_decision.
  - intros id decision approver reason now db' db. unfold resolve_approval at 1.
    destruct (approvals db !! id) as [a|] eqn:Ha; [|done].
    case_bool_decide as Hd; [|done]. intros [_ [= ->]]%require_ok. split.
    + exists a. cbn. rewrite lookup_insert_eq. done.
    + unfold resolve_approval. cbn [set_approvals approvals]. by rewrite lookup_insert_eq.
Qed.

(* ------------------------------------------------------------------ *)
(** ** Limits of the schema *)

(** A tenant id longer than its column is refused, although a [Principal] may have
    one of up to 256 characters. *)
Definition long_tenant : Principal :=
  {| pr_subject := "alice"; pr_tenant_id := String.concat "" (replicate 129 "t"); pr_roles := [USER];
     pr_issuer := None; pr_agent_id := None |}.

Lemma long_tenant_refused now db :
  Principal_valid long_tenant = true /\
  upsert_tenant (pr_tenant_id long_tenant) (pr_tenant_id long_tenant) now db =
    Err (EPy DatabaseError "constraint violation").
Proof.
  split; [vm_compute; reflexivity|]. unfold upsert_tenant, require.
  assert (Hno : forall t, row_accepted "tenants" (tenant_row (pr_tenant_id long_tenant) t) = false)
    by (intros t; vm_compute; reflexivity).
  by rewrite Hno.
Qed.

(** Updating a key leaves its [updated_at] at the time it was created. *)
Lemma update_time_not_refreshed tenant_id key call_id status now db db' e :
  idempotency_keys db !! (key, tenant_id) = Some e ->
  put_idempotency_key tenant_id key call_id status now db = Ok db' ->
  exists e', get_idempotency_key tenant_id key db' = Some e' /\ ik_updated_at e' = ik_updated_at e.
Proof.
  intros He [_ ->]%require_ok. unfold get_idempotency_key. cbn.
  rewrite lookup_insert_eq, He. eauto.
Qed.

(** The transactions before a call: the tenant, the principal, the call. *)
Definition persisted (p : Principal) (record : ToolCallRecord) (now : Z) (db : database) : result exc database :=
  result_bind (upsert_tenant (pr_tenant_id p) (pr_tenant_id p) now db) (fun db =>
  result_bind (upsert_principal p now db) (upsert_tool_call record)).

Definition example_principal : Principal :=
  {| pr_subject := "alice"; pr_tenant_id := "acme"; pr_roles := [USER]; pr_issuer := None; pr_agent_id := None |}.
Definition example_attempt (n : Z) : AttemptRecord :=
  {| at_attempt := n; at_started_at := n; at_finished_at := None; at_outcome := None; at_error := None |}.
Definition example_record : ToolCallRecord :=
  {| tc_call_id := "call"; tc_trace_id := "trace"; tc_session_id := "session"; tc_tool_name := "db_query";
     tc_risk_class := Some READ_ONLY; tc_arguments := []; tc_current_state := RECEIVED;
     tc_transitions := []; tc_attempts := [example_attempt 2; example_attempt 1]; tc_created_at := 5;
     tc_updated_at := 6; tc_principal := Some example_principal |}.

Lemma example_persisted :
  match persisted example_principal example_record 7 empty_database with
  | Ok db => map am_record (list_attempts "call" db) = [example_attempt 1; example_attempt 2]
  | Err _ => False
  end.
Proof. vm_compute. reflexivity. Qed.
