(* ===== verification/Gateway.v ===== *)
(** * Putting the gateway together

    What [gateway/server.py], [gateway/http_server.py] and
    [gateway/workers/http_server.py] build from the settings: policy client, repair
    advisor, sandbox, registry and worker, authentication; the MCP view of the
    tools; and the health endpoints.  Opening connections and serving are left to
    the libraries. *)

From S2P Require Import Prelude Dict Pystr Json Models Errors Effects Registry Repair Http Circuit Worker WorkerClients DbQuery Sandbox Config Tools Auth Advisor.
From Stdlib Require Import QArith.
Open Scope Z_scope.

(* ------------------------------------------------------------------ *)
(** ** Execution *)

(** The arguments of [WorkerService(...)]. *)
Record worker_pool := {
  pool_registry : ToolRegistry tool_handler;
  pool_secret : string;
  pool_max_concurrency : Z;
  pool_queue_size : Z;
  pool_job_timeout : Q;
  pool_failure_threshold : Z;
  pool_reset_timeout : Q
}.

(** [RemoteWorkerClient.__init__] *)
Record RemoteWorkerClient := {
  remote_base_url : string;
  remote_secret : string;
  remote_timeout : Q
}.

Inductive execution_runtime :=
| run_in_process (registry : ToolRegistry tool_handler)
| run_queued (registry : ToolRegistry proxy_handler) (pool : worker_pool)
| run_remote (registry : ToolRegistry proxy_handler) (client : RemoteWorkerClient).

(** [SandboxRunner(...)] with the settings. *)
Definition configured_runner (s : Settings) : SandboxRunner :=
  {| runner_runtime := sandbox_runtime s; runner_image := sandbox_image s;
     runner_output_limit := sandbox_output_limit_bytes s |}.

Definition is_test (s : Settings) : bool := bool_decide (environment s = test).

Section runtime.
Context (db_query_input db_query_output shell_exec_input shell_exec_output : ModelClass).
Abbreviation registry_for s runner :=
  (create_registry db_query_input db_query_output shell_exec_input shell_exec_output (database_path s) runner).

Definition pool_of (s : Settings) (registry : ToolRegistry tool_handler) (secret : string) : worker_pool :=
  {| pool_registry := registry; pool_secret := secret; pool_max_concurrency := worker_max_concurrency s;
     pool_queue_size := worker_queue_size s; pool_job_timeout := worker_job_timeout_seconds s;
     pool_failure_threshold := worker_failure_threshold s; pool_reset_timeout := worker_reset_timeout_seconds s |}.

(** [create_execution_runtime]; [token_hex] is the secret drawn when none is set. *)
Definition create_execution_runtime (s : Settings) (runner : option SandboxRunner) (token_hex : string) :
    result exc execution_runtime :=
  match worker_mode s with
  | in_process => result_map run_in_process (registry_for s runner)
  | remote =>
      match worker_shared_secret s, worker_url s with
      | Some secret, Some url =>
          result_bind (registry_for s None) (fun registry =>
          result_bind (create_worker_proxy_registry registry) (fun proxies =>
          Ok (run_remote proxies
                {| remote_base_url := rstrip_slash url; remote_secret := secret;
                   remote_timeout := worker_request_timeout_seconds s |})))
      | _, _ => Err (EPy ValueError
          "Remote worker mode requires GATEWAY_WORKER_URL and GATEWAY_WORKER_SHARED_SECRET")
      end
  | queued =>
      result_bind (registry_for s runner) (fun registry =>
      result_bind (create_worker_proxy_registry registry) (fun proxies =>
      Ok (run_queued proxies (pool_of s registry (default token_hex (worker_shared_secret s))))))
  end.

(** [create_worker_app]: the pool of a separate worker. *)
Definition create_worker_app (s : Settings) : result exc worker_pool :=
  match worker_shared_secret s with
  | None => Err (EPy ValueError "GATEWAY_WORKER_SHARED_SECRET is required for worker service")
  | Some secret =>
      result_map (fun registry => pool_of s registry secret)
        (registry_for s (if is_test s then None else Some (configured_runner s)))
  end.

(* ------------------------------------------------------------------ *)
(** ** The gateway *)

Inductive policy_client := AllowAllPolicyClient | OpaPolicyClient (url : string).

Inductive repair_advisor :=
| LLMRepairAdvisor (a : Advisor) (timeout : Q)
| AnthropicRepairAdvisor (a : Advisor) (timeout : Q) (version : string) (max_tokens : Z).

(** What both entry points pass to [create_mcp_server]. *)
Record gateway := {
  gw_policy : policy_client;
  gw_advisor : option repair_advisor;
  gw_runtime : execution_runtime;
  gw_state_store : StateStoreBackend;
  gw_redis_url : string;
  gw_state_ttl : Z;
  gw_control_plane : option string;
  gw_approval_timeout : Z;
  gw_audit_log : string;
  gw_sandbox_runtime : string
}.

Definition policy_for (s : Settings) : policy_client :=
  if is_test s then AllowAllPolicyClient else OpaPolicyClient (opa_url s).

Definition advisor_for (s : Settings) : option repair_advisor :=
  match repair_llm_api_key s with
  | Some key =>
      if repair_enabled s then
        let a := {| endpoint := repair_llm_url s; model := repair_llm_model s; api_key := key |} in
        Some (match repair_llm_provider s with
              | anthropic => AnthropicRepairAdvisor a (repair_llm_timeout_seconds s)
                               (repair_llm_anthropic_version s) (repair_llm_max_tokens s)
              | openai_compatible => LLMRepairAdvisor a (repair_llm_timeout_seconds s)
              end)
      else None
  | None => None
  end.

Definition runner_for (s : Settings) : option SandboxRunner :=
  if is_test s || bool_decide (worker_mode s = remote) then None else Some (configured_runner s).

(** The part of [run_stdio_server] and [create_http_app] before serving. *)
Definition build_gateway (s : Settings) (token_hex : string) : result exc gateway :=
  result_map (fun runtime =>
    {| gw_policy := policy_for s; gw_advisor := advisor_for s; gw_runtime := runtime;
       gw_state_store := state_store_backend s; gw_redis_url := redis_url s; gw_state_ttl := state_ttl_seconds s;
       gw_control_plane := if control_plane_enabled s then Some (control_plane_database_url s) else None;
       gw_approval_timeout := approval_timeout_seconds s; gw_audit_log := audit_log_path s;
       gw_sandbox_runtime := value (sandbox_runtime s) |})
    (create_execution_runtime s (runner_for s) token_hex).

(** The authentication of [create_http_app]. *)
Definition AuthMode_value (m : AuthMode) : string :=
  match m with auth_none => "none" | Config.static_token => "static_token" | Config.oidc => "oidc" end.

Definition http_authentication (s : Settings) : result exc AuthenticationMiddleware :=
  let middleware a := {| mode := AuthMode_value (http_auth_mode s); Auth.static_token := http_auth_token s;
                         Auth.oidc := a |} in
  if bool_decide (http_auth_mode s = Config.oidc) then
    match oidc_issuer_url s, oidc_audience s, oidc_jwks_url s with
    | Some issuer, Some aud, Some jwks => Ok (middleware (Some (new_authenticator issuer aud jwks)))
    | _, _, _ => Err (EPy ValueError "OIDC mode requires issuer, audience, and JWKS configuration")
    end
  else Ok (middleware None).

(** [create_http_app] *)
Definition create_http_app (s : Settings) (token_hex : string) : result exc (gateway * AuthenticationMiddleware) :=
  result_bind (build_gateway s token_hex) (fun g =>
  result_map (fun m => (g, m)) (http_authentication s)).
End runtime.

(* ------------------------------------------------------------------ *)
(** ** The MCP view *)

Record ToolAnnotations := {
  read_only_hint : bool;
  destructive_hint : bool;
  idempotent_hint : bool;
  open_world_hint : bool
}.

(** [_annotations_for] *)
Definition annotations_for {H} (d : ToolDefinition H) : ToolAnnotations :=
  if bool_decide (td_risk_class d = READ_ONLY) then
    {| read_only_hint := true; destructive_hint := false; idempotent_hint := td_idempotent d;
       open_world_hint := false |}
  else
    {| read_only_hint := false; destructive_hint := bool_decide (td_risk_class d = DESTRUCTIVE);
       idempotent_hint := false; open_world_hint := false |}.

Record McpTool := {
  mcp_name : string;
  mcp_description : string;
  mcp_input_schema : jdict;
  mcp_output_schema : jdict;
  mcp_annotations : ToolAnnotations;
  mcp_meta : jdict
}.

(** [_mcp_tool] *)
Definition mcp_tool {H} (d : ToolDefinition H) : McpTool :=
  {| mcp_name := td_name d; mcp_description := td_description d; mcp_input_schema := input_schema d;
     mcp_output_schema := output_schema d; mcp_annotations := annotations_for d;
     mcp_meta := [("gateway/riskClass", JStr (value (td_risk_class d)))] |}.

(** [list_tools] of [create_mcp_server]. *)
Definition mcp_list_tools {H} (r : ToolRegistry H) : list McpTool := map mcp_tool (list_tools r).

(** The principal of a call: the authenticated one, or the server's. *)
Definition call_principal (current configured : option Principal) : option Principal :=
  match current with Some p => Some p | None => configured end.

Definition mcp_tools_of (runtime : execution_runtime) : list McpTool :=
  match runtime with
  | run_in_process registry => mcp_list_tools registry
  | run_queued registry _ | run_remote registry _ => mcp_list_tools registry
  end.

(* ------------------------------------------------------------------ *)
(** ** Health *)

Section health.
Context (render : json -> string) (version : string).

(** [_health_response] *)
Definition health_response (status : string) (checks : option (dict string bool)) : http_response :=
  let payload := [("status", JStr status); ("version", JStr version)] ++
    match checks with
    | Some checks => [("checks", JObj (prod_map id JBool <$> checks))]
    | None => []
    end in
  {| status_code := if String.eqb status "ok" then 200 else 503; text := render (JObj payload) |}.

(** [livez] and [startupz] *)
Definition livez : http_response := health_response "ok" None.
Definition startupz : http_response := health_response "ok" None.

(** A dependency that has a health check is asked; one without counts as healthy. *)
Definition check {E S} (healthcheck : option (M E S bool)) : M E S bool :=
  match healthcheck with Some h => h | None => mret true end.

(** [readyz] *)
Definition readyz {E S} (state_store policy control_plane worker : option (M E S bool)) : M E S http_response :=
  a ← check state_store;
  b ← check policy;
  c ← check control_plane;
  d ← check worker;
  mret (health_response (if a && b && c && d then "ok" else "unready")
    (Some [("state_store", a); ("policy", b); ("control_plane", c); ("worker", d)])).
End health.

(* ------------------------------------------------------------------ *)
(** ** Properties *)

(** The sandbox of a handler. *)
Definition handler_runner (h : tool_handler) : option SandboxRunner :=
  match h with db_query_handler _ runner | shell_exec_handler runner => runner end.

(** Every tool of the registry runs in the configured sandbox. *)
Definition sandboxed (s : Settings) (r : ToolRegistry tool_handler) : Prop :=
  list_tools r <> [] /\
  Forall (fun d => handler_runner (td_handler d) = Some (configured_runner s)) (list_tools r).

(** What executes the tools of a gateway. *)
Definition isolated (s : Settings) (runtime : execution_runtime) : Prop :=
  match runtime with
  | run_in_process r => worker_mode s = in_process /\ sandboxed s r
  | run_queued _ pool => worker_mode s = queued /\ sandboxed s (pool_registry pool)
  | run_remote _ client => worker_mode s = remote /\
      worker_shared_secret s = Some (remote_secret client) /\
      exists url, worker_url s = Some url /\ remote_base_url client = rstrip_slash url
  end.

(** Settings the entry points refuse. *)
Definition remote_incomplete (s : Settings) : Prop :=
  worker_mode s = remote /\ (worker_shared_secret s = None \/ worker_url s = None).
Definition oidc_incomplete (s : Settings) : Prop :=
  http_auth_mode s = Config.oidc /\
  (oidc_issuer_url s = None \/ oidc_audience s = None \/ oidc_jwks_url s = None).

Section properties.
Context (db_query_input db_query_output shell_exec_input shell_exec_output : ModelClass).
Abbreviation runtime_of :=
  (create_execution_runtime db_query_input db_query_output shell_exec_input shell_exec_output).
Abbreviation app_of := (create_http_app db_query_input db_query_output shell_exec_input shell_exec_output).
Abbreviation worker_of := (create_worker_app db_query_input db_query_output shell_exec_input shell_exec_output).

(** The tools a client sees, whatever executes them. *)
Definition gateway_tools : list McpTool :=
  map mcp_tool [create_db_query_tool db_query_input db_query_output "" None;
                create_shell_exec_tool shell_exec_input shell_exec_output None].

Lemma runtime_spec s runner token_hex :
  match runtime_of s runner token_hex with
  | Ok runtime => mcp_tools_of runtime = gateway_tools /\
      match runtime with
      | run_in_process r => worker_mode s = in_process /\
          Forall (fun d => handler_runner (td_handler d) = runner) (list_tools r) /\ list_tools r <> []
      | run_queued _ pool => worker_mode s = queued /\
          Forall (fun d => handler_runner (td_handler d) = runner) (list_tools (pool_registry pool)) /\
          list_tools (pool_registry pool) <> []
      | run_remote _ client => worker_mode s = remote /\
          worker_shared_secret s = Some (remote_secret client) /\
          exists url, worker_url s = Some url /\ remote_base_url client = rstrip_slash url
      end
  | Err e => remote_incomplete s /\ exists message, e = EPy ValueError message
  end.
Proof.
  unfold create_execution_runtime, remote_incomplete. destruct (worker_mode s) eqn:Hmode.
  - split; [reflexivity|]. split; [done|]. split; [by repeat constructor|done].
  - split; [reflexivity|]. split; [done|]. split; [by repeat constructor|done].
  - destruct (worker_shared_secret s) as [secret|]; [|by eauto 6].
    destruct (worker_url s) as [url|]; [|by eauto 6].
    split; [reflexivity|]. split_and!; [done|done|]. by exists url.
Qed.

Lemma authentication_spec s :
  match http_authentication s with
  | Ok m => mode m = AuthMode_value (http_auth_mode s) /\ Auth.static_token m = http_auth_token s /\
      (http_auth_mode s = Config.oidc -> exists issuer aud jwks,
         oidc_issuer_url s = Some issuer /\ oidc_audience s = Some aud /\ oidc_jwks_url s = Some jwks /\
         Auth.oidc m = Some (new_authenticator issuer aud jwks))
  | Err e => oidc_incomplete s /\ exists message, e = EPy ValueError message
  end.
Proof.
  unfold http_authentication, oidc_incomplete. case_bool_decide as Hmode.
  - destruct (oidc_issuer_url s), (oidc_audience s), (oidc_jwks_url s); split_and!; eauto 10.
  - by split_and!.
Qed.

Lemma closed_path_passed s m path headers :
  mode m = AuthMode_value (http_auth_mode s) -> path ∉ open_paths ->
  passes m {| scope_type := "http"; scope_path := Some path; scope_headers := headers |}
  = bool_decide (http_auth_mode s = auth_none).
Proof.
  intros Hm Hpath. unfold passes. cbn [scope_type scope_path String.eqb negb orb].
  replace (negb (String.eqb "http" "http")) with false by reflexivity. cbn [orb].
  destruct (existsb (String.eqb path) open_paths) eqn:He.
  - apply existsb_exists in He as (p & Hin & ->%String.eqb_eq). by destruct Hpath; apply list_elem_of_In.
  - rewrite Hm. by destruct (http_auth_mode s).
Qed.

(** C37: outside the test environment the gateway cannot be built without its
    guards.  The HTTP application is refused only for an incomplete remote worker or
    OIDC configuration; otherwise the policy client is the configured OPA server,
    the client sees the same two tools with the same annotations in every worker
    mode, the tools are executed in the configured sandbox or by the configured
    remote worker, whose own tools are sandboxed, and a request for a path other than
    the health endpoints passes without authentication exactly when the configured
    mode is [none], which is the default: the production gateway authenticates its
    clients only when [http_auth_mode] says so. *)
Theorem production_gateway_guarded s token_hex (Hprod : environment s <> test) :
  match app_of s token_hex with
  | Ok (g, m) =>
      gw_policy g = OpaPolicyClient (opa_url s) /\ mcp_tools_of (gw_runtime g) = gateway_tools /\
      isolated s (gw_runtime g) /\
      (forall path headers, path ∉ open_paths ->
         passes m {| scope_type := "http"; scope_path := Some path; scope_headers := headers |}
         = bool_decide (http_auth_mode s = auth_none)) /\
      (http_auth_mode s = Config.oidc -> is_Some (Auth.oidc m))
  | Err e => (remote_incomplete s \/ oidc_incomplete s) /\ exists message, e = EPy ValueError message
  end /\
  match worker_of s with
  | Ok pool => sandboxed s (pool_registry pool) /\ worker_shared_secret s = Some (pool_secret pool)
  | Err e => worker_shared_secret s = None
  end.
Proof.
  assert (Htest : is_test s = false) by (unfold is_test; by rewrite bool_decide_eq_false_2).
  split.
  - unfold create_http_app, build_gateway.
    pose proof (runtime_spec s (runner_for s) token_hex) as Hr.
    pose proof (authentication_spec s) as Ha.
    destruct (runtime_of s (runner_for s) token_hex) as [runtime|e]; cbn [result_map result_bind]; [|naive_solver].
    destruct (http_authentication s) as [m|e]; cbn [result_map]; [|naive_solver].
    destruct Hr as [Htools Hrun], Ha as (Hm & _ & Hoidc). cbn [gw_policy gw_runtime].
    split_and!; [by unfold policy_for; rewrite Htest|done| |by intros; apply closed_path_passed|].
    + unfold isolated, sandboxed. unfold runner_for in Hrun. rewrite Htest in Hrun. cbn [orb] in Hrun.
      destruct runtime; destruct Hrun as [Hmode Hrun]; try rewrite Hmode in Hrun; cbn in Hrun; tauto.
    + intros Ho. destruct (Hoidc Ho) as (? & ? & ? & _ & _ & _ & ->). eauto.
  - unfold create_worker_app. destruct (worker_shared_secret s) as [secret|]; [|done]. rewrite Htest.
    cbn. split; [|done]. split; [done|by repeat constructor].
Qed.
End properties.

(** The HTTP application of a queued gateway with OIDC. *)
Definition example_class : ModelClass := {| model_validate v := Err []; model_json_schema := [] |}.

Lemma production_gateway_guarded_witness :
  environment default_settings <> test /\
  match create_http_app example_class example_class example_class example_class default_settings "secret" with
  | Ok (g, _) => gw_policy g = OpaPolicyClient "http://localhost:8181/"
  | Err _ => False
  end.
Proof.
  assert (Hprod : environment default_settings <> test) by discriminate.
  split; [exact Hprod|].
  destruct (production_gateway_guarded example_class example_class example_class example_class
              default_settings "secret" Hprod) as [Happ _].
  exact (proj1 Happ).
Defined.

(** By default every request passes unauthenticated. *)
Lemma default_gateway_unauthenticated :
  http_auth_mode default_settings = auth_none /\ environment default_settings <> test /\
  match create_http_app example_class example_class example_class example_class default_settings "secret" with
  | Ok (_, m) => forall scope, passes m scope = true
  | Err _ => False
  end.
Proof.
  split_and!; [done|done|]. intros scope. unfold passes. cbn. by rewrite orb_true_r.
Qed.

(** [readyz] answers 200 exactly when every check that exists succeeds. *)
Theorem readyz_reports_dependencies {E S W} (h : handler E W) render version
    (checks : list (option (M E S bool) * bool)) s w state_store policy control_plane worker :
  checks = [state_store; policy; control_plane; worker] ->
  (forall c b, (c, b) ∈ checks -> runs h (check c) s w (Ok b) s w) ->
  exists response, runs h (readyz render version state_store.1 policy.1 control_plane.1 worker.1) s w (Ok response) s w /\
    (status_code response = 200 <-> forallb snd checks = true) /\
    (status_code response <> 200 -> status_code response = 503).
Proof.
  intros -> Hruns. destruct state_store as [c1 b1], policy as [c2 b2], control_plane as [c3 b3], worker as [c4 b4].
  eexists. split.
  - do 4 (eapply runs_bind; [apply Hruns; rewrite !elem_of_cons; tauto|]). apply runs_ret.
  - cbn. rewrite !andb_true_r, !andb_assoc. by destruct (b1 && b2 && b3 && b4).
Qed.
