(* ===== verification/System.v ===== *)
(** * The running gateway: concurrent calls on shared components

    Many tool calls run at once, from any number of sessions, each the program of
    [Server]; they share the state store, the policy, the approval queue and the
    audit log, and operators decide on approvals while calls are running.  The
    state of the system is the state of the store and the history of the other
    components: the operations the queue has seen, the appends the audit log has
    performed, the runs of the tools.  [respond] gives the answers each component
    may give, by the contract proved of it in its own file; the answers of the
    clocks, the identifier source of traces, the repair model, the control plane
    and the tools are arbitrary, and every wait may be cancelled.  A cancelled
    operation happened at once or not at all; what a thread of the audit log may
    still do after its caller was cancelled is in [AuditConcurrency]. *)

From stdpp Require Import relations functions.
From S2P Require Import Prelude Dict Pystr Json Models Errors Effects Registry AuditLog StateStore Hitl Policy Config Gateway Server ServerSpec.
From Stdlib Require Import QArith.
Open Scope Z_scope.

(** One call of a tool by a client, with the configuration of its session. *)
Record client_call := {
  ca_config : call_config;
  ca_session : string;
  ca_tool : string;
  ca_arguments : jdict
}.

(** What [create_mcp_server] keeps of its arguments: the store and the policy with
    their defaults, the identifier of the session, and what the calls are made
    with.  The queue, the logger, the advisor and the control plane may be
    missing. *)
Record mcp_server := {
  sv_store : StateStoreBackend;
  sv_policy : policy_client;
  sv_session : string;
  sv_has_queue : bool;
  sv_has_audit : bool;
  sv_has_advisor : bool;
  sv_has_control_plane : bool;
  sv_runtime : string;
  sv_principal : option Principal
}.

(** [create_mcp_server]; [uuid_hex] is the answer of [uuid4]. *)
Definition create_mcp_server (uuid_hex : string) (store : option StateStoreBackend)
    (session_id : option string) (policy : option policy_client)
    (queue audit advisor control_plane : bool) (runtime : string) (principal : option Principal) : mcp_server :=
  {| sv_store := default memory_backend store; sv_policy := default AllowAllPolicyClient policy;
     sv_session := or_default session_id uuid_hex; sv_has_queue := queue; sv_has_audit := audit;
     sv_has_advisor := advisor; sv_has_control_plane := control_plane; sv_runtime := runtime;
     sv_principal := principal |}.

(** The server of both entry points, from what they build of the settings. *)
Definition server_of (g : gateway) (uuid_hex : string) : mcp_server :=
  create_mcp_server uuid_hex (Some (gw_state_store g)) None (Some (gw_policy g)) true true
    (bool_decide (is_Some (gw_advisor g))) (bool_decide (is_Some (gw_control_plane g)))
    (gw_sandbox_runtime g) None.

(** [call_tool] of [create_mcp_server]: the call of one request, made for the
    principal that was authenticated for it. *)
Definition call_tool (sv : mcp_server) (current : option Principal) (tool_name : string)
    (arguments : option jdict) : client_call :=
  {| ca_config :=
       {| has_approval_queue := sv_has_queue sv; has_audit_logger := sv_has_audit sv;
          has_repair_advisor := sv_has_advisor sv; has_control_plane := sv_has_control_plane sv;
          sandbox_runtime := sv_runtime sv; caller := call_principal current (sv_principal sv) |};
     ca_session := sv_session sv; ca_tool := tool_name; ca_arguments := default [] arguments |}.

(** A run of a tool, and what the approval queue had seen by then. *)
Record tool_run (H : Type) := {
  ru_call : nat;
  ru_handler : H;
  ru_call_id : string;
  ru_tenant : string;
  ru_request : BaseModel;
  ru_queue_ops : list queue_op
}.
Arguments ru_call {H}. Arguments ru_handler {H}. Arguments ru_call_id {H}.
Arguments ru_tenant {H}. Arguments ru_request {H}. Arguments ru_queue_ops {H}.

(** The state of the store, and the histories: identifiers drawn, operations of
    the queue, appends to the audit log, runs of tools and what they answered to
    which call, and the calls whose transition to "executing" was not
    acknowledged. *)
Record system (H W : Type) := {
  sy_store : W;
  sy_ids : list string;
  sy_queue_ops : list queue_op;
  sy_appends : list log_event;
  sy_runs : list (tool_run H);
  sy_answers : list (nat * result exc json);
  sy_refused : list string
}.
Arguments sy_store {H W}. Arguments sy_ids {H W}. Arguments sy_queue_ops {H W}.
Arguments sy_appends {H W}. Arguments sy_runs {H W}. Arguments sy_answers {H W}.
Arguments sy_refused {H W}.

Section updates.
Context {H W : Type}.
Implicit Types (w : system H W).

Definition draw_id (id : string) w : system H W :=
  {| sy_store := sy_store w; sy_ids := id :: sy_ids w; sy_queue_ops := sy_queue_ops w;
     sy_appends := sy_appends w; sy_runs := sy_runs w; sy_answers := sy_answers w;
     sy_refused := sy_refused w |}.
Definition with_store (st : W) (refused : list string) w : system H W :=
  {| sy_store := st; sy_ids := sy_ids w; sy_queue_ops := sy_queue_ops w;
     sy_appends := sy_appends w; sy_runs := sy_runs w; sy_answers := sy_answers w;
     sy_refused := refused ++ sy_refused w |}.
Definition with_queue_ops (ops : list queue_op) w : system H W :=
  {| sy_store := sy_store w; sy_ids := sy_ids w; sy_queue_ops := ops;
     sy_appends := sy_appends w; sy_runs := sy_runs w; sy_answers := sy_answers w;
     sy_refused := sy_refused w |}.
Definition log_append (ev : log_event) w : system H W :=
  {| sy_store := sy_store w; sy_ids := sy_ids w; sy_queue_ops := sy_queue_ops w;
     sy_appends := sy_appends w ++ [ev]; sy_runs := sy_runs w; sy_answers := sy_answers w;
     sy_refused := sy_refused w |}.
Definition log_tool_run (run : tool_run H) (answer : result exc json) w : system H W :=
  {| sy_store := sy_store w; sy_ids := sy_ids w; sy_queue_ops := sy_queue_ops w;
     sy_appends := sy_appends w; sy_runs := sy_runs w ++ [run];
     sy_answers := sy_answers w ++ [(ru_call run, answer)]; sy_refused := sy_refused w |}.
End updates.

(** The caller was cancelled while it waited. *)
Definition cancelled {A} (r : result exc A) : Prop := exists e, r = Err e /\ is_exception e = false.

(** A queue that keeps the contract of [Hitl]: the operation happens as it does in
    memory, or fails with the error of a fault, or is cancelled; then it happened
    or not. *)
Definition queue_answers (ops : list queue_op) (o : queue_op) (r : result exc (queue_ans o))
    (ops' : list queue_op) : Prop :=
  (same_answer o r (mem_queue_perform o (queue_run ops)).1 /\ ops' = ops ++ [o]) \/
  ((fault_answer o r \/ cancelled r) /\ (ops' = ops \/ ops' = ops ++ [o])).

(** The call whose transition to "executing" the store did not acknowledge. *)
Definition refusal (o : store_op) (ok : bool) : list string :=
  match o with
  | STransition id EXECUTING _ => if ok then [] else [id]
  | _ => []
  end.

Section system.
Context {H W : Type} `{!StateStore W} `{Rendering}.
Context (sha256 : string -> string) (model_dump_json : json -> string) (float_norm : string -> string).
Context (registry : ToolRegistry H).
Abbreviation sys := (system H W).

Definition sy_queue (w : sys) : InMemoryApprovalQueue := queue_run (sy_queue_ops w).
Definition sy_logger (w : sys) : AuditLogger :=
  log_run sha256 model_dump_json float_norm (sy_appends w) new_logger.

(** What the components may answer to call [c]. *)
Definition respond (w : sys) (c : nat) (o : gw_op H) :
    result exc (ans (gw_sig H) o) -> sys -> Prop :=
  match o with
  | Uuid => fun r w' => exists id, r = Ok id /\ id ∉ sy_ids w /\ w' = draw_id id w
  | Store o => fun r w' =>
      exists st, w' = with_store st (refusal o (is_ok r)) w /\
        (perform o (sy_store w) r st \/
         (cancelled r /\ (st = sy_store w \/ exists r', perform o (sy_store w) r' st)))
  | Evaluate input => fun r w' =>
      w' = w /\ match r with Ok d => rego_decision (JObj input) = Some d | Err _ => True end
  | Submit request => fun r w' =>
      exists ops, queue_answers (sy_queue_ops w) (QSubmit request) r ops /\ w' = with_queue_ops ops w
  | Wait id => fun r w' =>
      exists ops polls, queue_answers (sy_queue_ops w) (QWait id polls) r ops /\ w' = with_queue_ops ops w
  | RunTool handler id tenant request => fun r w' =>
      w' = log_tool_run {| ru_call := c; ru_handler := handler; ru_call_id := id; ru_tenant := tenant;
                           ru_request := request; ru_queue_ops := sy_queue_ops w |} r w
  | AuditAppend fields => fun r w' =>
      (exists timestamp out,
         (r = result_map (fun _ => tt)
                (append_sync sha256 model_dump_json fields timestamp out (sy_logger w)).1 \/ cancelled r) /\
         w' = log_append (Append fields timestamp out) w) \/
      (cancelled r /\ w' = w)
  | _ => fun _ w' => w' = w
  end.

(** A step: a call gets its next answer, or an operator decides. *)
Inductive system_step {A} : list (prog (gw_sig H) A) * sys -> list (prog (gw_sig H) A) * sys -> Prop :=
| step_call x y : pool_step (E := gw_sig H) respond x y -> system_step x y
| step_decide ts w id approved approver reason r ops :
    queue_answers (sy_queue_ops w) (QDecide id approved approver reason) r ops ->
    system_step (ts, w) (ts, with_queue_ops ops w).

Definition program_of (k : client_call) : prog (gw_sig H) (result exc CallToolResult * locals) :=
  execute_tool_call registry (ca_config k) (ca_session k) (ca_tool k) (ca_arguments k) initial_locals.

(** The system before its first call; the identifiers in use in the store are drawn. *)
Definition fresh_system (w : sys) : Prop :=
  (exists s, represents (sy_store w) s /\ forall id, is_Some (ms_calls s !! id) -> id ∈ sy_ids w) /\
  sy_queue_ops w = [] /\ sy_appends w = [] /\ sy_runs w = [] /\ sy_answers w = [] /\ sy_refused w = [].

Definition reachable (calls : list client_call) (ts : list (prog (gw_sig H) (result exc CallToolResult * locals)))
    (w : sys) : Prop :=
  exists w0, fresh_system w0 /\ rtc system_step (map program_of calls, w0) (ts, w).
End system.

(* ------------------------------------------------------------------ *)
(** ** What the answers of the store and the queue tell *)

(** The call an operation of the store changes. *)
Definition changed_call (o : store_op) : option string :=
  match o with
  | SCreate record => Some (tc_call_id record)
  | STransition id _ _ | SFinish id _ _ _ | SStart id _ => Some id
  | SGet _ | SList _ => None
  end.

Lemma mem_perform_elsewhere now1 now2 o s id :
  changed_call o <> Some id -> ms_calls (mem_perform now1 now2 o s).2 !! id = ms_calls s !! id.
Proof.
  intros Hne. destruct (mem_perform now1 now2 o s) as [r s'] eqn:Hm.
  destruct o; cbn in Hm, Hne; try (by eapply mem_update_other; [exact Hm|congruence]);
    injection Hm as <- <-; [|done..].
  cbn. apply lookup_insert_ne. congruence.
Qed.

(** The effect of an answered operation on the abstract store: all of it, or, when
    the answer is an error, perhaps nothing. *)
Definition store_effect (o : store_op) (r : result exc (store_ans o)) (s s' : InMemoryStateStore) : Prop :=
  exists now1 now2, let out := mem_perform now1 now2 o s in
    (r = out.1 /\ s' = out.2) \/ (is_ok r = false /\ (s' = s \/ s' = out.2)).

Lemma store_effect_elsewhere o r s s' id :
  store_effect o r s s' -> changed_call o <> Some id -> ms_calls s' !! id = ms_calls s !! id.
Proof.
  intros (now1 & now2 & Heff) Hne. pose proof (mem_perform_elsewhere now1 now2 o s id Hne).
  destruct Heff as [[_ ->]|[_ [->| ->]]]; done.
Qed.

Lemma perform_effect {W} `{!StateStore W} o (st st' : W) r s :
  represents st s ->
  perform o st r st' \/ (cancelled r /\ (st' = st \/ exists r', perform o st r' st')) ->
  exists s', represents st' s' /\ store_effect o r s s'.
Proof.
  intros Hrep Hans.
  assert (Hp : forall r', perform o st r' st' -> (r' = r \/ is_ok r = false) ->
    exists s', represents st' s' /\ store_effect o r s s').
  { intros r' Hp Hr. destruct (perform_spec o st r' st' s Hrep Hp) as (now1 & now2 & Hspec).
    destruct (mem_perform now1 now2 o s) as [r0 s0] eqn:Hm.
    destruct Hspec as [[-> H0]|[-> [H0|H0]]]; eexists; (split; [exact H0|]); exists now1, now2; rewrite Hm.
    - destruct Hr as [->|Hr]; [by left|right; auto].
    - right. split; [destruct Hr as [<-|]; done|by left].
    - right. split; [destruct Hr as [<-|]; done|by right]. }
  destruct Hans as [Hans|[(e & -> & _) [->|(r' & Hp')]]]; [by eapply Hp; eauto| |by eapply Hp; eauto].
  exists s. split; [done|]. exists 0, 0. right. auto.
Qed.

(** The operations the queue has seen only grow. *)
Lemma queue_answers_grow ops o r ops' :
  queue_answers ops o r ops' -> ops' = ops \/ ops' = ops ++ [o].
Proof. intros [[_ ->]|[_ Hops]]; auto. Qed.

Lemma decision_made_mono ops ops' id request approved approver reason :
  (forall o, o ∈ ops -> o ∈ ops') ->
  decision_made ops id request approved approver reason ->
  decision_made ops' id request approved approver reason.
Proof. intros Hsub (? & ? & ? & ?). split_and!; auto. Qed.

(** A wait that returns found the approval of an operator. *)
Lemma wait_answer ops id polls resolved ops' :
  Forall submitted_pending ops ->
  queue_answers ops (QWait id polls) (Ok resolved) ops' ->
  exists request approver reason, decision_made ops id request true approver reason.
Proof.
  intros Hops [[Hans _]|[[Hf|(e & He & _)] _]]; [|by destruct Hf|done].
  pose proof (wait_decided ops id polls Hops) as Hw. cbn [same_answer] in Hans. rewrite <- Hans in Hw.
  destruct Hw as (request & approver & reason & Hd & _). eauto.
Qed.

(** What allows a run of a tool on a policy input: the policy itself, or its
    demand for an approval and the decision of an operator. *)
Definition authorized (ops : list queue_op) (input : jdict) : Prop :=
  pd_outcome <$> rego_decision (JObj input) = Some ALLOW \/
  (pd_outcome <$> rego_decision (JObj input) = Some REQUIRES_APPROVAL /\
   exists id approval approver reason,
     decision_made ops id approval true approver reason /\ ap_policy_input approval = input).

Lemma authorized_mono ops ops' input :
  (forall o, o ∈ ops -> o ∈ ops') -> authorized ops input -> authorized ops' input.
Proof.
  intros Hsub [Ha|(Hr & id & approval & approver & reason & Hd & Hp)]; [by left|right].
  split; [done|]. eauto 8 using decision_made_mono.
Qed.

(* ------------------------------------------------------------------ *)
(** ** The invariant

    Every call is followed by its observer; the identifiers that name records and
    approvals are used once, over all calls. *)

Lemma fn_insert_case {A} (f : nat -> A) c x c' (P : A -> Prop) :
  (c' = c -> P x) -> (c' <> c -> P (f c')) -> P (<[c := x]> f c').
Proof.
  intros H1 H2. destruct (decide (c' = c)) as [->|Hne].
  - rewrite fn_lookup_insert. auto.
  - rewrite fn_lookup_insert_ne by done. auto.
Qed.

(** The record and the approvals of a call. *)
Definition named (m : observer) (id : string) : Prop :=
  o_id m = Some id \/ exists a, a ∈ o_submitted m /\ ap_approval_id a = id.

Record names_ok (ids : list string) (ops : list queue_op) (obs : nat -> observer) : Prop := {
  no_drawn c id : o_fresh (obs c) = Some id \/ named (obs c) id -> id ∈ ids;
  no_fresh c c' id : o_fresh (obs c) = Some id -> named (obs c') id -> False;
  no_owner c c' id : o_fresh (obs c) = Some id -> o_fresh (obs c') = Some id -> c = c';
  no_record c c' id : o_id (obs c) = Some id -> o_id (obs c') = Some id -> c = c';
  no_approval c c' a a' : a ∈ o_submitted (obs c) -> a' ∈ o_submitted (obs c') ->
    ap_approval_id a = ap_approval_id a' -> a = a';
  no_pending c a : a ∈ o_submitted (obs c) -> ap_decision a = None;
  no_queue a : QSubmit a ∈ ops -> exists c, a ∈ o_submitted (obs c)
}.

(** What names an observer holds. *)
Definition names (m : observer) : option string * option string * list ApprovalRequest :=
  (o_fresh m, o_id m, o_submitted m).

Lemma names_quiet ids ops ops' obs obs' :
  (forall c, names (obs' c) = names (obs c)) -> (forall a, QSubmit a ∈ ops' -> QSubmit a ∈ ops) ->
  names_ok ids ops obs -> names_ok ids ops' obs'.
Proof.
  intros Hsame Hops [H1 H2 H3 H4 H5 H6 H7].
  assert (Heq : forall c, o_fresh (obs' c) = o_fresh (obs c) /\ o_id (obs' c) = o_id (obs c) /\
    o_submitted (obs' c) = o_submitted (obs c)).
  { intros c. specialize (Hsame c). unfold names in Hsame. split_and!; congruence. }
  assert (Hnamed : forall c id, named (obs' c) id <-> named (obs c) id).
  { intros c id. unfold named. destruct (Heq c) as (_ & -> & ->). done. }
  split.
  - intros c id. rewrite Hnamed. destruct (Heq c) as (-> & _). apply H1.
  - intros c c' id. rewrite Hnamed. destruct (Heq c) as (-> & _). apply H2.
  - intros c c' id. destruct (Heq c) as (-> & _), (Heq c') as (-> & _). apply H3.
  - intros c c' id. destruct (Heq c) as (_ & -> & _), (Heq c') as (_ & -> & _). apply H4.
  - intros c c' a a'. destruct (Heq c) as (_ & _ & ->), (Heq c') as (_ & _ & ->). apply H5.
  - intros c a. destruct (Heq c) as (_ & _ & ->). apply H6.
  - intros a Ha. destruct (H7 a (Hops a Ha)) as (c & Hc). exists c. by destruct (Heq c) as (_ & _ & ->).
Qed.

(** A call draws an identifier. *)
Lemma names_draw ids ops obs c m id :
  names_ok ids ops obs -> id ∉ ids -> names m = (Some id, o_id (obs c), o_submitted (obs c)) ->
  names_ok (id :: ids) ops (<[c := m]> obs).
Proof.
  intros [H1 H2 H3 H4 H5 H6 H7] Hid [= Hf Hi Hs].
  assert (Hnew : forall c', o_fresh (obs c') = Some id \/ named (obs c') id -> False) by eauto.
  assert (Hnamed : forall c' x, named (<[c := m]> obs c') x <-> named (obs c') x).
  { intros c' x. apply fn_insert_case; [intros ->|done]. unfold named. by rewrite Hi, Hs. }
  assert (Hfr : forall c' x, o_fresh (<[c := m]> obs c') = Some x ->
    (c' = c /\ x = id) \/ (c' <> c /\ o_fresh (obs c') = Some x)).
  { intros c' x. apply fn_insert_case; [intros ->|auto]. rewrite Hf. intros [= <-]. auto. }
  assert (Hid' : forall c', o_id (<[c := m]> obs c') = o_id (obs c'))
    by (intros c'; apply fn_insert_case; [by intros ->|done]).
  assert (Hsub : forall c', o_submitted (<[c := m]> obs c') = o_submitted (obs c'))
    by (intros c'; apply fn_insert_case; [by intros ->|done]).
  split.
  - intros c' x. rewrite Hnamed, elem_of_cons. intros [[[_ ->]|[_ Hx]]%Hfr|Hx]; eauto.
  - intros c' c2 x [[_ ->]|[_ Hx]]%Hfr Hn%Hnamed; eauto.
  - intros c' c2 x [[-> Hx]|[_ Hx]]%Hfr [[-> Hy]|[_ Hy]]%Hfr; subst; eauto; exfalso; eauto.
  - intros c' c2 x. rewrite !Hid'. apply H4.
  - intros c' c2 a a'. rewrite !Hsub. apply H5.
  - intros c' a. rewrite Hsub. apply H6.
  - intros a Ha. destruct (H7 a Ha) as (c' & Hc'). exists c'. by rewrite Hsub.
Qed.

(** A call creates its record under the identifier it drew. *)
Lemma names_create ids ops obs c m id :
  names_ok ids ops obs -> o_fresh (obs c) = Some id -> names m = (None, Some id, o_submitted (obs c)) ->
  o_id (obs c) = None -> names_ok ids ops (<[c := m]> obs).
Proof.
  intros [H1 H2 H3 H4 H5 H6 H7] Hfr [= Hf Hi Hs] Hnone.
  assert (Hfr' : forall c' x, o_fresh (<[c := m]> obs c') = Some x -> c' <> c /\ o_fresh (obs c') = Some x).
  { intros c' x. apply fn_insert_case; [intros ->; by rewrite Hf|auto]. }
  assert (Hid' : forall c' x, o_id (<[c := m]> obs c') = Some x ->
    (c' = c /\ x = id) \/ (c' <> c /\ o_id (obs c') = Some x)).
  { intros c' x. apply fn_insert_case; [intros ->|auto]. rewrite Hi. intros [= <-]. auto. }
  assert (Hsub : forall c', o_submitted (<[c := m]> obs c') = o_submitted (obs c'))
    by (intros c'; apply fn_insert_case; [by intros ->|done]).
  assert (Hnamed : forall c' x, named (<[c := m]> obs c') x -> (c' = c /\ x = id) \/ named (obs c') x).
  { intros c' x [[[-> ->]|[_ Hx]]%Hid'|(a & Ha & Hx)]; [auto|right; by left|].
    right; right. rewrite Hsub in Ha. eauto. }
  split.
  - intros c' x [[_ Hx]%Hfr'|[[-> ->]|Hx]%Hnamed]; eauto.
  - intros c' c2 x [Hne Hx]%Hfr' [[-> ->]|Hn]%Hnamed; eauto.
  - intros c' c2 x [_ Hx]%Hfr' [_ Hy]%Hfr'; eauto.
  - intros c' c2 x [[-> Hx]|[_ Hx]]%Hid' [[-> Hy]|[_ Hy]]%Hid'; subst; eauto; exfalso;
      (eapply H2; [exact Hfr|by left]).
  - intros c' c2 a a'. rewrite !Hsub. apply H5.
  - intros c' a. rewrite Hsub. apply H6.
  - intros a Ha. destruct (H7 a Ha) as (c' & Hc'). exists c'. by rewrite Hsub.
Qed.

(** A call submits an approval under the identifier it drew. *)
Lemma names_submit ids ops ops' obs c m a :
  names_ok ids ops obs -> o_fresh (obs c) = Some (ap_approval_id a) -> ap_decision a = None ->
  names m = (None, o_id (obs c), a :: o_submitted (obs c)) ->
  (ops' = ops \/ ops' = ops ++ [QSubmit a]) -> names_ok ids ops' (<[c := m]> obs).
Proof.
  intros [H1 H2 H3 H4 H5 H6 H7] Hfr Hdec [= Hf Hi Hs] Hops.
  assert (Hfr' : forall c' x, o_fresh (<[c := m]> obs c') = Some x -> c' <> c /\ o_fresh (obs c') = Some x).
  { intros c' x. apply fn_insert_case; [intros ->; by rewrite Hf|auto]. }
  assert (Hid' : forall c', o_id (<[c := m]> obs c') = o_id (obs c'))
    by (intros c'; apply fn_insert_case; [by intros ->|done]).
  assert (Hsub : forall c' x, x ∈ o_submitted (<[c := m]> obs c') -> x = a \/ x ∈ o_submitted (obs c')).
  { intros c' x. apply fn_insert_case; [intros ->|auto]. rewrite Hs, elem_of_cons. done. }
  assert (Hsub' : forall c' x, x ∈ o_submitted (obs c') -> x ∈ o_submitted (<[c := m]> obs c')).
  { intros c' x. apply fn_insert_case; [intros ->|auto]. rewrite Hs, elem_of_cons. auto. }
  assert (Hnew : forall c' x, x ∈ o_submitted (obs c') -> ap_approval_id x = ap_approval_id a -> False).
  { intros c' x Hx Heq. eapply H2; [exact Hfr|]. right. eauto. }
  assert (Hnamed : forall c' x, named (<[c := m]> obs c') x -> x = ap_approval_id a \/ named (obs c') x).
  { intros c' x [Hx|(b & [->|Hb]%Hsub & <-)]; [right; left; by rewrite <- Hid'|by left|].
    right; right. eauto. }
  split.
  - intros c' x [[_ Hx]%Hfr'|[->|Hx]%Hnamed]; eauto.
  - intros c' c2 x [Hne Hx]%Hfr' [->|Hn]%Hnamed; eauto.
  - intros c' c2 x [_ Hx]%Hfr' [_ Hy]%Hfr'; eauto.
  - intros c' c2 x. rewrite !Hid'. apply H4.
  - intros c' c2 x y [->|Hx]%Hsub [->|Hy]%Hsub Heq; eauto; exfalso; eauto.
  - intros c' x [->|Hx]%Hsub; eauto.
  - intros x Hx. assert (x = a \/ QSubmit x ∈ ops) as [->|Hx'].
    { destruct Hops as [->| ->]; [by right|]. apply elem_of_app in Hx as [Hx|Hx]; [by right|].
      apply list_elem_of_singleton in Hx. left. congruence. }
    + exists c. rewrite fn_lookup_insert, Hs. by left.
    + destruct (H7 x Hx') as (c' & Hc'). eauto.
Qed.

(** The state an observer of a call saw settled is the state of its record. *)
Definition settled_in (s : InMemoryStateStore) (m : observer) : Prop :=
  forall id, o_id m = Some id -> o_settled m = true ->
    exists rec, ms_calls s !! id = Some rec /\ tc_current_state rec = o_last m.
Definition record_of (k : client_call) (s : InMemoryStateStore) (m : observer) : Prop :=
  forall id rec, o_id m = Some id -> ms_calls s !! id = Some rec ->
    tc_tool_name rec = ca_tool k /\ tc_arguments rec = ca_arguments k.

(** What an observer of a call knows of the shared components. *)
Record call_ok (k : client_call) (s : InMemoryStateStore) (ops : list queue_op) (refused : list string)
    (m : observer) : Prop := {
  co_needs input : input ∈ o_needs m -> pd_outcome <$> rego_decision (JObj input) = Some REQUIRES_APPROVAL;
  co_granted input : input ∈ o_granted m -> authorized ops input;
  co_record : record_of k s m;
  co_settled : settled_in s m;
  co_refused : o_refused m = true -> exists id, o_id m = Some id /\ id ∈ refused;
  co_named : o_settled m = true -> is_Some (o_id m)
}.

Lemma call_ok_mono k s s' ops ops' refused refused' m :
  (forall o, o ∈ ops -> o ∈ ops') -> (forall id, id ∈ refused -> id ∈ refused') ->
  (forall id, o_id m = Some id -> ms_calls s' !! id = ms_calls s !! id) ->
  call_ok k s ops refused m -> call_ok k s' ops' refused' m.
Proof.
  intros Hops Href Hs [H1 H2 H3 H4 H5 H6]. split.
  - exact H1.
  - intros input Hin. by eapply authorized_mono, H2.
  - intros id rec Hid. rewrite (Hs id Hid). by apply H3.
  - intros id Hid. rewrite (Hs id Hid). by apply H4.
  - intros Hr. destruct (H5 Hr) as (id & Hid & Hin). eauto.
  - exact H6.
Qed.

(** A run of a tool, checked against the policy and the approvals of its time. *)
Definition run_ok {H} (registry : ToolRegistry H) (calls : list client_call) (refused : list string)
    (run : tool_run H) : Prop :=
  exists k, calls !! ru_call run = Some k /\
    validated_run registry (ca_tool k) (ru_handler run) (ru_request run) /\
    ru_tenant run = tenant_or_local (caller (ca_config k)) /\
    ((exists d args, registry_get registry (ca_tool k) = Ok d /\ td_handler d = ru_handler run /\
        authorized (ru_queue_ops run)
          (make_policy_input (ca_tool k) (td_risk_class d) args (caller (ca_config k))) /\
        (model_dump (ru_request run) = args \/
         registry_validate registry (ca_tool k) args = Ok (ru_request run))) \/
     ru_call_id run ∈ refused).

(** The call an event of the audit log reports. *)
Definition appended_id (ev : log_event) : list string :=
  match ev with Append fields _ _ => [af_call_id fields] | Restart => [] end.
Definition appended_ids (evs : list log_event) : list string := concat (map appended_id evs).

(** An append, as the observer of its call saw it. *)
Definition append_seen (calls : list client_call) (obs : nat -> observer) (ev : log_event) : Prop :=
  exists fields timestamp out c k, ev = Append fields timestamp out /\ calls !! c = Some k /\
    o_id (obs c) = Some (af_call_id fields) /\ o_audits (obs c) <> [] /\
    o_settled (obs c) = true /\ terminal (o_last (obs c)) = true /\
    af_outcome fields = audit_outcome (o_last (obs c)) /\
    af_tool_name fields = ca_tool k /\ af_arguments fields = ca_arguments k.

Lemma append_seen_id calls obs ev id :
  append_seen calls obs ev -> id ∈ appended_id ev -> exists c, o_id (obs c) = Some id /\ o_audits (obs c) <> [].
Proof.
  intros (fields & ts & out & c & k & -> & _ & Hid & Ha & _) Hin.
  apply list_elem_of_singleton in Hin as ->. eauto.
Qed.

Lemma appended_ids_snoc evs ev : appended_ids (evs ++ [ev]) = appended_ids evs ++ appended_id ev.
Proof. unfold appended_ids. rewrite map_app, concat_app. cbn. by rewrite app_nil_r. Qed.

Record audits_ok (calls : list client_call) (evs : list log_event) (obs : nat -> observer) : Prop := {
  ao_once : NoDup (appended_ids evs);
  ao_seen : Forall (append_seen calls obs) evs
}.

(** What an observer tells of its audit record. *)
Definition closing (m : observer) : option string * bool * ToolCallState * bool :=
  (o_id m, bool_decide (o_audits m = []), o_last m, o_settled m).

Lemma audits_quiet calls evs obs obs' :
  (forall c, o_audits (obs c) <> [] -> closing (obs' c) = closing (obs c)) ->
  audits_ok calls evs obs -> audits_ok calls evs obs'.
Proof.
  intros Hsame [H1 H2]. split; [done|]. eapply Forall_impl; [exact H2|].
  intros ev (fields & ts & out & c & k & -> & Hc & Hid & Ha & Hset & Ht & Ho & Hn & Harg).
  specialize (Hsame c Ha). injection Hsame as Hi Hau Hl Hs.
  exists fields, ts, out, c, k. rewrite Hi, Hl, Hs. split_and!; try done.
  intros Hnil. apply Ha. rewrite Hnil, bool_decide_true in Hau by done.
  by apply eq_sym, bool_decide_eq_true in Hau.
Qed.

(** The answers given to a call, and that they are what its observer has seen. *)
Definition answers_of (c : nat) (answers : list (nat * result exc json)) : list (result exc json) :=
  omap (fun a => if Nat.eqb a.1 c then Some a.2 else None) answers.

Lemma answers_of_snoc c answers a :
  answers_of c (answers ++ [a]) = answers_of c answers ++ (if Nat.eqb a.1 c then [a.2] else []).
Proof. unfold answers_of. rewrite omap_app. cbn. by destruct (Nat.eqb a.1 c). Qed.

Lemma answers_of_in c answers r : r ∈ answers_of c answers -> (c, r) ∈ answers.
Proof.
  intros ([c' r'] & Hin & Ha)%list_elem_of_omap. cbn in Ha.
  destruct (Nat.eqb_spec c' c) as [->|]; [|done]. by injection Ha as ->.
Qed.

Record ran_ok {H} (runs : list (tool_run H)) (answers : list (nat * result exc json)) (obs : nat -> observer) : Prop := {
  ra_calls : map ru_call runs = map fst answers;
  ra_seen c : answers_of c answers = o_runs (obs c)
}.

Lemma ran_quiet {H} (runs : list (tool_run H)) answers obs c m' :
  ran_ok runs answers obs -> o_runs m' = o_runs (obs c) -> ran_ok runs answers (<[c := m']> obs).
Proof.
  intros [Hcalls Hseen] Hm. split; [done|]. intros c'. apply fn_insert_case; [intros ->|done].
  by rewrite Hm.
Qed.

Lemma ran_of {H} (runs : list (tool_run H)) answers obs c r :
  ran_ok runs answers obs -> r ∈ o_runs (obs c) ->
  (c, r) ∈ answers /\ exists run, run ∈ runs /\ ru_call run = c.
Proof.
  intros [Hcalls Hseen] Hr. rewrite <- Hseen in Hr. apply answers_of_in in Hr as Hin. split; [done|].
  assert (Hc : c ∈ map ru_call runs) by (rewrite Hcalls; apply list_elem_of_fmap; by exists (c, r)).
  apply list_elem_of_fmap in Hc as (run & -> & Hrun). eauto.
Qed.

(** No record is stored under an identifier that names nothing yet. *)
Definition unused_ok (ids : list string) (obs : nat -> observer) (s : InMemoryStateStore) : Prop :=
  forall id, id ∉ ids \/ (exists c, o_fresh (obs c) = Some id) -> ms_calls s !! id = None.

(** What an operation of a call does to its own record. *)
Lemma mem_update_own id upd s r s' :
  mem_update id upd s = (r, s') ->
  (exists rec rec', r = Ok tt /\ ms_calls s !! id = Some rec /\ upd rec = Ok rec' /\
     ms_calls s' !! id = Some rec') \/ (is_ok r = false /\ s' = s).
Proof.
  unfold mem_update. destruct (ms_calls s !! id) as [rec|]; [|intros [= <- <-]; by right].
  destruct (upd rec) as [rec'|e] eqn:Hu; intros [= <- <-]; [|by right].
  left. exists rec, rec'. cbn. by rewrite lookup_insert_eq.
Qed.

(** An update that keeps what the record is about. *)
Definition keeps_call (upd : ToolCallRecord -> result exc ToolCallRecord) : Prop :=
  forall rec rec', upd rec = Ok rec' ->
    tc_tool_name rec' = tc_tool_name rec /\ tc_arguments rec' = tc_arguments rec.
(** An update that keeps the state, too. *)
Definition keeps_state (upd : ToolCallRecord -> result exc ToolCallRecord) : Prop :=
  forall rec rec', upd rec = Ok rec' -> tc_current_state rec' = tc_current_state rec.

Lemma sys_finish_keeps n out e now1 now2 :
  keeps_call (update_finish n out e now1 now2) /\ keeps_state (update_finish n out e now1 now2).
Proof.
  unfold update_finish.
  split; intros rec rec'; (destruct (finish_first _ _ _ _ _); [|done]); by intros [= <-].
Qed.
Lemma sys_start_keeps n now1 now2 :
  keeps_call (update_start n now1 now2) /\ keeps_state (update_start n now1 now2).
Proof. split; intros rec rec' [= <-]; done. Qed.

Lemma update_settles k upd r s s' m m' id :
  (r = (mem_update id upd s).1 /\ s' = (mem_update id upd s).2) \/
  (is_ok r = false /\ (s' = s \/ s' = (mem_update id upd s).2)) ->
  keeps_call upd -> o_id m = Some id -> o_id m' = Some id ->
  keeps_state upd /\ o_settled m' = o_settled m /\ o_last m' = o_last m \/
    o_settled m' = is_ok r /\ (forall rec rec', upd rec = Ok rec' -> tc_current_state rec' = o_last m') ->
  record_of k s m -> settled_in s m -> record_of k s' m' /\ settled_in s' m'.
Proof.
  intros Heff Hkeep Hid Hid' Hcase Hrec Hset.
  destruct (mem_update id upd s) as [r0 s0] eqn:Hm. cbn [fst snd] in Heff.
  destruct (mem_update_own _ _ _ _ _ Hm) as [(rec & rec' & -> & Hs & Hu & Hs')|[Hr0 ->]].
  - assert (Hs'' : s' = s0 \/ (is_ok r = false /\ s' = s)) by tauto.
    destruct Hs'' as [->|[Hr ->]]; (split; [intros id' x|intros id']; rewrite Hid'; intros [= <-]).
    + rewrite Hs'. intros [= <-]. destruct (Hkeep _ _ Hu) as [-> ->]. by eapply Hrec.
    + intros Hse'. exists rec'. split; [done|]. destruct Hcase as [(Hst & Hse & Hl)|[_ Hst]]; [|by eapply Hst].
      rewrite (Hst _ _ Hu), Hl. destruct (Hset id Hid) as (rec0 & H0 & H0'); congruence.
    + by apply Hrec.
    + intros Hse'. destruct Hcase as [(_ & Hse & ->)|[Hse _]]; [|congruence]. apply Hset; congruence.
  - assert (s' = s /\ is_ok r = false) as [-> Hr] by (destruct Heff as [[-> ->]|[? [->| ->]]]; auto).
    split; [intros id' x|intros id']; rewrite Hid'; intros [= <-]; [by apply Hrec|].
    intros Hse'. destruct Hcase as [(_ & Hse & ->)|[Hse _]]; [|congruence]. apply Hset; congruence.
Qed.

Section invariant.
Context {H W : Type} `{!StateStore W} `{Rendering}.
Context (sha256 : string -> string) (model_dump_json : json -> string) (float_norm : string -> string).
Context (registry : ToolRegistry H) (calls : list client_call).
Abbreviation sys := (system H W).
Abbreviation respond := (respond sha256 model_dump_json float_norm (H := H) (W := W)).
Abbreviation monitor_of k := (gateway_monitor registry (ca_config k) (ca_tool k) (ca_arguments k)).
Implicit Types (w : sys) (obs : nat -> observer) (k : client_call) (m : observer).

Record shared_ok w obs : Prop := {
  so_names : names_ok (sy_ids w) (sy_queue_ops w) obs;
  so_calls : exists s, represents (sy_store w) s /\ unused_ok (sy_ids w) obs s /\
    forall c k, calls !! c = Some k -> call_ok k s (sy_queue_ops w) (sy_refused w) (obs c);
  so_runs : Forall (run_ok registry calls (sy_refused w)) (sy_runs w);
  so_ran : ran_ok (sy_runs w) (sy_answers w) obs;
  so_audits : audits_ok calls (sy_appends w) obs
}.

(** The operations an operation of the queue adds to the history. *)
Lemma queue_ops_pending ops obs ids :
  names_ok ids ops obs -> Forall submitted_pending ops.
Proof.
  intros Hn. apply Forall_forall. intros [a|id b x y|id n|] Ha; cbn; try done.
  destruct (no_queue _ _ _ Hn a Ha) as (c & Hc). by eapply no_pending.
Qed.

Lemma run_ok_mono refused refused' run :
  (forall id, id ∈ refused -> id ∈ refused') -> run_ok registry calls refused run ->
  run_ok registry calls refused' run.
Proof. intros Hsub (k & Hk & Hv & Ht & [Hrun|Hr]); exists k; split_and!; auto. Qed.

(** The other calls see the same components, or more of their history. *)
Lemma calls_step c k ops ops' refused refused' obs m' s s' :
  calls !! c = Some k ->
  (forall c' k', calls !! c' = Some k' -> call_ok k' s ops refused (obs c')) ->
  (forall o, o ∈ ops -> o ∈ ops') ->
  (forall id, id ∈ refused -> id ∈ refused') ->
  (forall c' id, c' <> c -> o_id (obs c') = Some id -> ms_calls s' !! id = ms_calls s !! id) ->
  call_ok k s' ops' refused' m' ->
  forall c' k', calls !! c' = Some k' -> call_ok k' s' ops' refused' (<[c := m']> obs c').
Proof.
  intros Hk Hall Hops Href Hs Hm c' k' Hc'. apply fn_insert_case.
  - intros ->. by simplify_eq.
  - intros Hne. eapply call_ok_mono; [exact Hops|exact Href|intros id; by apply Hs|by apply Hall].
Qed.

Lemma audits_step c evs obs m' :
  (o_audits (obs c) <> [] -> closing m' = closing (obs c)) ->
  audits_ok calls evs obs -> audits_ok calls evs (<[c := m']> obs).
Proof.
  intros Hsame. apply audits_quiet. intros c' Ha. apply fn_insert_case; [by intros ->; apply Hsame|done].
Qed.

Lemma unused_step ids obs s c m' :
  unused_ok ids obs s -> (forall id, o_fresh m' = Some id -> o_fresh (obs c) = Some id) ->
  unused_ok ids (<[c := m']> obs) s.
Proof.
  intros Hun Hm id [Hid|(c' & Hid)]; apply Hun; [by left|]. right. revert Hid.
  apply fn_insert_case; [|eauto]. intros -> Hid%Hm. eauto.
Qed.

Lemma names_step c ids ops ops' obs m' :
  names m' = names (obs c) -> (forall a, QSubmit a ∈ ops' -> QSubmit a ∈ ops) ->
  names_ok ids ops obs -> names_ok ids ops' (<[c := m']> obs).
Proof.
  intros Hsame. apply names_quiet. intros c'. apply fn_insert_case; [by intros ->|done].
Qed.

(** An answer that changes only what the observer has seen of its own call. *)
Lemma local_ok w c k obs m' :
  shared_ok w obs -> calls !! c = Some k -> names m' = names (obs c) -> o_runs m' = o_runs (obs c) ->
  (o_audits (obs c) <> [] -> closing m' = closing (obs c)) ->
  (forall s, call_ok k s (sy_queue_ops w) (sy_refused w) (obs c) ->
     call_ok k s (sy_queue_ops w) (sy_refused w) m') ->
  shared_ok w (<[c := m']> obs).
Proof.
  intros [Hn (s & Hrep & Hun & Hc) Hr Hran Ha] Hk Hnames Hruns Hclose Hm. split; [|exists s; split; [done|split]|done|by apply ran_quiet|].
  - by eapply names_step.
  - eapply unused_step; [done|]. by injection Hnames as -> _ _.
  - apply calls_step with (k := k) (ops := sy_queue_ops w) (refused := sy_refused w) (s := s); auto.
  - by apply audits_step.
Qed.

Lemma uuid_ok w w' c k obs r :
  shared_ok w obs -> calls !! c = Some k -> respond w c Uuid r w' ->
  shared_ok w' (<[c := observe (obs c) (H := H) Uuid r]> obs).
Proof.
  intros [Hn (s & Hrep & Hun & Hc) Hr Hran Ha] Hk (id & -> & Hid & ->). split; cbn; [|exists s; split; [done|split]|done|by apply ran_quiet|].
  - by apply names_draw.
  - intros x [Hx|(c' & Hx)]; apply Hun.
    + left. contradict Hx. by right.
    + revert Hx. apply fn_insert_case; [|eauto]. intros -> [= <-]. by left.
  - apply calls_step with (k := k) (ops := sy_queue_ops w) (refused := sy_refused w) (s := s); auto. destruct (Hc c k Hk). by split.
  - apply audits_step; [|done]. done.
Qed.

Lemma evaluate_ok w w' c k obs input r :
  shared_ok w obs -> calls !! c = Some k -> respond w c (Evaluate input) r w' ->
  shared_ok w' (<[c := observe (obs c) (H := H) (Evaluate input) r]> obs).
Proof.
  intros Hok Hk [-> Hr]. apply local_ok with (k := k); try done; [by destruct r..|].
  intros s [H1 H2 H3 H4 H5 H6]. destruct r as [d|e]; [|done]. split; cbn; [| |done..].
  - intros input'. destruct (String.eqb_spec (pd_outcome d) REQUIRES_APPROVAL) as [Ho|]; [|apply H1].
    rewrite elem_of_cons. intros [->|]; [|by apply H1]. rewrite Hr. cbn. by rewrite Ho.
  - intros input'. destruct (String.eqb_spec (pd_outcome d) ALLOW) as [Ho|]; [|apply H2].
    rewrite elem_of_cons. intros [->|]; [|by apply H2]. left. rewrite Hr. cbn. by rewrite Ho.
Qed.

Lemma sys_submit_ok w w' c k obs a r :
  shared_ok w obs -> calls !! c = Some k -> o_fresh (obs c) = Some (ap_approval_id a) ->
  ap_decision a = None -> respond w c (Submit a) r w' ->
  shared_ok w' (<[c := observe (obs c) (H := H) (Submit a) r]> obs).
Proof.
  intros [Hn (s & Hrep & Hun & Hc) Hr Hran Ha] Hk Hfr Hdec (ops & Hans & ->).
  pose proof (queue_answers_grow _ _ _ _ Hans) as Hops.
  split; cbn; [|exists s; split; [done|split]|done|by apply ran_quiet|].
  - eapply names_submit; done.
  - by eapply unused_step.
  - apply calls_step with (k := k) (ops := sy_queue_ops w) (refused := sy_refused w) (s := s); auto.
    + cbn. intros o Ho. destruct Hops as [->| ->]; [done|]. apply elem_of_app. by left.
    + cbn. eapply call_ok_mono; [..|destruct (Hc c k Hk); by split]; auto.
      intros o Ho. destruct Hops as [->| ->]; [done|]. apply elem_of_app. by left.
  - by apply audits_step.
Qed.

(** The inputs an answered wait grants were approved by an operator. *)
Lemma approved_inputs_authorized ids ops obs c id input m request approver reason :
  names_ok ids ops obs -> m = obs c ->
  (forall input, input ∈ o_needs m -> pd_outcome <$> rego_decision (JObj input) = Some REQUIRES_APPROVAL) ->
  decision_made ops id request true approver reason ->
  input ∈ approved_inputs id m -> authorized ops input.
Proof.
  intros Hn -> Hneeds Hd Hin. unfold approved_inputs in Hin.
  apply list_elem_of_In, in_map_iff in Hin as (a & <- & Ha).
  apply filter_In in Ha as [Ha%list_elem_of_In [Hid Hneed]%andb_true_iff].
  apply bool_decide_eq_true in Hid, Hneed. right. split; [by apply Hneeds|].
  exists id, request, approver, reason. split; [done|].
  destruct Hd as (Hsub & Hrid & _). destruct (no_queue _ _ _ Hn request Hsub) as (c' & Hc').
  f_equal. eapply (no_approval _ _ _ Hn c' c); [done..|congruence].
Qed.

Lemma wait_ok w w' c k obs id r :
  shared_ok w obs -> calls !! c = Some k -> respond w c (Wait id) r w' ->
  shared_ok w' (<[c := observe (obs c) (H := H) (Wait id) r]> obs).
Proof.
  intros [Hn (s & Hrep & Hun & Hc) Hr Hran Ha] Hk (ops & polls & Hans & ->).
  pose proof (queue_answers_grow _ _ _ _ Hans) as Hops.
  assert (Hgrow : forall o, o ∈ sy_queue_ops w -> o ∈ ops).
  { intros o Ho. destruct Hops as [->| ->]; [done|]. apply elem_of_app. by left. }
  split; cbn; [|exists s; split; [done|split]|done|apply ran_quiet; [done|by destruct r]|].
  - eapply names_step; [by destruct r| |exact Hn]. intros a. destruct Hops as [->| ->]; [done|].
    rewrite elem_of_app, list_elem_of_singleton. by intros [|].
  - eapply unused_step; [done|]. by destruct r.
  - apply calls_step with (k := k) (ops := sy_queue_ops w) (refused := sy_refused w) (s := s); auto. cbn.
    destruct (Hc c k Hk) as [H1 H2 H3 H4 H5 H6].
    destruct r as [resolved|e]; [|by apply call_ok_mono with (s := s) (ops := sy_queue_ops w) (refused := sy_refused w)].
    destruct (wait_answer _ _ _ _ _ (queue_ops_pending _ _ _ Hn) Hans) as (request & approver & reason & Hd).
    split; cbn; [done| |done..].
    intros input [Hin|Hin]%elem_of_app.
    + eapply authorized_mono; [exact Hgrow|].
      by eapply approved_inputs_authorized with (c := c).
    + eapply authorized_mono; [exact Hgrow|]. auto.
  - apply audits_step; [by destruct r|done].
Qed.

Lemma run_tool_ok w w' c k obs handler id tenant request r :
  shared_ok w obs -> calls !! c = Some k ->
  guard registry (ca_config k) (ca_tool k) (ca_arguments k) (obs c) (RunTool handler id tenant request) ->
  respond w c (RunTool handler id tenant request) r w' ->
  shared_ok w' (<[c := observe (obs c) (RunTool handler id tenant request) r]> obs).
Proof.
  intros [Hn (s & Hrep & Hun & Hc) Hr Hran Ha] Hk (Hid & Hl & Hv & Ht & Hauth & _) ->. pose proof (Hc c k Hk) as Hck.
  split; cbn; [|exists s; split; [done|split]| | |].
  - by eapply names_step.
  - by eapply unused_step.
  - apply calls_step with (k := k) (ops := sy_queue_ops w) (refused := sy_refused w) (s := s); auto. destruct Hck. by split.
  - apply Forall_app. split; [done|]. constructor; [|constructor]. exists k. cbn. split_and!; try done.
    destruct Hauth as [(d & args & Hd & Hh & Hin & Hargs)|Href].
    + left. exists d, args. split_and!; try done. by apply (co_granted _ _ _ _ _ Hck).
    + right. destruct (co_refused _ _ _ _ _ Hck Href) as (id' & Hid' & Hin). by simplify_eq.
  - destruct Hran as [Hcalls Hseen]. split; [by rewrite !map_app, Hcalls|]. intros c'.
    rewrite answers_of_snoc, Hseen. cbn. apply fn_insert_case.
    + intros ->. by rewrite Nat.eqb_refl.
    + intros Hne. rewrite (proj2 (Nat.eqb_neq c c')) by done. by rewrite app_nil_r.
  - by apply audits_step.
Qed.

(** An operation of the store keeps what its call knows of its own record. *)
Lemma own_record k o (r : result exc (store_ans o)) s s' m :
  guard registry (ca_config k) (ca_tool k) (ca_arguments k) m (Store o) ->
  store_effect o r s s' -> (forall id, o_fresh m = Some id -> ms_calls s !! id = None) ->
  record_of k s m -> settled_in s m ->
  record_of k s' (observe (H := H) m (Store o) r) /\ settled_in s' (observe (H := H) m (Store o) r).
Proof.
  intros Hg (now1 & now2 & Heff) Hun Hrec Hset. destruct o as [record|id state error|id n out error|id n|id|sid].
  - destruct Hg as (Hnone & Hfr & Hst & Ht & Harg & _). specialize (Hun _ Hfr). cbn in Heff.
    assert (Hs' : s' = (mem_create_call record s).2 \/ (is_ok r = false /\ s' = s)) by tauto.
    destruct Hs' as [->|[Hr ->]]; (split; [intros id' x|intros id']; intros [= <-]); cbn;
      rewrite ?lookup_insert_eq; try congruence.
    + by intros [= <-].
    + eauto.
    + intros Hok. by destruct r.
  - eapply update_settles with (m := m) (upd := update_transition state error now1); [exact Heff|..]; try done.
    + by intros rec rec' [= <-].
    + by destruct Hg.
    + by destruct Hg.
    + right. split; [done|]. by intros rec rec' [= <-].
  - destruct (sys_finish_keeps n out error now1 now2).
    eapply update_settles with (m := m); [exact Heff|..]; try done. by left.
  - destruct (sys_start_keeps n now1 now2).
    eapply update_settles with (m := m); [exact Heff|..]; try done. by left.
  - assert (s' = s) as -> by (destruct Heff as [[_ ->]|[_ [->| ->]]]; done). done.
  - assert (s' = s) as -> by (destruct Heff as [[_ ->]|[_ [->| ->]]]; done). done.
Qed.

Lemma store_ok w w' c k obs o r :
  shared_ok w obs -> calls !! c = Some k ->
  guard registry (ca_config k) (ca_tool k) (ca_arguments k) (obs c) (Store o) ->
  respond w c (Store o) r w' -> shared_ok w' (<[c := observe (H := H) (obs c) (Store o) r]> obs).
Proof.
  intros [Hn (s & Hrep & Hun & Hc) Hr Hran Ha] Hk Hg (st & -> & Hans).
  destruct (perform_effect o _ _ _ _ Hrep Hans) as (s' & Hrep' & Heff).
  destruct (Hc c k Hk) as [H1 H2 H3 H4 H5 H6].
  destruct (own_record k o r s s' (obs c) Hg Heff) as [H3' H4']; [|done|done|].
  { intros id Hid. apply Hun. eauto. }
  assert (Hfresh : forall id, o_fresh (observe (H := H) (obs c) (Store o) r) = Some id ->
    o_fresh (obs c) = Some id) by (by destruct o).
  assert (Hown : forall id, changed_call o = Some id -> o_id (observe (H := H) (obs c) (Store o) r) = Some id)
    by (destruct o; cbn in Hg |- *; intros id [= <-]; try done; by destruct Hg).
  assert (Hn' : names_ok (sy_ids w) (sy_queue_ops w) (<[c := observe (H := H) (obs c) (Store o) r]> obs)).
  { destruct o as [record| | | | |]; try (by eapply names_step).
    destruct Hg as (Hnone & Hfr & _). by eapply names_create. }
  split; cbn; [done|exists s'; split; [done|split]| |apply ran_quiet; [done|by destruct o]|].
  - intros id Hid. rewrite (store_effect_elsewhere _ _ _ _ id Heff).
    + eapply unused_step; [exact Hun|exact Hfresh|exact Hid].
    + intros Hch%Hown.
      assert (Hnamed : named (<[c := observe (H := H) (obs c) (Store o) r]> obs c) id)
        by (left; by rewrite fn_lookup_insert).
      destruct Hid as [Hid|(c' & Hid)]; [apply Hid; by eapply no_drawn; [|right]|by eapply no_fresh].
  - apply calls_step with (k := k) (ops := sy_queue_ops w) (refused := sy_refused w) (s := s); auto.
    + intros id Hid. apply elem_of_app. by right.
    + intros c' id Hne Hid. apply (store_effect_elsewhere _ _ _ _ _ Heff). intros Hch%Hown.
      apply Hne. eapply (no_record _ _ _ Hn'); [rewrite fn_lookup_insert_ne; done|by rewrite fn_lookup_insert].
    + split; [by destruct o|by destruct o|done|done| |destruct o; cbn; try done; by destruct Hg as [-> _]].
      destruct o as [record|id state error| | | |]; cbn [observe o_refused o_id]; try done.
      * intros Href. destruct (H5 Href) as (id & Hid & _). destruct Hg as (Hnone & _). congruence.
      * destruct Hg as (Hid & _). intros [Href|[->%bool_decide_eq_true Hno]%andb_true_iff]%orb_true_iff.
        -- destruct (H5 Href) as (id' & Hid' & Hin). exists id'. split; [done|]. apply elem_of_app. by right.
        -- exists id. split; [done|]. apply elem_of_app. left. cbn. destruct r; [done|by left].
  - eapply Forall_impl; [exact Hr|]. intros run. apply run_ok_mono. intros id Hid. apply elem_of_app. by right.
  - apply audits_step; [|done]. intros Haud.
    destruct o as [record|id state error| | | |]; try done; exfalso; [|by destruct Hg as (_ & _ & Hnil)].
    by destruct Hg as (_ & _ & _ & _ & _ & Hnil).
Qed.

Lemma append_ok w w' c k obs fields r :
  shared_ok w obs -> calls !! c = Some k ->
  guard registry (ca_config k) (ca_tool k) (ca_arguments k) (obs c) (AuditAppend fields) ->
  respond w c (AuditAppend fields) r w' ->
  shared_ok w' (<[c := observe (H := H) (obs c) (AuditAppend fields) r]> obs).
Proof.
  intros Hok Hk (Hnil & Hid & Hset & Hterm & Hout & Htool & Harg) Hans.
  assert (Hlocal : shared_ok w (<[c := observe (H := H) (obs c) (AuditAppend fields) r]> obs)).
  { apply local_ok with (k := k); try done. intros s [H1 H2 H3 H4 H5 H6]. by split. }
  destruct Hans as [(ts & out & _ & ->)|[_ ->]]; [|done].
  destruct Hlocal as [Hn Hc Hr Hran [Honce Hseen]]. split; [done..|]. cbn. split.
  - rewrite appended_ids_snoc. cbn. apply NoDup_app. split; [done|]. split; [|apply NoDup_singleton].
    intros id Hin ->%list_elem_of_singleton.
    apply list_elem_of_In, in_concat in Hin as (l & (ev & <- & Hev)%in_map_iff & Hin).
    pose proof (proj1 (Forall_forall _ _) (ao_seen _ _ _ (so_audits _ _ Hok)) ev) as Hev'.
    destruct (append_seen_id _ _ _ (af_call_id fields) (Hev' ltac:(by apply list_elem_of_In)))
      as (c' & Hid' & Haud); [by apply list_elem_of_In|].
    apply Haud. by rewrite (no_record _ _ _ (so_names _ _ Hok) c' c (af_call_id fields)).
  - apply Forall_app. split; [done|]. constructor; [|constructor].
    exists fields, ts, out, c, k. rewrite fn_lookup_insert. cbn. split_and!; try done. by destruct (o_audits (obs c)).
Qed.

(** The operations that only ask: nothing changes, whatever the answer. *)
Definition asks (o : gw_op H) : bool :=
  match o with
  | Uuid | Store _ | Evaluate _ | Submit _ | Wait _ | RunTool _ _ _ _ | AuditAppend _ => false
  | _ => true
  end.

Lemma asks_ok w w' c k obs (o : gw_op H) r :
  shared_ok w obs -> calls !! c = Some k -> asks o = true -> respond w c o r w' ->
  shared_ok w' (<[c := observe (obs c) o r]> obs).
Proof.
  intros Hok Hk Ha Hans. assert (observe (obs c) o r = obs c /\ w' = w) as [-> ->] by (by destruct o).
  by apply local_ok with (k := k).
Qed.

Lemma respond_ok w w' c k obs (o : gw_op H) r :
  shared_ok w obs -> calls !! c = Some k ->
  guard registry (ca_config k) (ca_tool k) (ca_arguments k) (obs c) o ->
  respond w c o r w' -> shared_ok w' (<[c := observe (obs c) o r]> obs).
Proof.
  intros Hok Hk Hg Hans. destruct (asks o) eqn:Ha; [by eapply asks_ok|].
  destruct o; try done.
  - by eapply uuid_ok.
  - by eapply store_ok.
  - by eapply evaluate_ok.
  - destruct Hg. by eapply sys_submit_ok.
  - by eapply wait_ok.
  - by eapply run_tool_ok.
  - by eapply append_ok.
Qed.

Lemma decide_ok w obs id approved approver reason r ops :
  shared_ok w obs -> queue_answers (sy_queue_ops w) (QDecide id approved approver reason) r ops ->
  shared_ok (with_queue_ops ops w) obs.
Proof.
  intros [Hn (s & Hrep & Hun & Hc) Hr Hran Ha] Hans. pose proof (queue_answers_grow _ _ _ _ Hans) as Hops.
  split; cbn; [|exists s; split; [done|split; [done|]]|done..].
  - eapply names_quiet; [done| |exact Hn]. intros a. destruct Hops as [->| ->]; [done|].
    rewrite elem_of_app, list_elem_of_singleton. by intros [|].
  - intros c k Hk. eapply call_ok_mono; [..|by apply Hc]; try done.
    intros o Ho. destruct Hops as [->| ->]; [done|]. apply elem_of_app. by left.
Qed.

Abbreviation thread := (prog (gw_sig H) (result exc CallToolResult * locals)).

(** The observers fit the components, and what is left of each call keeps the
    guard from where its observer is. *)
Record system_inv obs (ts : list thread) w : Prop := {
  si_shared : shared_ok w obs;
  si_length : length ts = length calls;
  si_threads c k p : calls !! c = Some k -> ts !! c = Some p ->
    exists b, wp (monitor_of k) p (obs c, b) (fun rs st =>
      final_result registry (ca_config k) (ca_tool k) rs.1 st.1 st.2)
}.
Definition system_ok (ts : list thread) w : Prop := exists obs, system_inv obs ts w.

Lemma observer0_ok w : fresh_system w -> shared_ok w (fun _ => observer0).
Proof.
  intros ((s & Hrep & Hids) & Hq & Ha & Hr & Hans & Href). split.
  - rewrite Hq. split; try done; unfold named; cbn; set_solver.
  - exists s. split; [done|]. split.
    + intros id [Hid|(c & Hid)]; [|done]. apply eq_None_not_Some. intros Hs. by apply Hid, Hids.
    + intros c k _. split; unfold record_of, settled_in; cbn; try done; set_solver.
  - by rewrite Hr.
  - rewrite Hr, Hans. by split.
  - rewrite Ha. split; constructor.
Qed.

(** A call at an operation: it is allowed, and the answer keeps the invariant. *)
Lemma call_allowed obs ts w c (o : gw_op H) kont :
  system_inv obs ts w -> ts !! c = Some (Call (E := gw_sig H) o kont) ->
  exists k, calls !! c = Some k /\
    guard registry (ca_config k) (ca_tool k) (ca_arguments k) (obs c) o.
Proof.
  intros [_ Hlen Hts] Hc. assert (is_Some (calls !! c)) as [k Hk].
  { apply lookup_lt_is_Some. rewrite <- Hlen. by eapply lookup_lt_Some. }
  destruct (Hts c k _ Hk Hc) as (b & Hg & _). eauto.
Qed.

Lemma call_step_ok obs ts w c (o : gw_op H) kont r w' :
  system_inv obs ts w -> ts !! c = Some (Call (E := gw_sig H) o kont) -> respond w c o r w' ->
  system_inv (<[c := observe (obs c) o r]> obs) (<[c := kont r]> ts) w'.
Proof.
  intros Hinv Hc Hans. destruct (call_allowed _ _ _ _ _ _ Hinv Hc) as (k & Hk & Hg).
  destruct Hinv as [Hok Hlen Hts]. split; [by eapply respond_ok|by rewrite length_insert|].
  intros c' k' p' Hk' Hp'. destruct (decide (c' = c)) as [->|Hne].
  - rewrite list_lookup_insert_eq in Hp' by by eapply lookup_lt_Some. simplify_eq.
    destruct (Hts c _ _ Hk Hc) as (b & _ & Hwp).
    rewrite fn_lookup_insert. eexists. by apply (Hwp r I).
  - rewrite list_lookup_insert_ne in Hp' by done. rewrite fn_lookup_insert_ne by done. eauto.
Qed.

Lemma decide_step_ok obs ts w id approved approver reason r ops :
  system_inv obs ts w -> queue_answers (sy_queue_ops w) (QDecide id approved approver reason) r ops ->
  system_inv obs ts (with_queue_ops ops w).
Proof. intros [Hok Hlen Hts] Hans. split; [by eapply decide_ok|done..]. Qed.

Lemma sys_step_ok ts w ts' w' :
  system_ok ts w -> system_step sha256 model_dump_json float_norm (ts, w) (ts', w') -> system_ok ts' w'.
Proof.
  intros (obs & Hinv) Hstep. inversion Hstep as [x y Hpool|ts0 w0 id b approver reason r ops Hans]; subst.
  - inversion Hpool as [ts0 w0 c p p' w1 Hc Hcall]; subst.
    destruct p as [a|o kont|]; [done| |done]. destruct Hcall as (r & Hans & ->).
    eexists. by eapply call_step_ok.
  - exists obs. by eapply decide_step_ok.
Qed.

Lemma initial_inv w : fresh_system w -> system_inv (fun _ => observer0) (map (program_of registry) calls) w.
Proof.
  intros Hfresh. split; [by apply observer0_ok|by rewrite length_map|].
  intros c k p Hk Hp. rewrite list_lookup_fmap, Hk in Hp. injection Hp as <-.
  exists false. apply execute_tool_call_wp.
Qed.

Lemma reachable_ok ts w :
  reachable sha256 model_dump_json float_norm registry calls ts w -> system_ok ts w.
Proof.
  intros (w0 & Hfresh & Hrtc).
  assert (Hinit : system_ok (map (program_of registry) calls) w0) by (eexists; by apply initial_inv).
  revert Hinit. change (system_ok (map (program_of registry) calls, w0).1 (map (program_of registry) calls, w0).2
    -> system_ok (ts, w).1 (ts, w).2).
  induction Hrtc as [|[ts1 w1] [ts2 w2] [ts3 w3] Hs Hrtc IH]; [done|]. intros Hok. by eapply IH, sys_step_ok.
Qed.
End invariant.

(* ------------------------------------------------------------------ *)
(** ** A schedule, executed

    Two calls over the in-memory store: a user reads, an operator runs a shell
    command that is approved while both calls are open. *)

Section play.
Context {H : Type} `{Rendering}.
Context (sha256 : string -> string) (model_dump_json : json -> string) (float_norm : string -> string).
Context (tool : H -> BaseModel -> result exc json).
Abbreviation sys := (system H InMemoryStateStore).

(** One answer of every component; [None] if the identifier source repeats itself. *)
Definition answer (w : sys) (c : nat) (o : gw_op H) : option (result exc (ans (gw_sig H) o) * sys) :=
  match o with
  | Uuid =>
      let id := "id-" +:+ print_int (Z.of_nat (length (sy_ids w))) in
      if bool_decide (id ∈ sy_ids w) then None else Some (Ok id, draw_id id w)
  | TraceId => Some (Ok "trace", w)
  | Now => Some (Ok 0, w)
  | Monotonic => Some (Ok 0%Q, w)
  | Uniform => Some (Ok 0%Q, w)
  | Store o =>
      let out := mem_perform 0 0 o (sy_store w) in
      Some (out.1, with_store out.2 (refusal o (is_ok out.1)) w)
  | Evaluate input =>
      Some (match rego_decision (JObj input) with
            | Some d => Ok d
            | None => Err (EGateway policy_unavailable_error)
            end, w)
  | Submit request => Some (Ok tt, with_queue_ops (sy_queue_ops w ++ [QSubmit request]) w)
  | Wait id =>
      Some ((mem_queue_perform (QWait id 1) (queue_run (sy_queue_ops w))).1,
            with_queue_ops (sy_queue_ops w ++ [QWait id 1]) w)
  | Advise _ _ _ _ => Some (Err (EGateway (tool_execution_error "no proposal")), w)
  | RunTool handler id tenant request =>
      let r := tool handler request in
      Some (r, log_tool_run {| ru_call := c; ru_handler := handler; ru_call_id := id; ru_tenant := tenant;
                            ru_request := request; ru_queue_ops := sy_queue_ops w |} r w)
  | AuditAppend fields =>
      Some (result_map (fun _ => tt)
              (append_sync sha256 model_dump_json fields 0 Written (sy_logger sha256 model_dump_json float_norm w)).1,
            log_append (Append fields 0 Written) w)
  | _ => Some (Ok tt, w)
  end.

Lemma answer_respond w c o r w' :
  answer w c o = Some (r, w') -> respond sha256 model_dump_json float_norm w c o r w'.
Proof.
  destruct o; cbn; try (by intros [= _ <-]).
  - case_bool_decide as Hid; [done|]. intros [= <- <-]. eauto.
  - intros [= <- <-]. eexists. split; [done|]. left. exists 0, 0. by destruct (mem_perform _ _ _ _).
  - intros [= <- <-]. split; [done|]. by destruct (rego_decision _).
  - intros [= <- <-]. eexists. split; [|done]. left. done.
  - intros [= <- <-]. exists (sy_queue_ops w ++ [QWait approval_id 1]), 1%nat. split; [|done]. left. done.
  - by intros [= <- <-].
  - intros [= <- <-]. left. exists 0, Written. auto.
Qed.

Inductive turn :=
| Turn (c : nat)
| Decide (id : string) (approved : bool) (approver reason : string).

Fixpoint play {A} (turns : list turn) (x : list (prog (gw_sig H) A) * sys) :
    option (list (prog (gw_sig H) A) * sys) :=
  match turns with
  | [] => Some x
  | Turn c :: turns' =>
      match x.1 !! c with
      | Some (Call o k) =>
          match answer x.2 c o with
          | Some (r, w') => play turns' (<[c := k r]> x.1, w')
          | None => None
          end
      | _ => play turns' x
      end
  | Decide id approved approver reason :: turns' =>
      play turns' (x.1, with_queue_ops (sy_queue_ops x.2 ++ [QDecide id approved approver reason]) x.2)
  end.

Lemma play_steps {A} turns (x y : list (prog (gw_sig H) A) * sys) :
  play turns x = Some y -> rtc (system_step sha256 model_dump_json float_norm) x y.
Proof.
  revert x. induction turns as [|[c|id approved approver reason] turns IH]; intros [ts w]; cbn.
  - by intros [= <-].
  - destruct (ts !! c) as [[a|o k|]|] eqn:Hc; try apply IH.
    destruct (answer w c o) as [[r w']|] eqn:Ha; [|done]. intros Hp%IH.
    eapply rtc_l; [|exact Hp]. apply step_call. econstructor; [exact Hc|].
    exists r. split; [by apply answer_respond|done].
  - intros Hp%IH. eapply rtc_l; [|exact Hp]. eapply step_decide. left. done.
Qed.
End play.

Module example.
Definition rendering : Rendering := {| iso_datetime := print_int; float_text _ := "1.5" |}.
#[export] Existing Instance rendering.

Definition command_model : ModelClass :=
  {| model_validate v :=
       match v with
       | JObj kvs => match dict_get "command" kvs with Some (JStr _) => Ok {| fields := kvs |} | _ => Err [] end
       | _ => Err []
       end;
     model_json_schema := [] |}.
Definition shell_exec : ToolDefinition string :=
  {| td_name := "shell_exec"; td_description := "run"; td_risk_class := DESTRUCTIVE;
     td_input_model := command_model; td_output_model := ServerSpec.example.rows_model;
     td_handler := "shell"; td_idempotent := false |}.
Definition registry : ToolRegistry string :=
  {| definitions := [("db_query", ServerSpec.example.db_query); ("shell_exec", shell_exec)] |}.

Definition user : Principal :=
  {| pr_subject := "alice"; pr_tenant_id := "acme"; pr_roles := [USER]; pr_issuer := None; pr_agent_id := None |}.
Definition operator : Principal :=
  {| pr_subject := "bob"; pr_tenant_id := "acme"; pr_roles := [OPERATOR]; pr_issuer := None; pr_agent_id := None |}.
Definition server : mcp_server :=
  create_mcp_server "s1" None None (Some (OpaPolicyClient "http://opa")) true true false true "gvisor" None.
Definition calls : list client_call :=
  [call_tool server (Some user) "db_query" (Some ServerSpec.example.select);
   call_tool server (Some operator) "shell_exec" (Some [("command", JStr "ls")])].

Definition system0 : system string InMemoryStateStore :=
  {| sy_store := empty_store; sy_ids := []; sy_queue_ops := []; sy_appends := []; sy_runs := [];
     sy_answers := []; sy_refused := [] |}.

(** The calls take turns; an operator decides once the second one has submitted
    its approval. *)
Definition turns : list turn :=
  concat (repeat [Turn 0; Turn 1] 15) ++ [Decide "id-2" true "carol" "reviewed"] ++
  concat (repeat [Turn 1; Turn 0] 20).
Definition final := play (fun s => s) dumps id (fun _ request => Ok (JObj (fields request))) turns
  (map (program_of registry) calls, system0).
End example.

(* ------------------------------------------------------------------ *)
(** ** What a checked run means under the gateway's policy *)

Definition run_allowed {H} (registry : ToolRegistry H) (calls : list client_call) (run : tool_run H) : Prop :=
  exists k d args, calls !! ru_call run = Some k /\
    registry_get registry (ca_tool k) = Ok d /\ td_handler d = ru_handler run /\
    ru_tenant run = tenant_or_local (caller (ca_config k)) /\
    (exists raw, registry_validate registry (ca_tool k) raw = Ok (ru_request run)) /\
    (args = model_dump (ru_request run) \/ registry_validate registry (ca_tool k) args = Ok (ru_request run)) /\
    let input := make_policy_input (ca_tool k) (td_risk_class d) args (caller (ca_config k)) in
    (destructive (JObj input) || negb (bool_decide (td_risk_class d = READ_ONLY)) = true ->
     elevated_principal (caller (ca_config k)) = true /\
     exists id approval approver reason,
       decision_made (ru_queue_ops run) id approval true approver reason /\ ap_policy_input approval = input).

Lemma run_ok_allowed {H} (registry : ToolRegistry H) calls refused run :
  (forall k p, k ∈ calls -> caller (ca_config k) = Some p -> Principal_valid p = true) ->
  run_ok registry calls refused run -> ru_call_id run ∉ refused -> run_allowed registry calls run.
Proof.
  intros Hvalid (k & Hk & (d0 & raw & _ & _ & Hraw) & Ht & [(d & args & Hd & Hh & Hauth & Hargs)|Href]) Hacked; [|done].
  exists k, d, args. split_and!; try done; [by exists raw|by destruct Hargs; auto|]. intros input Hdes.
  pose proof (gateway_outcome (ca_tool k) (td_risk_class d) args (caller (ca_config k))) as Htable.
  cbv zeta in Htable. fold input in Htable, Hauth. rewrite Hdes in Htable.
  assert (Hout : pd_outcome <$> rego_decision (JObj input) =
    Some (if elevated_principal (caller (ca_config k)) then REQUIRES_APPROVAL else DENY)).
  { apply Htable. intros p. apply Hvalid. by eapply list_elem_of_lookup_2. }
  destruct Hauth as [Ha|[Ha Happ]]; rewrite Hout in Ha; destruct (elevated_principal _); done.
Qed.

(* ------------------------------------------------------------------ *)
(** ** Properties *)

Section properties.
Context {H W : Type} `{!StateStore W} `{Rendering}.
Context (sha256 : string -> string) (model_dump_json : json -> string) (float_norm : string -> string).
Context (registry : ToolRegistry H) (calls : list client_call).
Abbreviation reachable := (reachable sha256 model_dump_json float_norm registry calls).

(** C2: however calls and operators interleave, and whichever of the components
    fail, every run of a tool is authorized.  It is a run of the handler
    registered under the name the call asked for, in the tenant of the caller, on
    a request that the tool's input model returned for some arguments; and the
    policy was asked about this request: about its fields, or about arguments the
    input model reads as this request.  If the tool is not read-only or these
    arguments are destructive, the caller is an operator or an administrator, and
    before the run an operator had approved, with a reason, a request that carries
    exactly this policy input - unless the store had not acknowledged a transition of
    that call to "executing". *)
Theorem concurrent_runs_authorized ts w :
  reachable ts w ->
  (forall k p, k ∈ calls -> caller (ca_config k) = Some p -> Principal_valid p = true) ->
  forall run, run ∈ sy_runs w -> ru_call_id run ∉ sy_refused w ->
  exists k d args, calls !! ru_call run = Some k /\
    registry_get registry (ca_tool k) = Ok d /\ td_handler d = ru_handler run /\
    ru_tenant run = tenant_or_local (caller (ca_config k)) /\
    (exists raw, registry_validate registry (ca_tool k) raw = Ok (ru_request run)) /\
    (args = model_dump (ru_request run) \/ registry_validate registry (ca_tool k) args = Ok (ru_request run)) /\
    let input := make_policy_input (ca_tool k) (td_risk_class d) args (caller (ca_config k)) in
    (destructive (JObj input) || negb (bool_decide (td_risk_class d = READ_ONLY)) = true ->
     elevated_principal (caller (ca_config k)) = true /\
     exists id approval approver reason,
       decision_made (ru_queue_ops run) id approval true approver reason /\ ap_policy_input approval = input).
Proof.
  intros Hreach Hvalid run Hrun Hacked.
  destruct (reachable_ok _ _ _ _ _ _ _ Hreach) as (obs & [Hok _ _]).
  exact (run_ok_allowed _ _ _ _ Hvalid (proj1 (Forall_forall _ _) (so_runs _ _ _ _ Hok) run Hrun) Hacked).
Qed.

(** C7: the audit log tells what happened, under every interleaving.  No call is
    reported twice; each record names the tool and the arguments of a call whose
    record in the state store is in a final state, and that state is the outcome
    the record reports; and while every write reached the disk, the file of the
    log verifies. *)
Theorem concurrent_audit_faithful ts w :
  (forall v, json_wf float_norm v = true -> loads float_norm (model_dump_json v) = Some v) ->
  reachable ts w ->
  NoDup (appended_ids (sy_appends w)) /\
  (forallb (event_wf float_norm) (sy_appends w) = true ->
   verify_audit_file sha256 float_norm (al_file (sy_logger sha256 model_dump_json float_norm w)) = Ok true) /\
  exists s, represents (sy_store w) s /\
    forall ev, ev ∈ sy_appends w -> exists fields timestamp out rec,
      ev = Append fields timestamp out /\ ms_calls s !! af_call_id fields = Some rec /\
      terminal (tc_current_state rec) = true /\ af_outcome fields = audit_outcome (tc_current_state rec) /\
      af_tool_name fields = tc_tool_name rec /\ af_arguments fields = tc_arguments rec.
Proof.
  intros Hloads Hreach. destruct (reachable_ok _ _ _ _ _ _ _ Hreach) as (obs & [Hok _ _]).
  destruct Hok as [_ (s & Hrep & _ & Hc) _ _ [Honce Hseen]]. split; [done|]. split.
  - intros Hwf.
    destruct (log_run_ok sha256 model_dump_json float_norm Hloads (sy_appends w) new_logger) as [Hlog _]; [done..|].
    by apply log_ok_verifies.
  - exists s. split; [done|]. intros ev Hev.
    destruct (proj1 (Forall_forall _ _) Hseen ev Hev)
      as (fields & ts0 & out & c & k & -> & Hk & Hid & _ & Hset & Hterm & Hout & Htool & Harg).
    destruct (Hc c k Hk) as [_ _ Hrec Hsettled _ Hnamed].
    destruct (Hsettled _ Hid Hset) as (rec & Hs & Hst). destruct (Hrec _ _ Hid Hs) as [Ht Ha].
    exists fields, ts0, out, rec. rewrite Hst, Ht, Ha. done.
Qed.

(** C8: what a client is told is what happened, under every interleaving.  A call
    that returned success ran its tool, was given an answer the tool's output model
    accepts and returned this output, and its record in the state store is in the
    state "succeeded"; a call that returned an error has its record in the
    state this error maps to, unless the error is that the store or the control
    plane was unavailable. *)
Theorem concurrent_results_recorded ts w c k res s :
  reachable ts w -> calls !! c = Some k -> ts !! c = Some (Ret (Ok res, s)) ->
  exists st, represents (sy_store w) st /\
  let in_state state := exists id rec, ms_calls st !! id = Some rec /\ tc_current_state rec = state /\
    tc_tool_name rec = ca_tool k /\ tc_arguments rec = ca_arguments k in
  (in_state SUCCEEDED /\ exists run answer d output, run ∈ sy_runs w /\ ru_call run = c /\
     (c, Ok answer) ∈ sy_answers w /\ registry_get registry (ca_tool k) = Ok d /\
     validate_output d answer = Ok output /\ res = tool_result (model_dump output) false) \/
  (exists g, res = error_result g /\
    (in_state (terminal_of g) \/ error_isinstance (ge_class g) StateStoreUnavailableError = true \/
     g = persistence_error)).
Proof.
  intros Hreach Hk Hts. destruct (reachable_ok _ _ _ _ _ _ _ Hreach) as (obs & [Hok _ Hthreads]).
  destruct (Hthreads c k _ Hk Hts) as (b & Hfinal). cbn in Hfinal.
  destruct Hok as [_ (st & Hrep & _ & Hc) _ Hran _]. exists st. split; [done|]. intros in_state.
  destruct (Hc c k Hk) as [_ _ Hrec Hsettled _ Hnamed].
  assert (Hstate : forall state, o_settled (obs c) = true -> o_last (obs c) = state -> in_state state).
  { intros state Hset <-. destruct (Hnamed Hset) as [id Hid]. destruct (Hsettled _ Hid Hset) as (rec & Hs & Hst).
    exists id, rec. destruct (Hrec _ _ Hid Hs). done. }
  destruct Hfinal as [[[(d & runs & j & output & Hd & Hruns & Hval & -> & Hl & Hset) _]|
    (g & -> & [[Hg _]|(Hl & Hset & _)])]|([= ->] & _)].
  - left. split; [by apply Hstate|]. destruct (ran_of _ _ _ c (Ok j) Hran) as (Hans & run & Hrun & Hcall).
    { rewrite Hruns. apply elem_of_app. right. by left. }
    by exists run, j, d, output.
  - right. exists g. auto.
  - right. exists g. split; [done|]. left. by apply Hstate.
  - right. exists persistence_error. auto.
Qed.
End properties.

(* ------------------------------------------------------------------ *)
(** ** Witnesses *)

#[local] Existing Instance example.rendering.

(** Both calls of the schedule returned success, and both tools ran. *)
Definition summary (x : option (list (prog (gw_sig string) (result exc CallToolResult * locals)) *
    system string InMemoryStateStore)) :=
  match x with
  | Some (ts, w) =>
      Some (map (fun p => match p with Ret (Ok res, _) => Some (is_error res) | _ => None end) ts,
            sy_refused w, forallb (event_wf id) (sy_appends w), map (fun r => (ru_call r, ru_handler r)) (sy_runs w))
  | None => None
  end.

Lemma example_final : exists p1 res s w run1 run2,
  example.final = Some ([p1; Ret (Ok res, s)], w) /\ is_error res = false /\ sy_refused w = [] /\
  forallb (event_wf id) (sy_appends w) = true /\ sy_runs w = [run1; run2] /\
  ru_call run2 = 1%nat /\ ru_handler run2 = "shell".
Proof.
  assert (Hc : summary example.final = Some ([Some false; Some false], [], true, [(0%nat, "run"); (1%nat, "shell")]))
    by (vm_compute; reflexivity).
  destruct example.final as [[ts w]|]; [|discriminate Hc]. unfold summary in Hc.
  destruct ts as [|p1 [|p2 [|]]]; try discriminate Hc.
  destruct (sy_runs w) as [|run1 [|run2 [|]]] eqn:Hruns; try discriminate Hc.
  destruct p2 as [[[res|e] s]| |]; try discriminate Hc.
  injection Hc as _ Herr Href Hwf _ _ Hcall Hh. by exists p1, res, s, w, run1, run2.
Qed.

Lemma example_reachable ts w :
  example.final = Some (ts, w) ->
  reachable (fun s => s) dumps id example.registry example.calls ts w.
Proof.
  intros Hf. exists example.system0. split.
  - clear Hf. split; [|split_and!; reflexivity]. exists empty_store. split; [reflexivity|]. by intros id [? ?].
  - unfold example.final in Hf. eapply play_steps. exact Hf.
Qed.

Lemma concurrent_runs_authorized_witness :
  exists ts w run, example.final = Some (ts, w) /\ run ∈ sy_runs w /\ ru_handler run = "shell" /\
    exists id approval approver reason, decision_made (ru_queue_ops run) id approval true approver reason.
Proof.
  destruct example_final as (p1 & res & s & w & run1 & run2 & Hf & _ & Href & _ & Hruns & Hcall & Hh).
  exists [p1; Ret (Ok res, s)], w, run2. split; [exact Hf|]. split; [rewrite Hruns; apply elem_of_cons; right; by left|].
  split; [exact Hh|].
  destruct (concurrent_runs_authorized (fun s => s) dumps id example.registry example.calls _ w
    (example_reachable _ w Hf)) with (run := run2) as (k & d & args & Hk & Hd & _ & _ & _ & _ & Hauth).
  - clear. intros k p [->|[->|[]%elem_of_nil]%elem_of_cons]%elem_of_cons [= <-]; vm_compute; reflexivity.
  - rewrite Hruns. apply elem_of_cons. right. by left.
  - rewrite Href. apply not_elem_of_nil.
  - rewrite Hcall in Hk. injection Hk as <-. injection Hd as <-.
    destruct Hauth as (_ & id & approval & approver & reason & Hdec & _); [by rewrite orb_true_r|].
    exists id, approval, approver, reason. exact Hdec.
Defined.

Lemma concurrent_audit_faithful_witness :
  exists ts w, example.final = Some (ts, w) /\
    verify_audit_file (fun s => s) id (al_file (sy_logger (fun s => s) dumps id w)) = Ok true.
Proof.
  destruct example_final as (p1 & res & s & w & run1 & run2 & Hf & _ & _ & Hwf & _).
  exists [p1; Ret (Ok res, s)], w. split; [exact Hf|].
  destruct (concurrent_audit_faithful (fun s => s) dumps id example.registry example.calls
    [p1; Ret (Ok res, s)] w) as (_ & Hv & _).
  - intros v. apply loads_print.
  - exact (example_reachable _ w Hf).
  - exact (Hv Hwf).
Defined.

Lemma concurrent_results_recorded_witness :
  exists ts w res s st, example.final = Some (ts, w) /\ ts !! 1%nat = Some (Ret (Ok res, s)) /\
    represents (sy_store w) st /\ exists id rec, ms_calls st !! id = Some rec /\
    tc_current_state rec = SUCCEEDED /\ tc_tool_name rec = "shell_exec".
Proof.
  destruct example_final as (p1 & res & s & w & run1 & run2 & Hf & Herr & _).
  exists [p1; Ret (Ok res, s)], w, res, s.
  destruct (concurrent_results_recorded (fun s => s) dumps id example.registry example.calls _ w 1 _ res s
    (example_reachable _ w Hf) eq_refl eq_refl) as (st & Hst & Hcase).
  exists st. split; [exact Hf|]. split; [reflexivity|]. split; [exact Hst|].
  destruct Hcase as [((id & rec & Hrec & Hs & Ht & _) & _)|(g & -> & _)]; [|discriminate Herr].
  exists id, rec. split; [exact Hrec|]. split; [exact Hs|exact Ht].
Defined.
