(* ===== verification/QueuedSystem.v ===== *)
(** * The queued gateway: concurrent calls and the execution workers

    With [worker_mode = "queued"] the handlers of the gateway's registry are the
    proxies of [create_worker_proxy_registry]: running a tool signs a job, submits
    it to the worker service in the process and waits.  This file composes the
    running gateway of [System] with the worker service of [Worker].  A run of a
    tool is no longer one step: it begins with a submission, goes on with any
    events of the service - other calls run meanwhile, workers take jobs, waits
    time out or are cancelled, the service stops - and ends when the submission
    has returned.  The composition refines the calls over [tool_service], what the
    calls may rely on of the workers. *)

From stdpp Require Import relations functions.
From S2P Require Import Prelude Dict Pystr Json Models Errors Effects Registry AuditLog StateStore Hitl Policy Circuit Worker WorkerSpec WorkerProps WorkerJobs WorkerClients Server ServerSpec System.
From Stdlib Require Import QArith.
Open Scope Z_scope.

(** The job a run of a tool submits: the proxy's handler in the worker context of
    the call, and [InProcessWorkerClient.execute]. *)
Definition submitted_job `{Rendering} (sha256 : string -> string) (hmac_sha256 : string -> string -> string)
    (secret : string) (handler : proxy_handler) (call_id tenant : string) (request : BaseModel)
    (job_id : string) (submitted_at : Z) : option WorkerJob :=
  match proxy_handle sha256 handler (Some (call_id, tenant)) request tt with
  | Call (PExecute tool_name arguments risk_class call_id tenant_id key) _ =>
      Some (make_job hmac_sha256 secret tool_name arguments risk_class call_id tenant_id key job_id submitted_at)
  | _ => None
  end.

(** What the proxy's handler returns when the submission has. *)
Definition proxy_output (r : result exc WorkerResult) : result exc json := result_map JObj (in_process_output r).

(** The gateway, the service with the handlers it has run, the runs of tools begun
    so far (in the order of their submissions), and the submission each waiting
    call waits for. *)
Record queued (W : Type) := {
  qu_system : system proxy_handler W;
  qu_workers : world;
  qu_handlers : list handler_event;
  qu_runs : list (tool_run proxy_handler);
  qu_waiting : gmap nat nat
}.
Arguments qu_system {W}. Arguments qu_workers {W}. Arguments qu_handlers {W}.
Arguments qu_runs {W}. Arguments qu_waiting {W}.

Definition is_run_tool {H} (o : gw_op H) : bool := match o with RunTool _ _ _ _ => true | _ => false end.

Section queued.
Context {H W : Type} `{!StateStore W} `{Rendering}.
Context (sha256 : string -> string) (model_dump_json : json -> string) (float_norm : string -> string).
Context (hmac_sha256 : string -> string -> string) (secret : string).
Context (max_concurrency queue_size failure_threshold reset_timeout : Z).
Context (source : ToolRegistry H) (proxies : ToolRegistry proxy_handler).
Context (calls : list client_call).
Abbreviation respond := (respond sha256 model_dump_json float_norm (H := proxy_handler) (W := W)).
Abbreviation service_step := (service_step hmac_sha256 source secret max_concurrency queue_size).
Abbreviation program := (prog (gw_sig proxy_handler)).

Definition with_system (w : system proxy_handler W) (q : queued W) : queued W :=
  {| qu_system := w; qu_workers := qu_workers q; qu_handlers := qu_handlers q; qu_runs := qu_runs q;
     qu_waiting := qu_waiting q |}.

(** The run that begins for call [c]. *)
Definition begun_run (q : queued W) (c : nat) (handler : proxy_handler) (id tenant : string) (request : BaseModel) :
    tool_run proxy_handler :=
  {| ru_call := c; ru_handler := handler; ru_call_id := id; ru_tenant := tenant; ru_request := request;
     ru_queue_ops := sy_queue_ops (qu_system q) |}.

Inductive queued_step {A} : list (program A) * queued W -> list (program A) * queued W -> Prop :=
| queued_call ts q c o k r w :
    ts !! c = Some (Call (E := gw_sig proxy_handler) o k) -> is_run_tool o = false ->
    respond (qu_system q) c o r w -> queued_step (ts, q) (<[c := k r]> ts, with_system w q)
| queued_decide ts q id approved approver reason r ops :
    queue_answers (sy_queue_ops (qu_system q)) (QDecide id approved approver reason) r ops ->
    queued_step (ts, q) (ts, with_system (with_queue_ops ops (qu_system q)) q)
| queued_submit ts q c handler id tenant request k job_id submitted_at job now now' w :
    ts !! c = Some (Call (E := gw_sig proxy_handler) (RunTool handler id tenant request) k) ->
    qu_waiting q !! c = None ->
    submitted_job sha256 hmac_sha256 secret handler id tenant request job_id submitted_at = Some job ->
    service_step (qu_workers q) (ESubmit job now now') = Some w ->
    queued_step (ts, q) (ts,
      {| qu_system := qu_system q; qu_workers := w; qu_handlers := qu_handlers q;
         qu_runs := qu_runs q ++ [begun_run q c handler id tenant request];
         qu_waiting := <[c := length (clients (qu_workers q))]> (qu_waiting q) |})
| queued_work ts q ev w :
    is_submit ev = false -> service_step (qu_workers q) ev = Some w ->
    queued_step (ts, q) (ts,
      {| qu_system := qu_system q; qu_workers := w;
         qu_handlers := qu_handlers q ++ WorkerSpec.observe source (service (qu_workers q)) ev;
         qu_runs := qu_runs q; qu_waiting := qu_waiting q |})
| queued_answer ts q c handler id tenant request k n job r :
    ts !! c = Some (Call (E := gw_sig proxy_handler) (RunTool handler id tenant request) k) ->
    qu_waiting q !! c = Some n -> clients (qu_workers q) !! n = Some (job, Returned r) ->
    queued_step (ts, q) (<[c := k (proxy_output r)]> ts,
      {| qu_system := log_tool_run (begun_run q c handler id tenant request) (proxy_output r) (qu_system q);
         qu_workers := qu_workers q; qu_handlers := qu_handlers q; qu_runs := qu_runs q;
         qu_waiting := delete c (qu_waiting q) |}).

(** The gateway before its first call. *)
Definition fresh_queued (q : queued W) : Prop :=
  fresh_system (qu_system q) /\ qu_workers q = initial_world failure_threshold reset_timeout /\
  qu_handlers q = [] /\ qu_runs q = [] /\ qu_waiting q = ∅.

Definition queued_reachable (ts : list (program (result exc CallToolResult * locals))) (q : queued W) : Prop :=
  exists q0, fresh_queued q0 /\ rtc queued_step (map (program_of proxies) calls, q0) (ts, q).

(* ------------------------------------------------------------------ *)
(** ** The invariant *)

(** The job of a run, up to its identifier and the time. *)
Definition job_of (run : tool_run proxy_handler) (job : WorkerJob) : Prop :=
  exists job_id submitted_at, submitted_job sha256 hmac_sha256 secret (ru_handler run) (ru_call_id run)
    (ru_tenant run) (ru_request run) job_id submitted_at = Some job.

(** The runs of a call, and whether it waits for one. *)
Definition runs_of (c : nat) (q : queued W) : list (tool_run proxy_handler) :=
  List.filter (fun run => Nat.eqb (ru_call run) c) (qu_runs q).
Definition waits (c : nat) (q : queued W) : nat := match qu_waiting q !! c with Some _ => 1 | None => 0 end.

(** A run was checked when it began, and belongs to the record of its call. *)
Definition run_begun (obs : nat -> observer) (refused : list string) (run : tool_run proxy_handler) : Prop :=
  run_ok proxies calls refused run /\ o_id (obs (ru_call run)) = Some (ru_call_id run).

(** An answer with an output is that of a submission of the same call. *)
Definition answer_from (q : queued W) (c : nat) (answer : result exc json) : Prop :=
  forall j, answer = Ok j -> exists n run job r out, qu_runs q !! n = Some run /\ ru_call run = c /\
    clients (qu_workers q) !! n = Some (job, Returned (Ok r)) /\ wr_output r = Some out /\ j = JObj out.

Record queued_inv obs (ts : list (program (result exc CallToolResult * locals))) (q : queued W) : Prop := {
  qi_system : system_inv proxies calls obs ts (qu_system q);
  qi_workers : workers_ok hmac_sha256 source secret (qu_workers q) (qu_handlers q);
  qi_jobs : Forall2 job_of (qu_runs q) (map fst (clients (qu_workers q)));
  qi_begun : Forall (run_begun obs (sy_refused (qu_system q))) (qu_runs q);
  qi_waiting c n : qu_waiting q !! c = Some n -> exists run k, qu_runs q !! n = Some run /\ ru_call run = c /\
    ts !! c = Some (Call (E := gw_sig proxy_handler)
                      (RunTool (ru_handler run) (ru_call_id run) (ru_tenant run) (ru_request run)) k);
  qi_counts c : length (runs_of c q) = (length (o_runs (obs c)) + waits c q)%nat;
  qi_bound c k : calls !! c = Some k -> (length (runs_of c q) <= 3)%nat /\
    ((2 <= length (runs_of c q))%nat -> rerunnable proxies (ca_tool k));
  qi_answers c : Forall (answer_from q c) (o_runs (obs c))
}.

(** An operation that is no run of a tool leaves the name and the runs of its call. *)
Lemma observe_id {E} (reg : ToolRegistry E) cfg tool arguments m (o : gw_op E) r id :
  guard reg cfg tool arguments m o -> o_id m = Some id -> o_id (ServerSpec.observe m o r) = Some id.
Proof.
  intros Hg Hid. destruct o as [| | | | | |[]| | | | | | | | | | |]; try done; try (by destruct r).
  cbn in Hg. destruct Hg. congruence.
Qed.
Lemma observe_same_runs {E} m (o : gw_op E) r : is_run_tool o = false -> o_runs (ServerSpec.observe m o r) = o_runs m.
Proof. intros Ho. destruct o as [| | | | | |[]| | | | | | | | | | |]; try done; by destruct r. Qed.

(** The refused transitions are remembered. *)
Lemma respond_refused w c (o : gw_op proxy_handler) r w' id :
  respond w c o r w' -> id ∈ sy_refused w -> id ∈ sy_refused w'.
Proof.
  intros Hr Hid. destruct o; cbn in Hr; try (by subst).
  - by destruct Hr as (? & _ & _ & ->).
  - destruct Hr as (st & -> & _). apply elem_of_app. by right.
  - by destruct Hr as [-> _].
  - by destruct Hr as (ops & _ & ->).
  - by destruct Hr as (ops & polls & _ & ->).
  - by destruct Hr as [(? & ? & _ & ->)|[_ ->]].
Qed.

Lemma begun_mono obs obs' refused refused' run :
  (forall id, id ∈ refused -> id ∈ refused') ->
  (forall c id, o_id (obs c) = Some id -> o_id (obs' c) = Some id) ->
  run_begun obs refused run -> run_begun obs' refused' run.
Proof. intros Href Hid [Hok Hrun]. split; [by eapply run_ok_mono|auto]. Qed.

Lemma initial_queued q : fresh_queued q -> queued_inv (fun _ => observer0) (map (program_of proxies) calls) q.
Proof.
  intros (Hsys & Hw & Hh & Hr & Hwait).
  split; unfold runs_of, waits; rewrite ?Hw, ?Hh, ?Hr, ?Hwait; cbn; try done.
  - by apply initial_inv.
  - apply initial_workers_ok.
  - intros c k _. split; [lia|]. intros. lia.
Qed.

(** A step of the gateway that runs no tool. *)
Lemma system_part obs obs' ts ts' q w :
  queued_inv obs ts q -> system_inv proxies calls obs' ts' w ->
  (forall id, id ∈ sy_refused (qu_system q) -> id ∈ sy_refused w) ->
  (forall c id, o_id (obs c) = Some id -> o_id (obs' c) = Some id) ->
  (forall c, o_runs (obs' c) = o_runs (obs c)) ->
  (forall c, is_Some (qu_waiting q !! c) -> ts' !! c = ts !! c) ->
  queued_inv obs' ts' (with_system w q).
Proof.
  intros [H1 H2 H3 H4 H5 H6 H7 H8] Hw Href Hid Hruns Hts. split; try done; cbn.
  - eapply Forall_impl; [exact H4|]. intros run. by apply begun_mono.
  - intros c n Hc. destruct (H5 c n Hc) as (run & k & Hrun & Hcall & Hthread).
    exists run, k. split_and!; [done..|]. rewrite Hts; [done|]. by rewrite Hc.
  - intros c. rewrite Hruns. apply H6.
  - intros c. rewrite Hruns. apply H8.
Qed.

Lemma call_step_inv obs ts q c (o : gw_op proxy_handler) k r w :
  queued_inv obs ts q -> ts !! c = Some (Call (E := gw_sig proxy_handler) o k) -> is_run_tool o = false ->
  respond (qu_system q) c o r w ->
  queued_inv (<[c := ServerSpec.observe (obs c) o r]> obs) (<[c := k r]> ts) (with_system w q).
Proof.
  intros Hq Hc Ho Hans. pose proof (qi_system _ _ _ Hq) as Hsys.
  destruct (call_allowed _ _ _ _ _ _ _ _ Hsys Hc) as (k' & Hk' & Hg).
  eapply system_part; [exact Hq|by eapply call_step_ok| | | |].
  - intros id. by eapply respond_refused.
  - intros c' id Hid. apply fn_insert_case; [|done]. intros ->. by eapply observe_id.
  - intros c'. apply fn_insert_case; [intros ->|done]. by apply observe_same_runs.
  - intros c' Hwait. apply list_lookup_insert_ne. intros <-.
    destruct Hwait as [n Hn]. destruct (qi_waiting _ _ _ Hq c n Hn) as (run & k'' & _ & _ & Hrun).
    rewrite Hc in Hrun. by injection Hrun as ->.
Qed.

Lemma decide_inv obs ts q id approved approver reason r ops :
  queued_inv obs ts q ->
  queue_answers (sy_queue_ops (qu_system q)) (QDecide id approved approver reason) r ops ->
  queued_inv obs ts (with_system (with_queue_ops ops (qu_system q)) q).
Proof.
  intros Hq Hans. eapply system_part; [exact Hq| |done..].
  eapply decide_step_ok; [by apply Hq|exact Hans].
Qed.

(** A step of the workers that is no submission. *)
Lemma work_inv obs ts q ev w :
  queued_inv obs ts q -> is_submit ev = false -> service_step (qu_workers q) ev = Some w ->
  queued_inv obs ts
    {| qu_system := qu_system q; qu_workers := w;
       qu_handlers := qu_handlers q ++ WorkerSpec.observe source (service (qu_workers q)) ev;
       qu_runs := qu_runs q; qu_waiting := qu_waiting q |}.
Proof.
  intros [H1 H2 H3 H4 H5 H6 H7 H8] Hev Hstep. split; try done; cbn.
  - by eapply workers_step.
  - by rewrite (clients_kept _ _ _ _ _ _ _ _ Hstep Hev).
  - intros c. eapply Forall_impl; [apply H8|]. intros r Hr j Hj.
    destruct (Hr j Hj) as (n & run & job & r' & out & Hrun & Hcall & Hn & Hout & ->).
    exists n, run, job, r', out. split_and!; try done. by eapply returned_stays.
Qed.

(** A call that waits for nothing and may run its tool: its run is checked. *)
Lemma run_checked obs ts q c handler id tenant request k :
  queued_inv obs ts q ->
  ts !! c = Some (Call (E := gw_sig proxy_handler) (RunTool handler id tenant request) k) ->
  run_begun obs (sy_refused (qu_system q)) (begun_run q c handler id tenant request).
Proof.
  intros Hq Hc. pose proof (qi_system _ _ _ Hq) as Hsys.
  destruct (call_allowed _ _ _ _ _ _ _ _ Hsys Hc) as (k' & Hk' & Hg).
  split; [|by destruct Hg].
  pose proof (run_tool_ok sha256 model_dump_json float_norm proxies calls _ _ c k' obs handler id tenant request
    (Err cancelled_error) (si_shared _ _ _ _ _ Hsys) Hk' Hg eq_refl) as [_ _ Hruns _ _].
  cbn in Hruns. apply Forall_app in Hruns as [_ Hrun]. by apply Forall_cons in Hrun as [Hrun _].
Qed.

Lemma runs_of_snoc c q run w h wt :
  runs_of c {| qu_system := qu_system q; qu_workers := w; qu_handlers := h; qu_runs := qu_runs q ++ [run];
               qu_waiting := wt |} =
  runs_of c q ++ (if Nat.eqb (ru_call run) c then [run] else []).
Proof. unfold runs_of. cbn. rewrite List.filter_app. cbn. done. Qed.

Lemma submit_clients w job now now' w' :
  service_step w (ESubmit job now now') = Some w' -> map fst (clients w') = map fst (clients w) ++ [job].
Proof.
  cbn. destruct (submit _ _ _ _ _ _ _) as [s st]. intros [= <-]. cbn. by rewrite map_app.
Qed.

Lemma submit_inv obs ts q c handler id tenant request k job_id submitted_at job now now' w :
  queued_inv obs ts q ->
  ts !! c = Some (Call (E := gw_sig proxy_handler) (RunTool handler id tenant request) k) ->
  qu_waiting q !! c = None ->
  submitted_job sha256 hmac_sha256 secret handler id tenant request job_id submitted_at = Some job ->
  service_step (qu_workers q) (ESubmit job now now') = Some w ->
  queued_inv obs ts
    {| qu_system := qu_system q; qu_workers := w; qu_handlers := qu_handlers q;
       qu_runs := qu_runs q ++ [begun_run q c handler id tenant request];
       qu_waiting := <[c := length (clients (qu_workers q))]> (qu_waiting q) |}.
Proof.
  intros Hq Hc Hwait Hjob Hstep. pose proof (run_checked _ _ _ _ _ _ _ _ _ Hq Hc) as Hbegun.
  destruct Hq as [H1 H2 H3 H4 H5 H6 H7 H8].
  destruct (call_allowed _ _ _ _ _ _ _ _ H1 Hc) as (k' & Hk' & Hg).
  assert (Hlen : length (qu_runs q) = length (clients (qu_workers q)))
    by (rewrite (Forall2_length _ _ _ H3); apply length_map).
  specialize (H6 c) as Hcount. unfold waits in Hcount. rewrite Hwait in Hcount.
  destruct Hg as (_ & _ & _ & _ & _ & Hlt & Hagain).
  split; try done; cbn [qu_system qu_workers qu_handlers qu_runs qu_waiting].
  - rewrite <- (app_nil_r (qu_handlers q)). by eapply (workers_step _ _ _ _ _ _ (ESubmit job now now')).
  - rewrite (submit_clients _ _ _ _ _ Hstep). apply Forall2_app; [done|]. constructor; [|constructor].
    by exists job_id, submitted_at.
  - apply Forall_app. split; [done|]. by constructor.
  - intros c' n. destruct (decide (c' = c)) as [->|Hne].
    + rewrite lookup_insert_eq. intros [= <-]. exists (begun_run q c handler id tenant request), k.
      split_and!; [|done..]. rewrite <- Hlen. by apply list_lookup_middle.
    + rewrite lookup_insert_ne by done. intros Hn. destruct (H5 c' n Hn) as (run & kn & Hrun & ?).
      exists run, kn. split; [by apply lookup_app_l_Some|done].
  - intros c'. rewrite runs_of_snoc, length_app. unfold waits. cbn.
    destruct (Nat.eqb_spec c c') as [<-|Hne].
    + rewrite lookup_insert_eq. cbn. lia.
    + rewrite lookup_insert_ne by done. cbn. specialize (H6 c'). unfold waits in H6. lia.
  - intros c' k'' Hk''. rewrite runs_of_snoc, length_app. cbn.
    destruct (Nat.eqb_spec c c') as [<-|Hne]; cbn; [|specialize (H7 c' k'' Hk''); by rewrite Nat.add_0_r].
    simplify_eq. split; [lia|]. intros Htwo. apply Hagain. destruct (o_runs (obs c)); [cbn in *; lia|done].
  - intros c'. eapply Forall_impl; [apply H8|]. intros r Hr j Hj.
    destruct (Hr j Hj) as (n & run & job' & r' & out & Hrun & Hcall & Hn & Hout & ->).
    exists n, run, job', r', out. cbn. split_and!; try done; [by apply lookup_app_l_Some|by eapply returned_stays].
Qed.

Lemma answer_inv obs ts q c handler id tenant request k n job r :
  queued_inv obs ts q ->
  ts !! c = Some (Call (E := gw_sig proxy_handler) (RunTool handler id tenant request) k) ->
  qu_waiting q !! c = Some n -> clients (qu_workers q) !! n = Some (job, Returned r) ->
  queued_inv (<[c := ServerSpec.observe (obs c) (RunTool handler id tenant request) (proxy_output r)]> obs)
    (<[c := k (proxy_output r)]> ts)
    {| qu_system := log_tool_run (begun_run q c handler id tenant request) (proxy_output r) (qu_system q);
       qu_workers := qu_workers q; qu_handlers := qu_handlers q; qu_runs := qu_runs q;
       qu_waiting := delete c (qu_waiting q) |}.
Proof.
  intros Hq Hc Hwait Hn. destruct Hq as [H1 H2 H3 H4 H5 H6 H7 H8].
  destruct (H5 c n Hwait) as (run & k0 & Hrun & Hcall & _).
  split; try done; cbn [qu_system qu_workers qu_handlers qu_runs qu_waiting].
  - eapply (call_step_ok sha256 model_dump_json float_norm); [exact H1|exact Hc|done].
  - eapply Forall_impl; [exact H4|]. intros run'. apply begun_mono; [done|].
    intros c' id' Hid. apply fn_insert_case; [by intros ->|done].
  - intros c' n' Hc'. apply lookup_delete_Some in Hc' as [Hne Hc'].
    destruct (H5 c' n' Hc') as (run' & k' & ?). exists run', k'. by rewrite list_lookup_insert_ne.
  - intros c'. unfold waits. cbn. specialize (H6 c') as Hcount. unfold waits in Hcount.
    apply fn_insert_case.
    + intros ->. rewrite lookup_delete_eq. rewrite Hwait in Hcount. cbn. rewrite length_app. cbn.
      unfold runs_of in *. cbn. lia.
    + intros Hne. by rewrite lookup_delete_ne.
  - intros c'. apply fn_insert_case; [intros ->|intros _; apply H8]. cbn. apply Forall_app.
    split; [apply H8|]. constructor; [|constructor]. intros j Hj.
    unfold proxy_output, in_process_output in Hj. destruct r as [r|e]; [|done]. cbn in Hj.
    destruct (wr_output r) as [out|] eqn:Hout; [|done]. injection Hj as <-.
    by exists n, run, job, r, out.
Qed.

Lemma queued_step_inv obs ts q ts' q' :
  queued_inv obs ts q -> queued_step (ts, q) (ts', q') -> exists obs', queued_inv obs' ts' q'.
Proof.
  intros Hq Hstep. inversion Hstep; subst; eexists.
  - by eapply call_step_inv.
  - by eapply decide_inv.
  - by eapply submit_inv.
  - by eapply work_inv.
  - by eapply answer_inv.
Qed.

Lemma queued_reachable_inv ts q : queued_reachable ts q -> exists obs, queued_inv obs ts q.
Proof.
  intros (q0 & Hfresh%initial_queued & Hrtc).
  enough (Hall : forall x y, rtc queued_step x y -> forall obs, queued_inv obs x.1 x.2 -> exists obs, queued_inv obs y.1 y.2).
  { exact (Hall _ _ Hrtc _ Hfresh). }
  clear. intros x y Hrtc. induction Hrtc as [|[ts1 q1] [ts2 q2] y Hs _ IH]; intros obs Hq; [by exists obs|].
  destruct (queued_step_inv _ _ _ _ _ Hq Hs) as (obs' & Hq'). by eapply IH.
Qed.

(* ------------------------------------------------------------------ *)
(** ** The jobs of the runs *)

(** The gateway's registry is the proxies of the workers' one. *)
Hypothesis source_ok : registry_ok source.
Hypothesis proxies_of : create_worker_proxy_registry source = Ok proxies.

Lemma proxied name : registry_get proxies name = result_map proxy_definition (registry_get source name).
Proof.
  destruct (proxies_get source source_ok) as (proxies' & Hp & _ & Hget).
  rewrite proxies_of in Hp. by injection Hp as <-.
Qed.

Lemma proxied_validate name arguments : registry_validate proxies name arguments = registry_validate source name arguments.
Proof. unfold registry_validate. rewrite proxied. by destruct (registry_get source name). Qed.

Lemma job_fields run job :
  job_of run job ->
  wj_call_id job = ru_call_id run /\ wj_tenant_id job = ru_tenant run /\
  wj_tool_name job = definition_name (ru_handler run) /\ wj_risk_class job = definition_risk (ru_handler run) /\
  wj_arguments job = model_dump (ru_request run) /\
  wj_idempotency_key job = ru_call_id run +:+ ":" +:+ definition_name (ru_handler run).
Proof.
  intros (job_id & submitted_at & Hjob). cbn in Hjob. injection Hjob as <-.
  split_and!; try done. cbn. by destruct (ru_call_id run).
Qed.

(** A run that was checked, and what its job carries. *)
Lemma begun_job obs refused run job :
  run_begun obs refused run -> job_of run job -> exists k d, calls !! ru_call run = Some k /\
    registry_get source (ca_tool k) = Ok d /\ ru_handler run = td_handler (proxy_definition d) /\
    wj_call_id job = ru_call_id run /\ wj_tenant_id job = tenant_or_local (caller (ca_config k)) /\
    wj_tool_name job = ca_tool k /\ wj_risk_class job = td_risk_class d /\
    wj_arguments job = model_dump (ru_request run) /\
    wj_idempotency_key job = ru_call_id run +:+ ":" +:+ ca_tool k.
Proof.
  intros [(k & Hk & (d' & args & Hd' & Hh & _) & Ht & _) _] (H1 & H2 & H3 & H4 & H5 & H6)%job_fields.
  rewrite proxied in Hd'. destruct (registry_get source (ca_tool k)) as [d|e] eqn:Hd; [|done].
  injection Hd' as <-. rewrite <- Hh in H3, H4, H6. cbn in H3, H4, H6.
  rewrite (registry_get_name _ _ _ source_ok Hd) in H3, H6.
  exists k, d. rewrite H2, Ht. split_and!; done.
Qed.

Lemma count_positive P l : (1 <= count P l)%nat -> exists job, job ∈ l /\ P job = true.
Proof.
  unfold count. destruct (List.filter P l) as [|job jobs] eqn:Hf; cbn; [lia|]. intros _. exists job.
  assert (Hin : In job (List.filter P l)) by (rewrite Hf; by left).
  apply filter_In in Hin as [Hin Hp]. by rewrite list_elem_of_In.
Qed.

(** Every handler was started on the job of a run. *)
Lemma started_run obs ts q job request :
  queued_inv obs ts q -> HandlerStarted job request ∈ qu_handlers q ->
  registry_validate source (wj_tool_name job) (wj_arguments job) = Ok request /\
  exists run, run ∈ qu_runs q /\ job_of run job.
Proof.
  intros Hq Hin. destruct (qi_workers _ _ _ Hq) as [_ _ Hst _ Hjobs _ _].
  rewrite Forall_forall in Hst. destruct (Hst _ Hin) as [_ Hval]. split; [done|].
  specialize (Hjobs (fun j => bool_decide (j = job))).
  pose proof (count_in (fun j => bool_decide (j = job)) job _ (starts_in _ _ _ Hin) (bool_decide_eq_true_2 _ eq_refl)) as Hone.
  destruct (count_positive (fun j => bool_decide (j = job)) (map fst (clients (qu_workers q)))) as (job' & Hjob & ->%bool_decide_eq_true); [lia|].
  apply list_elem_of_lookup in Hjob as [n Hn].
  destruct (Forall2_lookup_r _ _ _ _ _ (qi_jobs _ _ _ Hq) Hn) as (run & Hrun & Hof).
  exists run. split; [by eapply list_elem_of_lookup_2|done].
Qed.

(** The runs of a call are those under the identifier of its record. *)
Lemma runs_with_id obs ts q run :
  queued_inv obs ts q -> run ∈ qu_runs q ->
  (count (fun job => String.eqb (wj_call_id job) (ru_call_id run)) (map fst (clients (qu_workers q)))
   <= length (runs_of (ru_call run) q))%nat.
Proof.
  intros Hq Hrun. pose proof (qi_begun _ _ _ Hq) as Hbegun. pose proof (qi_jobs _ _ _ Hq) as Hjobs.
  assert (Hsame : forall run', run' ∈ qu_runs q -> ru_call_id run' = ru_call_id run -> ru_call run' = ru_call run).
  { rewrite Forall_forall in Hbegun. intros run' Hrun' Heq. destruct (Hbegun _ Hrun) as [_ H1]. destruct (Hbegun _ Hrun') as [_ H2].
    pose proof (so_names _ _ _ _ (si_shared _ _ _ _ _ (qi_system _ _ _ Hq))) as Hn.
    eapply (no_record _ _ _ Hn); [exact H2|]. by rewrite H1, Heq. }
  unfold runs_of. clear Hrun Hbegun. revert Hsame.
  induction Hjobs as [|run' job runs jobs Hof Hjobs IH]; intros Hsame; [done|].
  rewrite count_cons. cbn [List.filter].
  assert (IH' := IH ltac:(intros r Hr; apply Hsame, elem_of_cons; by right)).
  destruct (job_fields _ _ Hof) as [Hid _]. unfold count at 1. cbn [List.filter]. rewrite Hid.
  destruct (String.eqb_spec (ru_call_id run') (ru_call_id run)) as [Heq|]; cbn [length].
  - rewrite (Hsame run') by (done || (apply elem_of_cons; by left)). rewrite Nat.eqb_refl. cbn. lia.
  - destruct (Nat.eqb _ _); cbn; lia.
Qed.

(* ------------------------------------------------------------------ *)
(** ** The abstract tool service *)

(** What the calls see of the workers: the jobs they submitted, those whose handler
    was started, the life of the handlers of each key, and which job a call waits for. *)
Record tool_service := {
  sp_system : system proxy_handler W;
  sp_jobs : list WorkerJob;
  sp_started : list WorkerJob;
  sp_phase : string -> phase;
  sp_waiting : gmap nat nat
}.

(** The job asks for the run of the handler for this call. *)
Definition job_for (handler : proxy_handler) (id tenant : string) (request : BaseModel) (job : WorkerJob) : Prop :=
  wj_call_id job = id /\ wj_tenant_id job = tenant /\ wj_tool_name job = definition_name handler /\
  wj_risk_class job = definition_risk handler /\ wj_arguments job = model_dump request /\
  wj_idempotency_key job = id +:+ ":" +:+ definition_name handler.

Definition spec_system (w : system proxy_handler W) (s : tool_service) : tool_service :=
  {| sp_system := w; sp_jobs := sp_jobs s; sp_started := sp_started s; sp_phase := sp_phase s;
     sp_waiting := sp_waiting s |}.
Definition spec_phase (job : WorkerJob) (p : phase) (started : list WorkerJob) (s : tool_service) : tool_service :=
  {| sp_system := sp_system s; sp_jobs := sp_jobs s; sp_started := started;
     sp_phase := <[wj_idempotency_key job := p]> (sp_phase s); sp_waiting := sp_waiting s |}.

Inductive spec_step {A} : list (program A) * tool_service -> list (program A) * tool_service -> Prop :=
| spec_call ts s c o k r w :
    ts !! c = Some (Call (E := gw_sig proxy_handler) o k) -> is_run_tool o = false ->
    respond (sp_system s) c o r w -> spec_step (ts, s) (<[c := k r]> ts, spec_system w s)
| spec_decide ts s id approved approver reason r ops :
    queue_answers (sy_queue_ops (sp_system s)) (QDecide id approved approver reason) r ops ->
    spec_step (ts, s) (ts, spec_system (with_queue_ops ops (sp_system s)) s)
| spec_request ts s c handler id tenant request k job :
    ts !! c = Some (Call (E := gw_sig proxy_handler) (RunTool handler id tenant request) k) ->
    sp_waiting s !! c = None -> job_for handler id tenant request job ->
    spec_step (ts, s) (ts,
      {| sp_system := sp_system s; sp_jobs := sp_jobs s ++ [job]; sp_started := sp_started s;
         sp_phase := sp_phase s; sp_waiting := <[c := length (sp_jobs s)]> (sp_waiting s) |})
| spec_start ts s job request :
    sp_phase s (wj_idempotency_key job) = NotRunning ->
    (forall P, (count P (sp_started s ++ [job]) <= count P (sp_jobs s))%nat) ->
    registry_validate source (wj_tool_name job) (wj_arguments job) = Ok request ->
    spec_step (ts, s) (ts, spec_phase job HandlerRunning (sp_started s ++ [job]) s)
| spec_succeed ts s job out output now :
    sp_phase s (wj_idempotency_key job) = HandlerRunning -> job ∈ sp_started s ->
    worker_output source job (Ok out) = Ok output ->
    spec_step (ts, s) (ts, spec_phase job (Succeeded (success_result job output now)) (sp_started s) s)
| spec_fail ts s job :
    sp_phase s (wj_idempotency_key job) = HandlerRunning -> job ∈ sp_started s ->
    spec_step (ts, s) (ts, spec_phase job NotRunning (sp_started s) s)
| spec_answer ts s c handler id tenant request k n job answer :
    ts !! c = Some (Call (E := gw_sig proxy_handler) (RunTool handler id tenant request) k) ->
    sp_waiting s !! c = Some n -> sp_jobs s !! n = Some job -> job_for handler id tenant request job ->
    (forall j, answer = Ok j -> exists r out, sp_phase s (wj_idempotency_key job) = Succeeded r /\
       wr_output r = Some out /\ j = JObj out) ->
    spec_step (ts, s) (<[c := k answer]> ts,
      {| sp_system := log_tool_run {| ru_call := c; ru_handler := handler; ru_call_id := id; ru_tenant := tenant;
                                      ru_request := request; ru_queue_ops := sy_queue_ops (sp_system s) |}
                        answer (sp_system s);
         sp_jobs := sp_jobs s; sp_started := sp_started s; sp_phase := sp_phase s;
         sp_waiting := delete c (sp_waiting s) |}).

Definition fresh_spec (s : tool_service) : Prop :=
  fresh_system (sp_system s) /\ sp_jobs s = [] /\ sp_started s = [] /\
  (forall key, sp_phase s key = NotRunning) /\ sp_waiting s = ∅.

(** The state of the queued gateway the calls see. *)
Record implements (q : queued W) (s : tool_service) : Prop := {
  im_system : sp_system s = qu_system q;
  im_jobs : sp_jobs s = map fst (clients (qu_workers q));
  im_started : sp_started s = starts (qu_handlers q);
  im_phases k : phases k NotRunning (qu_handlers q) = Some (sp_phase s k);
  im_waiting : sp_waiting s = qu_waiting q
}.

Definition initial_spec (q : queued W) : tool_service :=
  {| sp_system := qu_system q; sp_jobs := []; sp_started := []; sp_phase _ := NotRunning; sp_waiting := ∅ |}.
Lemma fresh_initial q : fresh_queued q -> fresh_spec (initial_spec q) /\ implements q (initial_spec q).
Proof.
  intros (Hsys & Hw & Hh & Hr & Hwait). split; [by split_and!|]. by split; rewrite ?Hw, ?Hh, ?Hwait.
Qed.

(** After a success nothing happens under its key. *)
Lemma phases_succeeded k p os job r p' :
  phases k p os = Some p' -> HandlerSucceeded job r ∈ os -> wj_idempotency_key job = k -> p' = Succeeded r.
Proof.
  assert (Hend : forall os r p', phases k (Succeeded r) os = Some p' -> p' = Succeeded r).
  { clear. intros os r p'. induction os as [|o os IH]; cbn; [by intros [= <-]|].
    unfold phase_step. destruct (String.eqb _ k); cbn; [by destruct o|done]. }
  intros Hp Hin Hk. revert p Hp. induction os as [|o os IH]; intros p; [by apply elem_of_nil in Hin|].
  cbn. intros (p1 & Hp1 & Hp)%bind_Some. apply elem_of_cons in Hin as [<-|Hin]; [|by eapply IH].
  unfold phase_step in Hp1. cbn in Hp1. rewrite Hk, String.eqb_refl in Hp1. cbn in Hp1.
  destruct p; try done. injection Hp1 as <-. by eapply Hend.
Qed.

(** What the events of the service do to the handlers. *)
Lemma observe_cases s ev :
  match WorkerSpec.observe source s ev with
  | [] => True
  | [HandlerStarted _ _] => True
  | [HandlerSucceeded job r] => exists i fut request out output now,
      tasks s !! i = Some (Running job fut request) /\ worker_output source job (Ok out) = Ok output /\
      r = success_result job output now
  | [HandlerFailed job] => exists i fut request, tasks s !! i = Some (Running job fut request)
  | _ => False
  end.
Proof.
  destruct ev; cbn; try done.
  - destruct (tasks s !! w) as [[]|]; try done. destruct (queue s) as [|[job fut] rest]; [done|].
    by destruct (registry_validate _ _ _).
  - destruct (tasks s !! w) as [[|job fut request|]|] eqn:Hw; try done.
    destruct (worker_output source job out) as [output|e] eqn:Ho; [|by eauto].
    exists w, fut, request. destruct out as [out|e]; [by exists out, output, now|].
    unfold worker_output in Ho. by destruct (registry_get source (wj_tool_name job)).
  - destruct (tasks s !! w) as [[]|] eqn:Hw; try done. eauto.
Qed.

(** The service after an event of its own, and the abstract service after the event
    of a handler. *)
Definition after_work (q : queued W) (w : world) (os : list handler_event) : queued W :=
  {| qu_system := qu_system q; qu_workers := w; qu_handlers := qu_handlers q ++ os;
     qu_runs := qu_runs q; qu_waiting := qu_waiting q |}.

Lemma implements_quiet q s w :
  implements q s -> map fst (clients w) = map fst (clients (qu_workers q)) -> implements (after_work q w []) s.
Proof. intros [H1 H2 H3 H4 H5] Hc. by split; cbn; rewrite ?app_nil_r, ?Hc. Qed.

Lemma implements_event q s w o p :
  implements q s -> map fst (clients w) = map fst (clients (qu_workers q)) ->
  phase_step (wj_idempotency_key (event_job o)) (sp_phase s (wj_idempotency_key (event_job o))) o = Some p ->
  implements (after_work q w [o]) (spec_phase (event_job o) p (sp_started s ++ starts [o]) s).
Proof.
  intros [H1 H2 H3 H4 H5] Hc Hp. split; cbn [after_work spec_phase sp_system sp_jobs sp_started sp_phase sp_waiting
    qu_system qu_workers qu_handlers qu_waiting]; rewrite ?Hc; try done.
  - by rewrite H3, starts_app.
  - intros k. rewrite phases_app, H4. cbn [mbind option_bind]. rewrite phases_one.
    destruct (String.eqb_spec (wj_idempotency_key (event_job o)) k) as [<-|Hne].
    + by rewrite fn_lookup_insert.
    + by rewrite fn_lookup_insert_ne.
Qed.

Lemma event_phase q s os o :
  implements q s -> is_Some (phases (wj_idempotency_key (event_job o)) NotRunning (qu_handlers q ++ o :: os)) ->
  is_Some (phase_step (wj_idempotency_key (event_job o)) (sp_phase s (wj_idempotency_key (event_job o))) o).
Proof.
  intros Him [p Hp]. rewrite phases_app, (im_phases _ _ Him) in Hp. cbn [mbind option_bind phases] in Hp.
  destruct (phase_step _ _ o); [eauto|done].
Qed.

Lemma phase_started k p job request p' :
  wj_idempotency_key job = k -> phase_step k p (HandlerStarted job request) = Some p' ->
  p = NotRunning /\ p' = HandlerRunning.
Proof. intros <-. unfold phase_step. cbn. rewrite String.eqb_refl. cbn. destruct p; naive_solver. Qed.
Lemma phase_ended k p o p' :
  wj_idempotency_key (event_job o) = k -> started_job o = None -> phase_step k p o = Some p' ->
  p = HandlerRunning /\ p' = match o with HandlerSucceeded _ r => Succeeded r | _ => NotRunning end.
Proof. intros <- Ho. unfold phase_step. rewrite String.eqb_refl. cbn. destruct o, p; naive_solver. Qed.

Lemma work_simulated obs {A} (ts : list (program A)) ts0 q s ev w :
  queued_inv obs ts0 q -> implements q s -> is_submit ev = false -> service_step (qu_workers q) ev = Some w ->
  exists s', rtc spec_step (ts, s) (ts, s') /\
    implements (after_work q w (WorkerSpec.observe source (service (qu_workers q)) ev)) s'.
Proof.
  intros Hq Him Hev Hstep. pose proof (clients_kept _ _ _ _ _ _ _ _ Hstep Hev) as Hclients.
  pose proof (workers_step _ _ _ _ _ _ _ _ _ Hstep (qi_workers _ _ _ Hq)) as [_ Hphase Hstarted _ Hjobs _ _].
  pose proof (observe_cases (service (qu_workers q)) ev) as Hcase.
  pose proof (wo_running _ _ _ _ _ (qi_workers _ _ _ Hq)) as Hrunning. rewrite Forall_forall in Hrunning.
  destruct (WorkerSpec.observe _ _ _) as [|o [|]].
  - exists s. split; [done|]. by apply implements_quiet.
  - destruct (event_phase q s [] o Him) as [p Hp]; [rewrite Hphase; eauto|].
    pose proof (implements_event _ _ _ _ _ Him Hclients Hp) as Him'.
    eexists. split; [apply rtc_once|exact Him']. destruct o as [job request|job r|job].
    + destruct (phase_started _ _ _ _ _ eq_refl Hp) as [Hno ->]. apply Forall_app in Hstarted as [_ Hst].
      apply Forall_cons in Hst as [[_ Hval] _]. eapply (spec_start _ _ _ request); [exact Hno| |exact Hval].
      intros P. specialize (Hjobs P). rewrite starts_app in Hjobs. rewrite (im_started _ _ Him), (im_jobs _ _ Him).
      rewrite <- Hclients. cbn [event_job]. change (starts [HandlerStarted job request]) with [job] in Hjobs. lia.
    + destruct Hcase as (i & fut & request & out & output & now & Hi & Hout & ->).
      destruct (phase_ended _ _ (HandlerSucceeded job _) _ eq_refl eq_refl Hp) as [Hrun ->].
      change (starts _) with (@nil WorkerJob). rewrite app_nil_r. eapply spec_succeed; [exact Hrun| |exact Hout]. rewrite (im_started _ _ Him).
      exact (Hrunning _ (list_elem_of_lookup_2 _ _ _ Hi)).
    + destruct Hcase as (i & fut & request & Hi).
      destruct (phase_ended _ _ (HandlerFailed job) _ eq_refl eq_refl Hp) as [Hrun ->].
      change (starts _) with (@nil WorkerJob). rewrite app_nil_r. apply spec_fail; [exact Hrun|]. rewrite (im_started _ _ Him).
      exact (Hrunning _ (list_elem_of_lookup_2 _ _ _ Hi)).
  - destruct o; done.
Qed.

(** The job a waiting call waits for. *)
Lemma waited_job obs ts q c n job st handler id tenant request k :
  queued_inv obs ts q -> qu_waiting q !! c = Some n -> clients (qu_workers q) !! n = Some (job, st) ->
  ts !! c = Some (Call (E := gw_sig proxy_handler) (RunTool handler id tenant request) k) ->
  job_for handler id tenant request job.
Proof.
  intros Hq Hwait Hn Hc. destruct (qi_waiting _ _ _ Hq c n Hwait) as (run & k' & Hrun & _ & Hthread).
  rewrite Hc in Hthread. injection Hthread as -> -> -> -> _.
  destruct (Forall2_lookup_l _ _ _ _ _ (qi_jobs _ _ _ Hq) Hrun) as (job' & Hjob & Hof).
  rewrite list_lookup_fmap, Hn in Hjob. injection Hjob as <-. exact (job_fields _ _ Hof).
Qed.

(** An output given to a call is that of a handler under the key of its job. *)
Lemma output_phase obs ts q s n job r j :
  queued_inv obs ts q -> implements q s -> clients (qu_workers q) !! n = Some (job, Returned r) ->
  proxy_output r = Ok j ->
  exists res out, sp_phase s (wj_idempotency_key job) = Succeeded res /\ wr_output res = Some out /\ j = JObj out.
Proof.
  intros Hq Him Hn Hj. pose proof (qi_workers _ _ _ Hq) as [_ _ _ (acc & Htr) _ _ [_ Hplain]].
  unfold proxy_output, in_process_output in Hj. destruct r as [res|e]; [|done]. cbn in Hj.
  destruct (wr_output res) as [out|] eqn:Hout; [|done]. injection Hj as <-.
  pose proof (Forall_lookup_1 _ _ _ _ Hplain Hn) as Hp. cbn in Hp.
  assert (Hr : wr_outcome res = "succeeded") by (destruct Hp; congruence).
  destruct (tr_clients _ _ _ _ Htr _ _ _ Hn Hr) as (job' & Hsucc & Hkey).
  exists res, out. split; [|done].
  exact (phases_succeeded _ _ _ _ _ _ (im_phases _ _ Him _) Hsucc Hkey).
Qed.

Lemma step_simulated obs ts q ts' q' s :
  queued_inv obs ts q -> implements q s -> queued_step (ts, q) (ts', q') ->
  exists s', rtc spec_step (ts, s) (ts', s') /\ implements q' s'.
Proof.
  intros Hq Him Hstep. pose proof Him as [H1 H2 H3 H4 H5].
  inversion Hstep as [? ? c o k r w Hc Ho Hr|? ? id approved approver reason r ops Hr
    |? ? c handler id tenant request k job_id submitted_at job now now' w Hc Hwait Hjob Hw
    |? ? ev w Hev Hw|? ? c handler id tenant request k n job r Hc Hwait Hn]; subst.
  - exists (spec_system w s). split; [|by split]. apply rtc_once. eapply spec_call; [done..|by rewrite H1].
  - exists (spec_system (with_queue_ops ops (qu_system q)) s). split; [|by split].
    rewrite <- H1. apply rtc_once. eapply spec_decide. by rewrite H1.
  - eexists. split.
    + apply rtc_once. eapply (spec_request _ _ c handler id tenant request k job); [exact Hc|by rewrite H5|].
      apply (job_fields (begun_run q c handler id tenant request)). by exists job_id, submitted_at.
    + pose proof (submit_clients _ _ _ _ _ Hw) as Hcl. split; cbn; try done; [by rewrite H2|].
      by rewrite H2, H5, length_map.
  - by eapply work_simulated.
  - eexists. split.
    + apply rtc_once. eapply (spec_answer _ _ c handler id tenant request k n job (proxy_output r));
        [exact Hc|by rewrite H5|by rewrite H2, list_lookup_fmap, Hn|by eapply waited_job|].
      intros j. by eapply output_phase.
    + split; cbn; rewrite ?H1, ?H5; done.
Qed.

(* ------------------------------------------------------------------ *)
(** ** Properties *)

(** C14: with queued workers, every handler the workers start is authorized,
    however calls, operators and workers interleave and whichever of them fail.
    The handlers of one idempotency key run one after the other and never again
    after one succeeded.  Each was started on the job of a run of a call: for the
    tool, the tenant and the risk class of the call, on validated arguments; and if the
    tool is not read-only or the arguments are destructive, the caller is elevated
    and an operator had approved this policy input before the job was submitted -
    unless the store had not acknowledged the call's transition to "executing". *)
Theorem queued_handlers_authorized ts q :
  queued_reachable ts q ->
  (forall k p, k ∈ calls -> caller (ca_config k) = Some p -> Principal_valid p = true) ->
  (forall key, is_Some (phases key NotRunning (qu_handlers q))) /\
  forall job request, HandlerStarted job request ∈ qu_handlers q ->
  registry_validate source (wj_tool_name job) (wj_arguments job) = Ok request /\
  exists run k d, run ∈ qu_runs q /\ calls !! ru_call run = Some k /\
    registry_get source (ca_tool k) = Ok d /\ wj_call_id job = ru_call_id run /\
    wj_tenant_id job = tenant_or_local (caller (ca_config k)) /\
    wj_tool_name job = ca_tool k /\ wj_risk_class job = td_risk_class d /\
    (ru_call_id run ∉ sy_refused (qu_system q) ->
     exists args, (args = wj_arguments job \/ registry_validate source (ca_tool k) args = Ok (ru_request run)) /\
     let input := make_policy_input (ca_tool k) (td_risk_class d) args (caller (ca_config k)) in
     (destructive (JObj input) || negb (bool_decide (td_risk_class d = READ_ONLY)) = true ->
      elevated_principal (caller (ca_config k)) = true /\
      exists id approval approver reason,
        decision_made (ru_queue_ops run) id approval true approver reason /\ ap_policy_input approval = input)).
Proof.
  intros [obs Hq]%queued_reachable_inv Hvalid. split.
  { intros key. rewrite (wo_phases _ _ _ _ _ (qi_workers _ _ _ Hq)). eauto. }
  intros job request Hstart. destruct (started_run _ _ _ _ _ Hq Hstart) as (Hval & run & Hrun & Hof).
  split; [done|]. pose proof (proj1 (Forall_forall _ _) (qi_begun _ _ _ Hq) run Hrun) as Hbegun.
  destruct (begun_job _ _ _ _ Hbegun Hof) as (k & d & Hk & Hd & _ & Hid & Hten & Htool & Hrisk & Harg & _).
  exists run, k, d. split_and!; try done. intros Hacked.
  destruct (run_ok_allowed _ _ _ _ Hvalid (proj1 Hbegun) Hacked) as (k' & d' & args & Hk' & Hd' & _ & _ & _ & Hargs & Hauth).
  rewrite Hk in Hk'. injection Hk' as <-. rewrite proxied, Hd in Hd'. injection Hd' as <-.
  exists args. rewrite <- proxied_validate, Harg. done.
Qed.

(** C15: with queued workers a tool is started at most three times for a call, and
    more than once only if it is read-only or idempotent: neither a repeated
    submission, nor a timeout, nor a stopped service starts a handler twice. *)
Theorem queued_tool_starts_bounded ts q job request :
  queued_reachable ts q -> HandlerStarted job request ∈ qu_handlers q ->
  let n := count (fun job' => String.eqb (wj_call_id job') (wj_call_id job)) (starts (qu_handlers q)) in
  (1 <= n <= 3)%nat /\
  ((2 <= n)%nat -> exists d, registry_get source (wj_tool_name job) = Ok d /\
     (td_risk_class d = READ_ONLY \/ td_idempotent d = true)).
Proof.
  intros [obs Hq]%queued_reachable_inv Hstart n. destruct (started_run _ _ _ _ _ Hq Hstart) as (_ & run & Hrun & Hof).
  pose proof (proj1 (Forall_forall _ _) (qi_begun _ _ _ Hq) run Hrun) as Hbegun.
  destruct (begun_job _ _ _ _ Hbegun Hof) as (k & d & Hk & Hd & _ & Hid & _ & Htool & _).
  pose proof (wo_jobs _ _ _ _ _ (qi_workers _ _ _ Hq) (fun j => String.eqb (wj_call_id j) (wj_call_id job))) as Hle.
  pose proof (runs_with_id _ _ _ _ Hq Hrun) as Hruns. rewrite <- Hid in Hruns.
  destruct (qi_bound _ _ _ Hq _ _ Hk) as [Hthree Hagain].
  pose proof (count_in (fun j => String.eqb (wj_call_id j) (wj_call_id job)) job _ (starts_in _ _ _ Hstart)
    (String.eqb_refl _)) as Hone. fold n in Hle, Hone.
  split; [lia|]. intros Htwo. exists d. rewrite Htool. split; [done|].
  apply (Hagain ltac:(lia) (proxy_definition d)). by rewrite proxied, Hd.
Qed.

(** C16: with queued workers, success told to a client is the success of a handler.
    A call that returned a result without error had submitted a run, a handler of
    a job under the call's idempotency key succeeded, and the result is the
    output of that handler, validated by the tool's output model. *)
Theorem queued_results_from_handlers ts q c res s :
  queued_reachable ts q -> ts !! c = Some (Ret (Ok res, s)) -> is_error res = false ->
  exists run k job r out d output, run ∈ qu_runs q /\ ru_call run = c /\ calls !! c = Some k /\
    HandlerSucceeded job r ∈ qu_handlers q /\ wj_idempotency_key job = ru_call_id run +:+ ":" +:+ ca_tool k /\
    wr_output r = Some out /\ registry_get source (ca_tool k) = Ok d /\
    validate_output d (JObj out) = Ok output /\ res = tool_result (model_dump output) false.
Proof.
  intros [obs Hq]%queued_reachable_inv Hts Herr. pose proof (qi_system _ _ _ Hq) as Hsys.
  destruct (lookup_lt_is_Some_2 calls c) as [k Hk].
  { rewrite <- (si_length _ _ _ _ _ Hsys). by eapply lookup_lt_Some. }
  destruct (si_threads _ _ _ _ _ Hsys c k _ Hk Hts) as (b & Hfinal). cbn in Hfinal.
  destruct Hfinal as [[[(d' & runs & j & output & Hd' & Hruns & Hval & -> & _) _]|(g & -> & _)]|([= ->] & _)];
    [|discriminate Herr..].
  pose proof (qi_answers _ _ _ Hq c) as Hans. rewrite Hruns in Hans.
  apply Forall_app in Hans as [_ Hans]. apply Forall_cons in Hans as [Hans _].
  destruct (Hans j eq_refl) as (n & run & job & r & out & Hrun & Hcall & Hn & Hout & ->).
  pose proof (qi_workers _ _ _ Hq) as [_ _ _ (acc & Htr) _ _ [_ Hplain]].
  assert (Hr : wr_outcome r = "succeeded").
  { pose proof (Forall_lookup_1 _ _ _ _ Hplain Hn) as Hp. cbn in Hp. destruct Hp as [|Hnone]; congruence. }
  destruct (tr_clients _ _ _ _ Htr _ _ _ Hn Hr) as (job' & Hsucc & Hkey).
  destruct (Forall2_lookup_l _ _ _ _ _ (qi_jobs _ _ _ Hq) Hrun) as (job1 & Hjob1 & Hof).
  rewrite list_lookup_fmap, Hn in Hjob1. injection Hjob1 as <-.
  pose proof (Forall_lookup_1 _ _ _ _ (qi_begun _ _ _ Hq) Hrun) as Hbegun.
  destruct (begun_job _ _ _ _ Hbegun Hof) as (k' & d & Hk' & Hd & _ & _ & _ & _ & _ & _ & Hkey').
  rewrite Hcall, Hk in Hk'. injection Hk' as <-. rewrite proxied, Hd in Hd'. injection Hd' as <-.
  exists run, k, job', r, out, d, output. split_and!; try done; [by eapply list_elem_of_lookup_2|].
  by rewrite Hkey.
Qed.

(** C19: the gateway with queued workers implements the gateway over the abstract
    tool service of [spec_step], which knows of no queue, future, circuit, timeout or
    stop: of the handlers of an idempotency key one runs at a time and none
    after a success, each is started on validated arguments and once per submission of a
    call; and a call is given an output only if a handler under the key of its
    submission succeeded, and then the output that handler returned, validated. *)
Theorem queued_gateway_refines ts q :
  queued_reachable ts q ->
  exists s0 s, fresh_spec s0 /\ rtc spec_step (map (program_of proxies) calls, s0) (ts, s) /\ implements q s.
Proof.
  intros (q0 & Hfresh & Hrtc). exists (initial_spec q0). pose proof (initial_queued _ Hfresh) as Hinv.
  destruct (fresh_initial _ Hfresh) as [Hf Him].
  enough (Hall : forall x y, rtc queued_step x y -> forall obs s, queued_inv obs x.1 x.2 -> implements x.2 s ->
    exists s', rtc spec_step (x.1, s) (y.1, s') /\ implements y.2 s').
  { destruct (Hall _ _ Hrtc _ _ Hinv Him) as (s & Hs & Hend). by exists s. }
  clear. intros x y Hrtc. induction Hrtc as [x|[ts1 q1] [ts2 q2] y Hs _ IH]; intros obs s Hq Him; [by exists s|].
  destruct (step_simulated _ _ _ _ _ _ Hq Him Hs) as (s1 & Hs1 & Him1).
  destruct (queued_step_inv _ _ _ _ _ Hq Hs) as (obs' & Hq').
  destruct (IH _ _ Hq' Him1) as (s' & Hs' & Him'). exists s'. split; [by etrans|done].
Qed.
End queued.

(* ------------------------------------------------------------------ *)
(** ** Schedules, and an example *)

Section play.
Context {H : Type} `{Rendering}.
Context (sha256 : string -> string) (model_dump_json : json -> string) (float_norm : string -> string).
Context (hmac_sha256 : string -> string -> string) (secret : string).
Context (max_concurrency queue_size : Z) (source : ToolRegistry H).
Abbreviation pool A := (list (prog (gw_sig proxy_handler) A) * queued InMemoryStateStore)%type.
Abbreviation step := (queued_step sha256 model_dump_json float_norm hmac_sha256 secret max_concurrency queue_size source).
Abbreviation service_step := (service_step hmac_sha256 source secret max_concurrency queue_size).

(** A call takes its turn, an operator decides, or something happens in the service. *)
Inductive queued_turn :=
| QTurn (c : nat)
| QDecision (id : string) (approved : bool) (approver reason : string)
| QWork (ev : service_event).

(** The turn of a call that runs a tool: it submits the run, or gets the outcome of its
    submission; while it waits nothing happens. *)
Definition run_turn {A} (c : nat) (handler : proxy_handler) (id tenant : string) (request : BaseModel)
    (k : result exc json -> prog (gw_sig proxy_handler) A) (x : pool A) : option (pool A) :=
  let '(ts, q) := x in
  match qu_waiting q !! c with
  | None =>
      job ← submitted_job sha256 hmac_sha256 secret handler id tenant request
              ("job-" +:+ print_int (Z.of_nat (length (clients (qu_workers q))))) 0;
      w ← service_step (qu_workers q) (ESubmit job 0 0);
      Some (ts,
        {| qu_system := qu_system q; qu_workers := w; qu_handlers := qu_handlers q;
           qu_runs := qu_runs q ++ [begun_run q c handler id tenant request];
           qu_waiting := <[c := length (clients (qu_workers q))]> (qu_waiting q) |})
  | Some n =>
      match clients (qu_workers q) !! n with
      | Some (_, Returned r) =>
          Some (<[c := k (proxy_output r)]> ts,
            {| qu_system := log_tool_run (begun_run q c handler id tenant request) (proxy_output r) (qu_system q);
               qu_workers := qu_workers q; qu_handlers := qu_handlers q; qu_runs := qu_runs q;
               qu_waiting := delete c (qu_waiting q) |})
      | _ => Some x
      end
  end.

Definition other_turn {A} (c : nat) (o : gw_op proxy_handler)
    (k : result exc (ans (gw_sig proxy_handler) o) -> prog (gw_sig proxy_handler) A) (x : pool A) : option (pool A) :=
  a ← answer sha256 model_dump_json float_norm (fun _ _ => Err cancelled_error) (qu_system x.2) c o;
  Some (<[c := k a.1]> x.1, with_system a.2 x.2).

Definition call_turn {A} (c : nat) (x : pool A) : option (pool A) :=
  match x.1 !! c with
  | Some (Call o k) =>
      match o return (result exc (ans (gw_sig proxy_handler) o) -> prog (gw_sig proxy_handler) A) -> option (pool A) with
      | RunTool handler id tenant request => fun k => run_turn c handler id tenant request k x
      | o => fun k => other_turn c o k x
      end k
  | _ => Some x
  end.

Definition queued_turn_step {A} (t : queued_turn) (x : pool A) : option (pool A) :=
  let '(ts, q) := x in
  match t with
  | QTurn c => call_turn c x
  | QDecision id approved approver reason =>
      Some (ts, with_system
        (with_queue_ops (sy_queue_ops (qu_system q) ++ [QDecide id approved approver reason]) (qu_system q)) q)
  | QWork ev =>
      if is_submit ev then None else
      w ← service_step (qu_workers q) ev;
      Some (ts,
        {| qu_system := qu_system q; qu_workers := w;
           qu_handlers := qu_handlers q ++ WorkerSpec.observe source (service (qu_workers q)) ev;
           qu_runs := qu_runs q; qu_waiting := qu_waiting q |})
  end.

Definition queued_play {A} (turns : list queued_turn) (x : pool A) : option (pool A) :=
  fold_left (fun x t => x ≫= queued_turn_step t) turns (Some x).

Lemma run_turn_steps {A} c handler id tenant request k (x y : pool A) :
  x.1 !! c = Some (Call (E := gw_sig proxy_handler) (RunTool handler id tenant request) k) ->
  run_turn c handler id tenant request k x = Some y -> rtc step x y.
Proof.
  destruct x as [ts q]. cbn [fst]. intros Hc. unfold run_turn.
  destruct (qu_waiting q !! c) as [n|] eqn:Hwait.
  - destruct (clients (qu_workers q) !! n) as [[job [| | |r]]|] eqn:Hn; try (by intros [= <-]).
    intros [= <-]. apply rtc_once. by eapply queued_answer.
  - intros (job & Hjob & (w & Hw & [= <-])%bind_Some)%bind_Some. apply rtc_once. by eapply queued_submit.
Qed.

Lemma other_turn_steps {A} c o k (x y : pool A) :
  x.1 !! c = Some (Call (E := gw_sig proxy_handler) o k) -> is_run_tool o = false ->
  other_turn c o k x = Some y -> rtc step x y.
Proof.
  destruct x as [ts q]. cbn [fst]. intros Hc Ho ([r w] & Ha & [= <-])%bind_Some. apply rtc_once.
  eapply queued_call; [exact Hc|done|]. by eapply answer_respond.
Qed.

Lemma call_turn_steps {A} c (x y : pool A) : call_turn c x = Some y -> rtc step x y.
Proof.
  unfold call_turn. destruct (x.1 !! c) as [[a|o k|]|] eqn:Hc; try (by intros [= <-]).
  destruct o; try (by apply other_turn_steps). by apply run_turn_steps.
Qed.

Lemma queued_play_steps {A} turns (x y : pool A) : queued_play turns x = Some y -> rtc step x y.
Proof.
  revert x. induction turns as [|t turns IH]; intros x; [by intros [= <-]|].
  unfold queued_play. cbn [fold_left]. cbn [mbind option_bind].
  destruct (queued_turn_step t x) as [z|] eqn:Hz.
  - intros Hy%IH. etrans; [|exact Hy]. destruct x as [ts q].
    destruct t as [c|id approved approver reason|ev]; cbn [queued_turn_step] in Hz.
    + by eapply call_turn_steps.
    + injection Hz as <-. apply rtc_once. eapply queued_decide. left. done.
    + destruct (is_submit ev) eqn:Hev; [done|]. apply bind_Some in Hz as (w & Hw & [= <-]).
      apply rtc_once. by eapply queued_work.
  - clear. induction turns as [|t turns IH]; [done|]. exact IH.
Qed.
End play.

Module example.
#[export] Existing Instance System.example.rendering.

Definition hmac (secret message : string) : string := secret +:+ message.
Definition source : ToolRegistry string := System.example.registry.
Definition proxies : ToolRegistry proxy_handler :=
  match create_worker_proxy_registry source with Ok proxies => proxies | Err _ => empty_registry end.
Definition calls : list client_call := System.example.calls.
Definition queued0 : queued InMemoryStateStore :=
  {| qu_system := {| sy_store := empty_store; sy_ids := []; sy_queue_ops := []; sy_appends := []; sy_runs := [];
                     sy_answers := []; sy_refused := [] |};
     qu_workers := initial_world 3 30000000; qu_handlers := []; qu_runs := []; qu_waiting := ∅ |}.

(** The calls take turns until both wait for their jobs, an operator having approved
    the second one; two workers run the jobs, which end in the other order. *)
Definition turns : list queued_turn :=
  QWork EStart :: concat (repeat [QTurn 0; QTurn 1] 15) ++ [QDecision "id-2" true "carol" "reviewed"] ++
  concat (repeat [QTurn 1; QTurn 0] 15) ++
  map QWork [ETake 0 1 1; ETake 1 1 1; EFinish 1 (Ok (JObj [("rows", JInt 1)])) 2 2; EResume 1 3 3;
             EFinish 0 (Ok (JObj [("rows", JInt 7)])) 4 4; EResume 0 5 5] ++
  concat (repeat [QTurn 1; QTurn 0] 10).
Abbreviation final := (queued_play (fun s => s) dumps id hmac "secret" 2 8 source turns
  (map (program_of proxies) calls, queued0)).
End example.
#[local] Existing Instance example.rendering.

Abbreviation example_reachable_state :=
  (queued_reachable (fun s => s) dumps id example.hmac "secret" 2 8 3 30000000 example.source example.proxies
     example.calls (W := InMemoryStateStore)).

Lemma example_fresh : fresh_queued 3 30000000 example.queued0.
Proof.
  split; [|split_and!; reflexivity]. split; [|split_and!; reflexivity].
  exists empty_store. split; [reflexivity|]. by intros id [? ?].
Qed.

Lemma example_queued_reachable ts q : example.final = Some (ts, q) -> example_reachable_state ts q.
Proof.
  intros Hf. exists example.queued0. split; [exact example_fresh|].
  exact (queued_play_steps _ _ _ _ _ _ _ _ example.turns _ _ Hf).
Qed.

Lemma example_source_ok : registry_ok example.source.
Proof.
  split; [apply (bool_decide_unpack (NoDup (dict_keys (definitions example.source)))); vm_compute; exact I|].
  intros name d Hin. by apply elem_of_cons in Hin as [[= -> ->]|[[= -> ->]|[]%elem_of_nil]%elem_of_cons].
Qed.
Lemma example_proxies_of : create_worker_proxy_registry example.source = Ok example.proxies.
Proof. vm_compute. reflexivity. Qed.

(** Both calls returned success, and the handler of the second tool was started. *)
Definition queued_summary (x : option (list (prog (gw_sig proxy_handler) (result exc CallToolResult * locals)) *
    queued InMemoryStateStore)) :=
  match x with
  | Some (ts, q) =>
      Some (map (fun p => match p with Ret (Ok res, _) => Some (is_error res) | _ => None end) ts,
            sy_refused (qu_system q), map (fun job => (wj_tool_name job, wj_risk_class job)) (starts (qu_handlers q)),
            map ru_call (qu_runs q))
  | None => None
  end.

Lemma example_queued_final : exists p1 res s q,
  example.final = Some ([p1; Ret (Ok res, s)], q) /\ is_error res = false /\ sy_refused (qu_system q) = [] /\
  (exists job request, HandlerStarted job request ∈ qu_handlers q /\ wj_tool_name job = "shell_exec" /\
     wj_risk_class job = DESTRUCTIVE) /\ map ru_call (qu_runs q) = [0; 1]%nat.
Proof.
  assert (Hc : queued_summary example.final = Some ([Some false; Some false], [],
      [("db_query", READ_ONLY); ("shell_exec", DESTRUCTIVE)], [0; 1]%nat))
    by (vm_compute; reflexivity).
  destruct example.final as [[ts q]|]; [|discriminate Hc]. unfold queued_summary in Hc.
  destruct ts as [|p1 [|p2 [|]]]; try discriminate Hc.
  destruct p2 as [[[res|e] s]| |]; try discriminate Hc.
  injection Hc as _ Herr Href Hstarts Hruns. exists p1, res, s, q. split_and!; try assumption; [reflexivity|].
  assert (Hin : ("shell_exec", DESTRUCTIVE) ∈ map (fun job => (wj_tool_name job, wj_risk_class job)) (starts (qu_handlers q)))
    by (rewrite Hstarts; apply elem_of_cons; right; by left).
  apply list_elem_of_fmap in Hin as (job & [= Htool Hrisk] & Hjob).
  apply list_elem_of_omap in Hjob as ([job' request|job' r|job'] & Hev & [= ->]). by exists job, request.
Qed.

Lemma queued_handlers_authorized_witness : exists ts q job request,
  example.final = Some (ts, q) /\ HandlerStarted job request ∈ qu_handlers q /\ wj_tool_name job = "shell_exec" /\
  exists run id approval approver reason, run ∈ qu_runs q /\
    decision_made (ru_queue_ops run) id approval true approver reason.
Proof.
  destruct example_queued_final as (p1 & res & s & q & Hf & _ & Href & (job & request & Hstart & Htool & Hrisk) & _).
  exists [p1; Ret (Ok res, s)], q, job, request. split; [exact Hf|]. split; [exact Hstart|]. split; [exact Htool|].
  destruct (queued_handlers_authorized (fun s => s) dumps id example.hmac "secret" 2 8 3 30000000 example.source
    example.proxies example.calls example_source_ok example_proxies_of _ q (example_queued_reachable _ q Hf))
    as [_ Hall].
  - clear. intros k p [->|[->|[]%elem_of_nil]%elem_of_cons]%elem_of_cons [= <-]; vm_compute; reflexivity.
  - destruct (Hall job request Hstart) as (_ & run & k & d & Hrun & _ & _ & _ & _ & _ & Hd & Hauth).
    destruct Hauth as (args & _ & Hauth); [rewrite Href; apply not_elem_of_nil|].
    destruct Hauth as (_ & id & approval & approver & reason & Hdec & _);
      [rewrite <- Hd, Hrisk; by rewrite orb_true_r|].
    exists run, id, approval, approver, reason. split; [exact Hrun|exact Hdec].
Defined.

Lemma queued_tool_starts_bounded_witness : exists ts q job request,
  example.final = Some (ts, q) /\ HandlerStarted job request ∈ qu_handlers q /\ wj_tool_name job = "shell_exec" /\
  count (fun job' => String.eqb (wj_call_id job') (wj_call_id job)) (starts (qu_handlers q)) = 1%nat.
Proof.
  destruct example_queued_final as (p1 & res & s & q & Hf & _ & _ & (job & request & Hstart & Htool & _) & _).
  exists [p1; Ret (Ok res, s)], q, job, request. split; [exact Hf|]. split; [exact Hstart|]. split; [exact Htool|].
  destruct (queued_tool_starts_bounded (fun s => s) dumps id example.hmac "secret" 2 8 3 30000000 example.source
    example.proxies example.calls example_source_ok example_proxies_of _ q job request
    (example_queued_reachable _ q Hf) Hstart) as [Hone Hagain].
  destruct (decide (2 <= count (fun job' => String.eqb (wj_call_id job') (wj_call_id job)) (starts (qu_handlers q)))%nat)
    as [Htwo|Hlt]; [|lia].
  destruct (Hagain Htwo) as (d & Hd & Hsafe). rewrite Htool in Hd. injection Hd as <-. by destruct Hsafe.
Defined.

Lemma queued_results_from_handlers_witness : exists ts q res s job r,
  example.final = Some (ts, q) /\ ts !! 1%nat = Some (Ret (Ok res, s)) /\ HandlerSucceeded job r ∈ qu_handlers q.
Proof.
  destruct example_queued_final as (p1 & res & s & q & Hf & Herr & _).
  destruct (queued_results_from_handlers (fun s => s) dumps id example.hmac "secret" 2 8 3 30000000 example.source
    example.proxies example.calls example_source_ok example_proxies_of _ q 1 res s
    (example_queued_reachable _ q Hf) eq_refl Herr) as (run & k & job & r & out & d & output & _ & _ & _ & Hsucc & _).
  exists [p1; Ret (Ok res, s)], q, res, s, job, r. split; [exact Hf|]. split; [reflexivity|exact Hsucc].
Defined.

Lemma queued_gateway_refines_witness : exists ts q s0 s,
  example.final = Some (ts, q) /\ map ru_call (qu_runs q) = [0; 1]%nat /\ fresh_spec s0 /\
  rtc (spec_step (fun s => s) dumps id example.source) (map (program_of example.proxies) example.calls, s0) (ts, s) /\
  implements q s.
Proof.
  destruct example_queued_final as (p1 & res & s & q & Hf & _ & _ & _ & Hruns).
  destruct (queued_gateway_refines (fun s => s) dumps id example.hmac "secret" 2 8 3 30000000 example.source
    example.proxies example.calls _ q (example_queued_reachable _ q Hf)) as (s0 & s1 & Hfresh & Hsteps & Him).
  exists [p1; Ret (Ok res, s)], q, s0, s1. split; [exact Hf|]. split; [exact Hruns|].
  split; [exact Hfresh|]. split; [exact Hsteps|exact Him].
Defined.
