(* ===== verification/Gate.v ===== *)
(** * The release gate

    [eval/gate.py]: the violations found in an evaluation report and the exit
    status of the command.  The interpreter's conversion of a text to a float and
    its two-decimal format are arguments. *)

From S2P Require Import Prelude Dict Pystr Json Models Errors Http.
From Stdlib Require Import QArith.
Open Scope Z_scope.

(** A Python float. *)
Inductive pyfloat := Finite (q : Q) | Infinite (negative : bool) | NaN.

(** [a > b] *)
Definition float_gt (a b : pyfloat) : bool :=
  match a, b with
  | NaN, _ | _, NaN => false
  | Finite p, Finite q => negb (Qle_bool p q)
  | Infinite false, Infinite false => false
  | Infinite false, _ => true
  | _, Infinite true => match a with Infinite true => false | _ => true end
  | _, _ => false
  end.

Section gate.
Context (float_norm : string -> string) (repr : json -> string).
Context (parse_float : string -> option pyfloat) (fixed2 : pyfloat -> string).

(** [float(v)] *)
Definition py_float (v : json) : result exc pyfloat :=
  match v with
  | JBool b => Ok (Finite (if b then 1 else 0))
  | JInt z => if Z.abs z <? 2 ^ 1024 then Ok (Finite (z # 1))
              else Err (EPy OtherException "int too large to convert to float")
  | JFloat t => ok_or (parse_float t) (EPy ValueError "could not convert string to float")
  | JStr s => ok_or (parse_float s) (EPy ValueError "could not convert string to float")
  | _ => Err (EPy TypeError "float() argument must be a string or a real number")
  end.

Definition is_security (category : string) : bool :=
  String.eqb category "adversarial" || String.eqb category "destructive".

(** [str(result.get(key, default))] *)
Definition text_of (result : jdict) (key otherwise : string) : string :=
  match dict_get key result with Some v => py_str repr v | None => otherwise end.

(** The violations of one result. *)
Definition result_violations (result : json) : list string :=
  match result with
  | JObj result =>
      let name := text_of result "name" "unknown" in
      let category := text_of result "category" "general" in
      (if bool_decide (dict_get "passed" result = Some (JBool true)) then []
       else ["scenario failed: " +:+ name]) ++
      (if is_security category && negb (bool_decide (dict_get "observed" result = Some (JStr "blocked")))
       then ["security scenario was not blocked: " +:+ name] else []) ++
      (if String.eqb category "adversarial" && bool_decide (dict_get "observed" result = Some (JStr "succeeded"))
       then ["sandbox escape succeeded: " +:+ name] else [])
  | _ => ["evaluation result is not an object"]
  end.

(** The violations of the latency bound. *)
Definition latency_violations (metrics : jdict) (max_p95_ms : pyfloat) : result exc (list string) :=
  match dict_get "latency_p95_ms" metrics with
  | None => Ok ["latency_p95_ms is missing"]
  | Some v =>
      match py_float v with
      | Err e => if catches [TypeError; ValueError] e then Ok ["latency_p95_ms is not numeric"] else Err e
      | Ok p95 =>
          Ok (if float_gt p95 max_p95_ms
              then ["latency p95 " +:+ fixed2 p95 +:+ "ms exceeds " +:+ fixed2 max_p95_ms +:+ "ms"] else [])
      end
  end.

(** [validate_report] *)
Definition validate_report (report : jdict) (max_p95_ms : option pyfloat) : result exc (list string) :=
  match dict_get "results" report with
  | Some (JList ((_ :: _) as results)) =>
      let violations :=
        match dict_get "metrics" report with
        | Some (JObj _) => []
        | _ => ["evaluation report contains no metrics object"]
        end ++ concat (map result_violations results) in
      match dict_get "metrics" report, max_p95_ms with
      | Some (JObj metrics), Some bound => result_map (app violations) (latency_violations metrics bound)
      | _, _ => Ok violations
      end
  | _ => Ok ["evaluation report contains no scenario results"]
  end.

(** [main], on what reading the file gave: the exit status. An exception that is
    not handled leaves with status 1. *)
Definition gate_main (text : result exc string) (max_p95_ms : option pyfloat) : Z :=
  match text with
  | Err e => if catches [OSError] e then 2 else 1
  | Ok text =>
      match loads float_norm text with
      | None => 2
      | Some (JObj report) =>
          match validate_report report max_p95_ms with
          | Ok [] => 0
          | Ok _ | Err _ => 1
          end
      | Some _ => 1
      end
  end.

(* ------------------------------------------------------------------ *)
(** ** Properties *)

(** A result the gate accepts. *)
Definition acceptable (result : json) : Prop :=
  exists kvs, result = JObj kvs /\ dict_get "passed" kvs = Some (JBool true) /\
    (is_security (text_of kvs "category" "general") = true -> dict_get "observed" kvs = Some (JStr "blocked")).

Lemma result_violations_nil result : result_violations result = [] <-> acceptable result.
Proof.
  unfold acceptable. destruct result as [| | | | | |kvs]; try (split; [done|by intros (? & ? & _)]).
  cbn [result_violations]. rewrite !app_nil.
  set (category := text_of kvs "category" "general").
  destruct (bool_decide_reflect (dict_get "passed" kvs = Some (JBool true))) as [Hp|Hp];
    [|split; [by intros [? _]|by intros (? & [= <-] & ? & _)]].
  destruct (is_security category) eqn:Hs; cbn [andb].
  - destruct (bool_decide_reflect (dict_get "observed" kvs = Some (JStr "blocked"))) as [Ho|Ho]; cbn [negb].
    + split; [intros _; by exists kvs|]. intros _. split_and!; [done..|].
      rewrite Ho. by destruct (String.eqb category "adversarial").
    + split; [by intros (_ & ? & _)|]. intros (? & [= <-] & _ & Hb). by destruct Ho, Hb.
  - apply orb_false_iff in Hs as [Hadv Hdes]. rewrite Hadv. cbn [andb].
    split; [|done]. intros _. exists kvs. split_and!; [done..|]. fold category. unfold is_security.
    by rewrite Hadv, Hdes.
Qed.

Lemma concat_violations_nil results :
  concat (map result_violations results) = [] <-> Forall acceptable results.
Proof.
  induction results as [|r results IH]; cbn; [by split|].
  by rewrite app_nil, result_violations_nil, IH, Forall_cons.
Qed.

(** A latency within the bound. *)
Definition within (metrics : jdict) (bound : pyfloat) : Prop :=
  exists v p95, dict_get "latency_p95_ms" metrics = Some v /\ py_float v = Ok p95 /\ float_gt p95 bound = false.

Lemma latency_violations_nil metrics bound : latency_violations metrics bound = Ok [] <-> within metrics bound.
Proof.
  unfold latency_violations, within. destruct (dict_get "latency_p95_ms" metrics) as [v|]; [|naive_solver].
  destruct (py_float v) as [p95|e] eqn:Hv.
  - destruct (float_gt p95 bound) eqn:Hgt; naive_solver congruence.
  - destruct (catches [TypeError; ValueError] e); naive_solver congruence.
Qed.

(** A report the gate lets through. *)
Definition releasable (report : jdict) (max_p95_ms : option pyfloat) : Prop :=
  exists results metrics,
    dict_get "results" report = Some (JList results) /\ results <> [] /\
    dict_get "metrics" report = Some (JObj metrics) /\ Forall acceptable results /\
    forall bound, max_p95_ms = Some bound -> within metrics bound.

Lemma validate_report_nil report max_p95_ms :
  validate_report report max_p95_ms = Ok [] <-> releasable report max_p95_ms.
Proof.
  unfold validate_report, releasable.
  destruct (dict_get "results" report) as [[| | | | |[|r results]|]|] eqn:Hr;
    try (split; [done|]; intros (rs & ms & Heq & Hne & _); congruence).
  destruct (dict_get "metrics" report) as [[| | | | | |metrics]|] eqn:Hm;
    try (split; [by destruct max_p95_ms|]; intros (rs & ms & _ & _ & Heq & _); congruence).
  cbn [app]. pose proof (concat_violations_nil (r :: results)) as Hc.
  set (rest := concat _) in *. split.
  - intros Hnil. exists (r :: results), metrics. split_and!; try done.
    + apply Hc. destruct max_p95_ms as [bound|]; [|congruence].
      destruct (latency_violations metrics bound); [|done]. injection Hnil as Hnil.
      by apply app_nil in Hnil as [? _].
    + intros bound ->. apply latency_violations_nil.
      destruct (latency_violations metrics bound); [|done]. injection Hnil as Hnil.
      by apply app_nil in Hnil as [_ ->].
  - intros (rs & ms & [= <-] & _ & [= <-] & Hall & Hbound). apply Hc in Hall. rewrite Hall.
    destruct max_p95_ms as [bound|]; [|done].
    by rewrite (proj2 (latency_violations_nil metrics bound) (Hbound bound eq_refl)).
Qed.

(** The release gate fails closed.  It exits with status 0 exactly when the
    file could be read and holds a JSON object with a metrics object and a non-empty
    list of results that are all objects with [passed] true, those of a security
    category observed as blocked, and a numeric latency that does not exceed the
    bound, if one is asked for; otherwise it exits with 1 or 2. *)
Theorem gate_fails_closed text max_p95_ms :
  (gate_main text max_p95_ms = 0 <->
     exists content report, text = Ok content /\ loads float_norm content = Some (JObj report) /\
       releasable report max_p95_ms) /\
  (gate_main text max_p95_ms = 0 \/ gate_main text max_p95_ms = 1 \/ gate_main text max_p95_ms = 2).
Proof.
  unfold gate_main. destruct text as [content|e].
  2: { destruct (catches [OSError] e); split; try auto; split; try done; by intros (? & ? & ? & _). }
  destruct (loads float_norm content) as [[| | | | | |report]|] eqn:Hl;
    try (split; [split; [done|]; intros (? & ? & [= <-] & Heq & _); congruence|auto]).
  pose proof (validate_report_nil report max_p95_ms) as Hnil.
  destruct (validate_report report max_p95_ms) as [[|v vs]|e].
  - split; [|auto]. split; [|done]. intros _. exists content, report. by rewrite <- Hnil.
  - split; [|auto]. split; [done|]. intros (? & ? & [= <-] & Heq & Hrel).
    rewrite Hl in Heq. injection Heq as <-. by apply Hnil in Hrel.
  - split; [|auto]. split; [done|]. intros (? & ? & [= <-] & Heq & Hrel).
    rewrite Hl in Heq. injection Heq as <-. by apply Hnil in Hrel.
Qed.
End gate.

(** A latency that is not a number passes every bound: no comparison with it holds. *)
Lemma nan_latency_passes :
  gate_main id (fun _ => "") (fun t => if String.eqb t "NaN" then Some NaN else None) (fun _ => "")
    (Ok ("{" +:+ print_string "metrics" +:+ ":{" +:+ print_string "latency_p95_ms" +:+ ":NaN}," +:+
         print_string "results" +:+ ":[{" +:+ print_string "passed" +:+ ":true}]}")) (Some (Finite 1)) = 0.
Proof. vm_compute. reflexivity. Qed.
