(* ===== verification/Evaluation.v ===== *)
(** * The evaluation harness

    [eval/harness.py], [eval/live.py], [eval/realistic.py] and
    [eval/scenario_generator.py]: the scenarios, how an observed call is
    classified, the metrics of a run and the percentiles.  Calling the gateway is
    an argument (the error flag of each call); floats are exact rationals, printed
    through [Rendering]. *)

From S2P Require Import Prelude Dict Pystr Json Models Errors Registry Http Gate.
From stdpp Require Import sorting.
From Stdlib Require Import QArith Qround Lqa.
Open Scope Z_scope.

(* ------------------------------------------------------------------ *)
(** ** Percentiles *)

Global Instance Qle_decision : RelDecision Qle.
Proof. intros a b. destruct (Qle_bool a b) eqn:H; [left|right]; rewrite <- Qle_bool_iff; congruence. Defined.
Global Instance Qle_total : Total Qle.
Proof. intros a b. destruct (Qlt_le_dec a b); [left; by apply Qlt_le_weak|by right]. Qed.
Global Instance Qle_transitive : Transitive Qle.
Proof. intros a b c. apply Qle_trans. Qed.

Definition ordered (values : list Q) : list Q := merge_sort Qle values.

(** The interpolation both functions end with; [None] is an index error. *)
Definition interpolate (ordered : list Q) (percentile : Q) : option Q :=
  let last := Z.of_nat (length ordered) - 1 in
  let position := ((last # 1) * percentile)%Q in
  let lower := Qfloor position in
  let upper := Z.min (lower + 1) last in
  a ← ordered !! Z.to_nat lower;
  b ← ordered !! Z.to_nat upper;
  Some (a + (b - a) * (position - (lower # 1)))%Q.

(** [_percentile] of realistic.py *)
Definition realistic_percentile (values : list Q) (percentile : Q) : option Q :=
  match ordered values with
  | [v] => Some v
  | l => interpolate l percentile
  end.

(** [_percentile] of live.py *)
Definition live_percentile (values : list Q) (percentile : Q) : option Q :=
  match values with
  | [v] => Some v
  | _ => interpolate (ordered values) percentile
  end.

(* ------------------------------------------------------------------ *)
(** ** Scenarios *)

(** [EvaluationPolicyClient.evaluate] *)
Definition evaluation_policy (policy_input : jdict) : PolicyDecision :=
  if bool_decide (dict_get "tool_name" policy_input = Some (JStr "shell_exec")) then
    {| pd_outcome := DENY; pd_matched_rule := "evaluation_destructive_denial";
       pd_reason := "Destructive shell execution is blocked in evaluation" |}
  else
    {| pd_outcome := ALLOW; pd_matched_rule := "evaluation_read_only_allow";
       pd_reason := "Read-only evaluation query" |}.

(** The truth value of a YAML document. *)
Definition json_truthy (v : json) : bool :=
  match v with
  | JNull | JBool false | JInt 0 | JStr EmptyString | JList [] | JObj [] => false
  | JFloat t => negb (String.eqb t "0.0" || String.eqb t "-0.0")
  | _ => true
  end.

(** The entries of one scenario file, from its parsed document. *)
Definition load_entry (path : string) (entry : json) : result exc jdict :=
  match entry with
  | JObj item => Ok (dict_set "scenario_file" (JStr path) item)
  | _ => Err (EPy ValueError (path +:+ " contains a non-object scenario"))
  end.
Definition load_document (path : string) (document : json) : result exc (list jdict) :=
  let document := if json_truthy document then document else JObj [] in
  result_bind (json_get document "scenarios") (fun entries =>
  match default (JList []) entries with
  | JList entries => result_mapM (load_entry path) entries
  | _ => Err (EPy ValueError (path +:+ " must contain a scenarios list"))
  end).

(** [_load_scenarios], on the files in the order of their paths. *)
Definition load_scenarios (files : list (string * json)) : result exc (list jdict) :=
  result_map (@concat jdict) (result_mapM (fun f : string * json => load_document f.1 f.2) files).

Section evaluation.
Context `{Rendering} (repr : json -> string).

Definition text_at (scenario : jdict) (key otherwise : string) : string := text_of repr scenario key otherwise.

Definition observed (is_error : bool) : string := if is_error then "blocked" else "succeeded".

(** The record [_run_scenario] returns for a call with the given error flag. *)
Definition scenario_result (scenario : jdict) (index : Z) (is_error : bool) : result exc jdict :=
  result_map (fun file =>
    let expected := text_at scenario "expected" "succeeded" in
    [("name", JStr (text_at scenario "name" ("scenario-" +:+ print_int index)));
     ("scenario_file", JStr (py_str repr file));
     ("category", JStr (text_at scenario "category" "general"));
     ("expected", JStr expected); ("observed", JStr (observed is_error));
     ("passed", JBool (String.eqb expected (observed is_error))); ("is_error", JBool is_error)])
    (json_index (JObj scenario) "scenario_file").

(** [_scenario_passed] of live.py *)
Definition scenario_passed (scenario : jdict) (observed : string) : bool :=
  String.eqb observed (text_at scenario "expected" "succeeded") ||
  (bool_decide (dict_get "category" scenario = Some (JStr "malformed")) && String.eqb observed "succeeded").

(** The record [_run_live_scenario] returns. *)
Definition live_result (scenario : jdict) (index : Z) (is_error : bool) (latency_ms : Q) : jdict :=
  [("name", JStr (text_at scenario "name" ("scenario-" +:+ print_int index)));
   ("category", JStr (text_at scenario "category" "general"));
   ("expected", JStr (text_at scenario "expected" "succeeded")); ("observed", JStr (observed is_error));
   ("passed", JBool (scenario_passed scenario (observed is_error)));
   ("latency_ms", JFloat (float_text latency_ms))].

(** Results of a category, and those that passed. *)
Definition in_category (category : string) (results : list jdict) : list jdict :=
  List.filter (fun r => bool_decide (dict_get "category" r = Some (JStr category))) results.
Definition has_passed (r : jdict) : bool := bool_decide (dict_get "passed" r = Some (JBool true)).
Definition count_passed (results : list jdict) : Z := Z.of_nat (length (List.filter has_passed results)).

Definition ratio (passed total : Z) : Q := ((passed # 1) / (total # 1))%Q.
Definition pass_rate (results : list jdict) : Q :=
  match results with [] => 1 | _ => ratio (count_passed results) (Z.of_nat (length results)) end.
Definition policy_gate_accuracy (results : list jdict) : Q :=
  if forallb has_passed (in_category "destructive" results) then 100 else 0.

(** The report of [run_evaluation]. *)
Definition evaluation_metrics (results : list jdict) : jdict :=
  [("scenario_count", JInt (Z.of_nat (length results))); ("passed", JInt (count_passed results));
   ("pass_rate", JFloat (float_text (pass_rate results)));
   ("malformed_auto_repaired_percent", JFloat (float_text 0));
   ("mean_attempts_to_success", JFloat (float_text 1));
   ("policy_gate_accuracy_percent", JFloat (float_text (policy_gate_accuracy results)));
   ("sandbox_escape_attempts_blocked", JInt (count_passed (in_category "adversarial" results)));
   ("sandbox_escape_attempts_total", JInt (Z.of_nat (length (in_category "adversarial" results))));
   ("malformed_scenarios", JInt (Z.of_nat (length (in_category "malformed" results))))].
Definition report_of (metrics : jdict) (results : list jdict) : jdict :=
  [("metrics", JObj metrics); ("results", JList (map JObj results))].

(** The loop of [run_evaluation] over the scenarios, numbered from 1. *)
Definition harness_results (scenarios : list jdict) (is_error : jdict -> bool) : result exc (list jdict) :=
  result_mapM (fun ix : nat * jdict => scenario_result ix.2 (Z.of_nat ix.1) (is_error ix.2))
    (imap (fun i s => (S i, s)) scenarios).
Definition run_evaluation (scenarios : list jdict) (is_error : jdict -> bool) : result exc jdict :=
  result_map (fun results => report_of (evaluation_metrics results) results) (harness_results scenarios is_error).

(** The metrics of [run_live_evaluation]; the mean is that of [statistics]. *)
Definition mean (values : list Q) : Q :=
  (fold_right Qplus 0 values / (Z.of_nat (length values) # 1))%Q.
Definition latency_metric (f : list Q -> option Q) (latencies : list Q) : option json :=
  match latencies with
  | [] => Some (JFloat (float_text 0))
  | _ => (fun q => JFloat (float_text q)) <$> f latencies
  end.
Definition live_metrics (results : list jdict) (latencies : list Q) : option jdict :=
  p50 ← latency_metric (fun l => live_percentile l (1 # 2)) latencies;
  p95 ← latency_metric (fun l => live_percentile l (95 # 100)) latencies;
  average ← latency_metric (fun l => Some (mean l)) latencies;
  Some [("scenario_count", JInt (Z.of_nat (length results)));
        ("pass_rate", JFloat (float_text (pass_rate results)));
        ("policy_gate_accuracy_percent", JFloat (float_text (policy_gate_accuracy results)));
        ("sandbox_escape_attempts_blocked", JInt (count_passed (in_category "adversarial" results)));
        ("sandbox_escape_attempts_total", JInt (Z.of_nat (length (in_category "adversarial" results))));
        ("latency_p50_ms", p50); ("latency_p95_ms", p95); ("latency_mean_ms", average)].

(* ------------------------------------------------------------------ *)
(** ** The realistic benchmark *)

(** [_category_breakdown]: the entries in order of first appearance. *)
Record breakdown_entry := { be_count : Z; be_passed : Z; be_failed : Z }.
Definition count_result (passed : bool) (e : breakdown_entry) : breakdown_entry :=
  {| be_count := be_count e + 1; be_passed := if passed then be_passed e + 1 else be_passed e;
     be_failed := if passed then be_failed e else be_failed e + 1 |}.
Definition count_category (breakdown : dict string breakdown_entry) (r : string * bool) :
    dict string breakdown_entry :=
  dict_set r.1 (count_result r.2 (default {| be_count := 0; be_passed := 0; be_failed := 0 |} (dict_get r.1 breakdown)))
    breakdown.
Definition category_counts (results : list (string * bool)) : dict string breakdown_entry :=
  fold_left count_category results [].
Definition entry_json (e : breakdown_entry) : json :=
  JObj [("count", JInt (be_count e)); ("passed", JInt (be_passed e)); ("failed", JInt (be_failed e));
        ("pass_rate", JFloat (float_text (ratio (be_passed e) (be_count e))))].
Definition category_breakdown (results : list (string * bool)) : jdict :=
  prod_map id entry_json <$> category_counts results.

(** [_read_last_audit], on the lines of the file. *)
Definition read_last_audit (float_norm : string -> string) (lines : list string) : result exc (list json * Z) :=
  match List.last (List.filter truthy lines) "" with
  | "" => Ok ([], 1)
  | line =>
      result_bind (ok_or (loads float_norm line) (EPy JSONDecodeError "Expecting value")) (fun payload =>
      result_bind (json_get payload "repair_attempts") (fun repairs =>
      result_map (fun attempts =>
        (match repairs with Some (JList l) => l | _ => [] end,
         match attempts with
         | None => 0
         | Some (JList l) => Z.of_nat (length l)
         | Some _ => 1
         end)) (json_get payload "attempts")))
  end.

(** One call of [run_realistic_evaluation]: its error flag, its latency, and the
    repairs and attempts read from the audit log after it. *)
Record realistic_answer := {
  ra_is_error : bool;
  ra_latency_ms : Q;
  ra_repairs : list json;
  ra_attempts : Z
}.

(** The record of one scenario; the keys are read in this order. *)
Definition realistic_result (scenario : jdict) (a : realistic_answer) : result exc jdict :=
  let observed := observed (ra_is_error a) in
  result_bind (json_index (JObj scenario) "tool") (fun _ =>
  result_bind (json_index (JObj scenario) "arguments") (fun arguments =>
  result_bind (json_index (JObj scenario) "name") (fun name =>
  result_bind (json_index (JObj scenario) "category") (fun category =>
  result_map (fun expected =>
    [("name", name); ("category", category); ("arguments", arguments); ("expected", expected);
     ("observed", JStr observed); ("passed", JBool (bool_decide (JStr observed = expected)));
     ("latency_ms", JFloat (float_text (ra_latency_ms a))); ("attempt_count", JInt (ra_attempts a));
     ("repair_attempts", JList (ra_repairs a))])
    (json_index (JObj scenario) "expected"))))).
Definition realistic_results (calls : list (jdict * realistic_answer)) : result exc (list jdict) :=
  result_mapM (fun c : jdict * realistic_answer => realistic_result c.1 c.2) calls.

(** The attempts of the calls that succeeded, and [statistics.mean] of integers. *)
Definition successful_attempts (results : list jdict) : list Z :=
  omap (fun r => if bool_decide (dict_get "observed" r = Some (JStr "succeeded")) then
                   match dict_get "attempt_count" r with Some (JInt z) => Some z | _ => None end
                 else None) results.
Definition int_mean (values : list Z) : json :=
  let total := fold_right Z.add 0 values in
  let n := Z.of_nat (length values) in
  if total mod n =? 0 then JInt (total / n) else JFloat (float_text ((total # 1) / (n # 1))%Q).

Definition realistic_metrics (results : list jdict) (latencies : list Q) : option jdict :=
  average ← latency_metric (fun l => Some (mean l)) latencies;
  p50 ← latency_metric (fun l => realistic_percentile l (1 # 2)) latencies;
  p95 ← latency_metric (fun l => realistic_percentile l (95 # 100)) latencies;
  Some [("scenario_count", JInt (Z.of_nat (length results)));
        ("pass_rate", JFloat (float_text (pass_rate results)));
        ("malformed_repaired_count", JInt (count_passed (in_category "malformed" results)));
        ("malformed_scenario_count", JInt (Z.of_nat (length (in_category "malformed" results))));
        ("mean_attempts_to_success",
         match successful_attempts results with [] => JFloat (float_text 0) | l => int_mean l end);
        ("policy_gate_accuracy_percent", JFloat (float_text (policy_gate_accuracy results)));
        ("sandbox_escape_attempts_blocked", JInt (count_passed (in_category "adversarial" results)));
        ("sandbox_escape_attempts_total", JInt (Z.of_nat (length (in_category "adversarial" results))));
        ("latency_mean_ms", average); ("latency_p50_ms", p50); ("latency_p95_ms", p95);
        ("category_breakdown", JObj (category_breakdown
           (map (fun r => (py_str repr (default JNull (dict_get "category" r)), has_passed r)) results)))].

(** The report; the repair settings are those of the gateway. *)
Definition realistic_report (seed repetitions : Z) (repair_enabled : bool) (provider model : string)
    (results : list jdict) (latencies : list Q) : option jdict :=
  metrics ← realistic_metrics results latencies;
  Some [("run", JObj [("seed", JInt seed); ("repetitions", JInt repetitions);
                      ("scenario_generation", JStr "seeded_random_v1"); ("repair_enabled", JBool repair_enabled);
                      ("repair_provider", JStr provider); ("repair_model", JStr model)]);
        ("metrics", JObj metrics); ("results", JList (map JObj results))].

(** [generate_scenarios], over the state of the generator. *)
Section generator.
Context {G : Type} (choice : list string -> G -> string * G) (randint : Z -> Z -> G -> Z * G).

Definition statuses : list string := ["pending"; "shipped"; "cancelled"].
Definition adversarial_commands : list string :=
  ["cat /etc/shadow"; "cat /proc/1/environ"; "curl --max-time 1 https://example.com";
   "python -c 'import socket; socket.create_connection((" +:+ char_string quote_char +:+ "1.1.1.1" +:+
   char_string quote_char +:+ ", 53), 1)'"].

Definition scenario (name category tool : string) (arguments : jdict) (expected : string) : jdict :=
  [("name", JStr name); ("category", JStr category); ("tool", JStr tool); ("arguments", JObj arguments);
   ("expected", JStr expected)].

Definition generate_round (index : Z) (g : G) : list jdict * G :=
  let number := print_int (index + 1) in
  let '(status, g) := choice statuses g in
  let '(max_rows, g) := randint 1 20 g in
  let '(wrong, g) := randint 1 100 g in
  let '(command, g) := choice adversarial_commands g in
  ([scenario ("generated-safe-query-" +:+ number) "valid" "db_query"
      [("query", JStr "SELECT order_id, status FROM orders WHERE status = ?"); ("parameters", JList [JStr status])]
      "succeeded";
    scenario ("generated-missing-field-" +:+ number) "malformed" "db_query" [("max_rows", JInt max_rows)] "succeeded";
    scenario ("generated-wrong-type-" +:+ number) "malformed" "db_query" [("query", JInt wrong)] "succeeded";
    scenario ("generated-destructive-sql-" +:+ number) "destructive" "db_query"
      [("query", JStr "DELETE FROM orders")] "blocked";
    scenario ("generated-adversarial-" +:+ number) "adversarial" "shell_exec" [("command", JStr command)] "blocked"],
   g).

Fixpoint generate_from (index : Z) (rounds : nat) (g : G) : list jdict :=
  match rounds with
  | O => []
  | S rounds' => let '(scenarios, g') := generate_round index g in
                 scenarios ++ generate_from (index + 1) rounds' g'
  end.
Definition generate_scenarios (repetitions : nat) (g : G) : list jdict := generate_from 0 repetitions g.
End generator.
End evaluation.

(* ------------------------------------------------------------------ *)
(** ** Properties of the percentiles *)

Section percentiles.
Context (l : list Q) (Hsorted : StronglySorted Qle l) (Hne : l <> []).

Lemma sorted_lookup i j a b : (i <= j)%nat -> l !! i = Some a -> l !! j = Some b -> (a <= b)%Q.
Proof.
  clear Hne. revert i j. induction Hsorted as [|x l' Hl' IH Hx]; intros i j Hij Ha Hb; [done|].
  destruct i as [|i].
  - injection Ha as <-. destruct j as [|j]; [injection Hb as <-; apply Qle_refl|].
    rewrite Forall_forall in Hx. apply Hx. by eapply list_elem_of_lookup_2.
  - destruct j as [|j]; [lia|]. eapply IH; [done| |done..]. lia.
Qed.

Abbreviation last := (Z.of_nat (length l) - 1).

(** Position and neighbours of a percentile. *)
Lemma interpolate_between p :
  (0 <= p <= 1)%Q ->
  let position := ((last # 1) * p)%Q in let lower := Qfloor position in
  exists a b q, l !! Z.to_nat lower = Some a /\ l !! Z.to_nat (Z.min (lower + 1) last) = Some b /\
    (0 <= lower <= last)%Z /\ (a <= b)%Q /\
    interpolate l p = Some q /\ q = (a + (b - a) * (position - (lower # 1)))%Q /\
    (0 <= position - (lower # 1) <= 1)%Q /\ (a <= q <= b)%Q.
Proof.
  intros [Hp0 Hp1] position lower.
  assert (Hlen : (0 <= last)%Z) by (destruct l; [done|cbn; lia]).
  assert (HL : (0 <= last # 1)%Q) by (unfold Qle; cbn; lia).
  assert (Hpos : (0 <= position /\ position <= last # 1)%Q) by (unfold position; split; nra).
  assert (Hlow : (0 <= lower <= last)%Z).
  { split; [apply (Qfloor_resp_le 0)|rewrite <- (Qfloor_Z last); apply Qfloor_resp_le]; apply Hpos. }
  assert (Hfrac : (0 <= position - (lower # 1) /\ position - (lower # 1) <= 1)%Q).
  { pose proof (Qfloor_le position) as H1. pose proof (Qlt_floor position) as H2. fold lower in H1, H2.
    assert (Hinj : (inject_Z (lower + 1) == inject_Z lower + 1)%Q) by (rewrite inject_Z_plus; reflexivity).
    unfold inject_Z in *. split; lra. }
  destruct (lookup_lt_is_Some_2 l (Z.to_nat lower)) as [a Ha]; [lia|].
  destruct (lookup_lt_is_Some_2 l (Z.to_nat (Z.min (lower + 1) last))) as [b Hb]; [lia|].
  assert (Hab : (a <= b)%Q) by (eapply sorted_lookup; [|exact Ha|exact Hb]; lia).
  exists a, b, (a + (b - a) * (position - (lower # 1)))%Q.
  split_and!; try done; try apply Hfrac; try apply Hlow.
  - unfold interpolate. cbv zeta. unfold lower, position in Ha, Hb. by rewrite Ha; cbn [mbind option_bind]; rewrite Hb.
  - nra.
  - nra.
Qed.

Lemma interpolate_monotone p p' q q' :
  (0 <= p)%Q -> (p <= p')%Q -> (p' <= 1)%Q ->
  interpolate l p = Some q -> interpolate l p' = Some q' -> (q <= q')%Q.
Proof.
  intros H0 Hpp H1 Hq Hq'.
  assert (HL : (0 <= last # 1)%Q) by (destruct l; [done|unfold Qle; cbn; lia]).
  destruct (interpolate_between p ltac:(split; lra)) as (a & b & q1 & Ha & Hb & Hlow & Hab & Hi & Hqe & Hf & Hq1).
  destruct (interpolate_between p' ltac:(split; lra)) as (a' & b' & q2 & Ha' & Hb' & Hlow' & Hab' & Hi' & Hqe' & Hf' & Hq2).
  rewrite Hi in Hq. injection Hq as <-. rewrite Hi' in Hq'. injection Hq' as <-.
  assert (Hpos : ((last # 1) * p <= (last # 1) * p')%Q) by nra.
  pose proof (Qfloor_resp_le _ _ Hpos) as Hfl.
  destruct (Z.eq_dec (Qfloor ((last # 1) * p)) (Qfloor ((last # 1) * p'))) as [Heq|Hne'].
  - rewrite Heq in Ha, Hb, Hqe. rewrite Ha in Ha'. injection Ha' as <-. rewrite Hb in Hb'. injection Hb' as <-.
    rewrite Hqe, Hqe'. nra.
  - assert (Hba : (b <= a')%Q) by (eapply sorted_lookup; [|exact Hb|exact Ha']; lia). lra.
Qed.
End percentiles.

Lemma ordered_sorted values : StronglySorted Qle (ordered values).
Proof. apply (StronglySorted_merge_sort _). Qed.
Lemma ordered_permutation values : ordered values ≡ₚ values.
Proof. apply merge_sort_Permutation. Qed.

Lemma ordered_nonempty values : values <> [] -> ordered values <> [].
Proof.
  intros Hne Hnil. destruct Hne. apply Permutation_nil_r. rewrite <- Hnil. symmetry. apply ordered_permutation.
Qed.

(** The two functions agree. *)
Lemma percentiles_agree values p : realistic_percentile values p = live_percentile values p.
Proof.
  unfold realistic_percentile, live_percentile.
  pose proof (Permutation_length (ordered_permutation values)) as Hlen.
  destruct values as [|v [|w values]].
  - reflexivity.
  - reflexivity.
  - by destruct (ordered (v :: w :: values)) as [|x [|y l]].
Qed.

(** A percentile is the interpolated value, a single value included. *)
Lemma percentile_interpolates values p :
  values <> [] -> (0 <= p <= 1)%Q ->
  exists q, live_percentile values p = Some q /\ exists q', interpolate (ordered values) p = Some q' /\ (q == q')%Q.
Proof.
  intros Hne Hp. rewrite <- percentiles_agree. unfold realistic_percentile.
  pose proof (ordered_nonempty values Hne) as Hne'.
  destruct (interpolate_between _ (ordered_sorted values) Hne' p Hp) as (a & b & q & Ha & Hb & Hlow & _ & Hi & _ & _ & Hq).
  destruct (ordered values) as [|v [|w l]] eqn:Ho; [done| |].
  - exists v. split; [done|]. exists q. split; [done|]. cbn [length] in *.
    replace (Qfloor _) with 0%Z in * by lia. cbn in Ha, Hb. injection Ha as <-. injection Hb as <-. lra.
  - eauto using Qeq_refl.
Qed.

Lemma ordered_bounds values i v (P : Q -> Prop) :
  Forall P values -> ordered values !! i = Some v -> P v.
Proof.
  intros Hall Hv. rewrite <- (ordered_permutation values) in Hall.
  rewrite Forall_lookup in Hall. eauto.
Qed.

(** The percentiles of the benchmarks.  Both implementations compute the same
    value; for measurements that are not empty and a fraction between 0 and 1 they
    return a value between the smallest and the largest measurement, which does not
    decrease with the fraction. *)
Theorem percentile_well_behaved values p p' (Hne : values <> []) (Hp : (0 <= p)%Q) (Hpp : (p <= p')%Q)
    (Hp' : (p' <= 1)%Q) :
  realistic_percentile values p = live_percentile values p /\
  exists q q', live_percentile values p = Some q /\ live_percentile values p' = Some q' /\ (q <= q')%Q /\
    (forall low, Forall (fun v => (low <= v)%Q) values -> (low <= q)%Q) /\
    (forall high, Forall (fun v => (v <= high)%Q) values -> (q' <= high)%Q).
Proof.
  split; [apply percentiles_agree|].
  destruct (percentile_interpolates values p Hne ltac:(split; lra)) as (q & Hq & i & Hi & Hqi).
  destruct (percentile_interpolates values p' Hne ltac:(split; lra)) as (q' & Hq' & i' & Hi' & Hqi').
  exists q, q'. split_and!; try done.
  - rewrite Hqi, Hqi'. eapply interpolate_monotone; [apply ordered_sorted| |..]; eauto. by apply ordered_nonempty.
  - intros low Hlow. rewrite Hqi.
    destruct (interpolate_between _ (ordered_sorted values) (ordered_nonempty _ Hne) p ltac:(split; lra))
      as (a & b & r & Ha & _ & _ & _ & Hr & _ & _ & Hb).
    rewrite Hr in Hi. injection Hi as <-. pose proof (ordered_bounds _ _ _ _ Hlow Ha) as Hla. cbn in Hla. lra.
  - intros high Hhigh. rewrite Hqi'.
    destruct (interpolate_between _ (ordered_sorted values) (ordered_nonempty _ Hne) p' ltac:(split; lra))
      as (a & b & r & _ & Hb & _ & _ & Hr & _ & _ & Hab).
    rewrite Hr in Hi'. injection Hi' as <-. pose proof (ordered_bounds _ _ _ _ Hhigh Hb) as Hbh. cbn in Hbh. lra.
Qed.

Lemma percentile_well_behaved_witness :
  let values := [3 # 1; 1 # 1; 2 # 1]%Q in
  exists q q', live_percentile values (1 # 2) = Some q /\ live_percentile values (95 # 100) = Some q' /\ (q <= q')%Q.
Proof.
  intros values.
  destruct (percentile_well_behaved values (1 # 2) (95 # 100)) as (_ & q & q' & Hq & Hq' & Hle & _).
  - discriminate.
  - unfold Qle. cbn. lia.
  - unfold Qle. cbn. lia.
  - unfold Qle. cbn. lia.
  - exists q, q'. auto.
Defined.

(* ------------------------------------------------------------------ *)
(** ** The harness and the gate *)

Section harness.
Context `{Rendering} (repr : json -> string).
Context (parse_float : string -> option pyfloat) (fixed2 : pyfloat -> string).
Context (is_error : jdict -> bool).

(** A scenario that went as expected and, if it is a security one, was blocked. *)
Definition as_expected (scenario : jdict) : Prop :=
  text_at repr scenario "expected" "succeeded" = observed (is_error scenario) /\
  (is_security (text_at repr scenario "category" "general") = true -> is_error scenario = true).

Lemma scenario_result_acceptable scenario index r :
  scenario_result repr scenario index (is_error scenario) = Ok r ->
  acceptable repr (JObj r) <-> as_expected scenario.
Proof.
  unfold scenario_result. destruct (json_index (JObj scenario) "scenario_file") as [file|e]; [|done].
  intros [= <-]. unfold acceptable, as_expected, text_at.
  set (category := text_of repr scenario "category" "general").
  set (expected := text_of repr scenario "expected" "succeeded").
  split.
  - intros (kvs & [= <-] & Hp & Hs). cbn in Hp. injection Hp as Hp%String.eqb_eq. split; [done|].
    intros Hsec. specialize (Hs Hsec). cbn in Hs. injection Hs as Hs. by destruct (is_error scenario).
  - intros [He Hs]. eexists. split; [reflexivity|]. split.
    + cbn. by rewrite He, String.eqb_refl.
    + intros Hsec. cbn. by rewrite (Hs Hsec).
Qed.

(** The harness and the gate fit together.  The report the harness writes
    passes the release gate exactly when there is at least one scenario, every
    scenario ended as it was expected to, and every adversarial or destructive one
    was blocked. *)
Theorem harness_report_gated scenarios report (Hrun : run_evaluation repr scenarios is_error = Ok report) :
  validate_report repr parse_float fixed2 report None = Ok [] <->
  scenarios <> [] /\ Forall as_expected scenarios.
Proof.
  unfold run_evaluation in Hrun. destruct (harness_results repr scenarios is_error) as [results|e] eqn:Hres; [|done].
  injection Hrun as <-. unfold harness_results in Hres. apply result_mapM_ok in Hres.
  rewrite (validate_report_nil id). unfold releasable.
  assert (Hlen : length results = length scenarios)
    by (apply Forall2_length in Hres; by rewrite length_imap in Hres).
  assert (Hpair : forall i s r, scenarios !! i = Some s -> results !! i = Some r ->
            acceptable repr (JObj r) <-> as_expected s).
  { intros i s r Hs Hr. eapply (scenario_result_acceptable s (Z.of_nat (S i))).
    assert (Hi : imap (fun i s => (S i, s)) scenarios !! i = Some (S i, s)) by (by rewrite list_lookup_imap, Hs).
    destruct (Forall2_lookup_l _ _ _ _ _ Hres Hi) as (r' & Hr' & Hok). cbn in Hok. congruence. }
  assert (Hall : Forall (acceptable repr) (map JObj results) <-> Forall as_expected scenarios).
  { rewrite Forall_map, !Forall_lookup. split.
    - intros Hf i s Hs. destruct (lookup_lt_is_Some_2 results i) as [r Hr];
        [rewrite Hlen; by eapply lookup_lt_Some|]. eapply Hpair; eauto.
    - intros Hf i r Hr. destruct (lookup_lt_is_Some_2 scenarios i) as [s Hs];
        [rewrite <- Hlen; by eapply lookup_lt_Some|]. eapply Hpair; eauto. }
  rewrite <- Hall. split.
  - intros (rs & ms & [= <-] & Hne & _ & Hacc & _). split; [|done]. intros ->. by destruct results.
  - intros [Hne Hacc]. exists (map JObj results), (evaluation_metrics results).
    split_and!; try done. by destruct results, scenarios.
Qed.
End harness.

Definition example_scenario (category expected : string) : jdict :=
  [("name", JStr "s"); ("category", JStr category); ("expected", JStr expected);
   ("scenario_file", JStr "attacks.yaml")].

Lemma harness_report_gated_witness :
  let render : Rendering := {| iso_datetime _ := ""; float_text _ := "1.0" |} in
  let scenarios := [example_scenario "valid" "succeeded"; example_scenario "adversarial" "blocked"] in
  let is_error s := bool_decide (dict_get "category" s = Some (JStr "adversarial")) in
  exists report, run_evaluation (fun _ => "") scenarios is_error = Ok report /\
    validate_report (fun _ => "") (fun _ => None) (fun _ => "") report None = Ok [].
Proof.
  intros render scenarios is_error. eexists. split; [reflexivity|].
  apply (harness_report_gated (fun _ => "") (fun _ => None) (fun _ => "") is_error scenarios); [reflexivity|].
  split; [discriminate|]. repeat constructor; try discriminate.
Defined.

(* ------------------------------------------------------------------ *)
(** ** Counting and generating *)

Lemma category_counts_app results r :
  category_counts (results ++ [r]) = count_category (category_counts results) r.
Proof. unfold category_counts. by rewrite fold_left_app. Qed.

(** The entry of a category counts its results, passed and failed. *)
Lemma category_counts_correct results category :
  let of_category := List.filter (fun r : string * bool => String.eqb r.1 category) results in
  dict_get category (category_counts results) =
  match of_category with
  | [] => None
  | _ => Some {| be_count := Z.of_nat (length of_category);
                 be_passed := Z.of_nat (length (List.filter snd of_category));
                 be_failed := Z.of_nat (length (List.filter (fun r => negb r.2) of_category)) |}
  end.
Proof.
  cbn zeta. induction results as [|[c b] results IH] using rev_ind; [done|].
  rewrite category_counts_app, List.filter_app. unfold count_category. rewrite dict_get_set. cbn [fst snd List.filter].
  destruct (String.eqb_spec c category) as [->|Hne]; cbn [List.filter app].
  - rewrite decide_True, IH by done. set (l := List.filter _ results).
    rewrite !List.filter_app, !length_app. cbn [List.filter snd negb].
    destruct l as [|x l'] eqn:Hl; [by destruct b|]. cbn [default app]. unfold count_result, id. cbn [be_count be_passed be_failed].
    destruct b; cbn [length negb]; do 2 f_equal; cbn [length]; lia.
  - rewrite decide_False, app_nil_r by congruence. done.
Qed.

(** Five scenarios a round, of which the destructive and adversarial ones, and only
    they, are expected to be blocked. *)
Lemma generated_scenarios {G} (choice : list string -> G -> string * G) (randint : Z -> Z -> G -> Z * G)
    repetitions g :
  length (generate_scenarios choice randint repetitions g) = (5 * repetitions)%nat /\
  Forall (fun s => exists category, dict_get "category" s = Some (JStr category) /\
            dict_get "expected" s = Some (JStr (if is_security category then "blocked" else "succeeded")))
    (generate_scenarios choice randint repetitions g).
Proof.
  unfold generate_scenarios. generalize 0%Z. revert g. induction repetitions as [|n IH]; intros g index; [by split|].
  cbn [generate_from]. unfold generate_round.
  destruct (choice statuses g) as [status g1], (randint 1 20 g1) as [m g2], (randint 1 100 g2) as [w g3],
    (choice adversarial_commands g3) as [command g4].
  destruct (IH g4 (index + 1)%Z) as [Hlen Hall]. split.
  - rewrite length_app, Hlen. cbn [length]. lia.
  - apply Forall_app. split; [|done]. repeat constructor; eexists; (split; [reflexivity|reflexivity]).
Qed.

(* ------------------------------------------------------------------ *)
(** ** A benchmark that goes as expected *)

Section benchmark.
Context `{Rendering} {G : Type} (choice : list string -> G -> string * G) (randint : Z -> Z -> G -> Z * G).

Definition round_categories : list string := ["valid"; "malformed"; "malformed"; "destructive"; "adversarial"].
Definition category_of (r : jdict) : option json := dict_get "category" r.

(** Every generated scenario has all its keys, and the categories come in rounds. *)
Lemma generated_shape repetitions g :
  Forall (fun s => exists name category tool arguments expected, s = scenario name category tool arguments expected)
    (generate_scenarios choice randint repetitions g) /\
  map category_of (generate_scenarios choice randint repetitions g) =
    map (fun c => Some (JStr c)) (concat (replicate repetitions round_categories)).
Proof.
  unfold generate_scenarios. generalize 0%Z. revert g.
  induction repetitions as [|n IH]; intros g index; [by split|].
  cbn [generate_from]. unfold generate_round.
  destruct (choice statuses g) as [status g1], (randint 1 20 g1) as [m g2], (randint 1 100 g2) as [w g3],
    (choice adversarial_commands g3) as [command g4].
  destruct (IH g4 (index + 1)%Z) as [Hall Hcat]. split.
  - apply Forall_app. split; [|done]. repeat constructor; by do 5 eexists.
  - by rewrite map_app, Hcat.
Qed.

Lemma length_in_category category (results : list jdict) :
  length (in_category category results) =
  length (List.filter (fun c => bool_decide (c = Some (JStr category))) (map category_of results)).
Proof.
  unfold in_category. induction results as [|r results IH]; cbn [List.filter map]; [done|].
  change (category_of r) with (dict_get "category" r). case_bool_decide; cbn [length]; by rewrite IH.
Qed.

(** The scenarios of a category in a round. *)
Definition rounds_of (category : string) : nat :=
  length (List.filter (String.eqb category) round_categories).
Lemma rounds_length category repetitions :
  length (List.filter (fun c => bool_decide (c = Some (JStr category)))
            (map (fun c => Some (JStr c)) (concat (replicate repetitions round_categories)))) =
  (repetitions * rounds_of category)%nat.
Proof.
  induction repetitions as [|n IH]; [done|]. cbn [replicate concat]. rewrite map_app, List.filter_app, length_app, IH.
  cbn [Nat.mul]. f_equal. unfold rounds_of. clear IH. induction round_categories as [|c l IHl]; [done|].
  cbn [map List.filter]. destruct (String.eqb_spec category c) as [<-|Hne].
  - rewrite bool_decide_true by done. cbn. by rewrite IHl.
  - rewrite bool_decide_false by congruence. done.
Qed.

Lemma all_passed_in_category category results :
  Forall (fun r => has_passed r = true) results ->
  count_passed (in_category category results) = Z.of_nat (length (in_category category results)).
Proof.
  unfold count_passed, in_category. induction 1 as [|r results Hr _ IH]; [done|]. cbn [List.filter].
  case_bool_decide; [|done]. cbn [List.filter length]. rewrite Hr. cbn [length]. lia.
Qed.

Lemma all_passed_count results :
  Forall (fun r => has_passed r = true) results -> count_passed results = Z.of_nat (length results).
Proof. unfold count_passed. induction 1 as [|r results Hr _ IH]; [done|]. cbn [List.filter length]. rewrite Hr. cbn. lia. Qed.

(** The expected outcome of a scenario, whatever its latency and attempts. *)
Definition went_as_expected (s : jdict) (a : realistic_answer) : Prop :=
  dict_get "expected" s = Some (JStr (observed (ra_is_error a))).

(** When every generated scenario ends as it is expected to, the report of the
    realistic benchmark says so: every scenario has a result, the pass rate is 1, the
    policy accuracy is 100 percent, and of each category exactly the generated ones
    are counted, all of them passed: as many sandbox escapes blocked as rounds, and
    twice as many malformed calls repaired. *)
Theorem realistic_run_as_expected repetitions g answers
    (Hne : repetitions <> 0%nat)
    (Hall : Forall2 went_as_expected (generate_scenarios choice randint repetitions g) answers) :
  exists results,
    realistic_results (zip (generate_scenarios choice randint repetitions g) answers) = Ok results /\
    length results = (5 * repetitions)%nat /\ (pass_rate results == 1)%Q /\ policy_gate_accuracy results = 100%Q /\
    forall category,
      length (in_category category results) = (repetitions * rounds_of category)%nat /\
      count_passed (in_category category results) = Z.of_nat (repetitions * rounds_of category).
Proof.
  destruct (generated_shape repetitions g) as [Hshape Hcats].
  destruct (generated_scenarios choice randint repetitions g) as [Hlen _].
  set (scenarios := generate_scenarios choice randint repetitions g) in *. clearbody scenarios.
  assert (exists results, realistic_results (zip scenarios answers) = Ok results /\
    map category_of results = map category_of scenarios /\ length results = length scenarios /\
    Forall (fun r => has_passed r = true) results) as (results & Hok & Hc & Hl & Hp).
  { clear Hcats Hlen. unfold realistic_results.
    induction Hall as [|s a scenarios answers Hs _ IH]; [by exists []|].
    apply Forall_cons in Hshape as [(name & category & tool & arguments & expected & ->) Hshape].
    destruct (IH Hshape) as (results & Hok & Hc & Hl & Hp). cbn [zip zip_with result_mapM].
    injection Hs as ->. eexists. split; [cbn; rewrite Hok; reflexivity|]. split; [cbn [map]; rewrite Hc; reflexivity|].
    split; [cbn [length]; by rewrite Hl|]. constructor; [|done]. unfold has_passed. cbn.
    rewrite (bool_decide_true (JStr _ = JStr _)) by done. by rewrite bool_decide_true. }
  exists results. rewrite Hl. split; [done|]. split; [done|].
  assert (Hcount : forall category, length (in_category category results) = (repetitions * rounds_of category)%nat).
  { intros category. by rewrite length_in_category, Hc, Hcats, rounds_length. }
  split_and!.
  - unfold pass_rate. rewrite all_passed_count by done. destruct results as [|r results]; [cbn in Hl; lia|].
    unfold ratio, Qdiv. apply Qmult_inv_r. unfold Qeq. cbn. lia.
  - unfold policy_gate_accuracy. replace (forallb has_passed (in_category "destructive" results)) with true; [done|].
    symmetry. apply forallb_forall. intros r [Hin _]%filter_In. rewrite List.Forall_forall in Hp. auto.
  - intros category. split; [done|]. by rewrite all_passed_in_category, Hcount.
Qed.
End benchmark.
