(* ===== verification/Harness.v ===== *)
(** * Scenarios through the gateway

    [_run_scenario] of [eval/harness.py] runs a scenario through
    [execute_tool_call], with a fresh in-memory store and the harness' own policy,
    and with no approval queue, audit log, repair model or control plane.  This
    file puts the harness ([Evaluation]), the pipeline ([Server]) and the store
    together: what the scenarios that should be blocked exercise. *)

From S2P Require Import Prelude Dict Pystr Json Models Errors Effects Registry Repair AuditLog StateStore Hitl Policy Server System Http Gate Evaluation.
From Stdlib Require Import QArith.
Open Scope Z_scope.

(** [execute_tool_call] with its default collaborators. *)
Definition harness_config : call_config :=
  {| has_approval_queue := false; has_audit_logger := false; has_repair_advisor := false;
     has_control_plane := false; sandbox_runtime := "unknown"; caller := None |}.

Section harness.
Context {H : Type} (repr : json -> string) (registry : ToolRegistry H).

(** The tool and the arguments [_run_scenario] takes from a scenario:
    [str(scenario["tool"])] and [dict(scenario.get("arguments", {}))]. *)
Definition scenario_call (scenario : jdict) : result exc (string * jdict) :=
  result_bind (json_index (JObj scenario) "tool") (fun tool =>
  match default (JObj []) (dict_get "arguments" scenario) with
  | JObj arguments => Ok (py_str repr tool, arguments)
  | JList [] | JStr EmptyString => Ok (py_str repr tool, [])
  | JList _ | JStr _ => Err (EPy ValueError "dictionary update sequence element #0 has length 1; 2 is required")
  | _ => Err (EPy TypeError "object is not iterable")
  end).

(** The call of a scenario, [index] from 1. *)
Definition dispatch (call : string * jdict) (index : Z) : prog (gw_sig H) (result exc CallToolResult * locals) :=
  execute_tool_call registry harness_config ("eval-session-" +:+ print_int index) call.1 call.2 initial_locals.

(** [_run_scenario]: the call and the record of its result. *)
Definition run_scenario `{Rendering} (scenario : jdict) (index : Z) : prog (gw_sig H) (result exc jdict) :=
  match scenario_call scenario with
  | Err e => Ret (Err e)
  | Ok call =>
      pbind (dispatch call index) (fun rs =>
        Ret (result_bind rs.1 (fun res => scenario_result repr scenario index (is_error res))))
  end.

(** The environment: the store in memory, and the requests tools were run on. *)
Definition harness_world : Type := InMemoryStateStore * list BaseModel.
Definition harness_respond (w : harness_world) (c : nat) (o : op (gw_sig H)) :
    result exc (ans (gw_sig H) o) -> harness_world -> Prop :=
  match o with
  | Store o => fun r w' => exists now1 now2, mem_perform now1 now2 o w.1 = (r, w'.1) /\ w'.2 = w.2
  | Evaluate input => fun r w' => r = Ok (evaluation_policy input) /\ w' = w
  | RunTool _ _ _ request => fun _ w' => w' = (w.1, w.2 ++ [request])
  | _ => fun _ w' => w' = w
  end.

(** A call the harness expects to be blocked before a tool runs: of the shell, or
    with arguments the registry refuses. *)
Definition refused_call (call : string * jdict) : Prop :=
  call.1 = "shell_exec" \/ exists e, registry_validate registry call.1 call.2 = Err e.

(** No tool runs; the policy answers as the harness' does. *)
Definition no_run_monitor : monitor (gw_sig H) :=
  {| mstate := unit;
     allowed _ (o : op (gw_sig H)) := match o with RunTool _ _ _ _ => False | _ => True end;
     assumed _ (o : op (gw_sig H)) :=
       match o return result exc (ans (gw_sig H) o) -> Prop with
       | Evaluate input => fun r => r = Ok (evaluation_policy input)
       | _ => fun _ => True
       end;
     mnext _ _ _ := tt |}.
Abbreviation N := no_run_monitor.

(** An outcome that is an error result or an exception. *)
Definition errs (r : result exc CallToolResult) : Prop :=
  match r with Ok res => is_error res = true | Err _ => True end.

Ltac quiet := wp_call; [exact I|intros [?|?] _].

Lemma write_audit_off session tool arguments call_id trace_id started outcome s m Q :
  Q (Ok tt) s m ->
  wpM N (write_audit (H := H) harness_config session tool arguments call_id trace_id started outcome) s m Q.
Proof. intros HQ. unfold write_audit. cbn. by apply wpM_ret. Qed.

Lemma fail_errs session tool arguments call_id trace_id started error s m :
  wpM N (fail (H := H) harness_config session tool arguments call_id trace_id started error) s m (fun r _ _ => errs r).
Proof.
  unfold fail, write_audit. cbn [has_audit_logger harness_config negb]. cbv zeta.
  run_calls; exact I || reflexivity.
Qed.

Lemma validate_refused tool arguments s m e :
  registry_validate registry tool arguments = Err e ->
  wpM N (validate_stage registry harness_config tool arguments) s m (fun r _ _ => exists e, r = Err e).
Proof.
  intros He. unfold validate_stage. rewrite He. cbn [has_repair_advisor harness_config negb orb].
  run_calls; eauto.
Qed.

Lemma policy_denied_errs call_id request s m :
  wpM N (policy_stage registry harness_config "shell_exec" call_id request) s m (fun r _ _ => exists e, r = Err e).
Proof.
  unfold policy_stage. wp_step. wp_step.
  destruct (registry_get registry "shell_exec") as [d|e]; [|eauto].
  wp_step. wp_step. wp_step. wp_call; [exact I|]. intros r ->.
  unfold evaluation_policy. rewrite bool_decide_eq_true_2 by done. unfold deny. run_calls; eauto; discriminate.
Qed.

Lemma call_body_errs session call call_id trace_id started s m :
  refused_call call ->
  wpM N (call_body registry harness_config session call.1 call.2 call_id trace_id started) s m
    (fun r _ _ => exists e, r = Err e).
Proof.
  intros Hcall. unfold call_body. wp_step. destruct Hcall as [->|(e & He)].
  - eapply wpM_mono with (Q := fun _ _ _ => True).
    + unfold validate_stage. cbn [has_repair_advisor harness_config negb orb]. run_calls; done.
    + intros [request|e] s' m' _; [|eauto]. wp_step. quiet; [|eauto]. wp_step.
      eapply wpM_mono; [apply policy_denied_errs|]. intros r s'' m'' (e & ->). eauto.
  - eapply wpM_mono; [by eapply validate_refused|]. intros r s' m' (e' & ->). eauto.
Qed.

Lemma dispatch_wp call index :
  refused_call call ->
  wp N (dispatch call index) tt (fun rs _ => errs rs.1).
Proof.
  intros Hcall. change (wpM N (execute_tool_call registry harness_config ("eval-session-" +:+ print_int index)
    call.1 call.2) initial_locals tt (fun r _ _ => errs r)).
  unfold execute_tool_call, persist_call. cbn [has_control_plane harness_config negb].
  run_calls; try done. unfold run_call. wp_step.
  eapply wpM_mono with (Q := fun r _ _ => exists e, r = Err e); [by apply call_body_errs|].
  intros r s m (e & ->). destruct e as [g|cls msg]; [apply fail_errs|].
  destruct (is_exception _); [apply fail_errs|by apply wpM_raise].
Qed.
End harness.

(* ------------------------------------------------------------------ *)
(** ** What the adversarial scenarios exercise *)

Section blocked.
Context {H : Type} (registry : ToolRegistry H).

(** A scenario of the shell, or whose arguments the registry refuses, is stopped
    by the harness' own policy or by validation: whatever the tools, the sandbox
    and the clock do, no tool is run and a result the call returns is an error. *)
Theorem refused_scenario_runs_no_tool call index w rs w' :
  refused_call registry call ->
  client_run (harness_respond (H := H)) 0 (dispatch registry call index) w rs w' ->
  w'.2 = w.2 /\ errs rs.1.
Proof.
  intros Hcall Hrun.
  assert (Hwp : wp no_run_monitor (dispatch registry call index) tt (fun rs _ => errs rs.1)) by (by apply dispatch_wp).
  eapply (wp_client_run _ _ (fun _ v => v.2 = w.2)) in Hrun as (m1 & Hruns & Herrs); [| |exact Hwp|reflexivity]; [by split|].
  intros ? v o r v' Hv Hal Hr. destruct o; cbn in *; try (by subst).
  - destruct Hr as (? & ? & _ & ->). done.
  - destruct Hr as [-> ->]. done.
Qed.

(** So the harness counts such a scenario as blocked, and as passed when that was
    expected of it, without any tool or sandbox having been exercised. *)
Theorem refused_scenario_counted `{Rendering} repr scenario index call r w w' :
  scenario_call repr scenario = Ok call -> refused_call registry call ->
  text_at repr scenario "expected" "succeeded" = "blocked" ->
  client_run (harness_respond (H := H)) 0 (run_scenario repr registry scenario index) w (Ok r) w' ->
  w'.2 = w.2 /\ has_passed r = true.
Proof.
  unfold run_scenario. intros -> Hcall Hexp Hrun.
  apply client_run_pbind in Hrun as (rs & w1 & Hrun & Hr & ->).
  destruct (refused_scenario_runs_no_tool _ _ _ _ _ Hcall Hrun) as [Hruns Herr]. split; [done|].
  destruct rs as [[res|e] s]; [|done]. cbn in Herr, Hr. rewrite Herr in Hr. unfold scenario_result in Hr.
  destruct (json_index (JObj scenario) "scenario_file"); [|done]. injection Hr as ->.
  rewrite Hexp. done.
Qed.
End blocked.

(* ------------------------------------------------------------------ *)
(** ** An adversarial scenario *)

Module example.
#[export] Existing Instance System.example.rendering.

(** One answer of every component. *)
Definition step (w : harness_world) (c : nat) (o : op (gw_sig string)) : result exc (ans (gw_sig string) o) * harness_world :=
  match o with
  | Uuid => (Ok "id", w)
  | TraceId => (Ok "trace", w)
  | Now => (Ok 0, w)
  | Monotonic => (Ok 0%Q, w)
  | Uniform => (Ok 0%Q, w)
  | Store o => let out := mem_perform 0 0 o w.1 in (out.1, (out.2, w.2))
  | Evaluate input => (Ok (evaluation_policy input), w)
  | Submit _ => (Ok tt, w)
  | Wait _ | Advise _ _ _ _ => (Err (EGateway (tool_execution_error "not configured")), w)
  | RunTool handler _ _ request => (Ok (JObj (fields request)), (w.1, w.2 ++ [request]))
  | _ => (Ok tt, w)
  end.

Definition escape : jdict :=
  [("name", JStr "escape"); ("category", JStr "adversarial"); ("expected", JStr "blocked");
   ("tool", JStr "shell_exec"); ("arguments", JObj [("command", JStr "cat /host/etc/shadow")]);
   ("scenario_file", JStr "adversarial.yaml")].
Definition harness_run := run (fun o w => step w 0%nat o)
  (run_scenario (fun _ => "") System.example.registry escape 1) (empty_store, []).
End example.
#[local] Existing Instance System.example.rendering.

Lemma example_step_respond w c o r w' :
  example.step w c o = (r, w') -> harness_respond w c o r w'.
Proof.
  destruct o; cbn; try (by intros [= _ <-]); try (by intros [= <- <-]).
  intros [= <- <-]. exists 0, 0. by destruct (mem_perform 0 0 o w.1).
Qed.

Lemma refused_scenario_counted_witness :
  match example.harness_run with
  | Some (Ok r, w', _) => w'.2 = [] /\ has_passed r = true
  | _ => False
  end.
Proof.
  destruct example.harness_run as [[[[r|e] w'] tr]|] eqn:Hrun.
  - eapply (refused_scenario_counted System.example.registry (fun _ => "") example.escape 1
      ("shell_exec", [("command", JStr "cat /host/etc/shadow")]) r (empty_store, [])).
    + vm_compute. reflexivity.
    + left. reflexivity.
    + vm_compute. reflexivity.
    + eapply client_run_mono; [|exact (run_client_run (fun w c o => example.step w c o) 0 _ _ _ _ _ Hrun)].
      intros w o r' w''. apply example_step_respond.
  - vm_compute in Hrun. discriminate Hrun.
  - vm_compute in Hrun. discriminate Hrun.
Defined.
