(* ===== verification/Drivers.v ===== *)
(** * The programs that drive a live gateway

    [run_live_evaluation] of [eval/live.py], [run_realistic_evaluation] of
    [eval/realistic.py] and the demo client [eval/client.py]: each starts the gateway
    as a child process, opens an MCP session over its pipes, calls tools and closes
    everything again.  The process, the session, clocks and files are operations;
    what is computed from their answers is in [Evaluation]. *)

From S2P Require Import Prelude Dict Pystr Json Models Errors Effects Registry Config Gateway Server Http Evaluation Harness.
From Stdlib Require Import QArith.
Open Scope Z_scope.

(** Of the result of a call: its error flag and its structured content. *)
Inductive client_op :=
| Environ
| ReadSettings
| MakeTempDir
| RemoveTempDir (directory : string)
| StartGateway (environment : dict string string)
| StopGateway
| OpenSession
| CloseSession
| Initialize
| ListTools
| CallTool (name : string) (arguments : jdict) (read_timeout_seconds : option Z)
| PerfCounter
| ReadScenarioFiles
| ReadLines (path : string)
| WriteReport (path : string) (report : jdict).

Definition client_sig : signature :=
  {| op := client_op;
     ans o := match o with
              | Environ => dict string string
              | ReadSettings => Settings
              | MakeTempDir => string
              | ListTools => list McpTool
              | CallTool _ _ _ => CallToolResult
              | PerfCounter => Q
              | ReadScenarioFiles => list (string * json)
              | ReadLines _ => option (list string)
              | _ => unit
              end |}.
Abbreviation CM := (M client_sig unit).
Abbreviation perform o := (call (E := client_sig) o).

(** [environment.update]. *)
Definition updated (environ : dict string string) (changes : list (string * string)) : dict string string :=
  fold_left (fun d kv => dict_set kv.1 kv.2 d) changes environ.

(** [async with stdio_client(server)], [async with ClientSession] and
    [session.initialize]. *)
Definition with_session {A} (environment : dict string string) (body : CM A) : CM A :=
  perform (StartGateway environment);;
  finally
    (perform OpenSession;;
     finally (perform Initialize;; body) (perform CloseSession))
    (perform StopGateway).

Section drivers.
Context `{Rendering} (repr : json -> string).

(** [str] of a boolean, in lower case. *)
Definition bool_text (b : bool) : string := if b then "true" else "false".
Definition provider_text (p : LlmProvider) : string :=
  match p with openai_compatible => "openai_compatible" | anthropic => "anthropic" end.

(* ------------------------------------------------------------------ *)
(** ** The live evaluation *)

Definition live_environment (environ : dict string string) : dict string string :=
  updated environ
    [("GATEWAY_ENVIRONMENT", "development"); ("GATEWAY_STATE_STORE_BACKEND", "redis");
     ("GATEWAY_APPROVAL_TIMEOUT_SECONDS", "2")].

(** [_run_live_scenario]; with the record, its latency. *)
Definition run_live_scenario (scenario : jdict) (index : Z) : CM (jdict * Q) :=
  environ ← perform Environ;
  started ← perform PerfCounter;
  result ← with_session (live_environment environ)
    (request ← lift_result (scenario_call repr scenario);
     perform (CallTool request.1 request.2 (Some 10)));
  now ← perform PerfCounter;
  let latency_ms := ((now - started) * 1000)%Q in
  mret (live_result repr scenario index (is_error result) latency_ms, latency_ms).

Definition run_live_evaluation (output_path : string) : CM jdict :=
  files ← perform ReadScenarioFiles;
  scenarios ← lift_result (load_scenarios files);
  results ← mapM (fun ix : nat * jdict => run_live_scenario ix.2 (Z.of_nat ix.1)) (imap (fun i s => (S i, s)) scenarios);
  metrics ← lift_result (ok_or (live_metrics results.*1 results.*2) (EPy IndexError "list index out of range"));
  let report := report_of metrics results.*1 in
  perform (WriteReport output_path report);;
  mret report.

(* ------------------------------------------------------------------ *)
(** ** The realistic benchmark *)

Definition realistic_environment (configured : Settings) (audit_path : string) (environ : dict string string) :
    dict string string :=
  let environment := updated environ
    [("GATEWAY_ENVIRONMENT", "development"); ("GATEWAY_STATE_STORE_BACKEND", "redis");
     ("GATEWAY_APPROVAL_TIMEOUT_SECONDS", "2"); ("GATEWAY_AUDIT_LOG_PATH", audit_path);
     ("GATEWAY_REPAIR_ENABLED", bool_text (repair_enabled configured));
     ("GATEWAY_REPAIR_LLM_PROVIDER", provider_text (repair_llm_provider configured));
     ("GATEWAY_REPAIR_LLM_URL", repair_llm_url configured);
     ("GATEWAY_REPAIR_LLM_MODEL", repair_llm_model configured);
     ("GATEWAY_REPAIR_LLM_TIMEOUT_SECONDS", float_text (repair_llm_timeout_seconds configured));
     ("GATEWAY_REPAIR_LLM_ANTHROPIC_VERSION", repair_llm_anthropic_version configured);
     ("GATEWAY_REPAIR_LLM_MAX_TOKENS", print_int (repair_llm_max_tokens configured))] in
  match repair_llm_api_key configured with
  | Some key => dict_set "GATEWAY_REPAIR_LLM_API_KEY" key environment
  | None => environment
  end.

(** The call of a generated scenario, whose arguments must be there. *)
Definition realistic_call (scenario : jdict) : result exc (string * jdict) :=
  result_bind (json_index (JObj scenario) "tool") (fun _ =>
  result_bind (json_index (JObj scenario) "arguments") (fun _ => scenario_call repr scenario)).

(** The body of the loop over the scenarios; with the record, its latency. *)
Definition run_realistic_scenario (float_norm : string -> string) (audit_path : string) (scenario : jdict) :
    CM (jdict * Q) :=
  started ← perform PerfCounter;
  request ← lift_result (realistic_call scenario);
  result ← perform (CallTool request.1 request.2 (Some 30));
  lines ← perform (ReadLines audit_path);
  evidence ← lift_result (match lines with None => Ok ([], 1) | Some lines => read_last_audit float_norm lines end);
  now ← perform PerfCounter;
  let latency_ms := ((now - started) * 1000)%Q in
  record ← lift_result (realistic_result scenario
    {| ra_is_error := is_error result; ra_latency_ms := latency_ms; ra_repairs := evidence.1;
       ra_attempts := evidence.2 |});
  mret (record, latency_ms).

Section realistic.
Context {G : Type} (seeded : Z -> G) (choice : list string -> G -> string * G) (randint : Z -> Z -> G -> Z * G).

Definition run_realistic_evaluation (float_norm : string -> string) (seed : Z) (repetitions : nat)
    (output_path : string) : CM jdict :=
  let scenarios := generate_scenarios choice randint repetitions (seeded seed) in
  configured ← perform ReadSettings;
  directory ← perform MakeTempDir;
  results ← finally
    (let audit_path := directory +:+ "/audit.jsonl" in
     environ ← perform Environ;
     with_session (realistic_environment configured audit_path environ)
       (mapM (run_realistic_scenario float_norm audit_path) scenarios))
    (perform (RemoveTempDir directory));
  report ← lift_result (ok_or
    (realistic_report repr seed (Z.of_nat repetitions) (repair_enabled configured)
       (provider_text (repair_llm_provider configured)) (repair_llm_model configured) results.*1 results.*2)
    (EPy IndexError "list index out of range"));
  perform (WriteReport output_path report);;
  mret report.
End realistic.

(* ------------------------------------------------------------------ *)
(** ** The demo client *)

Record DemoReport := {
  demo_tools : list jdict;
  demo_db_query : jdict;
  demo_shell_exec : jdict
}.

Definition demo_environment (database_path : option string) (environ : dict string string) : dict string string :=
  let environment := updated environ
    [("GATEWAY_APPROVAL_TIMEOUT_SECONDS",
      default "300" (dict_get "GATEWAY_APPROVAL_TIMEOUT_SECONDS" environ))] in
  match database_path with
  | Some path => dict_set "GATEWAY_DATABASE_PATH" path environment
  | None => environment
  end.

Definition demo_tool (tool : McpTool) : jdict :=
  [("name", JStr (mcp_name tool)); ("description", JStr (mcp_description tool));
   ("input_schema", JObj (mcp_input_schema tool));
   ("risk_class", default JNull (dict_get "gateway/riskClass" (mcp_meta tool)))].

Definition demo_query : jdict :=
  [("query", JStr ("SELECT order_id, customer_name, status " +:+
                   "FROM orders WHERE status = :status ORDER BY order_id"));
   ("parameters", JObj [("status", JStr "pending")])].

Definition run_demo (database_path : option string) : CM DemoReport :=
  environ ← perform Environ;
  answers ← with_session (demo_environment database_path environ)
    (listed ← perform ListTools;
     database_result ← perform (CallTool "db_query" demo_query None);
     shell_result ← perform (CallTool "shell_exec" [("command", JStr "printf phase-1")] None);
     mret (listed, database_result, shell_result));
  mret {| demo_tools := map demo_tool answers.1.1;
          demo_db_query := structured_content answers.1.2; demo_shell_exec := structured_content answers.2 |}.
End drivers.

(* ------------------------------------------------------------------ *)
(** ** What is open

    The processes, sessions and directories of a driver, innermost first. *)

Inductive resource := GatewayProcess | Session | TempDir (directory : string).

Definition resource_allowed (open : list resource) (o : client_op) : Prop :=
  match o with
  | StartGateway _ => GatewayProcess ∉ open
  | OpenSession => exists rest, open = GatewayProcess :: rest
  | Initialize | ListTools | CallTool _ _ _ => exists rest, open = Session :: GatewayProcess :: rest
  | CloseSession => exists rest, open = Session :: rest
  | StopGateway => exists rest, open = GatewayProcess :: rest
  | RemoveTempDir directory => exists rest, open = TempDir directory :: rest
  | WriteReport _ _ => open = []
  | _ => True
  end.

Definition resource_next (open : list resource) (o : client_op) :
    result exc (ans client_sig o) -> list resource :=
  match o with
  | MakeTempDir => fun r => match r with Ok directory => TempDir directory :: open | Err _ => open end
  | StartGateway _ => fun r => if is_ok r then GatewayProcess :: open else open
  | OpenSession => fun r => if is_ok r then Session :: open else open
  | CloseSession | StopGateway | RemoveTempDir _ => fun _ => tail open
  | _ => fun _ => open
  end.

Definition open_after (tr : list (event client_sig)) : list resource :=
  fold_left (fun open ev => resource_next open (projT1 ev) (projT2 ev)) tr [].

Definition resource_monitor : monitor client_sig :=
  {| mstate := list resource; allowed open (o : op client_sig) := resource_allowed open o;
     assumed _ _ _ := True; mnext open (o : op client_sig) := resource_next open o |}.

(** [x] leaves what is open as it is, from any state that satisfies [P]. *)
Definition restores {A} (P : list resource -> Prop) (x : CM A) : Prop :=
  forall open, P open -> wpM resource_monitor x tt open (fun _ _ open' => open' = open).

Lemma open_after_monitor open (tr : list (event client_sig)) :
  mon_after resource_monitor open tr = fold_left (fun open ev => resource_next open (projT1 ev) (projT2 ev)) tr open.
Proof. revert open. induction tr as [|ev tr IH]; intros open; [done|]. apply IH. Qed.

Lemma restores_bind {A B} P (x : CM A) (f : A -> CM B) :
  restores P x -> (forall a, restores P (f a)) -> restores P (x ≫= f).
Proof.
  intros Hx Hf open Ho. apply wpM_bind. eapply wpM_mono; [by apply Hx|].
  intros [a|e] [] open' ->; [by apply Hf|done].
Qed.
Lemma restores_ret {A} P (a : A) : restores P (mret a : CM A).
Proof. by intros open _. Qed.
Lemma restores_lift {A} P (r : result exc A) : restores P (lift_result r : CM A).
Proof. by intros open _. Qed.
Lemma restores_call P (o : client_op) :
  (forall open, P open -> resource_allowed open o) -> (forall open r, resource_next open o r = open) ->
  restores P (perform o).
Proof. intros Ho Hn open Hopen. apply wpM_call; [by apply Ho|]. intros r _. apply Hn. Qed.
Lemma restores_mapM {A B} P (f : A -> CM B) l : (forall a, restores P (f a)) -> restores P (mapM f l).
Proof.
  intros Hf. induction l as [|a l IH]; cbn; [apply restores_ret|].
  apply restores_bind; [apply Hf|]. intros b. apply restores_bind; [exact IH|]. intros bs. apply restores_ret.
Qed.

Definition in_session (open : list resource) : Prop := exists rest, open = Session :: GatewayProcess :: rest.

Lemma restores_with_session {A} environment (body : CM A) :
  restores in_session body -> restores (fun open => GatewayProcess ∉ open) (with_session environment body).
Proof.
  intros Hb open Hopen.
  assert (Hstop : forall (r : result exc A), wpM resource_monitor (perform StopGateway) tt (GatewayProcess :: open)
    (fun r' _ open' => match r' with Ok _ | Err _ => open' = open end)).
  { intros r. wp_call; [by exists open|]. by intros [[]|e] _. }
  assert (Hclose : forall (r : result exc A), wpM resource_monitor (perform CloseSession) tt
    (Session :: GatewayProcess :: open) (fun r' _ open' => open' = GatewayProcess :: open)).
  { intros r. wp_call; [by eexists|]. done. }
  unfold with_session. wp_step. wp_call; [exact Hopen|]. intros [[]|e] _; [|done].
  wp_step. eapply (wpM_mono resource_monitor _ tt _ (fun _ _ (open' : list resource) => open' = GatewayProcess :: open)).
  2:{ intros r [] open' ->. eapply wpM_mono; [exact (Hstop r)|]. by intros [[]|e] [] open' ->. }
  wp_step. wp_call; [by exists open|]. intros [[]|e] _; [|done].
  wp_step. eapply (wpM_mono resource_monitor _ tt _ (fun _ _ (open' : list resource) => open' = Session :: GatewayProcess :: open)).
  2:{ intros r [] open' ->. eapply wpM_mono; [exact (Hclose r)|]. by intros [[]|e] [] open' ->. }
  wp_step. wp_call; [by eexists|]. intros [[]|e] _; [|done]. apply Hb. by exists open.
Qed.

Ltac restore :=
  cbv zeta beta;
  repeat (lazymatch goal with
    | |- restores _ (mret _) => apply restores_ret
    | |- restores _ (lift_result _) => apply restores_lift
    | |- restores _ (call _) => apply restores_call; [by (intros ? ?; subst)|done]
    | |- restores _ (_ ≫= _) => apply restores_bind; [|intros ?]
    | |- restores _ (mapM _ _) => apply restores_mapM; intros ?
    end; cbv zeta beta).

Section properties.
Context `{Rendering} (repr : json -> string).
Abbreviation nothing := (fun open : list resource => open = []).
Abbreviation no_process := (fun open : list resource => GatewayProcess ∉ open).

Lemma restores_weaken {A} (P P' : list resource -> Prop) (x : CM A) :
  (forall open, P open -> P' open) -> restores P' x -> restores P x.
Proof. intros HP Hx open Ho. by apply Hx, HP. Qed.

Lemma live_restores output_path : restores nothing (run_live_evaluation repr output_path).
Proof.
  unfold run_live_evaluation, run_live_scenario. restore.
  apply (restores_weaken _ no_process); [intros ? ->; apply not_elem_of_nil|].
  apply restores_with_session. restore.
Qed.

Lemma demo_restores database_path : restores nothing (run_demo database_path).
Proof.
  unfold run_demo. restore.
  apply (restores_weaken _ no_process); [intros ? ->; apply not_elem_of_nil|].
  apply restores_with_session. restore.
Qed.

Lemma realistic_restores {G} (seeded : Z -> G) choice randint float_norm seed repetitions output_path :
  restores nothing (run_realistic_evaluation repr seeded choice randint float_norm seed repetitions output_path).
Proof.
  unfold run_realistic_evaluation. cbv zeta. apply restores_bind; [restore|intros configured].
  intros open ->. wp_step. wp_call; [exact I|]. intros [directory|e] _; [|done].
  cbn [mnext resource_monitor resource_next]. wp_step. wp_step.
  assert (Hbody : restores no_process
    (environ ← perform Environ;
     with_session (realistic_environment configured (directory +:+ "/audit.jsonl") environ)
       (mapM (run_realistic_scenario repr float_norm (directory +:+ "/audit.jsonl"))
          (generate_scenarios choice randint repetitions (seeded seed))))).
  { restore. apply restores_with_session. unfold run_realistic_scenario. restore. }
  eapply wpM_mono; [apply Hbody; by intros [|[]%elem_of_nil]%elem_of_cons|]. intros r [] open' ->.
  wp_call; [by eexists|]. intros r' _. cbn [mnext resource_monitor resource_next tail].
  assert (Hrest : forall results, wpM resource_monitor
    (report ← lift_result (ok_or
       (realistic_report repr seed (Z.of_nat repetitions) (repair_enabled configured)
          (provider_text (repair_llm_provider configured)) (repair_llm_model configured) results.*1 results.*2)
       (EPy IndexError "list index out of range"));
     perform (WriteReport output_path report);; mret report) tt [] (fun _ _ open => open = [])).
  { intros results. refine ((_ : restores nothing _) [] eq_refl). restore. }
  destruct r' as [[]|e]; [|done]. destruct r as [results|e]; [apply Hrest|done].
Qed.

(** Whatever fails, a driver leaves nothing behind: every gateway process, session
    and temporary directory it opened is closed again, innermost first; there is one
    process at a time, tools are called in its session, and the report is written
    when everything is closed. *)
Theorem drivers_leave_nothing {G} (seeded : Z -> G) choice randint float_norm seed repetitions output_path
    database_path :
  let leaves_nothing {A} (x : CM A) := forall tr rs, exec (x tt) tr rs ->
    open_after tr = [] /\
    forall tr1 ev tr2, tr = tr1 ++ ev :: tr2 -> resource_allowed (open_after tr1) (projT1 ev) in
  leaves_nothing (run_live_evaluation repr output_path) /\
  leaves_nothing (run_realistic_evaluation repr seeded choice randint float_norm seed repetitions output_path) /\
  leaves_nothing (run_demo database_path).
Proof.
  intros leaves_nothing.
  assert (Hall : forall {A} (x : CM A), restores nothing x -> leaves_nothing A x).
  { intros A x Hx tr rs Hex. specialize (Hx [] eq_refl).
    assert (Hok : forall open (tr : list (event client_sig)), answers_ok resource_monitor open tr)
      by (intros open tr'; revert open; induction tr'; cbn; auto).
    split.
    - pose proof (wp_exec _ _ _ _ _ _ Hx Hex (Hok _ _)) as Hend. by rewrite open_after_monitor in Hend.
    - intros tr1 ev tr2 Htr. pose proof (exec_calls_allowed _ _ _ _ _ _ Hx Hex (Hok _ _) _ _ _ Htr) as Ha.
      by rewrite open_after_monitor in Ha. }
  split_and!; apply Hall; [apply live_restores|apply realistic_restores|apply demo_restores].
Qed.
End properties.
