(* ===== verification/Telemetry.v ===== *)
(** * Tracing and structured logs

    [gateway/tracing/otel.py] and its use in [gateway/server.py]: which exporter the
    entry points give the tracer, the structlog pipeline, the context a call binds
    for its log lines, and the events that are logged.  OpenTelemetry and structlog
    are libraries: exporters are opaque values, and the processors of structlog are
    the operations of a class with the laws of its documentation. *)

From S2P Require Import Prelude Dict Pystr Json Models Errors Config Gateway.
Open Scope Z_scope.

(* ------------------------------------------------------------------ *)
(** ** [create_tracing] *)

Section tracing.
Context {X : Type}.

(** An exporter: the one of OTLP, [_DiscardingExporter], or the caller's own. *)
Inductive SpanExporter :=
| OTLPSpanExporter (endpoint : string) (insecure : bool)
| DiscardingExporter
| GivenExporter (exporter : X).

Inductive SpanProcessor :=
| SimpleSpanProcessor (exporter : SpanExporter)
| BatchSpanProcessor (exporter : SpanExporter).

(** [TracingManager] with its provider. *)
Record TracingManager := {
  tm_service_name : string;
  tm_processors : list SpanProcessor;
  tm_tracer : string
}.

Definition create_tracing (endpoint : option string) (exporter : option X) (service_name : string) : TracingManager :=
  let processor :=
    match exporter, endpoint with
    | Some exporter, _ => SimpleSpanProcessor (GivenExporter exporter)
    | None, Some endpoint => BatchSpanProcessor (OTLPSpanExporter endpoint true)
    | None, None => SimpleSpanProcessor DiscardingExporter
    end in
  {| tm_service_name := service_name; tm_processors := [processor]; tm_tracer := "mcp-gateway" |}.

(** What the entry points create of their settings. *)
Definition default_service : string := "mcp-enterprise-agent-gateway".
Definition stdio_tracing (s : Settings) : TracingManager :=
  create_tracing (if is_test s then None else Some (otlp_endpoint s)) None default_service.
Definition http_tracing (s : Settings) : TracingManager :=
  create_tracing (Some (otlp_endpoint s)) None default_service.

(** Outside the test environment both entry points export to the configured
    collector; in it only the HTTP one does. *)
Theorem tracing_exported s :
  tm_processors (http_tracing s) = [BatchSpanProcessor (OTLPSpanExporter (otlp_endpoint s) true)] /\
  (environment s <> test -> stdio_tracing s = http_tracing s) /\
  (environment s = test -> tm_processors (stdio_tracing s) = [SimpleSpanProcessor DiscardingExporter]).
Proof.
  unfold stdio_tracing, is_test. split_and!; [done| |].
  - intros Hne. by rewrite bool_decide_eq_false_2.
  - intros He. by rewrite bool_decide_eq_true_2.
Qed.
End tracing.

(* ------------------------------------------------------------------ *)
(** ** structlog *)

(** A call of a logger's method, as the processors see it: the context variables
    of the running task, the name of the method, the time. *)
Record log_call := { lc_context : jdict; lc_method : string; lc_time : Z }.
Definition processor : Type := log_call -> jdict -> jdict.

Class Structlog := {
  merge_contextvars : processor;
  add_log_level : processor;
  TimeStamper : processor;
  JSONRenderer : jdict -> string
}.

Definition entry_wf (float_norm : string -> string) (d : jdict) : Prop := json_wf float_norm (JObj d) = true.

(** Their documentation: the context is merged under the event, the level and
    the time are added under their keys, the event is rendered as JSON. *)
Class StructlogLaws `{Structlog} (float_norm : string -> string) : Prop := {
  merge_get k c d : dict_get k (merge_contextvars c d) =
    match dict_get k d with Some v => Some v | None => dict_get k (lc_context c) end;
  level_get k c d : dict_get k (add_log_level c d) =
    if decide (k = "level") then Some (JStr (lc_method c)) else dict_get k d;
  time_get k c d : k <> "timestamp" -> dict_get k (TimeStamper c d) = dict_get k d;
  processed_wf c d p : p ∈ [merge_contextvars; add_log_level; TimeStamper] ->
    entry_wf float_norm (lc_context c) -> entry_wf float_norm d -> entry_wf float_norm (p c d);
  render_loads d : entry_wf float_norm d -> loads float_norm (JSONRenderer d) = Some (JObj d)
}.

Inductive stream := Stdout | Stderr.
Record BoundLogger := { bl_bound : jdict }.
Record configuration := {
  cf_processors : list processor;
  cf_renderer : jdict -> string;
  cf_file : stream;
  cf_cache_logger : bool
}.

(** [configure_logging]: the configuration it installs, and the logger it returns. *)
Definition configure_logging `{Structlog} (log_level : string) : configuration * BoundLogger :=
  ({| cf_processors := [merge_contextvars; add_log_level; TimeStamper]; cf_renderer := JSONRenderer;
      cf_file := Stderr; cf_cache_logger := false |},
   {| bl_bound := [("log_level", JStr log_level)] |}).

(* ------------------------------------------------------------------ *)
(** ** The events of the gateway *)

Inductive gateway_event :=
| ControlPlaneWriteFailed (error : string)
| AuditStateUnavailable
| AuditWriteFailed (error : string)
| ToolCallFailed (error_code : string)
| ToolCallSucceeded (attempt : Z)
| SandboxTimedOut (command : string)
| OutputLimitExceeded (command : string)
| SandboxCommandBlocked (command stderr : string)
| SandboxCleanupUnavailable (container_name : string).

Definition security_event (event_type command : string) (more : jdict) : jdict :=
  [("event_type", JStr event_type); ("command", JStr command)] ++ more ++ [("event", JStr "sandbox_security_event")].

(** The method and the event dict of each. *)
Definition log_entry (e : gateway_event) : string * jdict :=
  match e with
  | ControlPlaneWriteFailed error => ("warning", [("error", JStr error); ("event", JStr "control_plane_write_failed")])
  | AuditStateUnavailable => ("warning", [("event", JStr "audit_state_unavailable")])
  | AuditWriteFailed error => ("warning", [("error", JStr error); ("event", JStr "audit_write_failed")])
  | ToolCallFailed code => ("info", [("error_code", JStr code); ("event", JStr "tool_call_failed")])
  | ToolCallSucceeded attempt => ("info", [("attempt", JInt attempt); ("event", JStr "tool_call_succeeded")])
  | SandboxTimedOut command => ("warning", security_event "sandbox_timeout" command [])
  | OutputLimitExceeded command => ("warning", security_event "output_limit_exceeded" command [])
  | SandboxCommandBlocked command stderr =>
      ("warning", security_event "sandbox_command_blocked" command [("stderr", JStr stderr)])
  | SandboxCleanupUnavailable name =>
      ("warning", [("container_name", JStr name); ("event", JStr "sandbox_cleanup_unavailable")])
  end.

(** [bind_contextvars] after [clear_contextvars] in [execute_tool_call]. *)
Definition call_context (trace_id session_id tool_name : string) (principal : option Principal) : jdict :=
  [("trace_id", JStr trace_id); ("session_id", JStr session_id); ("tool_name", JStr tool_name);
   ("subject", JStr (match principal with Some p => pr_subject p | None => "anonymous" end));
   ("tenant_id", JStr (match principal with Some p => pr_tenant_id p | None => "local" end))].

(** The configuration in force, the context variables of every task, and the lines
    written, each with the task that wrote it. *)
Record logging := {
  lg_config : configuration;
  lg_tasks : list jdict;
  lg_lines : list (nat * string)
}.

Inductive log_op :=
| CreateTask (parent : nat)
| BeginCall (task : nat) (trace_id session_id tool_name : string) (principal : option Principal)
| LogEvent (task : nat) (e : gateway_event) (now : Z).

(** The line of an event. *)
Definition line_of (cf : configuration) (context : jdict) (e : gateway_event) (now : Z) : string :=
  let c := {| lc_context := context; lc_method := (log_entry e).1; lc_time := now |} in
  cf_renderer cf (fold_left (fun d p => p c d) (cf_processors cf) (log_entry e).2).

(** A new task runs in a copy of the context of the one that creates it. *)
Definition log_step (o : log_op) (st : logging) : logging :=
  match o with
  | CreateTask parent =>
      {| lg_config := lg_config st; lg_tasks := lg_tasks st ++ [default [] (lg_tasks st !! parent)];
         lg_lines := lg_lines st |}
  | BeginCall task trace_id session_id tool_name principal =>
      {| lg_config := lg_config st;
         lg_tasks := <[task := call_context trace_id session_id tool_name principal]> (lg_tasks st);
         lg_lines := lg_lines st |}
  | LogEvent task e now =>
      {| lg_config := lg_config st; lg_tasks := lg_tasks st;
         lg_lines := lg_lines st ++ [(task, line_of (lg_config st) (default [] (lg_tasks st !! task)) e now)] |}
  end.
Definition log_ops (ops : list log_op) (st : logging) : logging := fold_left (fun st o => log_step o st) ops st.

(** The process starts with one task. *)
Definition started `{Structlog} (log_level : string) : logging :=
  {| lg_config := (configure_logging log_level).1; lg_tasks := [[]]; lg_lines := [] |}.

(** The operation does not rebind the context of task [t]. *)
Definition keeps (t : nat) (o : log_op) : bool :=
  match o with BeginCall t' _ _ _ _ => negb (Nat.eqb t t') | _ => true end.

Section logs.
Context `{Structlog} (float_norm : string -> string) `{!StructlogLaws float_norm}.

Lemma log_entry_wf e : entry_wf float_norm (log_entry e).2.
Proof. by destruct e. Qed.

Lemma call_context_wf trace_id session_id tool_name principal :
  entry_wf float_norm (call_context trace_id session_id tool_name principal).
Proof. by destruct principal. Qed.

(** A line reads back as an object that has the context's values under the keys no
    event and no processor uses. *)
Lemma line_reads log_level context e now :
  entry_wf float_norm context ->
  exists kvs, loads float_norm (line_of (configure_logging log_level).1 context e now) = Some (JObj kvs) /\
    dict_get "event" kvs = dict_get "event" (log_entry e).2 /\
    forall k, k ∈ ["trace_id"; "session_id"; "tool_name"; "subject"; "tenant_id"] ->
      dict_get k kvs = dict_get k context.
Proof.
  intros Hc. unfold line_of. cbn [configure_logging fst cf_renderer cf_processors fold_left].
  set (c := {| lc_context := context; lc_method := _; lc_time := now |}).
  set (kvs := TimeStamper c (add_log_level c (merge_contextvars c (log_entry e).2))). exists kvs. split_and!.
  - apply render_loads. unfold kvs.
    apply processed_wf; [set_solver|done|]. apply processed_wf; [set_solver|done|].
    apply processed_wf; [set_solver|done|]. apply log_entry_wf.
  - unfold kvs. rewrite time_get, level_get, decide_False, merge_get by done. by destruct e.
  - intros k Hk. unfold kvs.
    assert (Hne : k <> "timestamp" /\ k <> "level" /\ dict_get k (log_entry e).2 = None).
    { rewrite !elem_of_cons in Hk. destruct Hk as [->|[->|[->|[->|[->|[]%elem_of_nil]]]]]; by destruct e. }
    destruct Hne as (Ht & Hl & He). rewrite time_get, level_get, decide_False, merge_get by done.
    by rewrite He.
Qed.

(** While nothing rebinds the context of a task, its lines are those of this context. *)
Lemma lines_of_task t context ops st :
  lg_tasks st !! t = Some context -> forallb (keeps t) ops = true ->
  lg_config (log_ops ops st) = lg_config st /\
  exists lines, lg_lines (log_ops ops st) = lg_lines st ++ lines /\
    Forall (fun l => l.1 = t -> exists e now, l.2 = line_of (lg_config st) context e now) lines.
Proof.
  revert st. induction ops as [|o ops IH]; intros st Ht Hk.
  - split; [done|]. exists []. by rewrite app_nil_r.
  - cbn in Hk. apply andb_true_iff in Hk as [Ho Hk].
    assert (Ht' : lg_tasks (log_step o st) !! t = Some context).
    { destruct o as [parent|t' ? ? ? ?|t' e now]; cbn in *; [|by rewrite list_lookup_insert_ne; [|intros ->; rewrite Nat.eqb_refl in Ho]|done].
      rewrite lookup_app_l; [done|by eapply lookup_lt_Some]. }
    destruct (IH _ Ht' Hk) as (Hcf & lines & Hl & Hf). cbn. fold (log_ops ops (log_step o st)).
    destruct o as [parent|t' ? ? ? ?|t' e now]; cbn [log_step lg_config lg_lines] in *; split; try done; try by exists lines.
    exists ((t', line_of (lg_config st) (default [] (lg_tasks st !! t')) e now) :: lines).
    rewrite Hl, <- app_assoc. split; [done|]. constructor; [|done].
    cbn. intros ->. rewrite Ht. by exists e, now.
Qed.

Lemma log_ops_config ops st : lg_config (log_ops ops st) = lg_config st.
Proof. revert st. induction ops as [|o ops IH]; intros st; [done|]. cbn. fold (log_ops ops (log_step o st)). rewrite IH. by destruct o. Qed.

(** Every line a call logs is a JSON object that names its own trace, session,
    tool, subject and tenant, whatever other calls do meanwhile. *)
Theorem call_lines_attributed log_level before after t trace_id session_id tool_name principal :
  (t < length (lg_tasks (log_ops before (started log_level))))%nat ->
  forallb (keeps t) after = true ->
  let st := log_ops before (started log_level) in
  exists lines, lg_lines (log_ops (before ++ BeginCall t trace_id session_id tool_name principal :: after)
                            (started log_level)) = lg_lines st ++ lines /\
  forall line, (t, line) ∈ lines -> exists kvs, loads float_norm line = Some (JObj kvs) /\
    forall k v, (k, v) ∈ call_context trace_id session_id tool_name principal -> dict_get k kvs = Some v.
Proof.
  intros Hlt Hk st. set (context := call_context trace_id session_id tool_name principal).
  unfold log_ops. rewrite fold_left_app. fold (log_ops before (started log_level)). fold st. cbn [fold_left].
  set (st1 := log_step _ st). fold (log_ops after st1).
  assert (Ht : lg_tasks st1 !! t = Some context) by (cbn; by rewrite list_lookup_insert_eq).
  destruct (lines_of_task t context after st1 Ht Hk) as (_ & lines & Hl & Hf).
  exists lines. split; [done|]. intros line Hin.
  destruct (proj1 (Forall_forall _ _) Hf _ Hin eq_refl) as (e & now & Heq). cbn in Heq. subst line.
  assert (Hcf : lg_config st1 = (configure_logging log_level).1) by exact (log_ops_config before (started log_level)).
  change (lg_config st) with (lg_config st1). rewrite Hcf. destruct (line_reads log_level context e now) as (kvs & Hr & _ & Hget); [apply call_context_wf|].
  exists kvs. split; [done|]. intros k v Hkv.
  rewrite Hget; [apply dict_In_get; [|done]|].
  - unfold dict_ok. by apply (bool_decide_unpack _).
  - unfold context, call_context in Hkv. rewrite !elem_of_cons in Hkv. set_solver.
Qed.

(** A worker task is created when the service starts, in a context without a call:
    none of the lines logged in it, whichever call the job comes from, names one. *)
Theorem worker_lines_unattributed log_level ops :
  forallb (keeps 1) ops = true ->
  forall line, (1%nat, line) ∈ lg_lines (log_ops (CreateTask 0 :: ops) (started log_level)) ->
  exists kvs, loads float_norm line = Some (JObj kvs) /\
    dict_get "trace_id" kvs = None /\ dict_get "session_id" kvs = None /\ dict_get "tool_name" kvs = None.
Proof.
  intros Hk line Hin.
  destruct (lines_of_task 1 [] ops (log_step (CreateTask 0) (started log_level)) eq_refl Hk) as (_ & lines & Hl & Hf).
  cbn in Hin. unfold log_ops in Hl. cbn in Hl. rewrite Hl in Hin.
  destruct (proj1 (Forall_forall _ _) Hf _ Hin eq_refl) as (e & now & Heq). cbn in Heq. subst line.
  destruct (line_reads log_level [] e now) as (kvs & Hr & _ & Hget); [done|].
  exists kvs. split; [done|]. split_and!; by rewrite Hget by set_solver.
Qed.

(** The configured level changes nothing that is logged: it is bound to a logger
    nobody keeps, and no processor filters. *)
Theorem log_level_has_no_effect level1 level2 ops :
  lg_lines (log_ops ops (started level1)) = lg_lines (log_ops ops (started level2)) /\
  length (lg_lines (log_ops ops (started level1))) =
  length (List.filter (fun o => match o with LogEvent _ _ _ => true | _ => false end) ops).
Proof.
  split; [done|]. unfold log_ops.
  change (length (List.filter _ ops)) with
    (length (lg_lines (started level1)) +
     length (List.filter (fun o => match o with LogEvent _ _ _ => true | _ => false end) ops))%nat.
  generalize (started level1). induction ops as [|o ops IH]; intros st; cbn; [lia|].
  rewrite IH. destruct o; cbn; rewrite ?length_app; cbn; lia.
Qed.
End logs.

(* ------------------------------------------------------------------ *)
(** ** The laws can be met *)

Lemma dict_set_wf float_norm k v d :
  json_wf float_norm v = true -> entry_wf float_norm d -> entry_wf float_norm (dict_set k v d).
Proof.
  unfold entry_wf. cbn [json_wf]. intros Hv [Hd%bool_decide_eq_true Hall]%andb_true_iff.
  apply andb_true_iff. split; [by apply bool_decide_eq_true, dict_set_ok|].
  clear Hd. induction d as [|[k' v'] d IH]; cbn in *; [by rewrite Hv|].
  apply andb_true_iff in Hall as [Hv' Hall]. case_decide; cbn; by rewrite ?Hv, ?Hv', ?Hall, ?IH.
Qed.

(** The context under the event. *)
Definition merge_under (context d : jdict) : jdict :=
  d ++ List.filter (fun kv => negb (dict_mem kv.1 d)) context.

Lemma dict_get_app_filter k (d context : jdict) :
  dict_get k (merge_under context d) = match dict_get k d with Some v => Some v | None => dict_get k context end.
Proof.
  unfold merge_under. set (fresh := fun kv : string * json => negb (dict_mem kv.1 d)).
  assert (Happ : forall l, dict_get k (d ++ l) = match dict_get k d with Some v => Some v | None => dict_get k l end).
  { intros l. clear fresh. induction d as [|[k' v'] d IH]; cbn; [done|]. by case_decide. }
  rewrite Happ. destruct (dict_get k d) as [v|] eqn:Hk; [done|].
  induction context as [|[k' v'] context IH]; [done|]. cbn [List.filter dict_get].
  destruct (fresh (k', v')) eqn:Hf; cbn; [by rewrite IH|]. rewrite IH. case_decide as Heq; [|done]. subst k'.
  unfold fresh, dict_mem in Hf. cbn in Hf. by rewrite Hk in Hf.
Qed.

Lemma merge_under_wf float_norm context d :
  entry_wf float_norm context -> entry_wf float_norm d -> entry_wf float_norm (merge_under context d).
Proof.
  unfold entry_wf, merge_under. cbn [json_wf].
  intros [Hc%bool_decide_eq_true Hca]%andb_true_iff [Hd%bool_decide_eq_true Hda]%andb_true_iff.
  apply andb_true_iff. split; [apply bool_decide_eq_true|].
  - unfold dict_keys. rewrite map_app. apply NoDup_app. split_and!; [done| |].
    + intros k Hk (kv & -> & Hkv)%list_elem_of_fmap. apply list_elem_of_In, filter_In in Hkv as [_ Hn].
      unfold dict_mem in Hn. destruct (dict_get kv.1 d) eqn:Hg; [done|]. by apply dict_get_None in Hg.
    + clear Hca. induction context as [|kv context IH]; cbn; [constructor|].
      cbn in Hc. apply NoDup_cons in Hc as [Hkv Hc]. destruct (negb _); cbn; [|auto].
      apply NoDup_cons. split; [|auto]. intros (kv' & Heq & Hin)%list_elem_of_fmap.
      apply list_elem_of_In, filter_In in Hin as [Hin%list_elem_of_In _]. apply Hkv. rewrite Heq.
      apply list_elem_of_fmap. eauto.
  - rewrite forallb_app, Hda. cbn. apply forallb_forall. intros kv [Hin _]%filter_In.
    rewrite forallb_forall in Hca. auto.
Qed.

Definition plain_structlog : Structlog :=
  {| merge_contextvars c d := merge_under (lc_context c) d;
     add_log_level c d := dict_set "level" (JStr (lc_method c)) d;
     TimeStamper c d := dict_set "timestamp" (JInt (lc_time c)) d;
     JSONRenderer d := dumps (JObj d) |}.

Lemma plain_structlog_laws : @StructlogLaws plain_structlog id.
Proof.
  split; cbn.
  - intros. apply dict_get_app_filter.
  - intros. by rewrite dict_get_set.
  - intros k c d Hk. by apply dict_get_set_ne.
  - intros c d p Hp Hc Hd. rewrite !elem_of_cons in Hp.
    destruct Hp as [->|[->|[->|[]%elem_of_nil]]]; [by apply merge_under_wf|by apply dict_set_wf..].
  - intros d Hd. exact (loads_print id true (JObj d) Hd).
Qed.
