(* ===== verification/Tracing.v ===== *)
(** * The observed pipeline: spans and log lines of a tool call

    [execute_tool_call] of gateway/server.py with what it tells its observers: the
    spans it opens through [TracingManager.span] (gateway/tracing/otel.py), their
    attributes, the log context it binds and the lines it logs.  [Server] models
    the same function without them; here it is shown that observing a call changes
    nothing of what the call does, and that the spans are properly nested.

    OpenTelemetry and structlog are libraries: opening and closing a span, setting
    an attribute, binding the context and logging are operations; they are assumed
    not to raise, as their documentation says. *)

From S2P Require Import Prelude Dict Pystr Json Models Errors Effects Registry Repair AuditLog StateStore Hitl Policy Server ServerSpec Telemetry.
From Stdlib Require Import QArith.
Open Scope Z_scope.

(* ------------------------------------------------------------------ *)
(** ** Observed programs *)

Inductive telemetry_op :=
| SpanStart (name : string) (attributes : jdict)
| SetAttribute (span : nat) (key value : string)
| SpanEnd (span : nat) (error : option exc)
| BindContext (context : jdict)
| LogLine (e : gateway_event).

(** The operations of a program and those of its observers; a span is an opaque
    handle. *)
Definition observed (E : signature) : signature :=
  {| op := op E + telemetry_op;
     ans o := match o with
              | inl o => ans E o
              | inr (SpanStart _ _) => nat
              | inr _ => unit
              end |}.

(** The part of a program that observes nothing. *)
Fixpoint lift_prog {E A} (p : prog E A) : prog (observed E) A :=
  match p with
  | Ret a => Ret a
  | Call o k => Call (E := observed E) (inl o) (fun r => lift_prog (k r))
  | OutOfFuel => OutOfFuel
  end.

Section combinators.
Context {E : signature} {S : Type}.
Abbreviation OM := (M (observed E) S).

Definition unobserved {A} (m : M E S A) : OM A := fun s => lift_prog (m s).
Definition tell (o : telemetry_op) : M (observed E) S (ans (observed E) (inr o)) :=
  call (E := observed E) (inr o).
Definition set_attribute (span : nat) (key value : string) : OM unit := tell (SetAttribute span key value).
Definition log (e : gateway_event) : OM unit := tell (LogLine e).

Definition error_of {A} (r : result exc A) : option exc := match r with Ok _ => None | Err e => Some e end.

(** The block of a [with]: the span is closed whatever leaves it. *)
Definition closing {A} (h : nat) (body : OM A) : OM A := fun s =>
  pbind (body s) (fun rs =>
    Call (E := observed E) (inr (SpanEnd h (error_of rs.1))) (fun r =>
      Ret (match r with Ok _ => rs.1 | Err e => Err e end, rs.2))).

(** [TracingManager.span]: the span is open during the block. *)
Definition span {A} (name : string) (attributes : jdict) (body : nat -> OM A) : OM A :=
  h ← tell (SpanStart name attributes); closing h (body h).
End combinators.

(* ------------------------------------------------------------------ *)
(** ** [execute_tool_call], observed *)

Section call.
Context {H : Type} (registry : ToolRegistry H) (cfg : call_config).
Context (session_id tool_name : string) (arguments : jdict).
Context (call_id trace_id : string) (started_monotonic : Q).
Abbreviation E := (gw_sig H).
Abbreviation OM := (M (observed (gw_sig H)) locals).
Abbreviation gw o := (call (E := observed (gw_sig H)) (inl o)).

(** [write_audit] *)
Definition traced_write_audit (outcome : string) : OM unit :=
  if negb (has_audit_logger cfg) then mret tt else
  attempts ← try_with
    (current ← gw (Store (SGet call_id));
     match current with
     | None => mret []
     | Some current =>
         when (has_control_plane cfg)
           (try_with (gw (CpUpsertToolCall current))
              (fun e => if is_exception e then log (ControlPlaneWriteFailed (str_exc e)) else raise e));;
         mret (tc_attempts current)
     end)
    (fun e => if is_gateway_class StateStoreUnavailableError e
              then log AuditStateUnavailable;; mret [] else raise e);
  try_with
    (s ← get;
     now ← gw Monotonic;
     gw (AuditAppend
       {| af_call_id := call_id; af_session_id := session_id; af_trace_id := trace_id;
          af_tool_name := tool_name; af_arguments := arguments; af_policy_input := policy_input s;
          af_policy_decision := policy_outcome s; af_matched_rule := matched_rule s;
          af_approver_identity := approver_identity s; af_sandbox_runtime := sandbox_runtime cfg;
          af_attempts := attempts; af_repair_attempts := repair_attempts s; af_outcome := outcome;
          af_duration_ms := (now - started_monotonic) * 1000; af_principal := caller cfg |}))
    (fun e => if is_exception e then log (AuditWriteFailed (str_exc e)) else raise e).

(** [fail] *)
Definition traced_fail (error : GatewayError) : OM CallToolResult :=
  let terminal_state := if is_denial_code (ge_code error) then DENIED else FAILED in
  let outcome := if is_denial_code (ge_code error) then "denied" else "failed" in
  state_error ← try_with
    (gw (Store (STransition call_id terminal_state (Some (ge_message error))));;
     s ← get;
     gw (Store (SFinish call_id (last_finished_attempt s) outcome (Some (ge_message error))));;
     mret None)
    (fun e => match e with
              | EGateway g => if error_isinstance (ge_class g) StateStoreUnavailableError
                              then mret (Some g) else raise e
              | EPy _ _ => raise e
              end);
  match state_error with
  | Some g => mret (error_result g)
  | None =>
      traced_write_audit outcome;;
      log (ToolCallFailed (ge_code error));;
      mret (error_result error)
  end.

Definition call_attributes (attempt : Z) (more : jdict) : jdict :=
  [("tool_name", JStr tool_name); ("attempt", JInt attempt)] ++ more.

Definition traced_validate_stage : OM BaseModel :=
  span "validate" (call_attributes 1 []) (fun _ =>
    unobserved (validate_stage registry cfg tool_name arguments)).

(** The approval branch of the "policy" span. *)
Definition traced_approval_stage (policy_span : nat) (request : BaseModel) (input : jdict)
    (decision : PolicyDecision) : OM unit :=
  if negb (has_approval_queue cfg) then
    raise (EGateway (policy_denied_error "Approval is required but no approval queue is configured"))
  else
    approval_id ← gw Uuid;
    created_at ← gw Now;
    let approval := create_approval_request approval_id call_id tool_name (model_dump request) input
                      (pd_matched_rule decision) created_at in
    gw (Store (STransition call_id AWAITING_APPROVAL None));;
    gw (Submit approval);;
    when (has_control_plane cfg)
      (gw (CpCreateApproval approval (pr_tenant_id <$> caller cfg)));;
    resolved ← try_with (gw (Wait approval_id))
      (fun e =>
         if is_gateway_class ApprovalTimeoutError e || is_gateway_class ApprovalRejectedError e then
           unobserved (deny call_id (pd_reason decision));; raise e
         else raise e);
    set_attribute policy_span "approver" (or_default (ap_approver resolved) "unknown");;
    modify (set_approver (ap_approver resolved));;
    if has_control_plane cfg then
      now ← gw Now;
      gw (CpResolveApproval approval_id (or_default (ap_decision resolved) "approved")
        (or_default (ap_approver resolved) "unknown") (or_default (ap_reason resolved) "") now)
    else mret tt.

(** The "policy" span. *)
Definition traced_policy_stage (request : BaseModel) : OM (ToolDefinition H) :=
  span "policy" (call_attributes 1 [("decision", JStr "not_evaluated")]) (fun policy_span =>
    definition ← lift_result (registry_get registry tool_name);
    let input := make_policy_input tool_name (td_risk_class definition) (model_dump request) (caller cfg) in
    modify (set_input input);;
    decision ← gw (Evaluate input);
    modify (set_decision decision);;
    modify (set_repairs (update_last (fun e =>
      let e := ra_set_policy (pd_outcome decision) e in
      if String.eqb (pd_outcome decision) ALLOW then e else ra_set_outcome "policy_denied" e)));;
    set_attribute policy_span "decision" (pd_outcome decision);;
    set_attribute policy_span "matched_rule" (pd_matched_rule decision);;
    gw (Store (STransition call_id POLICY_CHECKED None));;
    (if String.eqb (pd_outcome decision) REQUIRES_APPROVAL
     then traced_approval_stage policy_span request input decision
     else if negb (String.eqb (pd_outcome decision) ALLOW) then
       unobserved (deny call_id (pd_reason decision));;
       raise (EGateway (policy_denied_error (pd_reason decision)))
     else mret tt);;
    mret definition).

(** The repeated policy check of [execute_attempt]. *)
Definition traced_recheck_policy (definition : ToolDefinition H) (n : Z) (arguments : jdict) : OM unit :=
  span "policy" (call_attributes n [("decision", JStr "repaired_arguments")]) (fun repaired_policy_span =>
    request ← lift_result (registry_validate registry tool_name arguments);
    decision ← gw (Evaluate (make_policy_input tool_name (td_risk_class definition)
                               (model_dump request) (caller cfg)));
    modify (set_repairs (update_last (ra_set_policy (pd_outcome decision))));;
    set_attribute repaired_policy_span "decision" (pd_outcome decision);;
    set_attribute repaired_policy_span "matched_rule" (pd_matched_rule decision);;
    if negb (String.eqb (pd_outcome decision) ALLOW) then
      modify (set_repairs (update_last (ra_set_outcome "policy_denied")));;
      raise (EGateway (policy_denied_error "Repaired arguments were denied by policy"))
    else mret tt).

(** The tool runs in the "sandbox" and "execute" spans. *)
Definition traced_run (n : Z) (arguments : jdict) : OM BaseModel :=
  span "sandbox" (call_attributes n [("runtime", JStr "sandbox")]) (fun _ =>
    span "execute" (call_attributes n []) (fun _ =>
      validated ← lift_result (registry_validate registry tool_name arguments);
      unobserved (registry_execute_validated (run_handler cfg call_id) registry tool_name validated))).

(** The [try] body of [execute_attempt]. *)
Definition traced_attempt_body (definition : ToolDefinition H) (n : Z) (arguments : jdict) : OM BaseModel :=
  when (1 <? n) (traced_recheck_policy definition n arguments);;
  result ← traced_run n arguments;
  gw (Store (SFinish call_id n "succeeded" None));;
  mret result.

(** [execute_attempt] *)
Definition traced_execute_attempt (definition : ToolDefinition H) (arguments : jdict) : OM BaseModel :=
  s ← get;
  let n := latest_attempt s in
  when (1 <? n) (gw (Store (SStart call_id n)));;
  gw (Store (STransition call_id EXECUTING None));;
  finally
    (try_with (traced_attempt_body definition n arguments)
       (fun e => match e with
                 | EGateway g =>
                     gw (Store (SFinish call_id n "failed" (Some (ge_message g))));; raise e
                 | EPy _ _ => raise e
                 end))
    (modify (finish_locals n)).

(** The repair loop around [execute_attempt]. *)
Definition traced_run_stage (definition : ToolDefinition H) (request : BaseModel) : OM (BaseModel * Z) :=
  repair_run default_backoff (gw Monotonic) (gw Uniform) (fun seconds => gw (Sleep seconds))
    (traced_execute_attempt definition)
    (if has_repair_advisor cfg
     then Some (fun arguments diagnosis =>
                  unobserved (repair_arguments registry cfg tool_name definition arguments diagnosis))
     else None)
    {| rc_risk_class := td_risk_class definition; rc_idempotent := td_idempotent definition;
       rc_tool_name := tool_name; rc_tool_schema := Some (input_schema definition) |}
    (model_dump request).

(** The body of the outer [try]. *)
Definition traced_call_body : OM CallToolResult :=
  request ← traced_validate_stage;
  gw (Store (STransition call_id VALIDATED None));;
  definition ← traced_policy_stage request;
  output ← traced_run_stage definition request;
  gw (Store (STransition call_id SUCCEEDED None));;
  traced_write_audit "succeeded";;
  log (ToolCallSucceeded output.2);;
  mret (tool_result (model_dump output.1) false).

(** The outer [try] with its handlers. *)
Definition traced_run_call : OM CallToolResult :=
  try_with traced_call_body (fun e =>
    match e with
    | EGateway g => traced_fail g
    | EPy _ _ =>
        if is_exception e then traced_fail (tool_execution_error "The tool failed unexpectedly") else raise e
    end).
End call.

Section execute.
Context {H : Type} (registry : ToolRegistry H) (cfg : call_config).
Context (session_id tool_name : string) (arguments : jdict).
Abbreviation OM := (M (observed (gw_sig H)) locals).
Abbreviation gw o := (call (E := observed (gw_sig H)) (inl o)).

(** The attributes of the "tool_call" span. *)
Definition root_attributes (risk_class : option RiskClass) : jdict :=
  [("tool_name", JStr tool_name);
   ("risk_class", JStr (match risk_class with Some risk_class => value risk_class | None => "unknown" end));
   ("attempt", JInt 1);
   ("subject", JStr (match caller cfg with Some p => pr_subject p | None => "anonymous" end));
   ("tenant_id", JStr (match caller cfg with Some p => pr_tenant_id p | None => "local" end));
   ("roles", JStr (match caller cfg with Some p => join "," (map value (pr_roles p)) | None => "admin" end))].

Definition traced_execute_tool_call : OM CallToolResult :=
  call_id ← gw Uuid;
  started_monotonic ← gw Monotonic;
  let risk_class := match registry_get registry tool_name with
                    | Ok definition => Some (td_risk_class definition)
                    | Err _ => None
                    end in
  span "tool_call" (root_attributes risk_class) (fun _ =>
    trace_id ← gw TraceId;
    now ← gw Now;
    let record := received_record cfg session_id tool_name arguments call_id trace_id risk_class now in
    created ← try_with (gw (Store (SCreate record));; mret None)
      (fun e => match e with
                | EGateway g => if error_isinstance (ge_class g) StateStoreUnavailableError
                                then mret (Some g) else raise e
                | EPy _ _ => raise e
                end);
    match created with
    | Some g => mret (error_result g)
    | None =>
        persisted ← unobserved (persist_call cfg record);
        if negb persisted then
          mret (error_result (tool_execution_error "Durable control-plane persistence is unavailable"))
        else
          (tell (BindContext (call_context trace_id session_id tool_name (caller cfg))) : OM unit);;
          traced_run_call registry cfg session_id tool_name arguments call_id trace_id started_monotonic
    end).
End execute.

(* ------------------------------------------------------------------ *)
(** ** Erasing the observers

    [erases p q]: [p] does what [q] does, with operations of the observers in
    between that answer normally. *)

Inductive erases {E A} : prog (observed E) A -> prog E A -> Prop :=
| erases_ret a : erases (Ret a) (Ret a)
| erases_call o k k' :
    (forall r, erases (k r) (k' r)) -> erases (Call (E := observed E) (inl o) k) (Call o k')
| erases_tell o k q :
    (forall a, erases (k (Ok a)) q) -> erases (Call (E := observed E) (inr o) k) q
| erases_fuel : erases OutOfFuel OutOfFuel.

Definition telemetry_ok {E} (ev : event (observed E)) : Prop :=
  match ev with existT (inl _) _ => True | existT (inr _) r => is_ok r = true end.

Definition erase_event {E} (ev : event (observed E)) : option (event E) :=
  match ev with
  | existT (inl o) r => Some (existT o r)
  | existT (inr _) _ => None
  end.
Definition erase_trace {E} (tr : list (event (observed E))) : list (event E) := omap erase_event tr.

Lemma erases_exec {E A} (p : prog (observed E) A) q tr a :
  erases p q -> exec p tr a -> Forall telemetry_ok tr -> exec q (erase_trace tr) a.
Proof.
  intros He. revert tr. induction He as [b|o k k' Hk IH|o k q Hk IH|]; intros tr Hex Hok.
  - apply exec_inv in Hex as [-> ->]. constructor.
  - apply exec_inv in Hex as (r & tr' & -> & Hex). apply Forall_cons in Hok as [_ Hok].
    cbn. apply exec_call. by apply IH.
  - apply exec_inv in Hex as (r & tr' & -> & Hex). apply Forall_cons in Hok as [Hr Hok].
    destruct r as [v|e]; [|done]. cbn. by apply (IH v).
  - by apply exec_inv in Hex.
Qed.

(** Observers that answer: any span gets some handle. *)
Definition some_answer {E} (o : telemetry_op) : ans (observed E) (inr o) :=
  match o with SpanStart _ _ => 0%nat | _ => tt end.

Lemma erases_observed {E A} (p : prog (observed E) A) q tr a :
  erases p q -> exec q tr a ->
  exists tr', exec p tr' a /\ Forall telemetry_ok tr' /\ erase_trace tr' = tr.
Proof.
  intros He. revert tr. induction He as [b|o k k' Hk IH|o k q Hk IH|]; intros tr Hex.
  - apply exec_inv in Hex as [-> ->]. exists []. split_and!; constructor.
  - apply exec_inv in Hex as (r & tr0 & -> & Hex). destruct (IH r tr0 Hex) as (tr' & Hex' & Hok & <-).
    exists (Event (E := observed E) (inl o) r :: tr'). split_and!; [by constructor|by constructor|done].
  - destruct (IH (some_answer o) tr Hex) as (tr' & Hex' & Hok & <-).
    exists (Event (E := observed E) (inr o) (Ok (some_answer o)) :: tr'). split_and!; [by constructor|by constructor|done].
  - by apply exec_inv in Hex.
Qed.

Lemma erases_pbind {E A B} (p : prog (observed E) A) q (f : A -> prog (observed E) B) g :
  erases p q -> (forall a, erases (f a) (g a)) -> erases (pbind p f) (pbind q g).
Proof. intros He Hf. induction He; cbn; [done|by constructor..]. Qed.

(** Programs that are equal call by call erase to the same observed program. *)
Lemma erases_eq {E A} (p : prog (observed E) A) q q' : erases p q -> prog_eq q q' -> erases p q'.
Proof.
  intros He. revert q'. induction He as [b|o k k' Hk IH|o k q Hk IH|]; intros q' Hq.
  - cbn in Hq. subst. constructor.
  - destruct Hq as (k'' & -> & Hk''). constructor. intros r. by apply IH.
  - constructor. intros v. by apply IH.
  - cbn in Hq. subst. constructor.
Qed.

Lemma erases_lift_prog {E A} (p : prog E A) : erases (lift_prog p) p.
Proof. induction p; cbn; by constructor. Qed.

(** The same of coroutines, from every value of the variables. *)
Definition erasesM {E S A} (m : M (observed E) S A) (m' : M E S A) : Prop := forall s, erases (m s) (m' s).

Create HintDb erasure.

Section erasesM.
Context {E : signature} {S : Type}.

Lemma erasesM_ret {A} (a : A) : erasesM (E := E) (S := S) (mret a) (mret a).
Proof. intros s. constructor. Qed.
Lemma erasesM_raise {A} e : erasesM (E := E) (S := S) (raise (A := A) e) (raise e).
Proof. intros s. constructor. Qed.
Lemma erasesM_lift {A} (r : result exc A) : erasesM (E := E) (S := S) (lift_result r) (lift_result r).
Proof. intros s. constructor. Qed.
Lemma erasesM_get : erasesM (E := E) (S := S) get get.
Proof. intros s. constructor. Qed.
Lemma erasesM_modify f : erasesM (E := E) (S := S) (modify f) (modify f).
Proof. intros s. constructor. Qed.
Lemma erasesM_fuel {A} : erasesM (E := E) (S := S) (A := A) out_of_fuel out_of_fuel.
Proof. intros s. constructor. Qed.
Lemma erasesM_call (o : op E) : erasesM (S := S) (call (E := observed E) (inl o)) (call o).
Proof. intros s. constructor. intros r. constructor. Qed.
Lemma erasesM_unobserved {A} (m : M E S A) : erasesM (unobserved m) m.
Proof. intros s. apply erases_lift_prog. Qed.

Lemma erasesM_bind {A B} (x : M (observed E) S A) x' (f : A -> M (observed E) S B) f' :
  erasesM x x' -> (forall a, erasesM (f a) (f' a)) -> erasesM (x ≫= f) (x' ≫= f').
Proof. intros Hx Hf s. apply erases_pbind; [apply Hx|]. intros [[a|e] s']; [apply Hf|constructor]. Qed.
Lemma erasesM_try {A} (x : M (observed E) S A) x' h h' :
  erasesM x x' -> (forall e, erasesM (h e) (h' e)) -> erasesM (try_with x h) (try_with x' h').
Proof. intros Hx Hh s. apply erases_pbind; [apply Hx|]. intros [[a|e] s']; [constructor|apply Hh]. Qed.
Lemma erasesM_finally {A} (x : M (observed E) S A) x' f f' :
  erasesM x x' -> erasesM f f' -> erasesM (finally x f) (finally x' f').
Proof.
  intros Hx Hf s. apply erases_pbind; [apply Hx|]. intros rs. apply erases_pbind; [apply Hf|].
  intros [[a|e] s']; constructor.
Qed.
Lemma erasesM_when b (m : M (observed E) S unit) m' : erasesM m m' -> erasesM (when b m) (when b m').
Proof. destruct b; [done|]. intros _. apply erasesM_ret. Qed.

(** The observers vanish. *)
Lemma erasesM_log (e : gateway_event) : erasesM (E := E) (S := S) (log e) (mret tt).
Proof. intros s. constructor. intros []. constructor. Qed.
Lemma erasesM_tell {B} (o : telemetry_op) (f : ans (observed E) (inr o) -> M (observed E) S B) m' :
  (forall a, erasesM (f a) m') -> erasesM (tell o ≫= f) m'.
Proof. intros Hf s. constructor. intros a. apply Hf. Qed.

Lemma erases_closing_ret {A} h (rs : result exc A * S) :
  erases (E := E) (Call (E := observed E) (inr (SpanEnd h (error_of rs.1)))
    (fun r => Ret (match r with Ok _ => rs.1 | Err e => Err e end, rs.2))) (Ret rs).
Proof. constructor. intros []. cbn. destruct rs. constructor. Qed.

Lemma erasesM_closing {A} h (m : M (observed E) S A) m' : erasesM m m' -> erasesM (closing h m) m'.
Proof.
  intros Hm s. eapply erases_eq; [|apply pbind_ret_r]. apply erases_pbind; [apply Hm|].
  apply erases_closing_ret.
Qed.
Lemma erasesM_span {A} name attributes (body : nat -> M (observed E) S A) m' :
  (forall h, erasesM (body h) m') -> erasesM (span name attributes body) m'.
Proof. intros Hb. apply erasesM_tell. intros h. apply erasesM_closing, Hb. Qed.

Lemma erasesM_assoc {A B C} (m : M (observed E) S C) (x : M E S A) (f : A -> M E S B) (g : B -> M E S C) :
  erasesM m ((x ≫= f) ≫= g) -> erasesM m (x ≫= (fun a => f a ≫= g)).
Proof.
  intros Hm s. eapply erases_eq; [apply Hm|]. etrans; [apply pbind_assoc|].
  apply pbind_proper; [reflexivity|]. intros [[a|e] s']; reflexivity.
Qed.
End erasesM.

#[export] Hint Resolve erasesM_ret erasesM_raise erasesM_lift erasesM_get erasesM_modify erasesM_fuel
  erasesM_unobserved erasesM_log : erasure.

(** One construct of the observed program against the same construct of the plain one. *)
Ltac erase_step :=
  lazymatch goal with
  | |- erasesM (tell _ ≫= _) _ => apply erasesM_tell; intros ?
  | |- erasesM (set_attribute _ _ _ ≫= _) _ => apply erasesM_tell; intros ?
  | |- erasesM (log _ ≫= _) (mret _ ≫= _) => apply erasesM_bind; [apply erasesM_log|intros ?]
  | |- erasesM (log _ ≫= _) _ => apply erasesM_tell; intros ?
  | |- erasesM (span _ _ _) _ => apply erasesM_span; intros ?
  | |- erasesM (_ ≫= _) (_ ≫= _) => apply erasesM_bind; [|intros ?]
  | |- erasesM (try_with _ _) (try_with _ _) => apply erasesM_try; [|intros ?]
  | |- erasesM (finally _ _) (finally _ _) => apply erasesM_finally
  | |- erasesM (when _ _) (when _ _) => apply erasesM_when
  | |- erasesM (call _) (@call ?E _ ?o) => exact (erasesM_call (E := E) o)
  | |- erasesM (if ?b then _ else _) _ => destruct b
  | |- erasesM (match ?x with _ => _ end) _ => destruct x
  | |- erasesM _ _ => solve [eauto with erasure]
  end.
Ltac erase := cbv zeta; repeat (erase_step; cbv zeta beta).

Section loop.
Context {E : signature} {S Out : Type} (policy : BackoffPolicy) (context : RepairContext).
Context (monotonic uniform : M (observed E) S Q) (monotonic' uniform' : M E S Q).
Context (sleep : Q -> M (observed E) S unit) (sleep' : Q -> M E S unit).
Context (executor : jdict -> M (observed E) S Out) (executor' : jdict -> M E S Out).
Context (repairer : option (jdict -> FailureDiagnosis -> M (observed E) S jdict)).
Context (repairer' : option (jdict -> FailureDiagnosis -> M E S jdict)).
Context (Hclock : erasesM monotonic monotonic') (Huniform : erasesM uniform uniform').
Context (Hsleep : forall d, erasesM (sleep d) (sleep' d)).
Context (Hexec : forall a, erasesM (executor a) (executor' a)).
Context (Hrepair : match repairer, repairer' with
                   | Some f, Some f' => forall a d, erasesM (f a d) (f' a d)
                   | None, None => True
                   | _, _ => False
                   end).

Lemma erasesM_repair_run a :
  erasesM (repair_run policy monotonic uniform sleep executor repairer context a)
          (repair_run policy monotonic' uniform' sleep' executor' repairer' context a).
Proof.
  unfold repair_run. apply erasesM_bind; [done|]. intros started.
  generalize 1 as n. revert a. induction loop_fuel as [|fuel IH]; intros a n; cbn [run_loop]; [erase|].
  apply erasesM_try; [apply erasesM_bind; [done|intros; erase]|]. intros e.
  destruct (negb (is_exception e)); [erase|]. cbv zeta.
  apply erasesM_bind; [unfold can_retry; erase; auto|]. intros retry.
  destruct (negb retry); [erase|]. apply erasesM_bind.
  { destruct (is_timeout_or_crash _); [erase|]. destruct repairer, repairer'; try done. erase. }
  intros repaired. apply erasesM_bind; [done|]. intros u. apply erasesM_bind; [done|]. intros now.
  cbv zeta. destruct (negb _); [erase|]. apply erasesM_bind; [done|]. intros. apply IH.
Qed.
End loop.

Section erased_call.
Context {H : Type} (registry : ToolRegistry H) (cfg : call_config).
Context (session_id tool_name : string) (arguments : jdict).
Context (call_id trace_id : string) (started_monotonic : Q).

Lemma write_audit_erased outcome :
  erasesM (traced_write_audit (H := H) cfg session_id tool_name arguments call_id trace_id started_monotonic outcome)
          (write_audit cfg session_id tool_name arguments call_id trace_id started_monotonic outcome).
Proof. unfold traced_write_audit, write_audit. erase. Qed.

Lemma fail_erased error :
  erasesM (traced_fail (H := H) cfg session_id tool_name arguments call_id trace_id started_monotonic error)
          (fail cfg session_id tool_name arguments call_id trace_id started_monotonic error).
Proof. unfold traced_fail, fail. erase. apply write_audit_erased. Qed.

Lemma approval_erased policy_span request input decision :
  erasesM (traced_approval_stage (H := H) cfg tool_name call_id policy_span request input decision)
          (approval_stage cfg tool_name call_id request input decision).
Proof. unfold traced_approval_stage, approval_stage. erase. Qed.

Lemma policy_erased request :
  erasesM (traced_policy_stage registry cfg tool_name call_id request)
          (policy_stage registry cfg tool_name call_id request).
Proof. unfold traced_policy_stage, policy_stage. erase. apply approval_erased. Qed.

Lemma recheck_erased definition n args :
  erasesM (traced_recheck_policy registry cfg tool_name definition n args)
          (recheck_policy registry cfg tool_name definition args).
Proof. unfold traced_recheck_policy, recheck_policy. erase. Qed.

Lemma attempt_erased definition n args :
  erasesM (traced_attempt_body registry cfg tool_name call_id definition n args)
          (attempt_body registry cfg tool_name call_id definition n args).
Proof.
  unfold traced_attempt_body, attempt_body. apply erasesM_bind; [apply erasesM_when, recheck_erased|]. intros _.
  apply erasesM_assoc. unfold traced_run. erase.
Qed.

Lemma execute_attempt_erased definition args :
  erasesM (traced_execute_attempt registry cfg tool_name call_id definition args)
          (execute_attempt registry cfg tool_name call_id definition args).
Proof. unfold traced_execute_attempt, execute_attempt. erase. apply attempt_erased. Qed.

Lemma run_stage_erased definition request :
  erasesM (traced_run_stage registry cfg tool_name call_id definition request)
          (run_stage registry cfg tool_name call_id definition request).
Proof.
  apply erasesM_repair_run.
  - erase.
  - erase.
  - intros seconds. erase.
  - intros args. apply execute_attempt_erased.
  - destruct (has_repair_advisor cfg); [|done]. intros. apply erasesM_unobserved.
Qed.

Lemma run_call_erased :
  erasesM (traced_run_call registry cfg session_id tool_name arguments call_id trace_id started_monotonic)
          (run_call registry cfg session_id tool_name arguments call_id trace_id started_monotonic).
Proof.
  apply erasesM_try; [|intros e; erase; apply fail_erased].
  unfold traced_call_body, call_body, traced_validate_stage. erase.
  - apply policy_erased.
  - apply run_stage_erased.
  - apply write_audit_erased.
Qed.

End erased_call.

Lemma execute_tool_call_erased {H} (registry : ToolRegistry H) cfg session_id tool_name arguments :
  erasesM (traced_execute_tool_call registry cfg session_id tool_name arguments)
          (execute_tool_call registry cfg session_id tool_name arguments).
Proof. unfold traced_execute_tool_call, execute_tool_call. erase. apply run_call_erased. Qed.

(* ------------------------------------------------------------------ *)
(** ** The spans of a call

    What the observers have seen of a call: the spans that are open (innermost
    first), whether the root span was opened, the trace identifier read from it,
    and the context bound for the log. *)

Record spans := {
  sp_open : list (nat * string);
  sp_root : bool;
  sp_trace : option string;
  sp_context : option jdict
}.
Definition no_spans : spans := {| sp_open := []; sp_root := false; sp_trace := None; sp_context := None |}.
Definition span_names (st : spans) : list string := map snd (sp_open st).

Definition open_span (h : nat) (name : string) (st : spans) : spans :=
  {| sp_open := (h, name) :: sp_open st; sp_root := true; sp_trace := sp_trace st; sp_context := sp_context st |}.
Definition close_span (st : spans) : spans :=
  {| sp_open := tail (sp_open st); sp_root := sp_root st; sp_trace := sp_trace st; sp_context := sp_context st |}.
Definition read_trace (trace_id : string) (st : spans) : spans :=
  {| sp_open := sp_open st; sp_root := sp_root st; sp_trace := Some trace_id; sp_context := sp_context st |}.
Definition bind_context (context : jdict) (st : spans) : spans :=
  {| sp_open := sp_open st; sp_root := sp_root st; sp_trace := sp_trace st; sp_context := Some context |}.

(** Which span may be opened: one root, the stages in it, and "execute" in "sandbox". *)
Definition child_ok (st : spans) (name : string) : Prop :=
  match span_names st with
  | [] => name = "tool_call" /\ sp_root st = false
  | ["tool_call"] => name ∈ ["validate"; "policy"; "sandbox"]
  | ["sandbox"; "tool_call"] => name = "execute"
  | _ => False
  end.

(** In which span an operation of the call belongs, and the trace it names. *)
Definition place {H} (st : spans) (o : gw_op H) : Prop :=
  match o with
  | RunTool _ _ _ _ => span_names st = ["execute"; "sandbox"; "tool_call"]
  | Evaluate _ | Submit _ | Wait _ => span_names st = ["policy"; "tool_call"]
  | Advise _ _ _ _ => span_names st = ["validate"; "tool_call"] \/ span_names st = ["tool_call"]
  | TraceId => span_names st = ["tool_call"] /\ sp_trace st = None
  | Store (SCreate record) => span_names st = ["tool_call"] /\ sp_trace st = Some (tc_trace_id record)
  | AuditAppend fields => span_names st = ["tool_call"] /\ sp_trace st = Some (af_trace_id fields)
  | _ => True
  end.

Section monitor.
Context {H : Type} (session_id tool_name : string) (principal : option Principal).
Abbreviation E := (observed (gw_sig H)).

Definition span_allowed (st : spans) (o : op E) : Prop :=
  match o with
  | inl o => place st o
  | inr (SpanStart name _) => child_ok st name
  | inr (SetAttribute h _ _) => exists rest, sp_open st = (h, "policy") :: rest
  | inr (SpanEnd h _) => exists name rest, sp_open st = (h, name) :: rest
  | inr (BindContext context) => span_names st = ["tool_call"] /\ sp_context st = None /\
      exists trace_id, sp_trace st = Some trace_id /\ context = call_context trace_id session_id tool_name principal
  | inr (LogLine _) => span_names st = ["tool_call"] /\ is_Some (sp_context st)
  end.

Definition span_next (st : spans) (o : op E) : result exc (ans E o) -> spans :=
  match o with
  | inl o =>
      match o return result exc (ans E (inl o)) -> spans with
      | TraceId => fun r => match r with Ok trace_id => read_trace trace_id st | Err _ => st end
      | _ => fun _ => st
      end
  | inr (SpanStart name _) => fun r => match r with Ok h => open_span h name st | Err _ => st end
  | inr (SpanEnd _ _) => fun _ => close_span st
  | inr (BindContext context) => fun _ => bind_context context st
  | inr _ => fun _ => st
  end.

Definition spans_after (tr : list (event E)) : spans :=
  fold_left (fun st ev => span_next st (projT1 ev) (projT2 ev)) tr no_spans.

(** The observers answer normally; the rest may fail. *)
Definition span_monitor : monitor E :=
  {| mstate := spans; allowed := span_allowed;
     assumed _ o r := match o return result exc (ans E o) -> Prop with
                      | inl _ => fun _ => True
                      | inr _ => fun r => is_ok r = true
                      end r;
     mnext := span_next |}.

Lemma spans_after_monitor st (tr : list (event E)) :
  mon_after span_monitor st tr = fold_left (fun st ev => span_next st (projT1 ev) (projT2 ev)) tr st.
Proof. revert st. induction tr as [|ev tr IH]; intros st; [done|]. apply IH. Qed.

Lemma telemetry_answers st (tr : list (event E)) : Forall telemetry_ok tr -> answers_ok span_monitor st tr.
Proof.
  intros Hok. revert st. induction Hok as [|[[o|o] r] tr Hev _ IH]; intros st; cbn; [done|..]; split; done.
Qed.

(** The operations of a program that observes nothing are in their place. *)
Definition place_monitor (st : spans) : monitor (gw_sig H) :=
  {| mstate := unit; allowed _ (o : op (gw_sig H)) := place st o; assumed _ _ _ := True; mnext _ _ _ := tt |}.

Definition placed {A} (st : spans) (m : M (gw_sig H) locals A) : Prop :=
  forall s, wpM (place_monitor st) m s tt (fun _ _ _ => True).

Lemma placed_lift {A} (p : prog (gw_sig H) A) st :
  is_Some (sp_trace st) -> wp (place_monitor st) p tt (fun _ _ => True) ->
  wp span_monitor (lift_prog p) st (fun _ st' => st' = st).
Proof.
  intros [t Ht]. induction p as [a|o k IH|]; [done| |done]. intros [Ho Hk]. split; [exact Ho|].
  intros r _.
  assert (Hst : mnext span_monitor st (inl o) r = st).
  { destruct o; try done. cbn in Ho. destruct Ho as [_ Hn]. congruence. }
  rewrite Hst. by apply IH, Hk.
Qed.

Lemma wpM_unobserved {A} (m : M (gw_sig H) locals A) s st (Q : result exc A -> locals -> spans -> Prop) :
  is_Some (sp_trace st) -> placed st m -> (forall r s', Q r s' st) ->
  wpM span_monitor (unobserved m) s st Q.
Proof.
  intros Ht Hm HQ. eapply wp_mono; [|exact (placed_lift (m s) st Ht (Hm s))]. intros [r s'] st' ->. apply HQ.
Qed.

(** [x] leaves the spans as they are, from any state that satisfies [P]: whatever
    happens in it, its operations are in their place and every span it opens is
    closed again. *)
Definition within {A} (P : spans -> Prop) (x : M E locals A) : Prop :=
  forall s st, P st -> wpM span_monitor x s st (fun _ _ st' => st' = st).

Section rules.
Context (P : spans -> Prop).
Abbreviation within := (within P).

Lemma within_ret {A} (a : A) : within (mret a).
Proof. by intros s st _. Qed.
Lemma within_raise {A} e : within (raise e : M E locals A).
Proof. by intros s st _. Qed.
Lemma within_lift {A} (r : result exc A) : within (lift_result r : M E locals A).
Proof. by intros s st _. Qed.
Lemma within_get : within get.
Proof. by intros s st _. Qed.
Lemma within_modify f : within (modify f).
Proof. by intros s st _. Qed.
Lemma within_bind {A B} (x : M E locals A) (f : A -> M E locals B) :
  within x -> (forall a, within (f a)) -> within (x ≫= f).
Proof.
  intros Hx Hf s st Hst. apply wpM_bind. eapply wpM_mono; [by apply Hx|].
  intros [a|e] s' st' ->; [by apply Hf|done].
Qed.
Lemma within_try {A} (x : M E locals A) h : within x -> (forall e, within (h e)) -> within (try_with x h).
Proof.
  intros Hx Hh s st Hst. apply wpM_try. eapply wpM_mono; [by apply Hx|].
  intros [a|e] s' st' ->; [done|by apply Hh].
Qed.
Lemma within_finally {A} (x : M E locals A) f : within x -> within f -> within (finally x f).
Proof.
  intros Hx Hf s st Hst. apply wpM_finally. eapply wpM_mono; [by apply Hx|]. intros r s' st' ->.
  eapply wpM_mono; [by apply Hf|]. by intros [a|e] s'' st'' ->.
Qed.
Lemma within_when b (m : M E locals unit) : within m -> within (when b m).
Proof. destruct b; [done|]. intros _. apply within_ret. Qed.
Lemma within_unobserved {A} (m : M (gw_sig H) locals A) :
  (forall st, P st -> is_Some (sp_trace st)) -> (forall st, P st -> placed st m) -> within (unobserved m).
Proof. intros Ht Hm s st Hst. apply wpM_unobserved; [by apply Ht|by apply Hm|done]. Qed.
Lemma within_call (o : gw_op H) :
  (forall st, P st -> is_Some (sp_trace st)) -> (forall st, P st -> place st o) ->
  within (call (E := E) (inl o)).
Proof.
  intros Ht Ho. apply (within_unobserved (call (E := gw_sig H) o)); [exact Ht|].
  intros st Hst s. apply wpM_call; [by apply Ho|done].
Qed.
Lemma within_tell o :
  (forall st, P st -> span_allowed st (inr o)) -> (forall st a, span_next st (inr o) (Ok a) = st) ->
  within (tell o).
Proof.
  intros Ho Hn s st Hst. split; [by apply Ho|]. intros [a|e] Hok; [|done]. apply Hn.
Qed.
End rules.

(** A span is closed by whatever leaves its block. *)
Lemma wpM_closing {A} h name st (body : M E locals A) s (Q : result exc A -> locals -> spans -> Prop) :
  wpM span_monitor body s (open_span h name st) (fun r s' st' =>
    exists rest, sp_open st' = (h, name) :: rest /\ Q r s' (close_span st')) ->
  wpM span_monitor (closing h body) s (open_span h name st) Q.
Proof.
  intros Hb. apply wp_pbind. eapply wp_mono; [|exact Hb]. intros [r s'] st' (rest & Hopen & HQ). cbn.
  split; [by exists name, rest|]. intros [[]|e] Hok; [exact HQ|done].
Qed.

Lemma wpM_span {A} name attributes (body : nat -> M E locals A) s st
    (Q : result exc A -> locals -> spans -> Prop) :
  child_ok st name ->
  (forall h, wpM span_monitor (body h) s (open_span h name st) (fun r s' st' =>
    exists rest, sp_open st' = (h, name) :: rest /\ Q r s' (close_span st'))) ->
  wpM span_monitor (span name attributes body) s st Q.
Proof.
  intros Hc Hb. apply wpM_bind. split; [exact Hc|]. intros [h|e] Hok; [|done].
  apply wpM_closing, Hb.
Qed.

Lemma within_span {A} (P : spans -> Prop) (P' : nat -> spans -> Prop) name attributes (body : nat -> M E locals A) :
  (forall st, P st -> child_ok st name /\ sp_root st = true) ->
  (forall h st, P st -> P' h (open_span h name st)) ->
  (forall h, within (P' h) (body h)) -> within P (span name attributes body).
Proof.
  intros Hc Hp Hb s st Hst. destruct (Hc st Hst) as [Hchild Hroot]. apply wpM_span; [exact Hchild|]. intros h.
  eapply wpM_mono; [by apply Hb, Hp|]. intros r s' st' ->. eexists. split; [done|].
  unfold open_span, close_span. cbn. destruct st; cbn in *. by subst.
Qed.

(** In the spans [names] of a call, under the trace identifier its log context has;
    the handle of the innermost one. *)
Definition in_spans (trace_id : string) (names : list string) (st : spans) : Prop :=
  span_names st = names /\ sp_root st = true /\ sp_trace st = Some trace_id /\ is_Some (sp_context st).
Definition at_span (trace_id : string) (names : list string) (h : nat) (st : spans) : Prop :=
  in_spans trace_id names st /\ exists name rest, sp_open st = (h, name) :: rest.

Lemma in_spans_trace trace_id names st : in_spans trace_id names st -> is_Some (sp_trace st).
Proof. intros (_ & _ & -> & _). eauto. Qed.

Lemma at_open_span trace_id names h name st :
  in_spans trace_id names st -> at_span trace_id (name :: names) h (open_span h name st).
Proof. intros (<- & _ & Ht & Hc). split; [done|]. by eexists _, _. Qed.

Lemma within_stage {A} trace_id name attributes (body : nat -> M E locals A) :
  name ∈ ["validate"; "policy"; "sandbox"] ->
  (forall h, within (at_span trace_id [name; "tool_call"] h) (body h)) ->
  within (in_spans trace_id ["tool_call"]) (span name attributes body).
Proof.
  intros Hname. apply within_span.
  - intros st (Hn & Hr & _). unfold child_ok. by rewrite Hn.
  - intros h st. apply at_open_span.
Qed.

Lemma within_execute {A} trace_id h attributes (body : nat -> M E locals A) :
  (forall h, within (at_span trace_id ["execute"; "sandbox"; "tool_call"] h) (body h)) ->
  within (at_span trace_id ["sandbox"; "tool_call"] h) (span "execute" attributes body).
Proof.
  apply within_span.
  - intros st [(Hn & Hr & _) _]. unfold child_ok. by rewrite Hn.
  - intros h' st [Hst _]. by apply at_open_span.
Qed.

Lemma within_attribute trace_id h key value :
  within (at_span trace_id ["policy"; "tool_call"] h) (set_attribute h key value).
Proof.
  apply within_tell; [|done]. intros st [(Hn & _) (name & rest & Ho)]. exists rest.
  unfold span_names in Hn. rewrite Ho in Hn. by injection Hn as ->.
Qed.

Lemma within_log trace_id e : within (in_spans trace_id ["tool_call"]) (log e).
Proof. apply within_tell; [|done]. intros st (Hn & _ & _ & Hc). done. Qed.
End monitor.

(** The operations called here are in their place. *)
Ltac in_place :=
  intros;
  repeat match goal with
         | H : at_span _ _ _ _ |- _ => destruct H as [H _]
         | H : in_spans _ _ _ |- _ => destruct H as (? & ? & ? & ?)
         end;
  cbn; first [done | eauto | split; congruence | left; congruence | right; congruence].

Ltac place_calls :=
  repeat first
    [ wp_step
    | wp_call; [in_place|intros [?|?] _]
    | match goal with
      | |- wpM _ (if ?b then _ else _) _ _ _ => destruct b
      | |- wpM _ (match ?x with _ => _ end) _ _ _ => destruct x
      | |- match ?x with _ => _ end => destruct x
      end
    | progress cbn beta iota zeta ];
  try exact I.

Ltac within_step :=
  lazymatch goal with
  | |- within _ _ _ _ (mret _) => apply within_ret
  | |- within _ _ _ _ (raise _) => apply within_raise
  | |- within _ _ _ _ (lift_result _) => apply within_lift
  | |- within _ _ _ _ get => apply within_get
  | |- within _ _ _ _ (modify _) => apply within_modify
  | |- within _ _ _ _ (log _) => apply within_log
  | |- within _ _ _ _ (set_attribute _ _ _) => apply within_attribute
  | |- within _ _ _ _ (span "execute" _ _) => apply within_execute; intros ?
  | |- within _ _ _ _ (span _ _ _) => apply within_stage; [set_solver|intros ?]
  | |- within _ _ _ _ (_ ≫= _) => apply within_bind; [|intros ?]
  | |- within _ _ _ _ (try_with _ _) => apply within_try; [|intros ?]
  | |- within _ _ _ _ (finally _ _) => apply within_finally
  | |- within _ _ _ _ (when _ _) => apply within_when
  | |- within _ _ _ _ (call (inl _)) => apply within_call; in_place
  | |- within _ _ _ _ (if ?b then _ else _) => destruct b
  | |- within _ _ _ _ (match ?x with _ => _ end) => destruct x
  end.
Ltac stay_within := cbv zeta; repeat (within_step; cbv zeta beta).

Section placed_call.
Context {H : Type} (registry : ToolRegistry H) (cfg : call_config).
Context (session_id tool_name : string) (arguments : jdict).
Context (call_id trace_id : string) (started_monotonic : Q).
Abbreviation within x := (within session_id tool_name (caller cfg) x).
Abbreviation root := (in_spans trace_id ["tool_call"]).

Lemma write_audit_within outcome :
  within root (traced_write_audit (H := H) cfg session_id tool_name arguments call_id trace_id started_monotonic outcome).
Proof. unfold traced_write_audit. stay_within. Qed.

Lemma fail_within error :
  within root (traced_fail (H := H) cfg session_id tool_name arguments call_id trace_id started_monotonic error).
Proof. unfold traced_fail. stay_within. apply write_audit_within. Qed.

Lemma validate_within : within root (traced_validate_stage registry cfg tool_name arguments).
Proof.
  unfold traced_validate_stage. stay_within. apply within_unobserved; [in_place|]. intros st Hst s.
  unfold validate_stage, validate_proposal. place_calls.
Qed.

Lemma deny_within h reason :
  within (at_span trace_id ["policy"; "tool_call"] h) (unobserved (deny (H := H) call_id reason)).
Proof. apply within_unobserved; [in_place|]. intros st Hst s. unfold deny. place_calls. Qed.

Lemma approval_within h request input decision :
  within (at_span trace_id ["policy"; "tool_call"] h)
    (traced_approval_stage (H := H) cfg tool_name call_id h request input decision).
Proof. unfold traced_approval_stage. stay_within. apply deny_within. Qed.

Lemma policy_within request : within root (traced_policy_stage registry cfg tool_name call_id request).
Proof. unfold traced_policy_stage. stay_within; [apply approval_within|apply deny_within]. Qed.

Lemma recheck_within definition n args :
  within root (traced_recheck_policy registry cfg tool_name definition n args).
Proof. unfold traced_recheck_policy. stay_within. Qed.

Lemma run_within n args : within root (traced_run registry cfg tool_name call_id n args).
Proof.
  unfold traced_run. stay_within. apply within_unobserved; [in_place|]. intros st Hst s.
  unfold registry_execute_validated, td_execute_validated, run_handler. place_calls.
Qed.

Lemma execute_attempt_within definition args :
  within root (traced_execute_attempt registry cfg tool_name call_id definition args).
Proof.
  unfold traced_execute_attempt, traced_attempt_body. stay_within; [apply recheck_within|apply run_within].
Qed.

Lemma repair_within definition args diagnosis :
  within root (unobserved (repair_arguments registry cfg tool_name definition args diagnosis)).
Proof.
  apply within_unobserved; [in_place|]. intros st Hst s. unfold repair_arguments, validate_proposal. place_calls.
Qed.

Lemma run_stage_within definition request :
  within root (traced_run_stage registry cfg tool_name call_id definition request).
Proof.
  intros s st Hst.
  assert (Hany : forall {A} (x : M (observed (gw_sig H)) locals A) s0 st0
      (Q : result exc A -> locals -> spans -> Prop),
    within root x -> st0 = st -> (forall r s', Q r s' st) ->
    wpM (span_monitor session_id tool_name (caller cfg)) x s0 st0 Q).
  { intros A x s0 st0 Q Hx -> HQ. eapply wpM_mono; [by apply Hx|]. by intros r s' st' ->. }
  apply (repair_run_wp (span_monitor session_id tool_name (caller cfg)) default_backoff _ _ _ _ _ _
    (fun _ _ _ (st' : spans) => st' = st) (fun _ _ _ _ (st' : spans) => st' = st) (fun _ _ _ _ (st' : spans) => st' = st)
    (fun _ _ (st' : spans) => st' = st)).
  - intros n a s0 st0 _ _ Hst0. apply (Hany _ _ s0 st0); [apply execute_attempt_within|done|].
    intros [out|e] s'; [done|]. by destruct (is_exception e).
  - done.
  - intros n a e s0 st0 Hst0. apply (Hany _ _ s0 st0); [stay_within|done|by intros [?|?]].
  - intros n a e s0 st0 Hst0 _. destruct (is_timeout_or_crash _); [done|].
    destruct (has_repair_advisor cfg); [|done].
    apply (Hany _ _ s0 st0); [apply repair_within|done|by intros [?|?]].
  - intros n a e s0 st0 Hst0. apply (Hany _ _ s0 st0); [stay_within|done|by intros [?|?]].
  - intros n a e s0 st0 Hst0. apply (Hany _ _ s0 st0); [stay_within|done|by intros [?|?]].
  - intros n a e d s0 st0 Hst0. apply (Hany _ _ s0 st0); [stay_within|done|by intros [?|?]].
  - done.
  - apply (Hany _ _ s st); [stay_within|done|by intros [?|?]].
Qed.

Lemma run_call_within :
  within root (traced_run_call registry cfg session_id tool_name arguments call_id trace_id started_monotonic).
Proof.
  unfold traced_run_call, traced_call_body. stay_within;
    [apply validate_within|apply policy_within|apply run_stage_within|apply write_audit_within|
     apply fail_within..].
Qed.

Lemma persist_placed record st :
  span_names st = ["tool_call"] -> placed st (persist_call (H := H) cfg record).
Proof. intros Hn s. unfold persist_call. place_calls. Qed.
End placed_call.

(** The whole call, from before its first operation: no span stays open. *)
Lemma execute_tool_call_spans {H} (registry : ToolRegistry H) cfg session_id tool_name arguments s :
  wpM (span_monitor session_id tool_name (caller cfg))
    (traced_execute_tool_call registry cfg session_id tool_name arguments) s no_spans
    (fun _ _ st' => sp_open st' = []).
Proof.
  unfold traced_execute_tool_call. wp_step. wp_call; [exact I|]. intros [call_id|e] _; [|done].
  wp_step. wp_call; [exact I|]. intros [started|e] _; [|done]. cbv zeta.
  apply wpM_span; [done|]. intros h. cbn [mnext span_monitor span_next].
  set (st1 := open_span h "tool_call" no_spans).
  enough (Henough : forall st', sp_open st' = [(h, "tool_call")] ->
    exists rest, sp_open st' = (h, "tool_call") :: rest /\ sp_open (close_span st') = []).
  { wp_step. wp_call; [done|]. intros [trace_id|e] _; [|by apply Henough].
    cbn [mnext span_monitor span_next]. set (st2 := read_trace trace_id st1).
    wp_step. wp_call; [exact I|]. intros [now|e] _; [|by apply Henough].
    wp_step. wp_step. wp_step. wp_call; [done|].
    intros [[]|[g|c m]] _; cbn [mnext span_monitor span_next]; cbn beta iota; [|destruct (error_isinstance _ _)|];
      repeat wp_step; try (by apply Henough).
    apply wpM_unobserved; [by exists trace_id|by apply persist_placed|].
    intros [[]|e] s'; cbn [negb]; [| |by apply Henough]; [|by apply wpM_ret, Henough].
    wp_step. split; [split; [done|split; [done|]]; by exists trace_id|]. intros [[]|e] Hok; [|done].
    eapply wpM_mono; [apply run_call_within; by split_and!|]. intros r s'' st' ->. by apply Henough. }
  intros st' Hopen. exists []. split; [done|]. cbn. by rewrite Hopen.
Qed.

(* ------------------------------------------------------------------ *)
(** ** Properties *)

Section properties.
Context {H : Type} (registry : ToolRegistry H) (cfg : call_config).
Context (session_id tool_name : string) (arguments : jdict).

(** C20: observing a call changes nothing.  The observed pipeline - spans, attributes,
    log context and log lines - does, with every outcome and every answer of the
    collaborators, exactly what the pipeline does without its observers: erasing
    their operations from its traces gives the traces of [execute_tool_call]. *)
Theorem observation_transparent s tr rs :
  exec (execute_tool_call registry cfg session_id tool_name arguments s) tr rs <->
  exists tr', exec (traced_execute_tool_call registry cfg session_id tool_name arguments s) tr' rs /\
    Forall telemetry_ok tr' /\ erase_trace tr' = tr.
Proof.
  pose proof (execute_tool_call_erased registry cfg session_id tool_name arguments s) as He. split.
  - by apply erases_observed.
  - intros (tr' & Hex & Hok & <-). by eapply erases_exec.
Qed.

(** C21: the spans of a call are well nested.  There is one root span; "validate",
    "policy" and "sandbox" are opened in it and "execute" in "sandbox"; a span is
    closed innermost first, whatever exception leaves it, and none stays open.  The
    policy is asked and approvals are awaited in "policy", where alone attributes
    are set, and the tool runs in "execute".  The record of the call and its audit
    record carry the trace identifier of the root span, and so does the log
    context, which is bound before anything is logged. *)
Theorem spans_well_nested s tr rs :
  exec (traced_execute_tool_call registry cfg session_id tool_name arguments s) tr rs ->
  Forall telemetry_ok tr ->
  sp_open (spans_after tr) = [] /\
  forall tr1 ev tr2, tr = tr1 ++ ev :: tr2 ->
    span_allowed session_id tool_name (caller cfg) (spans_after tr1) (projT1 ev).
Proof.
  intros Hex Hok. pose proof (execute_tool_call_spans registry cfg session_id tool_name arguments s) as Hwp.
  apply (telemetry_answers session_id tool_name (caller cfg) no_spans) in Hok. split.
  - pose proof (wp_exec _ _ _ _ _ _ Hwp Hex Hok) as Hend. by rewrite spans_after_monitor in Hend.
  - intros tr1 ev tr2 Htr. pose proof (exec_calls_allowed _ _ _ _ _ _ Hwp Hex Hok _ _ _ Htr) as Hall.
    by rewrite spans_after_monitor in Hall.
Qed.
End properties.

(** The pipeline of [ServerSpec.example], observed: the call succeeds. *)
Module example.
Definition env : handler (observed (gw_sig string)) nat := fun o refusals =>
  match o with
  | inl o => ServerSpec.example.env o refusals
  | inr o => (Ok (some_answer o), refusals)
  end.
Definition outcome := run env (traced_execute_tool_call ServerSpec.example.registry ServerSpec.example.config
  "session" "db_query" ServerSpec.example.select initial_locals) 0%nat.

Definition is_run (ev : event (observed (gw_sig string))) : bool :=
  match ev with existT (inl (RunTool _ _ _ _)) _ => true | _ => false end.
Definition answered (ev : event (observed (gw_sig string))) : bool :=
  match ev with existT (inl _) _ => true | existT (inr _) r => is_ok r end.
End example.

Lemma spans_well_nested_witness : exists tr tr1 ev tr2,
  tr = tr1 ++ ev :: tr2 /\ example.is_run ev = true /\ Forall telemetry_ok tr /\
  sp_open (spans_after tr) = [] /\ span_names (spans_after tr1) = ["execute"; "sandbox"; "tool_call"].
Proof.
  assert (Hrun : match example.outcome with
    | Some (a, _, tr) => existsb example.is_run tr && forallb example.answered tr
    | None => false end = true) by (vm_compute; reflexivity).
  apply (run_check _ _ _ (fun _ tr => existsb example.is_run tr && forallb example.answered tr)) in Hrun
    as (tr & rs & Hex & [Hev Hok]%andb_true_iff).
  apply existsb_exists in Hev as (ev & Hin & Hev). apply in_split in Hin as (tr1 & tr2 & ->).
  assert (Htel : Forall telemetry_ok (tr1 ++ ev :: tr2)).
  { apply Forall_forall. intros [[o|o] r] Hin%list_elem_of_In; [exact I|].
    rewrite forallb_forall in Hok. exact (Hok _ Hin). }
  destruct (spans_well_nested _ _ _ _ _ _ _ _ Hex Htel) as [Hopen Hall].
  exists (tr1 ++ ev :: tr2), tr1, ev, tr2. split; [reflexivity|]. split; [exact Hev|]. split; [exact Htel|].
  split; [exact Hopen|]. specialize (Hall _ _ _ eq_refl).
  destruct ev as [[o|o] r]; [|discriminate Hev]. destruct o; try discriminate Hev. exact Hall.
Defined.
