(* ===== verification/Stdio.v ===== *)
(** * The stdio transport

    [gateway/stdio_transport.py]: JSON-RPC messages as lines of UTF-8 on the
    standard streams.  Bytes and characters are integers; [str.encode],
    [bytes.decode] and [StreamReader.readline] of the standard library are written
    out, the JSON-RPC adapter of the MCP library is an argument. *)

From S2P Require Import Prelude Errors.
Open Scope Z_scope.

(* ------------------------------------------------------------------ *)
(** ** UTF-8 *)

(** A character that may be encoded: no surrogate. *)
Definition scalar (c : Z) : bool :=
  (0 <=? c) && (c <? 0x110000) && negb ((0xD800 <=? c) && (c <? 0xE000)).

Definition encode_char (c : Z) : list Z :=
  if c <? 0x80 then [c]
  else if c <? 0x800 then [0xC0 + c / 64; 0x80 + c mod 64]
  else if c <? 0x10000 then [0xE0 + c / 4096; 0x80 + c / 64 mod 64; 0x80 + c mod 64]
  else [0xF0 + c / 262144; 0x80 + c / 4096 mod 64; 0x80 + c / 64 mod 64; 0x80 + c mod 64].

(** [text.encode("utf-8")] *)
Definition encode (text : list Z) : result exc (list Z) :=
  if forallb scalar text then Ok (flat_map encode_char text)
  else Err (EPy ValueError "surrogates not allowed").

Definition continuation (b : Z) : bool := (0x80 <=? b) && (b <? 0xC0).

(** The first character of a byte sequence, and the bytes it takes. *)
Definition decode_char (bytes : list Z) : option (Z * nat) :=
  match bytes with
  | [] => None
  | b0 :: rest =>
      if b0 <? 0x80 then Some (b0, 1%nat)
      else if (0xC2 <=? b0) && (b0 <? 0xE0) then
        match rest with
        | b1 :: _ => if continuation b1 then Some ((b0 - 0xC0) * 64 + (b1 - 0x80), 2%nat) else None
        | _ => None
        end
      else if (0xE0 <=? b0) && (b0 <? 0xF0) then
        match rest with
        | b1 :: b2 :: _ =>
            let c := (b0 - 0xE0) * 4096 + (b1 - 0x80) * 64 + (b2 - 0x80) in
            if continuation b1 && continuation b2 && (0x800 <=? c) && scalar c then Some (c, 3%nat) else None
        | _ => None
        end
      else if (0xF0 <=? b0) && (b0 <? 0xF5) then
        match rest with
        | b1 :: b2 :: b3 :: _ =>
            let c := (b0 - 0xF0) * 262144 + (b1 - 0x80) * 4096 + (b2 - 0x80) * 64 + (b3 - 0x80) in
            if continuation b1 && continuation b2 && continuation b3 && (0x10000 <=? c) && scalar c
            then Some (c, 4%nat) else None
        | _ => None
        end
      else None
  end.

(** [bytes.decode("utf-8")]; every character takes at least one byte. *)
Fixpoint decode_fuel (fuel : nat) (bytes : list Z) : result exc (list Z) :=
  match fuel, bytes with
  | _, [] => Ok []
  | O, _ => Err (EPy ValueError "invalid start byte")
  | S fuel, _ =>
      match decode_char bytes with
      | Some (c, n) => result_map (cons c) (decode_fuel fuel (drop n bytes))
      | None => Err (EPy ValueError "invalid start byte")
      end
  end.
Definition decode (bytes : list Z) : result exc (list Z) := decode_fuel (length bytes) bytes.

(* ------------------------------------------------------------------ *)
(** ** Lines of a stream *)

Definition newline : Z := 10.

(** The bytes up to the first newline, it included, and the bytes after it. *)
Fixpoint split_line (buffer : list Z) : list Z * list Z :=
  match buffer with
  | [] => ([], [])
  | b :: buffer =>
      if b =? newline then ([b], buffer)
      else let '(line, rest) := split_line buffer in (b :: line, rest)
  end.

(** The default limit of a [StreamReader]: the newline is not counted. *)
Definition stream_limit : Z := 2 ^ 16.
Definition line_fits (line : list Z) : bool :=
  Z.of_nat (length (List.filter (fun b => negb (b =? newline)) line)) <=? stream_limit.

(** [StreamReader.readline], on all the bytes still to come. *)
Definition readline (buffer : list Z) : result exc (list Z) * list Z :=
  let '(line, rest) := split_line buffer in
  if line_fits line then (Ok line, rest)
  else (Err (EPy ValueError "Separator is found, but chunk is longer than limit"), rest).

(* ------------------------------------------------------------------ *)
(** ** The transport *)

(** How the reading task ends. *)
Inductive reader_end := Closed | Failed (e : exc) | NoFuel.

Section transport.
Context {Message : Type}.
Context (validate_json : list Z -> result exc Message) (model_dump_json : Message -> list Z).

(** A line, as the session receives it. *)
Definition read_message (line : list Z) : result exc Message :=
  result_bind (decode line) validate_json.

(** The loop of [stdin_reader]: the items it sends and how it ends. *)
Fixpoint stdin_loop (fuel : nat) (buffer : list Z) : list (result exc Message) * reader_end :=
  match fuel with
  | O => ([], NoFuel)
  | S fuel =>
      match readline buffer with
      | (Err e, _) => ([], Failed e)
      | (Ok [], _) => ([], Closed)
      | (Ok line, rest) =>
          let '(items, ending) := stdin_loop fuel rest in
          (read_message line :: items, ending)
      end
  end.
Definition stdin_reader (buffer : list Z) : list (result exc Message) * reader_end :=
  stdin_loop (S (length buffer)) buffer.

(** [stdout_writer]: the bytes it writes, and the error that ends it. *)
Fixpoint stdout_writer (messages : list Message) : list Z * option exc :=
  match messages with
  | [] => ([], None)
  | message :: messages =>
      match encode (model_dump_json message ++ [newline]) with
      | Err e => ([], Some e)
      | Ok line => let '(bytes, e) := stdout_writer messages in (line ++ bytes, e)
      end
  end.
End transport.

(* ------------------------------------------------------------------ *)
(** ** Properties *)

(** Decide the comparisons a goal branches on. *)
Ltac z_cases :=
  repeat match goal with
  | |- context [?a <? ?b] => destruct (Z.ltb_spec a b); try lia
  | |- context [?a <=? ?b] => destruct (Z.leb_spec a b); try lia
  end.

Lemma scalar_spec c : scalar c = true <-> 0 <= c < 0x110000 /\ ~ (0xD800 <= c < 0xE000).
Proof. unfold scalar. rewrite !andb_true_iff, negb_true_iff, andb_false_iff. lia. Qed.

Lemma decode_encode_char c rest :
  scalar c = true -> decode_char (encode_char c ++ rest) = Some (c, length (encode_char c)).
Proof.
  intros Hs. pose proof Hs as [Hc _]%scalar_spec.
  pose proof (Z.div_mod c 64 ltac:(done)) as H1. pose proof (Z.mod_pos_bound c 64 ltac:(done)) as B1.
  pose proof (Z.div_mod (c / 64) 64 ltac:(done)) as H2. pose proof (Z.mod_pos_bound (c / 64) 64 ltac:(done)) as B2.
  pose proof (Z.div_mod (c / 4096) 64 ltac:(done)) as H3. pose proof (Z.mod_pos_bound (c / 4096) 64 ltac:(done)) as B3.
  assert (E1 : c / 64 / 64 = c / 4096) by (rewrite Z.div_div; done).
  assert (E2 : c / 4096 / 64 = c / 262144) by (rewrite Z.div_div; done).
  assert (0 <= c / 262144) by (apply Z.div_pos; lia).
  unfold encode_char.
  destruct (Z.ltb_spec c 0x80); [|destruct (Z.ltb_spec c 0x800); [|destruct (Z.ltb_spec c 0x10000)]];
    cbn [app decode_char length]; unfold continuation; z_cases; cbn [andb].
  - done.
  - do 2 f_equal. lia.
  - replace ((_ - 0xE0) * 4096 + _ + _) with c by lia. by rewrite Hs.
  - replace ((_ - 0xF0) * 262144 + _ + _ + _) with c by lia. by rewrite Hs.
Qed.

Lemma encode_char_nonempty c : (1 <= length (encode_char c))%nat.
Proof. unfold encode_char. z_cases; cbn; lia. Qed.

Lemma decode_encode text bytes : encode text = Ok bytes -> decode bytes = Ok text.
Proof.
  unfold encode. destruct (forallb scalar text) eqn:Hs; [|done]. intros [= <-].
  unfold decode. assert (Hfuel : (length text <= length (flat_map encode_char text))%nat).
  { clear. induction text as [|c text IH]; cbn; [lia|].
    rewrite length_app. pose proof (encode_char_nonempty c). lia. }
  revert Hfuel. generalize (length (flat_map encode_char text)) as fuel. revert Hs.
  induction text as [|c text IH]; intros Hs fuel Hfuel; cbn in *; [by destruct fuel|].
  apply andb_true_iff in Hs as [Hc Hs]. destruct fuel as [|fuel]; [lia|].
  destruct (encode_char c ++ flat_map encode_char text) as [|b bytes] eqn:Hb.
  { apply app_eq_nil in Hb as [Hb _]. pose proof (encode_char_nonempty c) as H. rewrite Hb in H. cbn in H. lia. }
  cbn [decode_fuel]. rewrite <- Hb, decode_encode_char, drop_app_length by done.
  by rewrite IH by (done || lia).
Qed.

(** Whole lines: one newline, at the end. *)
Definition whole_line (line : list Z) : Prop := exists body, line = body ++ [newline] /\ newline ∉ body.

(** The lines of a stream: only the last may lack its newline. *)
Inductive lines_of : list Z -> list (list Z) -> Prop :=
| lines_end : lines_of [] []
| lines_partial body : body <> [] -> newline ∉ body -> lines_of body [body]
| lines_whole line rest lines : whole_line line -> lines_of rest lines -> lines_of (line ++ rest) (line :: lines).

Lemma split_line_spec buffer :
  (newline ∉ buffer /\ split_line buffer = (buffer, [])) \/
  exists line rest, whole_line line /\ buffer = line ++ rest /\ split_line buffer = (line, rest).
Proof.
  induction buffer as [|b buffer IH]; cbn; [left; split; [apply not_elem_of_nil|done]|].
  destruct (Z.eqb_spec b newline) as [->|Hb].
  - right. exists [newline], buffer. split; [|done]. exists []. split; [done|apply not_elem_of_nil].
  - destruct IH as [[Hn ->]|(line & rest & (body & -> & Hn) & -> & ->)].
    + left. split; [|done]. rewrite not_elem_of_cons. auto.
    + right. exists (b :: body ++ [newline]), rest. split; [|done]. exists (b :: body). split; [done|].
      rewrite not_elem_of_cons. auto.
Qed.

Lemma split_whole_line line rest : whole_line line -> split_line (line ++ rest) = (line, rest).
Proof.
  intros (body & -> & Hn). induction body as [|b body IH]; cbn; [done|].
  apply not_elem_of_cons in Hn as [Hb Hn]. destruct (Z.eqb_spec b newline) as [Heq|]; [by rewrite Heq in Hb|].
  by rewrite IH.
Qed.

Lemma whole_line_nonempty line : whole_line line -> exists b tail, line = b :: tail.
Proof. intros ([|b body] & -> & _); cbn; eauto. Qed.

Lemma lines_of_total buffer : exists lines, lines_of buffer lines.
Proof.
  induction buffer as [buffer IH] using (induction_ltof1 _ (@length Z)). unfold ltof in IH.
  destruct (split_line_spec buffer) as [[Hn _]|(line & rest & Hl & -> & _)].
  - destruct buffer as [|b buffer]; [exists []; constructor|]. eexists [_]. by constructor.
  - destruct (whole_line_nonempty line Hl) as (b & tail & ->).
    destruct (IH rest) as [lines Hlines]; [rewrite length_app; cbn; lia|].
    eexists (_ :: lines). by constructor.
Qed.

Section properties.
Context {Message : Type}.
Context (validate_json : list Z -> result exc Message) (model_dump_json : Message -> list Z).
Abbreviation reader := (stdin_reader validate_json).
Abbreviation item := (read_message validate_json).

(** What the reader does with the lines of the stream. *)
Fixpoint read_lines (lines : list (list Z)) : list (result exc Message) * reader_end :=
  match lines with
  | [] => ([], Closed)
  | line :: lines =>
      if line_fits line then let '(items, ending) := read_lines lines in (item line :: items, ending)
      else ([], Failed (EPy ValueError "Separator is found, but chunk is longer than limit"))
  end.

Lemma stdin_loop_lines fuel buffer lines :
  lines_of buffer lines -> (length buffer < fuel)%nat -> stdin_loop validate_json fuel buffer = read_lines lines.
Proof.
  intros Hl. revert fuel. induction Hl as [|body Hne Hn|line rest lines Hw Hl IH]; intros fuel Hfuel;
    (destruct fuel as [|fuel]; [lia|]); cbn [stdin_loop].
  - done.
  - unfold readline. destruct (split_line_spec body) as [[_ ->]|(line & rest & (pre & -> & _) & -> & _)].
    2:{ exfalso. apply Hn. rewrite !elem_of_app. left; right. by left. }
    cbn [read_lines]. destruct (line_fits body); [|done].
    destruct body as [|b body]; [done|]. destruct fuel; [cbn in Hfuel; lia|done].
  - unfold readline. rewrite split_whole_line by done. cbn [read_lines].
    destruct (whole_line_nonempty line Hw) as (b & tail & ->).
    destruct (line_fits _); [|done]. rewrite IH; [done|]. rewrite length_app in Hfuel. cbn in Hfuel. lia.
Qed.

Lemma stdin_reader_lines buffer lines : lines_of buffer lines -> reader buffer = read_lines lines.
Proof. intros Hl. apply stdin_loop_lines; [done|lia]. Qed.

Lemma read_lines_fit lines : forallb line_fits lines = true -> read_lines lines = (map item lines, Closed).
Proof.
  induction lines as [|line lines IH]; cbn; [done|]. intros [-> Hf]%andb_true_iff. by rewrite IH.
Qed.

Lemma read_lines_long lines line rest :
  forallb line_fits lines = true -> line_fits line = false ->
  read_lines (lines ++ line :: rest) =
  (map item lines, Failed (EPy ValueError "Separator is found, but chunk is longer than limit")).
Proof.
  intros Hf Hl. induction lines as [|x lines IH]; cbn in *; [by rewrite Hl|].
  apply andb_true_iff in Hf as [-> Hf]. by rewrite IH.
Qed.

(** ** The reader *)

(** C38: the reading task of the stdio transport.  Whatever bytes arrive, they are
    split into lines, and every line is delivered, in order, as its message or as
    the error of decoding or validating it: a malformed line ends nothing.  The task
    ends normally at the end of the stream, unless a line has more than 65536 bytes:
    then the lines before it are delivered and [readline]'s ValueError ends it. *)
Theorem stdin_reader_delivers buffer :
  exists lines, lines_of buffer lines /\ concat lines = buffer /\
    (forallb line_fits lines = true /\ reader buffer = (map item lines, Closed) \/
     exists before long after message, lines = before ++ long :: after /\ forallb line_fits before = true /\
       line_fits long = false /\ reader buffer = (map item before, Failed (EPy ValueError message))).
Proof.
  destruct (lines_of_total buffer) as [lines Hl]. exists lines. split; [done|]. split.
  { induction Hl; cbn; [done|by rewrite app_nil_r|by rewrite IHHl]. }
  rewrite (stdin_reader_lines _ _ Hl).
  destruct (forallb line_fits lines) eqn:Hf; [left; by rewrite read_lines_fit|right].
  assert (exists before long after, lines = before ++ long :: after /\ forallb line_fits before = true /\
            line_fits long = false) as (before & long & after & -> & Hb & Hlong).
  { clear Hl. induction lines as [|x lines IH]; cbn in Hf; [done|].
    destruct (line_fits x) eqn:Hx; [|by exists [], x, lines].
    destruct (IH Hf) as (before & long & after & -> & Hb & Hlong).
    exists (x :: before), long, after. cbn. by rewrite Hx, Hb. }
  exists before, long, after. eexists. by rewrite read_lines_long.
Qed.

(** ** The round trip *)

(** A message whose text survives its journey: the JSON has no raw newline and no
    surrogate, fits a line, and is read back. *)
Record transmissible (message : Message) : Prop := {
  tm_scalar : forallb scalar (model_dump_json message) = true;
  tm_newline : newline ∉ model_dump_json message;
  tm_fits : Z.of_nat (length (flat_map encode_char (model_dump_json message))) <= stream_limit;
  tm_valid : validate_json (model_dump_json message ++ [newline]) = Ok message
}.

Lemma encode_char_newline c : scalar c = true -> newline ∈ encode_char c -> c = newline.
Proof.
  intros [Hc _]%scalar_spec.
  pose proof (Z.mod_pos_bound c 64 ltac:(done)). pose proof (Z.mod_pos_bound (c / 64) 64 ltac:(done)).
  pose proof (Z.mod_pos_bound (c / 4096) 64 ltac:(done)).
  assert (0 <= c / 64 /\ 0 <= c / 4096 /\ 0 <= c / 262144) as (? & ? & ?) by (split_and!; apply Z.div_pos; lia).
  unfold encode_char, newline. z_cases; rewrite !elem_of_cons; intros Hin; decompose [or] Hin; try lia;
    by match goal with Hn : _ ∈ [] |- _ => apply not_elem_of_nil in Hn end.
Qed.

Lemma encode_newline text :
  forallb scalar text = true -> newline ∉ text -> newline ∉ flat_map encode_char text.
Proof.
  induction text as [|c text IH]; cbn; [intros; apply not_elem_of_nil|].
  intros [Hc Hs]%andb_true_iff [Hn Hns]%not_elem_of_cons [Hin|Hin]%elem_of_app.
  - by apply encode_char_newline in Hin.
  - by apply IH.
Qed.

Lemma filter_no_newline bytes :
  newline ∉ bytes -> List.filter (fun b => negb (b =? newline)) bytes = bytes.
Proof.
  induction bytes as [|b bytes IH]; cbn; [done|]. intros [Hb Hn]%not_elem_of_cons.
  destruct (Z.eqb_spec b newline); [congruence|]. cbn. by rewrite IH.
Qed.

Lemma message_line message :
  transmissible message ->
  exists line, encode (model_dump_json message ++ [newline]) = Ok line /\ whole_line line /\
    line_fits line = true /\ item line = Ok message.
Proof.
  intros [Hs Hn Hf Hv].
  assert (He : encode (model_dump_json message ++ [newline]) =
               Ok (flat_map encode_char (model_dump_json message) ++ [newline])).
  { unfold encode. by rewrite forallb_app, Hs, flat_map_app. }
  pose proof (encode_newline _ Hs Hn) as Hnl.
  eexists. split; [exact He|]. split; [eexists; eauto|]. split.
  - unfold line_fits. rewrite List.filter_app, filter_no_newline by done. cbn. rewrite app_nil_r.
    by apply Z.leb_le.
  - unfold read_message. by rewrite (decode_encode _ _ He).
Qed.

(** The stdio transport carries every message.  Messages whose JSON has no raw
    newline or surrogate, fits a line of 65536 bytes and validates back are all
    written, and the reading task at the other end delivers exactly these messages,
    in order, and ends normally. *)
Theorem stdio_roundtrip messages (Hok : Forall transmissible messages) :
  exists bytes, stdout_writer model_dump_json messages = (bytes, None) /\
    reader bytes = (map Ok messages, Closed).
Proof.
  assert (exists bytes lines, stdout_writer model_dump_json messages = (bytes, None) /\ lines_of bytes lines /\
            forallb line_fits lines = true /\ map item lines = map Ok messages)
    as (bytes & lines & Hw & Hl & Hf & Hi).
  { induction Hok as [|message messages Hm _ (bytes & lines & Hw & Hl & Hf & Hi)]; cbn.
    - exists [], []. split_and!; try done. constructor.
    - destruct (message_line message Hm) as (line & He & Hwhole & Hfit & Hitem).
      exists (line ++ bytes), (line :: lines). rewrite He, Hw. cbn. rewrite Hfit, Hitem, Hi.
      split_and!; try done. by constructor. }
  exists bytes. split; [done|]. by rewrite (stdin_reader_lines _ _ Hl), read_lines_fit, Hi.
Qed.
End properties.

(** A message is its own text, here. *)
Lemma stdio_roundtrip_witness :
  let messages := [[123; 34; 233; 34; 125]; [8364; 0x1F600]] in
  let validate (text : list Z) : result exc (list Z) := Ok (List.filter (fun b => negb (b =? newline)) text) in
  exists bytes, stdout_writer id messages = (bytes, None) /\ stdin_reader validate bytes = (map Ok messages, Closed).
Proof.
  intros messages validate. apply (stdio_roundtrip validate id).
  repeat constructor; cbn; try done; rewrite ?not_elem_of_cons; split_and?; try done; apply not_elem_of_nil.
Defined.

(** One line too many bytes long is enough to end the reading task. *)
Lemma long_line_ends_reader {Message} (validate_json : list Z -> result exc Message) rest :
  exists message,
    stdin_reader validate_json (replicate (Z.to_nat (stream_limit + 1)) 32 ++ newline :: rest) =
    ([], Failed (EPy ValueError message)).
Proof.
  destruct (lines_of_total rest) as [lines Hl]. set (body := replicate _ 32).
  assert (Hbody : newline ∉ body) by (intros [Hx _]%elem_of_replicate; done).
  eexists. replace (body ++ newline :: rest) with ((body ++ [newline]) ++ rest) by by rewrite <- app_assoc.
  erewrite (stdin_reader_lines _ _ ((body ++ [newline]) :: lines)) by (constructor; [by eexists|done]).
  cbn [read_lines]. unfold line_fits. rewrite List.filter_app, filter_no_newline by done. cbn [List.filter app].
  rewrite app_nil_r. unfold body. by rewrite length_replicate, Z2Nat.id by done.
Qed.
