(* ===== verification/Lifecycle.v ===== *)
(** * Start and shutdown

    [run_stdio_server] of [gateway/server.py] and the lifespans of
    [gateway/http_server.py] and [gateway/workers/http_server.py]: what they open, in
    which order the gateway is opened, serves and is closed again, and that what was
    opened ([releases]) is closed.  Serving (the MCP session, the HTTP server) and each
    open or close is one operation, which may fail. *)

From S2P Require Import Prelude Json Models Errors Effects Registry Config Tools Gateway.
Open Scope Z_scope.

Inductive lc_op :=
| SeedDatabase (path : string)
| OpenStateStore
| OpenTracing
| OpenApprovals
| OpenControlPlane
| OpenRemote
| StartWorker
| Serve
| CloseStateStore
| CloseApprovals
| CloseControlPlane
| StopWorker
| CloseRemote
| ForceFlush
| ShutdownTracing.
#[export] Instance lc_op_eq : EqDecision lc_op.
Proof. solve_decision. Defined.
Definition lc_sig : signature := {| op := lc_op; ans _ := unit |}.
Abbreviation LM := (M lc_sig unit).

Fixpoint call_all (ops : list lc_op) : LM unit :=
  match ops with
  | [] => mret tt
  | o :: ops => call (E := lc_sig) o;; call_all ops
  end.

Definition if_some (b : bool) (o : lc_op) : list lc_op := if b then [o] else [].

(** The resources [run_stdio_server] and [create_http_app] construct before the
    execution runtime, in their order; the policy client, the advisor, the audit
    logger and the sandbox runner hold nothing between calls. *)
Definition gateway_openings (s : Settings) : list lc_op :=
  [OpenStateStore; OpenTracing; OpenApprovals] ++ if_some (control_plane_enabled s) OpenControlPlane.

(** [create_execution_runtime] constructs the client of a remote worker; the worker
    service it constructs holds nothing until it is started. *)
Definition runtime_openings (runtime : execution_runtime) : list lc_op :=
  match runtime with run_remote _ _ => [OpenRemote] | _ => [] end.

(** What of the gateway has to be closed. *)
Definition worker_service (g : gateway) : bool :=
  match gw_runtime g with run_queued _ _ => true | _ => false end.
Definition remote_worker (g : gateway) : bool :=
  match gw_runtime g with run_remote _ _ => true | _ => false end.
Definition has_control_plane (g : gateway) : bool := bool_decide (is_Some (gw_control_plane g)).

(** The [finally] blocks. *)
Definition stdio_closers (g : gateway) : list lc_op :=
  [CloseStateStore; CloseApprovals] ++ if_some (has_control_plane g) CloseControlPlane ++
  if_some (worker_service g) StopWorker ++ if_some (remote_worker g) CloseRemote ++ [ForceFlush; ShutdownTracing].
Definition http_closers (g : gateway) : list lc_op :=
  if_some (worker_service g) StopWorker ++ if_some (remote_worker g) CloseRemote ++
  [CloseStateStore; CloseApprovals] ++ if_some (has_control_plane g) CloseControlPlane ++ [ForceFlush; ShutdownTracing].

(** From the start of the worker to the end of the [finally] block. *)
Definition serve_until (start : bool) (closers : list lc_op) : LM unit :=
  call_all (if_some start StartWorker);; finally (call (E := lc_sig) Serve) (call_all closers).

Section lifecycle.
Context (db_query_input db_query_output shell_exec_input shell_exec_output : ModelClass).
Abbreviation build := (build_gateway db_query_input db_query_output shell_exec_input shell_exec_output).
Abbreviation worker_app := (create_worker_app db_query_input db_query_output shell_exec_input shell_exec_output).

(** [run_stdio_server] *)
Definition run_stdio_server (s : Settings) (token_hex : string) : LM unit :=
  call (E := lc_sig) (SeedDatabase (database_path s));;
  call_all (gateway_openings s);;
  g ← lift_result (build s token_hex);
  call_all (runtime_openings (gw_runtime g));;
  serve_until (worker_service g) (stdio_closers g).

(** [create_http_app] and the [lifespan] of its application *)
Definition run_http_server (s : Settings) (token_hex : string) : LM unit :=
  call_all (gateway_openings s);;
  g ← lift_result (build s token_hex);
  call_all (runtime_openings (gw_runtime g));;
  lift_result (http_authentication s);;
  call (E := lc_sig) (SeedDatabase (database_path s));;
  serve_until (worker_service g) (http_closers g).

(** [create_worker_app] and the [lifespan] of its application *)
Definition run_worker_server (s : Settings) : LM unit :=
  lift_result (worker_app s);;
  call (E := lc_sig) (SeedDatabase (database_path s));;
  serve_until true [StopWorker].
End lifecycle.

(* ------------------------------------------------------------------ *)
(** ** What a run closes *)

Abbreviation lc_event := (event lc_sig).
Definition lc_ev (o : lc_op) (r : result exc unit) : lc_event := Event (E := lc_sig) o r.
Definition called (o : lc_op) (tr : list lc_event) : Prop := exists r, lc_ev o r ∈ tr.
Definition succeeded (o : lc_op) : lc_event := lc_ev o (Ok tt).

(** What releases what an operation opened. *)
Definition releases (o : lc_op) : list lc_op :=
  match o with
  | OpenStateStore => [CloseStateStore]
  | OpenTracing => [ForceFlush; ShutdownTracing]
  | OpenApprovals => [CloseApprovals]
  | OpenControlPlane => [CloseControlPlane]
  | OpenRemote => [CloseRemote]
  | StartWorker => [StopWorker]
  | _ => []
  end.
Definition is_release (o : lc_op) : Prop := exists opener, o ∈ releases opener.

(** No closing operation fails; and all that was opened is closed. *)
Definition closes_succeed (tr : list lc_event) : Prop :=
  forall o e, is_release o -> lc_ev o (Err e) ∉ tr.
Definition all_released (tr : list lc_event) : Prop :=
  forall opener o, succeeded opener ∈ tr -> o ∈ releases opener -> called o tr.

(** The events of a sequence of operations: each is called once the ones before it
    succeeded, and the first error is the outcome. *)
Inductive calling : list lc_op -> list lc_event -> result exc unit -> Prop :=
| calling_done : calling [] [] (Ok tt)
| calling_ok o ops tr r : calling ops tr r -> calling (o :: ops) (succeeded o :: tr) r
| calling_failed o ops e : calling (o :: ops) [lc_ev o (Err e)] (Err e).

Lemma call_all_wp ops s tr0 (Q : result exc unit -> unit -> list lc_event -> Prop) :
  (forall tr r, calling ops tr r -> Q r s (tr0 ++ tr)) ->
  wpM (history lc_sig) (call_all ops) s tr0 Q.
Proof.
  revert tr0. induction ops as [|o ops IH]; intros tr0 HQ; cbn [call_all].
  - wp_step. specialize (HQ [] (Ok tt) calling_done). by rewrite app_nil_r in HQ.
  - wp_step. wp_call; [exact I|intros [[]|e] _].
    + apply IH. intros tr r Hc. cbn. rewrite <- app_assoc. by apply HQ, calling_ok.
    + apply HQ, calling_failed.
Qed.

Lemma calling_all ops tr : calling ops tr (Ok tt) -> tr = map succeeded ops.
Proof. remember (Ok tt) as r eqn:Hr. induction 1; try done. cbn. by rewrite IHcalling. Qed.

Lemma calling_ops ops tr r o a : calling ops tr r -> lc_ev o a ∈ tr -> o ∈ ops.
Proof.
  induction 1 as [|o' ops tr r Hc IH|o' ops e]; intros Hin.
  - by apply not_elem_of_nil in Hin.
  - apply elem_of_cons in Hin as [[= -> _]|Hin]; [by left|right; auto].
  - apply list_elem_of_singleton in Hin as [= -> _]. by left.
Qed.

Lemma calling_complete ops tr r :
  calling ops tr r -> (forall o e, o ∈ ops -> lc_ev o (Err e) ∉ tr) -> r = Ok tt /\ tr = map succeeded ops.
Proof.
  induction 1 as [|o ops tr r Hc IH|o ops e]; intros Hno; [done| |].
  - destruct IH as [-> ->]; [|done]. intros o' e Ho Hin. apply (Hno o' e); by right.
  - exfalso. eapply Hno; by left.
Qed.

Lemma calling_prefix pre o post tr r :
  calling (pre ++ o :: post) tr r -> (forall o' e, o' ∈ pre -> lc_ev o' (Err e) ∉ tr) -> called o tr.
Proof.
  revert tr. induction pre as [|p pre IH]; intros tr Hc Hno; cbn in Hc; inversion Hc; subst.
  - eexists. by left.
  - eexists. by left.
  - destruct (IH tr0) as [r' Hr']; [done| |].
    + intros o' e Ho Hin. apply (Hno o' e); by right.
    + exists r'. by right.
  - exfalso. eapply Hno; by left.
Qed.

Lemma calling_stops pre o post e tr r :
  calling (pre ++ o :: post) tr r -> NoDup (pre ++ o :: post) -> lc_ev o (Err e) ∈ tr ->
  r = Err e /\ forall o' a, o' ∈ post -> lc_ev o' a ∉ tr.
Proof.
  revert tr. induction pre as [|p pre IH]; intros tr Hc Hnd Hin; cbn in *; apply NoDup_cons in Hnd as [Hni Hnd];
    inversion Hc; subst.
  - apply elem_of_cons in Hin as [[= ]|Hin]; [].
    destruct Hni. by eapply calling_ops.
  - apply list_elem_of_singleton in Hin as [= ->]. split; [done|].
    intros o' a Ho [= -> _]%list_elem_of_singleton. done.
  - apply elem_of_cons in Hin as [[= ]|Hin]; [].
    match goal with H : calling _ tr0 r |- _ => destruct (IH _ H Hnd Hin) as [-> Hno] end. split; [done|].
    intros o' a Ho [[= -> _]|Hin']%elem_of_cons; [|by eapply Hno].
    apply Hni. rewrite elem_of_app, elem_of_cons. auto.
  - apply list_elem_of_singleton in Hin as [= -> _]. destruct Hni. rewrite elem_of_app, elem_of_cons. auto.
Qed.

(** The runs of [serve_until], and of an entry point that opens [opened] before it. *)
Definition run_shape (start : bool) (closers : list lc_op) (r : result exc unit) (tr : list lc_event) : Prop :=
  (start = true /\ exists e, tr = [lc_ev StartWorker (Err e)] /\ r = Err e) \/
  exists served trc rc, calling closers trc rc /\ r = (if is_ok rc then served else rc) /\
    tr = map succeeded (if_some start StartWorker) ++ lc_ev Serve served :: trc.
Definition entry_shape (opened : list lc_op) (start : bool) (closers : list lc_op)
    (r : result exc unit) (tr : list lc_event) : Prop :=
  exists tail, tr = map succeeded opened ++ tail /\ run_shape start closers r tail.
Definition unserved (tr : list lc_event) : Prop := ~ called Serve tr.

Lemma serve_until_wp start closers tr0 :
  wpM (history lc_sig) (serve_until start closers) tt tr0
    (fun r _ tr => exists tail, tr = tr0 ++ tail /\ run_shape start closers r tail).
Proof.
  unfold serve_until. wp_step. apply call_all_wp. intros trs rs Hs.
  assert (Hrest : forall tr1 : list lc_event,
    wpM (history lc_sig) (finally (call (E := lc_sig) Serve) (call_all closers)) tt tr1
      (fun r _ tr => exists served trc rc, calling closers trc rc /\ r = (if is_ok rc then served else rc) /\
         tr = tr1 ++ lc_ev Serve served :: trc)).
  { intros tr1. wp_step. wp_call; [exact I|intros served _]. apply call_all_wp. intros trc rc Hc.
    assert (Heq : mnext (history lc_sig) tr1 Serve served ++ trc = tr1 ++ lc_ev Serve served :: trc)
      by (cbn; by rewrite <- app_assoc).
    destruct rc as [[]|e]; (eexists served, trc, _; split; [exact Hc|done]). }
  destruct rs as [[]|e].
  - apply calling_all in Hs as ->. eapply wpM_mono; [apply Hrest|].
    intros r [] tr (served & trc & rc & Hc & -> & ->). rewrite <- app_assoc.
    eexists. split; [done|]. right. eauto 6.
  - destruct start; inversion Hs as [|o ops tr1 r1 Hs1|]; subst; [inversion Hs1|].
    eexists. split; [done|]. left. eauto.
Qed.

(** The closers of a serving entry point. *)
Definition closes (closers : list lc_op) (r : result exc unit) (tr : list lc_event) : Prop :=
  forall served, lc_ev Serve served ∈ tr ->
    (closes_succeed tr -> r = served /\ forall o, o ∈ closers -> called o tr) /\
    (forall pre o post, closers = pre ++ o :: post ->
       (forall o' e, o' ∈ pre -> lc_ev o' (Err e) ∉ tr) -> called o tr) /\
    (forall pre o post e, closers = pre ++ o :: post -> NoDup closers ->
       lc_ev o (Err e) ∈ tr -> r = Err e /\ forall o', o' ∈ post -> ~ called o' tr).

(** Operations that open, and those that close. *)
Definition opening (o : lc_op) : Prop := o <> Serve /\ ~ is_release o.

Lemma called_in (o : lc_op) (tr tr' : list lc_event) : tr ⊆ tr' -> called o tr -> called o tr'.
Proof. intros Hsub [r Hr]. exists r. auto. Qed.

Lemma in_succeeded o a ops : lc_ev o a ∈ map succeeded ops -> o ∈ ops /\ a = Ok tt.
Proof. intros (o' & [= -> ->] & Hin)%list_elem_of_fmap. done. Qed.
Lemma releases_release o : is_release o -> releases o = [].
Proof. by intros [[] H]; cbn in H; decompose_list_elem_of; subst. Qed.

Lemma release_opening o : is_release o -> ~ opening o.
Proof. intros Hr [_ Hno]. done. Qed.

Lemma serve_no_release : ~ is_release Serve.
Proof. intros [[] H]; cbn in H; decompose_list_elem_of; done. Qed.

Ltac not_release := intros [[] Hrel]; cbn in Hrel; decompose_list_elem_of; done.
Ltac all_opening := repeat constructor; first [discriminate|not_release].

Section entry.
Context (opened : list lc_op) (start : bool) (closers : list lc_op) (r : result exc unit) (tr : list lc_event).
Hypothesis Hopened : Forall opening opened.
Hypothesis Hclosers : forall o, o ∈ closers -> is_release o.
Hypothesis Hshape : entry_shape opened start closers r tr.

Abbreviation before := (map succeeded (opened ++ if_some start StartWorker)).

Lemma before_opening o a : lc_ev o a ∈ before -> opening o.
Proof.
  intros [Hin _]%in_succeeded. apply elem_of_app in Hin as [Hin|Hin].
  - by eapply Forall_forall in Hopened.
  - destruct start; [|by apply not_elem_of_nil in Hin]. apply list_elem_of_singleton in Hin as ->.
    split; [discriminate|not_release].
Qed.

Lemma entry_served served :
  lc_ev Serve served ∈ tr ->
  exists trc rc, calling closers trc rc /\ r = (if is_ok rc then served else rc) /\
    tr = before ++ lc_ev Serve served :: trc.
Proof.
  intros Hin. pose proof Hshape as (tail & Htr & Hrun). rewrite Htr in Hin |- *.
  destruct Hrun as [(_ & e & -> & _)|(served' & trc & rc & Hc & Hr & ->)].
  - exfalso. apply elem_of_app in Hin as [[Hin _]%in_succeeded|[=]%list_elem_of_singleton].
    eapply Forall_forall in Hopened as [Hs _]; done.
  - rewrite app_assoc, <- map_app in Hin |- *.
    assert (served' = served) as ->; [|by eauto].
    apply elem_of_app in Hin as [Hin|[[= ->]|Hin]%elem_of_cons]; [|done|].
    + by apply before_opening in Hin as [Hs _].
    + exfalso. eapply serve_no_release, Hclosers, calling_ops; eauto.
Qed.

Lemma closer_after o a trc served :
  o ∈ closers -> lc_ev o a ∈ before ++ lc_ev Serve served :: trc -> lc_ev o a ∈ trc.
Proof.
  intros Ho%Hclosers [Hin|[[= -> _]|Hin]%elem_of_cons]%elem_of_app; [| |done].
  - by apply before_opening, release_opening in Hin.
  - by apply serve_no_release in Ho.
Qed.

(** Once it served, an entry point calls a closer unless one before it fails, and
    when none fails all are called and the outcome is that of serving. *)
Lemma entry_closes : closes closers r tr.
Proof.
  intros served (trc & rc & Hc & Hr & Htr)%entry_served. rewrite Hr, Htr.
  assert (Hsub : trc ⊆ before ++ lc_ev Serve served :: trc).
  { intros ev Hev. rewrite elem_of_app, elem_of_cons. auto. }
  split_and!.
  - intros Hno. destruct (calling_complete _ _ _ Hc) as [-> ->].
    { intros o e Ho Ht. by apply (Hno o e), Hsub; [apply Hclosers|]. }
    split; [done|]. intros o Ho. exists (Ok tt). apply Hsub. by apply (list_elem_of_fmap_2 succeeded).
  - intros pre o post -> Hno. eapply called_in; [exact Hsub|]. eapply calling_prefix; [exact Hc|].
    intros o' e Ho Ht. by apply (Hno o' e), Hsub.
  - intros pre o post e Heq Hnd Herr. apply closer_after in Herr; [|rewrite Heq, elem_of_app, elem_of_cons; auto].
    rewrite Heq in Hc, Hnd. destruct (calling_stops _ _ _ _ _ _ Hc Hnd Herr) as [-> Hnone]. split; [done|].
    intros o' Ho' [a Ha]. apply (Hnone o' a Ho'). eapply closer_after; [|exact Ha].
    rewrite Heq, elem_of_app, elem_of_cons. auto.
Qed.

(** What was opened is closed when the closers cover it. *)
Lemma entry_released served :
  (forall opener, opener ∈ opened ++ if_some start StartWorker -> releases opener ⊆ closers) ->
  lc_ev Serve served ∈ tr -> closes_succeed tr -> r = served /\ all_released tr.
Proof.
  intros Hcover Hin Hno. destruct (entry_closes served Hin) as [Hall _].
  destruct (Hall Hno) as [Hr Hcalled]. split; [done|].
  apply entry_served in Hin as (trc & rc & Hc & _ & Htr).
  intros opener o Hopen Ho. apply Hcalled.
  rewrite Htr in Hopen. apply elem_of_app in Hopen as [[Hopen _]%in_succeeded|[[= ->]|Hopen]%elem_of_cons].
  - by eapply Hcover.
  - by apply not_elem_of_nil in Ho.
  - exfalso. apply calling_ops with (1 := Hc) in Hopen. apply Hclosers, releases_release in Hopen.
    rewrite Hopen in Ho. by apply not_elem_of_nil in Ho.
Qed.
End entry.


Lemma gateway_openings_opening s : Forall opening (gateway_openings s).
Proof. unfold gateway_openings. destruct (control_plane_enabled s); all_opening. Qed.

Lemma runtime_openings_opening runtime : Forall opening (runtime_openings runtime).
Proof. destruct runtime; all_opening. Qed.

Lemma seed_opening path : opening (SeedDatabase path).
Proof. split; [discriminate|not_release]. Qed.

Lemma opening_unserved ops tr : Forall opening ops -> (forall o a, lc_ev o a ∈ tr -> o ∈ ops) -> unserved tr.
Proof. intros Hops Htr [a Ha%Htr]. by eapply Forall_forall in Hops as [Hs _]. Qed.

Ltac all_releases :=
  apply Forall_forall; unfold stdio_closers, http_closers, if_some;
  repeat case_match; cbn [app]; repeat constructor; first
    [by exists OpenStateStore; set_solver|by exists OpenApprovals; set_solver|by exists OpenControlPlane; set_solver
    |by exists StartWorker; set_solver|by exists OpenRemote; set_solver|by exists OpenTracing; set_solver].

Lemma stdio_closers_release g o : o ∈ stdio_closers g -> is_release o.
Proof. revert o. all_releases. Qed.

Lemma http_closers_release g o : o ∈ http_closers g -> is_release o.
Proof. revert o. all_releases. Qed.

(** A run that served had the shape its weakest precondition gives it. *)
Lemma served_run (p : LM unit) (P : result exc unit -> list lc_event -> Prop) tr r :
  wpM (history lc_sig) p tt (map succeeded []) (fun r _ tr => unserved tr \/ P r tr) ->
  exec (p tt) tr (r, tt) -> called Serve tr -> P r tr.
Proof.
  intros Hwp Hex Hs.
  destruct (history_exec (p tt) (fun rs tr => unserved tr \/ P rs.1 tr) tr (r, tt) Hwp Hex); done.
Qed.

(** One opening after the other, when nothing served is all that is asked of a run
    that stops in between. *)
Section openings.
Context (Q : result exc unit -> unit -> list lc_event -> Prop).
Hypothesis Hunserved : forall r tr, unserved tr -> Q r tt tr.

Lemma openings_wp opened ops (k : LM unit) :
  Forall opening opened -> Forall opening ops ->
  wpM (history lc_sig) k tt (map succeeded (opened ++ ops)) Q ->
  wpM (history lc_sig) (call_all ops;; k) tt (map succeeded opened) Q.
Proof.
  intros Hopened Hops Hk. wp_step. apply call_all_wp. intros tr [[]|e] Hc.
  - apply calling_all in Hc as ->. by rewrite <- map_app.
  - apply Hunserved, (opening_unserved (opened ++ ops)); [by apply Forall_app|].
    intros o a [[Hin _]%in_succeeded|Hin]%elem_of_app; rewrite elem_of_app; [by left|right].
    by eapply calling_ops.
Qed.

Lemma seed_wp opened path (k : LM unit) :
  Forall opening opened ->
  wpM (history lc_sig) k tt (map succeeded (opened ++ [SeedDatabase path])) Q ->
  wpM (history lc_sig) (call (E := lc_sig) (SeedDatabase path);; k) tt (map succeeded opened) Q.
Proof.
  intros Hopened Hk. wp_step. wp_call; [exact I|intros [[]|e] _].
  - by rewrite map_app in Hk.
  - apply Hunserved, (opening_unserved (opened ++ [SeedDatabase path])).
    + apply Forall_app. split; [done|]. repeat constructor; [discriminate|not_release].
    + intros o a [[Hin _]%in_succeeded|[= -> _]%list_elem_of_singleton]%elem_of_app; set_solver.
Qed.

Lemma lift_result_wp {A} opened (x : result exc A) (k : A -> LM unit) :
  Forall opening opened ->
  (forall v, x = Ok v -> wpM (history lc_sig) (k v) tt (map succeeded opened) Q) ->
  wpM (history lc_sig) (v ← lift_result x; k v) tt (map succeeded opened) Q.
Proof.
  intros Hopened Hk. wp_step. destruct x as [v|e]; wp_step; [by apply Hk|].
  apply Hunserved, (opening_unserved opened); [done|]. by intros o a [Hin _]%in_succeeded.
Qed.
End openings.

Section properties.
Context (db_query_input db_query_output shell_exec_input shell_exec_output : ModelClass).
Abbreviation build := (build_gateway db_query_input db_query_output shell_exec_input shell_exec_output).
Abbreviation http_app := (create_http_app db_query_input db_query_output shell_exec_input shell_exec_output).
Abbreviation worker_app := (create_worker_app db_query_input db_query_output shell_exec_input shell_exec_output).
Abbreviation stdio := (run_stdio_server db_query_input db_query_output shell_exec_input shell_exec_output).
Abbreviation http := (run_http_server db_query_input db_query_output shell_exec_input shell_exec_output).
Abbreviation worker := (run_worker_server db_query_input db_query_output shell_exec_input shell_exec_output).

(** The closers of either gateway cover what building it opened. *)
Lemma closers_cover s token_hex g opener o :
  build s token_hex = Ok g -> o ∈ releases opener ->
  opener ∈ (gateway_openings s ++ runtime_openings (gw_runtime g)) ++ if_some (worker_service g) StartWorker ->
  o ∈ stdio_closers g /\ o ∈ http_closers g.
Proof.
  unfold build_gateway. destruct (create_execution_runtime _ _ _ _ s (runner_for s) token_hex) as [runtime|e]; [|done].
  intros [= <-]. unfold gateway_openings, stdio_closers, http_closers, has_control_plane, worker_service, remote_worker,
    if_some. cbn [gw_runtime gw_control_plane].
  destruct (control_plane_enabled s), runtime; cbn [runtime_openings app]; intros Ho Hopen;
    decompose_list_elem_of; subst; cbn in Ho |- *; decompose_list_elem_of; subst; cbn; set_solver.
Qed.

(** The run of an entry point: its openings, and from then on [serve_until]. *)
Definition entry_runs (opened : list lc_op) (start : bool) (closers : list lc_op)
    (r : result exc unit) (tr : list lc_event) : Prop :=
  Forall opening opened /\ (forall o, o ∈ closers -> is_release o) /\ entry_shape opened start closers r tr.

Lemma stdio_runs s token_hex tr r :
  exec (stdio s token_hex tt) tr (r, tt) -> called Serve tr ->
  exists g, build s token_hex = Ok g /\
    entry_runs (SeedDatabase (database_path s) :: gateway_openings s ++ runtime_openings (gw_runtime g))
      (worker_service g) (stdio_closers g) r tr.
Proof.
  intros Hex Hs.
  refine (served_run _ (fun r tr => exists g, build s token_hex = Ok g /\
    entry_runs (SeedDatabase (database_path s) :: gateway_openings s ++ runtime_openings (gw_runtime g))
      (worker_service g) (stdio_closers g) r tr) _ _ _ Hex Hs).
  apply seed_wp; [auto|done|]. cbn [app].
  apply openings_wp; [auto|apply Forall_singleton, seed_opening|apply gateway_openings_opening|].
  assert (Hopen : Forall opening ([SeedDatabase (database_path s)] ++ gateway_openings s))
    by (apply Forall_app; split; [apply Forall_singleton, seed_opening|apply gateway_openings_opening]).
  apply lift_result_wp; [auto|done|]. intros g Hg.
  apply openings_wp; [auto|done|apply runtime_openings_opening|].
  eapply wpM_mono; [apply serve_until_wp|]. intros r' [] tr' Hshape. right. exists g. split; [done|].
  split_and!; [|apply stdio_closers_release|].
  - rewrite <- app_assoc in *. cbn [app] in *. rewrite app_comm_cons. apply Forall_app.
    split; [done|apply runtime_openings_opening].
  - by rewrite <- app_assoc in Hshape.
Qed.

Lemma http_runs s token_hex tr r :
  exec (http s token_hex tt) tr (r, tt) -> called Serve tr ->
  exists g m, http_app s token_hex = Ok (g, m) /\
    entry_runs ((gateway_openings s ++ runtime_openings (gw_runtime g)) ++ [SeedDatabase (database_path s)])
      (worker_service g) (http_closers g) r tr.
Proof.
  intros Hex Hs.
  refine (served_run _ (fun r tr => exists g m, http_app s token_hex = Ok (g, m) /\
    entry_runs ((gateway_openings s ++ runtime_openings (gw_runtime g)) ++ [SeedDatabase (database_path s)])
      (worker_service g) (http_closers g) r tr) _ _ _ Hex Hs).
  apply openings_wp; [auto|done|apply gateway_openings_opening|].
  apply lift_result_wp; [auto|apply gateway_openings_opening|]. intros g Hg.
  apply openings_wp; [auto|apply gateway_openings_opening|apply runtime_openings_opening|].
  assert (Hopen : Forall opening (gateway_openings s ++ runtime_openings (gw_runtime g)))
    by (apply Forall_app; split; [apply gateway_openings_opening|apply runtime_openings_opening]).
  apply lift_result_wp; [auto|done|]. intros m Hm.
  apply seed_wp; [auto|done|].
  eapply wpM_mono; [apply serve_until_wp|]. intros r' [] tr' Hshape. right. exists g, m. split.
  { unfold create_http_app. rewrite Hg. cbn [result_bind]. by rewrite Hm. }
  split_and!; [|apply http_closers_release|done].
  apply Forall_app. split; [done|apply Forall_singleton, seed_opening].
Qed.

Lemma worker_runs s tr r :
  exec (worker s tt) tr (r, tt) -> called Serve tr ->
  is_ok (worker_app s) = true /\ entry_runs [SeedDatabase (database_path s)] true [StopWorker] r tr.
Proof.
  intros Hex Hs.
  refine (served_run _ (fun r tr => is_ok (worker_app s) = true /\
    entry_runs [SeedDatabase (database_path s)] true [StopWorker] r tr) _ _ _ Hex Hs).
  apply lift_result_wp; [auto|done|]. intros pool Hpool. rewrite Hpool.
  apply seed_wp; [auto|done|].
  eapply wpM_mono; [apply serve_until_wp|]. intros r' [] tr' Hshape. right. split; [done|]. split_and!; [| |done].
  - apply Forall_singleton, seed_opening.
  - intros o ->%list_elem_of_singleton. exists StartWorker. by left.
Qed.

(** A serving gateway or worker releases what it opened, whatever its serving and
    its other operations did, unless a closing operation fails. *)
Lemma runs_release (opened : list lc_op) start closers r tr served :
  entry_runs opened start closers r tr ->
  (forall opener o, o ∈ releases opener -> opener ∈ opened ++ if_some start StartWorker -> o ∈ closers) ->
  lc_ev Serve served ∈ tr -> closes_succeed tr -> r = served /\ all_released tr.
Proof.
  intros (Hopened & Hclosers & Hshape) Hcover Hin Hno.
  refine (entry_released opened start closers r tr Hopened Hclosers Hshape served _ Hin Hno).
  intros opener Hop o Ho. by eapply Hcover.
Qed.

Lemma runs_closers opened start closers r tr : entry_runs opened start closers r tr -> closes closers r tr.
Proof. intros (Hopened & Hclosers & Hshape). by eapply entry_closes. Qed.

(** C40: shutdown, once serving began.  If no closing operation fails, everything
    that was opened before (the stores, the approval queue, the control plane, the
    tracing, the remote client, the started worker service) is closed, whatever ended
    serving, and the entry point ends as serving did.  The worker service is stopped
    (which settles its unfinished mutations) by the HTTP gateway and by the separate
    worker even if other closes fail.  The stdio gateway stops it after closing its
    stores: it is stopped when those closes succeed, and when closing the state store
    fails it is never stopped. *)
Theorem shutdown_stops_worker s token_hex tr r served (Hserved : lc_ev Serve served ∈ tr) :
  (exec (http s token_hex tt) tr (r, tt) -> exists g m, http_app s token_hex = Ok (g, m) /\
     (closes_succeed tr -> r = served /\ all_released tr) /\
     (worker_service g = true -> called StopWorker tr)) /\
  (exec (worker s tt) tr (r, tt) ->
     (closes_succeed tr -> r = served /\ all_released tr) /\ called StopWorker tr) /\
  (exec (stdio s token_hex tt) tr (r, tt) -> exists g, build s token_hex = Ok g /\
     (closes_succeed tr -> r = served /\ all_released tr) /\
     (worker_service g = true ->
        (forall o e, o ∈ [CloseStateStore; CloseApprovals; CloseControlPlane] -> lc_ev o (Err e) ∉ tr) ->
        called StopWorker tr) /\
     (forall e, lc_ev CloseStateStore (Err e) ∈ tr ->
        r = Err e /\ (worker_service g = true -> ~ called StopWorker tr))).
Proof.
  assert (Hs : called Serve tr) by (by eexists). split_and!; intros Hex.
  - destruct (http_runs _ _ _ _ Hex Hs) as (g & m & Hg & Hruns). exists g, m. split; [done|].
    assert (Hb : build s token_hex = Ok g)
      by (unfold create_http_app in Hg; destruct (build s token_hex); cbn in Hg; [|done];
          destruct (http_authentication s); cbn in Hg; congruence).
    split; [intros Hno; eapply runs_release; [exact Hruns| |done|done]|].
    + intros opener o Ho Hop. apply (closers_cover _ _ _ opener o Hb Ho). rewrite !elem_of_app in *.
      destruct Hop as [[?|Hop]|?]; [by left| |by right]. apply list_elem_of_singleton in Hop as ->.
      by apply not_elem_of_nil in Ho.
    + intros Hw. destruct (runs_closers _ _ _ _ _ Hruns _ Hserved) as (_ & Hpre & _).
      apply (Hpre [] StopWorker (tl (http_closers g))); [unfold http_closers; by rewrite Hw|].
      intros o e Ho. by apply not_elem_of_nil in Ho.
  - destruct (worker_runs _ _ _ Hex Hs) as (_ & Hruns).
    split; [intros Hno; eapply runs_release; [exact Hruns| |done|done]|].
    + intros opener o Ho Hop. cbn in Hop. apply elem_of_cons in Hop as [Hop|Hop]; [subst; by apply not_elem_of_nil in Ho|]. apply list_elem_of_singleton in Hop as ->. done.
    + destruct (runs_closers _ _ _ _ _ Hruns _ Hserved) as (_ & Hpre & _).
      apply (Hpre [] _ []); [done|]. intros o e Ho. by apply not_elem_of_nil in Ho.
  - destruct (stdio_runs _ _ _ _ Hex Hs) as (g & Hg & Hruns). exists g. split; [done|].
    destruct (runs_closers _ _ _ _ _ Hruns _ Hserved) as (_ & Hpre & Hfail).
    split_and!; [intros Hno; eapply runs_release; [exact Hruns| |done|done]| |].
    + intros opener o Ho Hop. apply (closers_cover _ _ _ opener o Hg Ho).
      apply elem_of_cons in Hop as [->|Hop]; [by apply not_elem_of_nil in Ho|done].
    + intros Hw Hno. unfold stdio_closers in Hpre. rewrite Hw in Hpre. cbn [if_some] in Hpre.
      apply (Hpre ([CloseStateStore; CloseApprovals] ++ if_some (has_control_plane g) CloseControlPlane) StopWorker
        (if_some (remote_worker g) CloseRemote ++ [ForceFlush; ShutdownTracing])); [by rewrite <- app_assoc|].
      intros o e Ho. apply Hno. revert Ho. destruct (has_control_plane g); cbn; rewrite !elem_of_cons; tauto.
    + intros e He. destruct (Hfail [] CloseStateStore (tl (stdio_closers g)) e) as [-> Hno]; [done| |done|].
      { unfold stdio_closers, if_some. destruct (has_control_plane g), (worker_service g), (remote_worker g);
          cbn [app]; apply (bool_decide_unpack _); reflexivity. }
      split; [done|]. intros Hw. apply Hno. unfold stdio_closers. rewrite Hw.
      destruct (has_control_plane g); cbn; set_solver.
Qed.
End properties.

(** The defaults, with queued workers. *)
Definition queued_settings : Settings :=
  ltac:(let s := eval unfold default_settings in default_settings in
        match s with context C [in_process] => let t := context C [queued] in exact t end).

(** The stdio gateway, when Redis is gone at shutdown. *)
Definition redis_gone : handler lc_sig unit := fun o w =>
  (match o with CloseStateStore => Err (EPy OSError "Connection refused") | _ => Ok tt end, w).
Definition stdio_trace : list lc_event :=
  map succeeded [SeedDatabase "data/gateway.sqlite"; OpenStateStore; OpenTracing; OpenApprovals; StartWorker; Serve]
  ++ [lc_ev CloseStateStore (Err (EPy OSError "Connection refused"))].

(** The HTTP gateway, whose closes all succeed. *)
Definition nothing_fails : handler lc_sig unit := fun o w => (Ok tt, w).
Definition http_trace : list lc_event :=
  map succeeded [OpenStateStore; OpenTracing; OpenApprovals; SeedDatabase "data/gateway.sqlite"; StartWorker; Serve;
                 StopWorker; CloseStateStore; CloseApprovals; ForceFlush; ShutdownTracing].

Lemma shutdown_stops_worker_witness :
  (exists g (r : result exc unit),
     build_gateway example_class example_class example_class example_class queued_settings "secret" = Ok g /\
     worker_service g = true /\ r = Err (EPy OSError "Connection refused") /\ ~ called StopWorker stdio_trace) /\
  all_released http_trace.
Proof.
  split.
  - assert (Hin : lc_ev Serve (Ok tt) ∈ stdio_trace) by (unfold stdio_trace; cbn; set_solver).
    assert (Hex : exec (run_stdio_server example_class example_class example_class example_class queued_settings
                          "secret" tt) stdio_trace (Err (EPy OSError "Connection refused"), tt)).
    { apply (run_exec redis_gone _ tt _ tt). vm_compute. reflexivity. }
    destruct (shutdown_stops_worker example_class example_class example_class example_class queued_settings "secret"
                stdio_trace (Err (EPy OSError "Connection refused")) _ Hin) as (_ & _ & Hstdio).
    destruct (Hstdio Hex) as (g & Hg & _ & _ & Hfail).
    destruct (Hfail (EPy OSError "Connection refused")) as [Hr Hno]; [unfold stdio_trace; cbn; set_solver|].
    assert (Hw : worker_service g = true) by (vm_compute in Hg; injection Hg as <-; reflexivity).
    exists g, (Err (A := unit) (EPy OSError "Connection refused")). exact (conj Hg (conj Hw (conj Hr (Hno Hw)))).
  - assert (Hin : lc_ev Serve (Ok tt) ∈ http_trace) by (unfold http_trace; cbn; set_solver).
    assert (Hex : exec (run_http_server example_class example_class example_class example_class queued_settings
                          "secret" tt) http_trace (Ok tt, tt)).
    { apply (run_exec nothing_fails _ tt _ tt). vm_compute. reflexivity. }
    destruct (shutdown_stops_worker example_class example_class example_class example_class queued_settings "secret"
                http_trace (Ok tt) _ Hin) as (Hhttp & _).
    destruct (Hhttp Hex) as (g & m & _ & Hclosed & _). apply Hclosed.
    intros o e _ Hfail. apply in_succeeded in Hfail as [_ [=]].
Defined.
