(* ===== verification/Blocking.v ===== *)
(** * Blocking functions off the event loop

    [gateway/async_utils.py]: [run_blocking] hands a synchronous function to the
    eight threads of [_BLOCKING_EXECUTOR] and polls its future.  The events of a run
    are the pieces that happen without interruption: a submission, a thread taking
    or finishing a function, a poll, the cancellation of a caller. *)

From S2P Require Import Prelude Errors.
From Stdlib Require Import Sorting.Sorted.

Section blocking.
Context {A : Type}.

(** A [concurrent.futures.Future]. *)
Inductive future := Pending | Running | Done (r : result exc A) | Cancelled.
(** A caller of [run_blocking], in its loop or out of it. *)
Inductive caller := Polling | Returned (r : result exc A) | CallerCancelled.

(** Call [i] submitted function [i] and owns future [i]; [started] records the
    functions begun, in order. *)
Record executor := {
  work_queue : list nat;
  futures : list future;
  callers : list caller;
  started : list nat
}.
Definition new_executor : executor := {| work_queue := []; futures := []; callers := []; started := [] |}.

Definition max_workers : nat := 8.
Definition is_running (f : future) : bool := match f with Running => true | _ => false end.
Definition done (f : future) : bool := match f with Done _ | Cancelled => true | _ => false end.
Definition busy (x : executor) : nat := length (List.filter is_running (futures x)).

(** [_BLOCKING_EXECUTOR.submit] *)
Definition submit (x : executor) : executor :=
  {| work_queue := work_queue x ++ [length (futures x)]; futures := futures x ++ [Pending];
     callers := callers x ++ [Polling]; started := started x |}.

Definition set_future (i : nat) (f : future) (x : executor) : executor :=
  {| work_queue := work_queue x; futures := <[i:=f]> (futures x); callers := callers x; started := started x |}.
Definition set_caller (i : nat) (c : caller) (x : executor) : executor :=
  {| work_queue := work_queue x; futures := futures x; callers := <[i:=c]> (callers x); started := started x |}.

(** An idle thread takes the next function; a cancelled one is dropped. *)
Definition thread_take (x : executor) : option executor :=
  match work_queue x with
  | [] => None
  | i :: queue =>
      if (busy x <? max_workers)%nat then
        match futures x !! i with
        | Some Pending => Some {| work_queue := queue; futures := <[i:=Running]> (futures x); callers := callers x;
                                  started := started x ++ [i] |}
        | _ => Some {| work_queue := queue; futures := futures x; callers := callers x; started := started x |}
        end
      else None
  end.

(** The function of a thread returns or raises. *)
Definition thread_finish (i : nat) (r : result exc A) (x : executor) : option executor :=
  match futures x !! i with Some Running => Some (set_future i (Done r) x) | _ => None end.

(** One turn of the loop of [run_blocking]. *)
Definition poll (i : nat) (x : executor) : option executor :=
  match callers x !! i, futures x !! i with
  | Some Polling, Some f =>
      if done f then
        Some (set_caller i (match f with Done r => Returned r | _ => CallerCancelled end) x)
      else Some x
  | _, _ => None
  end.

(** The caller is cancelled while it sleeps: [future.cancel()] and the exception. *)
Definition cancel (i : nat) (x : executor) : option executor :=
  match callers x !! i, futures x !! i with
  | Some Polling, Some f =>
      let x := match f with Pending => set_future i Cancelled x | _ => x end in
      Some (set_caller i CallerCancelled x)
  | _, _ => None
  end.

Inductive pool_event := Submit | Take | Finish (i : nat) (r : result exc A) | Poll (i : nat) | Cancel (i : nat).

Definition pool_step (x : executor) (ev : pool_event) : option executor :=
  match ev with
  | Submit => Some (submit x)
  | Take => thread_take x
  | Finish i r => thread_finish i r x
  | Poll i => poll i x
  | Cancel i => cancel i x
  end.
Fixpoint pool_run (x : executor) (events : list pool_event) : option executor :=
  match events with
  | [] => Some x
  | ev :: events => x ← pool_step x ev; pool_run x events
  end.
End blocking.
Arguments future : clear implicits.
Arguments caller : clear implicits.
Arguments executor : clear implicits.
Arguments pool_event : clear implicits.

(* ------------------------------------------------------------------ *)
(** ** The invariant of the pool *)

Section properties.
Context {A : Type}.
Implicit Types (x : executor A) (events : list (pool_event A)).

Definition began (f : future A) : bool := match f with Running | Done _ => true | _ => false end.

(** What a caller says of its future. *)
Definition caller_ok (c : caller A) (f : future A) : Prop :=
  match c with
  | Polling => f <> Cancelled
  | Returned r => f = Done r
  | CallerCancelled => f <> Pending
  end.

Record pool_ok x : Prop := {
  po_lengths : length (callers x) = length (futures x);
  po_order : StronglySorted lt (started x ++ work_queue x);
  po_bound : forall i, i ∈ started x ++ work_queue x -> (i < length (futures x))%nat;
  po_queue : forall i f, i ∈ work_queue x -> futures x !! i = Some f -> began f = false;
  po_pending : forall i, futures x !! i = Some Pending -> i ∈ work_queue x;
  po_started : forall i f, futures x !! i = Some f -> i ∈ started x <-> began f = true;
  po_busy : (busy x <= max_workers)%nat;
  po_callers : forall i c f, callers x !! i = Some c -> futures x !! i = Some f -> caller_ok c f
}.

Lemma new_executor_ok : pool_ok new_executor.
Proof.
  split; cbn; try done.
  - constructor.
  - intros i Hi. by apply not_elem_of_nil in Hi.
  - unfold busy, max_workers. cbn. lia.
Qed.

(** Counting the running functions. *)
Definition running_count (fs : list (future A)) : nat := length (List.filter is_running fs).
Lemma running_count_insert fs i f f' :
  fs !! i = Some f ->
  (running_count (<[i:=f']> fs) + (if is_running f then 1 else 0) =
   running_count fs + (if is_running f' then 1 else 0))%nat.
Proof.
  unfold running_count. revert i. induction fs as [|g fs IH]; intros [|i] Hi; simpl in *; try done.
  - injection Hi as ->. destruct (is_running f) eqn:E, (is_running f') eqn:E'; rewrite ?E, ?E'; cbn; lia.
  - specialize (IH i Hi). destruct (is_running g); simpl; lia.
Qed.

Lemma sorted_app_snoc l (n : nat) :
  StronglySorted lt l -> (forall i, i ∈ l -> (i < n)%nat) -> StronglySorted lt (l ++ [n]).
Proof.
  induction 1 as [|a l Hl IH Ha]; intros Hn; cbn; [repeat constructor|]. constructor.
  - apply IH. intros i Hi. apply Hn. by right.
  - apply Forall_app. split; [done|]. repeat constructor. apply Hn. by left.
Qed.

Lemma sorted_app_inv (l l' : list nat) i j :
  StronglySorted lt (l ++ l') -> i ∈ l -> j ∈ l' -> (i < j)%nat.
Proof.
  induction l as [|a l IH]; cbn; intros Hs Hi Hj; [by apply not_elem_of_nil in Hi|].
  inversion Hs as [|? ? Hs' Ha]; subst. apply elem_of_cons in Hi as [->|Hi]; [|by apply IH].
  rewrite List.Forall_forall in Ha. apply Ha, in_or_app. right. by apply list_elem_of_In.
Qed.

Lemma sorted_drop (l : list nat) i l' : StronglySorted lt (l ++ i :: l') -> StronglySorted lt (l ++ l').
Proof.
  induction l as [|a l IH]; cbn; intros Hs; inversion Hs as [|? ? Hs' Ha]; subst; [done|].
  constructor; [by apply IH|]. rewrite !Forall_app, Forall_cons in *. tauto.
Qed.

(** The pieces. *)
Lemma submit_ok x : pool_ok x -> pool_ok (submit x).
Proof.
  intros []. unfold submit. split; cbn.
  - rewrite !length_app. cbn. lia.
  - rewrite app_assoc. by apply sorted_app_snoc.
  - intros i. rewrite app_assoc, length_app, elem_of_app, list_elem_of_singleton. cbn.
    intros [Hi| ->]; [|lia]. specialize (po_bound0 i Hi). lia.
  - intros i f. rewrite elem_of_app, list_elem_of_singleton, lookup_app_Some. intros [Hi| ->] [Hf|[Hl Hf]].
    + eauto.
    + specialize (po_bound0 i). rewrite elem_of_app in po_bound0. specialize (po_bound0 (or_intror Hi)). lia.
    + apply lookup_lt_Some in Hf. lia.
    + rewrite Nat.sub_diag in Hf. by injection Hf as <-.
  - intros i. rewrite lookup_app_Some, elem_of_app, list_elem_of_singleton. intros [Hf|[Hl Hf]]; [eauto|].
    right. apply lookup_lt_Some in Hf. cbn in Hf. lia.
  - intros i f. rewrite lookup_app_Some. intros [Hf|[Hl Hf]]; [by apply po_started0|].
    assert (i = length (futures x)) as -> by (apply lookup_lt_Some in Hf; cbn in Hf; lia).
    rewrite Nat.sub_diag in Hf. injection Hf as <-. cbn. split; [|done]. intros Hi.
    specialize (po_bound0 (length (futures x))). rewrite elem_of_app in po_bound0.
    specialize (po_bound0 (or_introl Hi)). lia.
  - unfold busy in *. cbn. rewrite List.filter_app. cbn. by rewrite app_nil_r.
  - intros i c f. rewrite !lookup_app_Some. intros [Hc|[Hl Hc]] [Hf|[Hl' Hf]]; [by eapply po_callers0|..].
    + apply lookup_lt_Some in Hc. lia.
    + apply lookup_lt_Some in Hf. lia.
    + apply list_lookup_singleton_Some in Hc as [_ <-]. by apply list_lookup_singleton_Some in Hf as [_ <-].
Qed.

Lemma take_ok x x' : pool_ok x -> thread_take x = Some x' -> pool_ok x'.
Proof.
  intros Hx. pose proof Hx as []. unfold thread_take. destruct (work_queue x) as [|i queue] eqn:Hq; [done|].
  destruct (Nat.ltb_spec (busy x) max_workers) as [Hb|]; [|done].
  assert (Hi : (i < length (futures x))%nat) by (apply po_bound0; rewrite elem_of_app; right; by left).
  apply lookup_lt_is_Some in Hi as [f Hf]. rewrite Hf.
  assert (Hni : i ∉ queue /\ i ∉ started x).
  { split; intros Hin.
    - pose proof (sorted_app_inv (started x ++ [i]) queue i i). rewrite <- app_assoc in H. cbn in H.
      specialize (H po_order0). rewrite elem_of_app, list_elem_of_singleton in H. specialize (H (or_intror eq_refl) Hin). lia.
    - pose proof (sorted_app_inv (started x) (i :: queue) i i po_order0 Hin ltac:(by left)). lia. }
  destruct Hni as [Hnq Hns].
  pose proof (po_queue0 i f ltac:(by left) Hf) as Hnb.
  destruct f as [| |r|]; try done; intros [= <-].
  - split; cbn.
    + by rewrite length_insert.
    + by rewrite <- app_assoc.
    + intros j. rewrite <- app_assoc, length_insert. apply po_bound0.
    + intros j g Hj. rewrite list_lookup_insert_ne by congruence. apply po_queue0. by right.
    + intros j. destruct (decide (j = i)) as [->|Hne]; [by rewrite list_lookup_insert_eq by (by eapply lookup_lt_Some)|].
      rewrite list_lookup_insert_ne by done. intros [->|Hin]%po_pending0%elem_of_cons; done.
    + intros j g. rewrite elem_of_app, list_elem_of_singleton. destruct (decide (j = i)) as [->|Hne].
      * rewrite list_lookup_insert_eq by (by eapply lookup_lt_Some). intros [= <-]. cbn. tauto.
      * rewrite list_lookup_insert_ne by done. intros Hg. rewrite <- (po_started0 j g Hg). tauto.
    + unfold busy in *. cbn. pose proof (running_count_insert _ _ _ Running Hf) as Hc.
      unfold running_count in Hc. cbn [is_running] in Hc. lia.
    + intros j c g Hc. destruct (decide (j = i)) as [->|Hne].
      * rewrite list_lookup_insert_eq by (by eapply lookup_lt_Some). intros [= <-].
        specialize (po_callers0 i c Pending Hc Hf). by destruct c.
      * rewrite list_lookup_insert_ne by done. by eapply po_callers0.
  - split; cbn; try done.
    + by eapply sorted_drop.
    + intros j Hj. apply po_bound0. rewrite elem_of_app, elem_of_cons in *. tauto.
    + intros j g Hj. apply po_queue0. by right.
    + intros j Hj. pose proof (po_pending0 j Hj) as [->|Hin]%elem_of_cons; [congruence|done].
Qed.

(** A future and its caller change together, and the function does not begin. *)
Lemma update_ok x i f f' c :
  pool_ok x -> futures x !! i = Some f -> began f = began f' -> f' = f \/ (f' <> Pending /\ is_running f' = false) ->
  caller_ok c f' -> pool_ok (set_caller i c (set_future i f' x)).
Proof.
  intros [] Hf Hb Hf' Hc. pose proof (lookup_lt_Some _ _ _ Hf) as Hi.
  assert (Hlook : forall j g, <[i:=f']> (futures x) !! j = Some g -> j = i /\ g = f' \/ j <> i /\ futures x !! j = Some g).
  { intros j g. destruct (decide (j = i)) as [->|Hne].
    - rewrite list_lookup_insert_eq by done. intros [= <-]. auto.
    - rewrite list_lookup_insert_ne by done. auto. }
  split; cbn; rewrite ?length_insert; try done.
  - intros j g Hj [[-> ->]|[_ Hg]]%Hlook; [rewrite <- Hb|]; by eapply po_queue0.
  - intros j [[-> Hp]|[_ Hg]]%Hlook; [|by apply po_pending0].
    destruct Hf' as [->|[Hnp _]]; [by apply po_pending0; congruence|congruence].
  - intros j g [[-> ->]|[_ Hg]]%Hlook; [rewrite <- Hb|]; by apply po_started0.
  - unfold busy in *. cbn. pose proof (running_count_insert _ _ _ f' Hf) as Hcnt. unfold running_count in Hcnt.
    destruct Hf' as [->|[_ Hr]]; [|rewrite Hr in Hcnt]; destruct (is_running f); lia.
  - intros j c' g Hc' [[-> ->]|[Hne Hg]]%Hlook.
    + rewrite list_lookup_insert_eq in Hc' by lia. by injection Hc' as <-.
    + rewrite list_lookup_insert_ne in Hc' by done. by eapply po_callers0.
Qed.

Lemma set_caller_id i c x : callers x !! i = Some c -> set_caller i c x = x.
Proof. intros Hc. unfold set_caller. rewrite list_insert_id by done. by destruct x. Qed.
Lemma set_future_id i f x : futures x !! i = Some f -> set_future i f x = x.
Proof. intros Hf. unfold set_future. rewrite list_insert_id by done. by destruct x. Qed.

Lemma step_ok x ev x' : pool_ok x -> pool_step x ev = Some x' -> pool_ok x'.
Proof.
  intros Hx. destruct ev as [| |i r|i|i]; cbn [pool_step].
  - intros [= <-]. by apply submit_ok.
  - by apply take_ok.
  - unfold thread_finish. destruct (futures x !! i) as [[| | |]|] eqn:Hf; try done. intros [= <-].
    destruct (lookup_lt_is_Some_2 (callers x) i) as [c Hc].
    { rewrite (po_lengths _ Hx). by eapply lookup_lt_Some. }
    pose proof (po_callers _ Hx _ _ _ Hc Hf). rewrite <- (set_caller_id i c (set_future _ _ _)) by done.
    eapply update_ok; eauto. by destruct c.
  - unfold poll. destruct (callers x !! i) as [[| |]|] eqn:Hc; try done.
    destruct (futures x !! i) as [f|] eqn:Hf; [|done]. pose proof (po_callers _ Hx _ _ _ Hc Hf).
    destruct f; cbn [done]; intros [= <-]; try done.
    rewrite <- (set_future_id i (Done r) x) by done. by eapply update_ok; eauto.
  - unfold cancel. destruct (callers x !! i) as [[| |]|] eqn:Hc; try done.
    destruct (futures x !! i) as [f|] eqn:Hf; [|done]. intros [= <-].
    assert (Hsame : f <> Pending -> pool_ok (set_caller i CallerCancelled x)).
    { intros Hne. rewrite <- (set_future_id i f x) by done. by eapply update_ok; eauto. }
    destruct f; try by apply Hsame. by eapply update_ok; eauto; try right.
Qed.

Lemma run_ok x events x' : pool_ok x -> pool_run x events = Some x' -> pool_ok x'.
Proof.
  revert x. induction events as [|ev events IH]; cbn; intros x Hx; [by intros [= <-]|].
  intros (x1 & Hs & Hr)%bind_Some. by eapply IH, Hr; eapply step_ok.
Qed.

(** How a future may change. *)
Lemma step_future x ev x' i f' :
  pool_step x ev = Some x' -> futures x' !! i = Some f' ->
  futures x !! i = Some f' \/ (futures x !! i = None /\ f' = Pending) \/
  (futures x !! i = Some Pending /\ (f' = Running \/ f' = Cancelled)) \/
  (exists r, futures x !! i = Some Running /\ f' = Done r /\ ev = Finish i r).
Proof.
  assert (Hins : forall j f g, futures x !! j = Some f -> <[j:=g]> (futures x) !! i = Some f' ->
    futures x !! i = Some f' \/ j = i /\ f' = g).
  { intros j f g Hj. destruct (decide (j = i)) as [->|Hne].
    - rewrite list_lookup_insert_eq by (by eapply lookup_lt_Some). intros [= <-]. auto.
    - rewrite list_lookup_insert_ne by done. auto. }
  destruct ev as [| |j r|j|j]; cbn [pool_step].
  - intros [= <-]. cbn. rewrite lookup_app_Some. intros [Hf|[Hl Hf]]; [by left|].
    apply list_lookup_singleton_Some in Hf as [_ <-]. right; left. split; [by apply lookup_ge_None|done].
  - unfold thread_take. destruct (work_queue x) as [|j queue]; [done|]. destruct (_ <? _)%nat; [|done].
    destruct (futures x !! j) as [[| | |]|] eqn:Hj; intros [= <-]; cbn; try by left.
    intros [Hf|[-> ->]]%(Hins _ _ _ Hj); auto 10.
  - unfold thread_finish. destruct (futures x !! j) as [[| | |]|] eqn:Hj; try done. intros [= <-]. cbn.
    intros [Hf|[-> ->]]%(Hins _ _ _ Hj); eauto 10.
  - unfold poll. destruct (callers x !! j) as [[| |]|]; try done. destruct (futures x !! j); [|done].
    destruct (done _); intros [= <-]; by left.
  - unfold cancel. destruct (callers x !! j) as [[| |]|]; try done. destruct (futures x !! j) as [f|] eqn:Hj; [|done].
    intros [= <-]. destruct f; cbn; try by left. intros [Hf|[-> ->]]%(Hins _ _ _ Hj); auto 10.
Qed.

Lemma step_futures_length x ev x' : pool_step x ev = Some x' -> (length (futures x) <= length (futures x'))%nat.
Proof.
  destruct ev as [| |j r|j|j]; cbn [pool_step]; unfold thread_take, thread_finish, poll, cancel;
    repeat case_match; intros [= <-]; cbn; rewrite ?length_insert, ?length_app; lia.
Qed.

Lemma finished_future x events x' i r :
  pool_run x events = Some x' -> futures x' !! i = Some (Done r) ->
  futures x !! i = Some (Done r) \/ Finish i r ∈ events.
Proof.
  revert x. induction events as [|ev events IH]; cbn; intros x; [by intros [= <-]; left|].
  intros (x1 & Hs & Hr)%bind_Some Hf. destruct (IH x1 Hr Hf) as [H1|Hin]; [|right; by right].
  destruct (step_future _ _ _ _ _ Hs H1) as [?|[[_ ?]|[[_ [?|?]]|(r' & _ & [= <-] & ->)]]]; try done; [by left|].
  right. by left.
Qed.

(** A function that was cancelled before it began never begins. *)
Lemma cancelled_stays x events x' i :
  pool_run x events = Some x' -> futures x !! i = Some Cancelled -> futures x' !! i = Some Cancelled.
Proof.
  revert x. induction events as [|ev events IH]; cbn; intros x; [by intros [= <-]|].
  intros (x1 & Hs & Hr)%bind_Some Hf. apply (IH x1 Hr).
  destruct (lookup_lt_is_Some_2 (futures x1) i) as [f1 Hf1].
  { eapply Nat.lt_le_trans; [by eapply lookup_lt_Some|by eapply step_futures_length]. }
  destruct (step_future _ _ _ _ _ Hs Hf1) as [?|[[? ?]|[[? _]|(r' & ? & _)]]]; congruence.
Qed.

(** Some thread is running while the pool is full. *)
Lemma busy_running x : (0 < busy x)%nat -> exists i, futures x !! i = Some Running.
Proof.
  unfold busy. destruct (List.filter is_running (futures x)) as [|f fs] eqn:Hf; cbn; [lia|]. intros _.
  assert (Hin : In f (List.filter is_running (futures x))) by (rewrite Hf; by left).
  apply filter_In in Hin as [Hin Hr]. apply list_elem_of_In, list_elem_of_lookup in Hin as [i Hi].
  exists i. by destruct f.
Qed.

(** What moves the pool without a new call. *)
Definition progress (i : nat) (ev : pool_event A) : Prop :=
  ev = Take \/ (exists j r, ev = Finish j r) \/ ev = Poll i.

Lemma waiting_progress x i :
  pool_ok x -> callers x !! i = Some Polling -> exists ev x', progress i ev /\ pool_step x ev = Some x' /\ x' <> x.
Proof.
  intros Hx Hc. unfold progress.
  assert (Hfin : forall j, futures x !! j = Some Running ->
    exists ev x', progress i ev /\ pool_step x ev = Some x' /\ x' <> x).
  { intros j Hj. exists (Finish j (Err (EPy ValueError ""))). eexists. split; [unfold progress; eauto|]. split.
    - cbn [pool_step]. unfold thread_finish. by rewrite Hj.
    - intros Heq. apply (f_equal (fun y => futures y !! j)) in Heq. cbn in Heq.
      rewrite Hj, list_lookup_insert_eq in Heq by (by eapply lookup_lt_Some). done. }
  destruct (lookup_lt_is_Some_2 (futures x) i) as [f Hf].
  { rewrite <- (po_lengths _ Hx). by eapply lookup_lt_Some. }
  pose proof (po_callers _ Hx _ _ _ Hc Hf) as Hcf. destruct f as [| |r|]; [..|done].
  - pose proof (po_pending _ Hx i Hf) as Hq. destruct (work_queue x) as [|j queue] eqn:Hwq.
    { by apply not_elem_of_nil in Hq. }
    destruct (Nat.ltb_spec (busy x) max_workers) as [Hb|Hb].
    2:{ destruct (busy_running x) as [k Hk]; [unfold max_workers in *; lia|eauto]. }
    assert (Htake : exists x', thread_take x = Some x' /\ work_queue x' = queue).
    { unfold thread_take. rewrite Hwq. apply Nat.ltb_lt in Hb as ->. destruct (futures x !! j) as [[]|]; eauto. }
    destruct Htake as (x' & Htake & Hqueue). exists Take, x'. split; [by left|]. split; [done|].
    intros ->. rewrite Hwq in Hqueue. apply (f_equal length) in Hqueue. cbn in Hqueue. lia.
  - by apply Hfin in Hf.
  - exists (Poll i). eexists. split; [unfold progress; auto|]. cbn [pool_step]. unfold poll. rewrite Hc, Hf. split; [done|].
    intros Heq. apply (f_equal (fun y => callers y !! i)) in Heq. cbn in Heq.
    rewrite Hc, list_lookup_insert_eq in Heq by (by eapply lookup_lt_Some). done.
Qed.

(** C39: functions run off the event loop.  Whatever the interleaving of submissions,
    threads, polls and cancellations: at most eight functions run at a time, each
    begins at most once and in the order of submission, a caller returns exactly
    what its own function returned or raised, a cancelled caller's function has
    already begun or never will, and a waiting caller never waits for nothing: some
    thread or its own poll can move. *)
Theorem blocking_calls_isolated events x (Hrun : pool_run new_executor events = Some x) :
  (busy x <= 8)%nat /\ StronglySorted lt (started x) /\
  (forall i r, callers x !! i = Some (Returned r) -> i ∈ started x /\ Finish i r ∈ events) /\
  (forall i, callers x !! i = Some CallerCancelled ->
     i ∈ started x \/ forall later x', pool_run x later = Some x' -> i ∉ started x') /\
  (forall i, callers x !! i = Some Polling -> exists ev x', progress i ev /\ pool_step x ev = Some x' /\ x' <> x).
Proof.
  pose proof (run_ok _ _ _ new_executor_ok Hrun) as Hx.
  assert (Hfut : forall i c, callers x !! i = Some c -> exists f, futures x !! i = Some f /\ caller_ok c f).
  { intros i c Hc. destruct (lookup_lt_is_Some_2 (futures x) i) as [f Hf].
    { rewrite <- (po_lengths _ Hx). by eapply lookup_lt_Some. }
    exists f. split; [done|]. by eapply po_callers. }
  split_and!.
  - apply (po_busy _ Hx).
  - pose proof (po_order _ Hx) as Ho. revert Ho. clear. induction (started x) as [|i l IH]; cbn; [constructor|].
    inversion 1 as [|? ? Hs Ha]; subst. constructor; [by apply IH|]. by apply Forall_app in Ha as [? _].
  - intros i r Hc. destruct (Hfut i _ Hc) as (f & Hf & Heq). cbn in Heq. subst f. split.
    + by apply (po_started _ Hx i (Done r) Hf).
    + by destruct (finished_future _ _ _ _ _ Hrun Hf) as [Hnew|].
  - intros i Hc. destruct (Hfut i _ Hc) as (f & Hf & Hne). destruct (began f) eqn:Hb.
    + left. by apply (po_started _ Hx i f Hf).
    + right. intros later x' Hlater Hin. destruct f; try done.
      pose proof (run_ok _ _ _ Hx Hlater) as Hx'. pose proof (cancelled_stays _ _ _ _ Hlater Hf) as Hf'.
      by apply (po_started _ Hx' i Cancelled Hf') in Hin.
  - intros i. by apply waiting_progress.
Qed.
End properties.

(** Two calls: one returns, one is cancelled while its function runs. *)
Lemma blocking_calls_isolated_witness :
  let events := [Submit; Submit; Take; Take; Cancel 1; Finish 1 (Ok 8%Z); Finish 0 (Ok 7%Z); Poll 0] in
  exists x, pool_run new_executor events = Some x /\ callers x !! 0%nat = Some (Returned (Ok 7%Z)) /\
    callers x !! 1%nat = Some CallerCancelled /\ Finish 0 (Ok 7%Z) ∈ events /\ 1%nat ∈ started x.
Proof.
  intros events.
  destruct (pool_run new_executor events) as [x|] eqn:Hrun; [|vm_compute in Hrun; discriminate Hrun].
  destruct (blocking_calls_isolated events x Hrun) as (_ & _ & Hret & _ & _).
  assert (Hx : x = {| work_queue := []; futures := [Done (Ok 7%Z); Done (Ok 8%Z)];
    callers := [Returned (Ok 7%Z); CallerCancelled]; started := [0%nat; 1%nat] |})
    by (vm_compute in Hrun; injection Hrun as <-; reflexivity).
  destruct (Hret 0%nat (Ok 7%Z)) as [_ Hin]; [rewrite Hx; reflexivity|].
  exists x. split; [reflexivity|]. rewrite Hx. repeat split; [exact Hin|]. cbn. right. left.
Defined.
