(* ===== verification/AuditConcurrency.v ===== *)
(** * Concurrent appends to the audit log

    [AuditLogger.append] of [gateway/audit/log.py] under concurrency: callers queue
    for the [asyncio.Lock]; the holder hands [_append_sync] to the threads of
    [run_blocking] ([Blocking]) and polls.  Inside its thread, [_append_sync] reads
    the hash in memory, then writes the line, then stores the new hash; the
    threads run other functions too, and callers may be cancelled. *)

From S2P Require Import Prelude Dict Pystr Json Models Errors AuditLog Blocking.
From Stdlib Require Import QArith.
Open Scope Z_scope.

(** Where an append is: it waits for the lock, its function [i] is with the
    threads, or it has ended. *)
Inductive append_status :=
| WaitingLock
| InThread (i : nat)
| AppendReturned (r : result exc AuditRecord)
| AppendCancelled.

(** Where a thread is inside [_append_sync]: the record is signed, or its line is
    written. *)
Inductive sync_progress := Signed (record : AuditRecord) | LineWritten (record : AuditRecord).

(** The logger, the threads with the append each submitted function belongs to,
    and the lock with its waiters. *)
Record audit_state := {
  as_logger : AuditLogger;
  as_threads : executor AuditRecord;
  as_jobs : list (option nat);
  as_progress : gmap nat sync_progress;
  as_requests : list (AuditFields * Z);
  as_status : list append_status;
  as_lock : option nat;
  as_waiters : list nat
}.

Definition new_state (l : AuditLogger) : audit_state :=
  {| as_logger := l; as_threads := new_executor; as_jobs := []; as_progress := ∅; as_requests := [];
     as_status := []; as_lock := None; as_waiters := [] |}.

Inductive audit_event :=
| ECall (fields : AuditFields) (timestamp : Z)
| EOther
| ETake
| ERead (i : nat)
| EWrite (i : nat) (w : write_outcome)
| EStore (i : nat)
| EOtherDone (i : nat) (r : result exc AuditRecord)
| EPoll (a : nat)
| ECancel (a : nat).

Section audit.
Context `{Rendering} (sha256 : string -> string) (model_dump_json : json -> string).
Implicit Types (x : audit_state).

Definition set_threads (t : executor AuditRecord) x : audit_state :=
  {| as_logger := as_logger x; as_threads := t; as_jobs := as_jobs x; as_progress := as_progress x;
     as_requests := as_requests x; as_status := as_status x; as_lock := as_lock x; as_waiters := as_waiters x |}.
Definition set_progress (p : gmap nat sync_progress) x : audit_state :=
  {| as_logger := as_logger x; as_threads := as_threads x; as_jobs := as_jobs x; as_progress := p;
     as_requests := as_requests x; as_status := as_status x; as_lock := as_lock x; as_waiters := as_waiters x |}.
Definition set_logger (l : AuditLogger) x : audit_state :=
  {| as_logger := l; as_threads := as_threads x; as_jobs := as_jobs x; as_progress := as_progress x;
     as_requests := as_requests x; as_status := as_status x; as_lock := as_lock x; as_waiters := as_waiters x |}.
Definition set_status (a : nat) (st : append_status) x : audit_state :=
  {| as_logger := as_logger x; as_threads := as_threads x; as_jobs := as_jobs x; as_progress := as_progress x;
     as_requests := as_requests x; as_status := <[a := st]> (as_status x); as_lock := as_lock x;
     as_waiters := as_waiters x |}.
Definition set_lock (lock : option nat) (waiters : list nat) x : audit_state :=
  {| as_logger := as_logger x; as_threads := as_threads x; as_jobs := as_jobs x; as_progress := as_progress x;
     as_requests := as_requests x; as_status := as_status x; as_lock := lock; as_waiters := waiters |}.

(** A function is submitted to the threads, for an append or for another caller. *)
Definition submit_job (job : option nat) x : audit_state :=
  {| as_logger := as_logger x; as_threads := submit (as_threads x); as_jobs := as_jobs x ++ [job];
     as_progress := as_progress x; as_requests := as_requests x; as_status := as_status x;
     as_lock := as_lock x; as_waiters := as_waiters x |}.

(** The append enters [async with self._lock] and submits [_append_sync]. *)
Definition enter (a : nat) (waiters : list nat) x : audit_state :=
  submit_job (Some a) (set_status a (InThread (length (futures (as_threads x)))) (set_lock (Some a) waiters x)).

(** It leaves the [async with]: the lock goes to the first waiter. *)
Definition release x : audit_state :=
  match as_waiters x with
  | [] => set_lock None [] x
  | a :: waiters => enter a waiters x
  end.

(** A caller asks for the lock. *)
Definition add_request (fields : AuditFields) (timestamp : Z) x : audit_state :=
  {| as_logger := as_logger x; as_threads := as_threads x; as_jobs := as_jobs x;
     as_progress := as_progress x; as_requests := as_requests x ++ [(fields, timestamp)];
     as_status := as_status x ++ [WaitingLock]; as_lock := as_lock x; as_waiters := as_waiters x |}.

(** [append] is called. *)
Definition call_append (fields : AuditFields) (timestamp : Z) x : audit_state :=
  let a := length (as_status x) in
  match as_lock x with
  | None => enter a [] (add_request fields timestamp x)
  | Some _ => set_lock (as_lock x) (as_waiters x ++ [a]) (add_request fields timestamp x)
  end.

(** Function [i] belongs to an append and its thread runs. *)
Definition running_append (i : nat) x : option (AuditFields * Z) :=
  match futures (as_threads x) !! i, as_jobs x !! i with
  | Some Running, Some (Some a) => as_requests x !! a
  | _, _ => None
  end.

(** The function of thread [i] ends. *)
Definition finish_job (i : nat) (r : result exc AuditRecord) x : audit_state :=
  set_threads (set_future i (Done r) (as_threads x)) (set_progress (delete i (as_progress x)) x).

(** [_append_sync], first piece: sign a record after the hash in memory. *)
Definition sync_read (i : nat) x : option audit_state :=
  match running_append i x, as_progress x !! i with
  | Some (fields, timestamp), None =>
      Some (set_progress (<[i := Signed (signed_record sha256 fields timestamp (al_last_hash (as_logger x)))]>
              (as_progress x)) x)
  | _, _ => None
  end.

(** Second piece: open the file, write the line, flush it to the disk. *)
Definition sync_write (i : nat) (w : write_outcome) x : option audit_state :=
  match running_append i x, as_progress x !! i with
  | Some _, Some (Signed record) =>
      let l := as_logger x in
      let written := {| al_file := append_line (al_file l) (record_line model_dump_json record);
                        al_last_hash := al_last_hash l |} in
      Some (match w with
            | Written => set_logger written (set_progress (<[i := LineWritten record]> (as_progress x)) x)
            | OpenFailed => finish_job i (Err (EPy OSError "open")) x
            | SyncFailed => set_logger written (finish_job i (Err (EPy OSError "fsync")) x)
            end)
  | _, _ => None
  end.

(** Third piece: store the hash and return the record. *)
Definition sync_store (i : nat) x : option audit_state :=
  match running_append i x, as_progress x !! i with
  | Some _, Some (LineWritten record) =>
      Some (set_logger {| al_file := al_file (as_logger x); al_last_hash := au_record_hash record |}
              (finish_job i (Ok record) x))
  | _, _ => None
  end.

(** A poll of [run_blocking] finds the future done: [append] returns. *)
Definition poll_append (a : nat) x : option audit_state :=
  match as_status x !! a with
  | Some (InThread i) =>
      match futures (as_threads x) !! i, poll i (as_threads x) with
      | Some (Done r), Some t => Some (release (set_status a (AppendReturned r) (set_threads t x)))
      | _, _ => None
      end
  | _ => None
  end.

(** The caller is cancelled, while it waits for the lock or for its thread. *)
Definition cancel_append (a : nat) x : option audit_state :=
  match as_status x !! a with
  | Some WaitingLock =>
      Some (set_status a AppendCancelled
              (set_lock (as_lock x) (List.filter (fun b => negb (Nat.eqb b a)) (as_waiters x)) x))
  | Some (InThread i) =>
      match cancel i (as_threads x) with
      | Some t => Some (release (set_status a AppendCancelled (set_threads t x)))
      | None => None
      end
  | _ => None
  end.

Definition audit_step x (ev : audit_event) : option audit_state :=
  match ev with
  | ECall fields timestamp => Some (call_append fields timestamp x)
  | EOther => Some (submit_job None x)
  | ETake => t ← thread_take (as_threads x); Some (set_threads t x)
  | ERead i => sync_read i x
  | EWrite i w => sync_write i w x
  | EStore i => sync_store i x
  | EOtherDone i r =>
      match as_jobs x !! i, thread_finish i r (as_threads x) with
      | Some None, Some t => Some (set_threads t x)
      | _, _ => None
      end
  | EPoll a => poll_append a x
  | ECancel a => cancel_append a x
  end.

Fixpoint audit_run x (events : list audit_event) : option audit_state :=
  match events with
  | [] => Some x
  | ev :: events => x' ← audit_step x ev; audit_run x' events
  end.

(** The event does not cancel a caller whose function has begun, and no flush to
    the disk fails. *)
Definition careful x (ev : audit_event) : bool :=
  match ev with
  | ECancel a =>
      match as_status x !! a with
      | Some (InThread i) => match futures (as_threads x) !! i with Some Running => false | _ => true end
      | _ => true
      end
  | EWrite _ SyncFailed => false
  | _ => true
  end.
Fixpoint careful_run x (events : list audit_event) : bool :=
  match events with
  | [] => true
  | ev :: events =>
      careful x ev && match audit_step x ev with Some x' => careful_run x' events | None => true end
  end.
End audit.

(* ------------------------------------------------------------------ *)
(** ** The invariant *)

Section invariant.
Context `{Rendering} (sha256 : string -> string) (model_dump_json : json -> string) (float_norm : string -> string).
Hypothesis model_dump_json_loads :
  forall v, json_wf float_norm v = true -> loads float_norm (model_dump_json v) = Some v.
Implicit Types (x : audit_state).
Abbreviation signed := (signed_record sha256).
Abbreviation line_of := (record_line model_dump_json).

(** The file with the line of a record signed after its last hash verifies. *)
Lemma signed_line_verifies l fields timestamp :
  log_ok sha256 float_norm l -> fields_wf float_norm fields = true ->
  let record := signed fields timestamp (al_last_hash l) in
  log_ok sha256 float_norm
    {| al_file := append_line (al_file l) (line_of record); al_last_hash := au_record_hash record |}.
Proof.
  intros Hl Hwf record.
  exact (proj1 (log_step_ok sha256 model_dump_json float_norm model_dump_json_loads l
    (Append fields timestamp Written) Hl ltac:(cbn; by rewrite Hwf))).
Qed.

Definition lines_of x : list string := default [] (al_file (as_logger x)).

(** A function that is queued or runs. *)
Definition active (f : future AuditRecord) : bool := match f with Pending | Running => true | _ => false end.

(** The progress of a thread agrees with the logger. *)
Definition progress_ok x (i : nat) (p : sync_progress) : Prop :=
  exists a fields timestamp, futures (as_threads x) !! i = Some Running /\ as_jobs x !! i = Some (Some a) /\
    as_requests x !! a = Some (fields, timestamp) /\
    let record := signed fields timestamp (al_last_hash (as_logger x)) in
    match p with
    | Signed r => r = record /\ log_ok sha256 float_norm (as_logger x)
    | LineWritten r => r = record /\ line_of record ∈ lines_of x /\
        log_ok sha256 float_norm {| al_file := al_file (as_logger x); al_last_hash := au_record_hash record |}
    end.

(** The outcome of a function of an append agrees with its request and the file. *)
Definition outcome_ok x (a : nat) (r : result exc AuditRecord) : Prop :=
  match r with
  | Ok record => line_of record ∈ lines_of x /\
      as_requests x !! a = Some (au_fields record, au_timestamp record)
  | Err _ => True
  end.

Record core_ok x : Prop := {
  ck_jobs : length (as_jobs x) = length (futures (as_threads x));
  ck_requests : length (as_requests x) = length (as_status x);
  ck_wf : Forall (fun r => fields_wf float_norm r.1 = true) (as_requests x);
  ck_waiters : NoDup (as_waiters x) /\ forall a, a ∈ as_waiters x -> as_status x !! a = Some WaitingLock;
  ck_thread : forall a i, as_status x !! a = Some (InThread i) -> as_jobs x !! i = Some (Some a);
  ck_progress : forall i p, as_progress x !! i = Some p -> progress_ok x i p;
  ck_file : as_progress x = ∅ -> log_ok sha256 float_norm (as_logger x);
  ck_done : forall i a r, as_jobs x !! i = Some (Some a) -> futures (as_threads x) !! i = Some (Done r) ->
    outcome_ok x a r;
  ck_returned : forall a r, as_status x !! a = Some (AppendReturned r) -> outcome_ok x a r
}.

(** No append is with the threads. *)
Definition free x : Prop :=
  (forall a i, as_status x !! a <> Some (InThread i)) /\
  (forall i a f, as_jobs x !! i = Some (Some a) -> futures (as_threads x) !! i = Some f -> active f = false).

(** One append is with the threads: the holder of the lock. *)
Record held_ok x : Prop := {
  hk_holder : forall a i, as_status x !! a = Some (InThread i) -> as_lock x = Some a;
  hk_active : forall i a f, as_jobs x !! i = Some (Some a) -> futures (as_threads x) !! i = Some f ->
    active f = true -> as_status x !! a = Some (InThread i);
  hk_free : as_lock x = None -> as_waiters x = []
}.

Definition state_ok x : Prop := core_ok x /\ held_ok x.

Lemma free_progress x : core_ok x -> free x -> as_progress x = ∅.
Proof.
  intros Hc [_ Hfree]. apply map_empty. intros i. destruct (as_progress x !! i) as [p|] eqn:Hp; [|done].
  destruct (ck_progress x Hc i p Hp) as (a & fields & ts & Hf & Hj & _).
  by specialize (Hfree i a Running Hj Hf).
Qed.

Lemma held_unlocked x : held_ok x -> as_lock x = None -> free x.
Proof.
  intros Hh Hlock. assert (Hst : forall a i, as_status x !! a <> Some (InThread i)).
  { intros a i Ha. pose proof (hk_holder x Hh a i Ha). congruence. }
  split; [done|]. intros i a f Hj Hf. destruct (active f) eqn:Hact; [|done].
  by destruct (Hst a i), (hk_active x Hh i a f Hj Hf Hact).
Qed.

Lemma outcome_ok_mono x x' a r :
  (forall line, line ∈ lines_of x -> line ∈ lines_of x') ->
  (forall q, as_requests x !! a = Some q -> as_requests x' !! a = Some q) ->
  outcome_ok x a r -> outcome_ok x' a r.
Proof. destruct r; cbn; [|done]. intros H1 H2 []. eauto. Qed.

(** Taking the lock. *)
Lemma enter_ok a ws x :
  core_ok x -> free x -> as_status x !! a = Some WaitingLock -> NoDup ws -> a ∉ ws ->
  (forall b, b ∈ ws -> as_status x !! b = Some WaitingLock) -> state_ok (enter a ws x).
Proof.
  intros Hc Hfree Ha Hnd Hnot Hws. pose proof (free_progress x Hc Hfree) as Hprog.
  destruct Hc as [H1 H2 H3 H4 H5 H6 H7 H8 H9], Hfree as [Hst Hact].
  assert (Hlt : (a < length (as_status x))%nat) by by eapply lookup_lt_Some.
  assert (Hset : forall b st, <[a := InThread (length (futures (as_threads x)))]> (as_status x) !! b = Some st ->
    (b = a /\ st = InThread (length (futures (as_threads x)))) \/ (b <> a /\ as_status x !! b = Some st)).
  { intros b st. destruct (decide (b = a)) as [->|Hne].
    - rewrite list_lookup_insert_eq by done. intros [= <-]. auto.
    - rewrite list_lookup_insert_ne by done. auto. }
  assert (Hjob : forall i b, (as_jobs x ++ [Some a]) !! i = Some (Some b) ->
    as_jobs x !! i = Some (Some b) \/ (i = length (futures (as_threads x)) /\ b = a)).
  { intros i b [Hi|[Hi Hb]]%lookup_app_Some; [by left|]. right. rewrite H1 in *.
    destruct (i - _)%nat eqn:Hk; [injection Hb as <-; split; [lia|done]|by destruct n]. }
  assert (Hfut : forall i f, (futures (as_threads x) ++ [Pending]) !! i = Some f ->
    futures (as_threads x) !! i = Some f \/ (i = length (futures (as_threads x)) /\ f = Pending)).
  { intros i f [Hi|[Hi Hf]]%lookup_app_Some; [by left|]. right.
    destruct (i - _)%nat eqn:Hk; [injection Hf as <-; split; [lia|done]|by destruct n]. }
  split; split; cbn; try done.
  - rewrite !length_app, H1. done.
  - by rewrite length_insert.
  - split; [done|]. intros b Hb. rewrite list_lookup_insert_ne; [auto|]. by intros ->.
  - intros b i [[-> [= ->]]|[_ Hb]]%Hset; [|rewrite lookup_app_l; [auto|]].
    + by rewrite lookup_app_r, H1, Nat.sub_diag by lia.
    + eapply lookup_lt_Some, H5, Hb.
  - intros i p Hp. rewrite Hprog in Hp. by rewrite lookup_empty in Hp.
  - intros i b r [Hj|[-> ->]]%Hjob [Hf|[Hi Hf]]%Hfut; try done.
    + by apply (H8 i b r Hj Hf).
    + by apply lookup_lt_Some, Nat.lt_irrefl in Hf.
  - intros b r [[_ ?]|[_ Hb]]%Hset; [done|]. by apply H9.
  - intros b i [[-> _]|[_ Hb]]%Hset; [done|]. by destruct (Hst b i).
  - intros i b f [Hj|[-> ->]]%Hjob [Hf|[Hi ->]]%Hfut Hactive.
    + by rewrite (Hact i b f Hj Hf) in Hactive.
    + apply lookup_lt_Some in Hj. rewrite H1 in Hj. lia.
    + by apply lookup_lt_Some, Nat.lt_irrefl in Hf.
    + by rewrite list_lookup_insert_eq.
Qed.

Lemma release_ok x : core_ok x -> free x -> state_ok (release x).
Proof.
  intros Hc Hfree. unfold release. destruct (as_waiters x) as [|a ws] eqn:Hw.
  - destruct Hc as [H1 H2 H3 H4 H5 H6 H7 H8 H9], Hfree as [Hst Hact]. split; split; try done; cbn.
    + split; [constructor|]. set_solver.
    + intros a i Ha. by destruct (Hst a i).
    + intros i a f Hj Hf Hactive. by rewrite (Hact i a f Hj Hf) in Hactive.
  - destruct (ck_waiters x Hc) as [Hnd Hws]. rewrite Hw in Hnd, Hws. apply NoDup_cons in Hnd as [Hnot Hnd].
    apply enter_ok; try done; [apply Hws; by left|]. intros b Hb. apply Hws. by right.
Qed.

(** The threads move on, without starting or ending an append. *)
Lemma threads_ok x t :
  state_ok x -> length (futures t) = length (futures (as_threads x)) ->
  (forall i a f', as_jobs x !! i = Some (Some a) -> futures t !! i = Some f' ->
     exists f, futures (as_threads x) !! i = Some f /\ (active f' = true -> active f = true) /\
       (forall r, f' = Done r -> f = f')) ->
  (forall i a, as_jobs x !! i = Some (Some a) -> futures (as_threads x) !! i = Some Running ->
     futures t !! i = Some Running) ->
  state_ok (set_threads t x).
Proof.
  intros [[H1 H2 H3 H4 H5 H6 H7 H8 H9] [K1 K2 K3]] Hlen Hback Hrun. split; split; cbn; try done.
  - congruence.
  - intros i p Hp. destruct (H6 i p Hp) as (a & fields & ts & Hf & Hj & Hrest).
    exists a, fields, ts. cbn. split; [by eapply Hrun|done].
  - intros i a r Hj Hf. destruct (Hback i a _ Hj Hf) as (f & Hf0 & _ & Hd). rewrite (Hd r eq_refl) in Hf0.
    by apply (H8 i a r Hj Hf0).
  - intros i a f Hj Hf Hact. destruct (Hback i a f Hj Hf) as (f0 & Hf0 & Ha & _). eapply K2; eauto.
Qed.

Lemma other_ok x : state_ok x -> state_ok (submit_job None x).
Proof.
  intros [[H1 H2 H3 H4 H5 H6 H7 H8 H9] [K1 K2 K3]].
  assert (Hjob : forall i b, (as_jobs x ++ [None]) !! i = Some (Some b) -> as_jobs x !! i = Some (Some b)).
  { intros i b [Hi|[Hi Hb]]%lookup_app_Some; [done|]. destruct (i - _)%nat; [done|by destruct n]. }
  assert (Hfut : forall i b f, as_jobs x !! i = Some (Some b) -> (futures (as_threads x) ++ [Pending]) !! i = Some f ->
    futures (as_threads x) !! i = Some f).
  { intros i b f Hj Hf. apply lookup_lt_Some in Hj. rewrite H1 in Hj. by rewrite lookup_app_l in Hf. }
  split; split; cbn; try done.
  - by rewrite !length_app, H1.
  - intros a i Ha. apply lookup_app_l_Some. auto.
  - intros i p Hp. destruct (H6 i p Hp) as (a & fields & ts & Hf & Hj & Hrest).
    exists a, fields, ts. cbn. split; [by apply lookup_app_l_Some|]. split; [by apply lookup_app_l_Some|done].
  - intros i a r Hj%Hjob Hf%(Hfut i a); [|done]. by apply (H8 i a r).
  - intros i a f Hj%Hjob Hf%(Hfut i a); [|done]. by apply K2.
Qed.

Lemma add_request_ok fields timestamp x :
  state_ok x -> fields_wf float_norm fields = true -> state_ok (add_request fields timestamp x) /\
  forall a i, as_status (add_request fields timestamp x) !! a = Some (InThread i) -> as_status x !! a = Some (InThread i).
Proof.
  intros [[H1 H2 H3 H4 H5 H6 H7 H8 H9] [K1 K2 K3]] Hwf.
  assert (Hst : forall a st, (as_status x ++ [WaitingLock]) !! a = Some st -> st <> WaitingLock ->
    as_status x !! a = Some st).
  { intros a st [Ha|[_ Ha]]%lookup_app_Some Hne; [done|]. destruct (a - _)%nat; [injection Ha as <-; by destruct Hne|by destruct n]. }
  assert (Hout : forall a r, outcome_ok x a r -> outcome_ok (add_request fields timestamp x) a r).
  { intros a r. apply outcome_ok_mono; [done|]. intros q. apply lookup_app_l_Some. }
  split; [split; split; cbn; try done|].
  - by rewrite !length_app, H2.
  - apply Forall_app. split; [done|]. by constructor.
  - destruct H4 as [Hnd Hw]. split; [done|]. intros a Ha. apply lookup_app_l_Some. auto.
  - intros a i Ha%Hst; [|done]. auto.
  - intros i p Hp. destruct (H6 i p Hp) as (a & f & ts & Hf & Hj & Hr & Hrest).
    exists a, f, ts. cbn. split_and!; [done|done|by apply lookup_app_l_Some|done].
  - intros i a r Hj Hf. by eapply Hout, H8.
  - intros a r Ha%Hst; [|done]. by apply Hout, H9.
  - intros a i Ha%Hst; [|done]. by eapply K1.
  - intros i a f Hj Hf Hact. apply lookup_app_l_Some. by eapply K2.
  - intros a i Ha. by eapply Hst.
Qed.

Lemma call_append_ok fields timestamp x :
  state_ok x -> fields_wf float_norm fields = true -> state_ok (call_append fields timestamp x).
Proof.
  intros Hok Hwf. destruct (add_request_ok fields timestamp x Hok Hwf) as [[Hc Hh] Hst].
  unfold call_append.
  assert (Hnew : as_status (add_request fields timestamp x) !! length (as_status x) = Some WaitingLock)
    by (cbn; by rewrite lookup_app_r, Nat.sub_diag).
  destruct (as_lock x) as [holder|] eqn:Hlock.
  - destruct Hc as [H1 H2 H3 H4 H5 H6 H7 H8 H9], Hh as [K1 K2 K3]. split; split; try done.
    + cbn -[add_request]. destruct H4 as [Hnd Hw]. split.
      * apply NoDup_app. split; [done|]. split; [|apply NoDup_singleton].
        intros b Hb Heq%list_elem_of_singleton. subst b. destruct (ck_waiters x (proj1 Hok)) as [_ Hold].
        apply Hold, lookup_lt_Some in Hb. lia.
      * intros b [Hb|Hb]%elem_of_app; [by apply Hw|]. apply list_elem_of_singleton in Hb. by subst b.
    + cbn -[add_request]. intros a i Ha. rewrite <- Hlock. by apply (K1 a i).
  - assert (Hws : as_waiters x = []) by by apply (hk_free x (proj2 Hok)).
    apply enter_ok; try done.
    + by apply held_unlocked.
    + constructor.
    + apply not_elem_of_nil.
    + intros b Hb. by apply elem_of_nil in Hb.
Qed.

(** Only the thread of the holder is inside [_append_sync]. *)
Lemma single_thread x i j a b :
  state_ok x -> as_jobs x !! i = Some (Some a) -> futures (as_threads x) !! i = Some Running ->
  as_jobs x !! j = Some (Some b) -> futures (as_threads x) !! j = Some Running -> i = j.
Proof.
  intros [_ Hh] Hi Hfi Hj Hfj.
  pose proof (hk_active x Hh i a _ Hi Hfi eq_refl) as Ha.
  pose proof (hk_active x Hh j b _ Hj Hfj eq_refl) as Hb.
  pose proof (hk_holder x Hh a i Ha). pose proof (hk_holder x Hh b j Hb). congruence.
Qed.

Lemma only_progress x i a :
  state_ok x -> as_jobs x !! i = Some (Some a) -> futures (as_threads x) !! i = Some Running ->
  forall j, j <> i -> as_progress x !! j = None.
Proof.
  intros Hok Hi Hfi j Hne. destruct (as_progress x !! j) as [p|] eqn:Hp; [|done].
  destruct (ck_progress x (proj1 Hok) j p Hp) as (b & fields & ts & Hfj & Hj & _).
  by destruct Hne, (single_thread x i j a b).
Qed.

Lemma running_append_inv i x q :
  running_append i x = Some q -> exists a, futures (as_threads x) !! i = Some Running /\
    as_jobs x !! i = Some (Some a) /\ as_requests x !! a = Some q.
Proof.
  unfold running_append. destruct (futures _ !! i) as [[]|]; try done.
  destruct (as_jobs x !! i) as [[a|]|]; try done. eauto.
Qed.

Lemma sync_read_ok i x x' : state_ok x -> sync_read sha256 i x = Some x' -> state_ok x'.
Proof.
  intros Hok. unfold sync_read. destruct (running_append i x) as [[fields ts]|] eqn:Hr; [|done].
  destruct (as_progress x !! i) eqn:Hp; [done|]. intros [= <-].
  destruct (running_append_inv _ _ _ Hr) as (a & Hf & Hj & Hq).
  pose proof (only_progress x i a Hok Hj Hf) as Honly.
  assert (Hempty : as_progress x = ∅).
  { apply map_empty. intros j. destruct (decide (j = i)) as [->|]; auto. }
  destruct Hok as [[H1 H2 H3 H4 H5 H6 H7 H8 H9] [K1 K2 K3]]. split; split; cbn; try done.
  - intros j p. rewrite Hempty. intros [<- <-]%lookup_singleton_Some.
    exists a, fields, ts. split_and!; try done. split; [done|by apply H7].
  - intros Hins. by apply insert_non_empty in Hins.
Qed.

(** The function of the holder ends, with the log as [l] and nothing in progress. *)
Lemma finish_ok x i a r l :
  state_ok x -> as_jobs x !! i = Some (Some a) -> futures (as_threads x) !! i = Some Running ->
  log_ok sha256 float_norm l -> (forall line, line ∈ lines_of x -> line ∈ default [] (al_file l)) ->
  outcome_ok (set_logger l x) a r -> state_ok (set_logger l (finish_job i r x)).
Proof.
  intros Hok Hj Hf Hlog Hlines Hr. pose proof (only_progress x i a Hok Hj Hf) as Honly.
  assert (Hempty : delete i (as_progress x) = ∅).
  { apply map_empty. intros j. destruct (decide (j = i)) as [->|]; [apply lookup_delete_eq|].
    rewrite lookup_delete_ne by done. auto. }
  destruct Hok as [[H1 H2 H3 H4 H5 H6 H7 H8 H9] [K1 K2 K3]].
  assert (Hlt : (i < length (futures (as_threads x)))%nat) by by eapply lookup_lt_Some.
  assert (Hout : forall b r', outcome_ok x b r' -> outcome_ok (set_logger l (finish_job i r x)) b r')
    by (intros b r'; by apply outcome_ok_mono).
  split; split; cbn; try done.
  - by rewrite length_insert.
  - intros j p. rewrite Hempty. by rewrite lookup_empty.
  - intros j b r' Hjob. destruct (decide (j = i)) as [->|Hne].
    + rewrite list_lookup_insert_eq by done. intros [= <-]. by simplify_eq.
    + rewrite list_lookup_insert_ne by done. intros Hd. by eapply Hout, H8.
  - intros b r' Hb. by eapply Hout, H9.
  - intros j b f Hjob. destruct (decide (j = i)) as [->|Hne].
    + rewrite list_lookup_insert_eq by done. by intros [= <-].
    + rewrite list_lookup_insert_ne by done. by apply K2.
Qed.

Lemma lines_append l line line' :
  line ∈ default [] (al_file l) -> line ∈ default [] (append_line (al_file l) line').
Proof. intros Hin. rewrite default_append_line. apply elem_of_app. by left. Qed.

Lemma sync_write_ok i w x x' :
  state_ok x -> w <> SyncFailed -> sync_write model_dump_json i w x = Some x' -> state_ok x'.
Proof.
  intros Hok Hw. unfold sync_write. destruct (running_append i x) as [q|] eqn:Hr; [|done].
  destruct (as_progress x !! i) as [[record|]|] eqn:Hp; [|done..].
  destruct (running_append_inv _ _ _ Hr) as (a & Hf & Hj & Hq).
  destruct (ck_progress x (proj1 Hok) i _ Hp) as (a' & fields & ts & _ & Hj' & Hq' & -> & Hlog).
  simplify_eq. destruct w; [| |done]; intros [= <-].
  - pose proof (only_progress x i a Hok Hj Hf) as Honly.
    destruct Hok as [[H1 H2 H3 H4 H5 H6 H7 H8 H9] Hh].
    assert (Hwf : fields_wf float_norm fields = true).
    { rewrite Forall_forall in H3. apply (H3 (fields, ts)). by eapply list_elem_of_lookup_2. }
    set (record := signed fields ts (al_last_hash (as_logger x))) in *.
    set (x' := set_logger _ _).
    assert (Hout : forall b r', outcome_ok x b r' -> outcome_ok x' b r')
      by (intros b r'; apply outcome_ok_mono; [intros line; apply lines_append|done]).
    split; [split; try done|destruct Hh; by split].
    + intros j p. cbn. destruct (decide (j = i)) as [->|Hne].
      * rewrite lookup_insert_eq. intros [= <-]. exists a, fields, ts. split_and!; try done.
        split; [done|]. split; [|exact (signed_line_verifies (as_logger x) fields ts Hlog Hwf)].
        change (line_of record ∈ default [] (append_line (al_file (as_logger x)) (line_of record))).
        rewrite default_append_line. apply elem_of_app. right. by left.
      * rewrite lookup_insert_ne by done. by rewrite (Honly j Hne).
    + cbn. intros Hins. by apply insert_non_empty in Hins.
    + intros j b r' Hjob Hd. by eapply Hout, H8.
    + intros b r' Hb. by eapply Hout, H9.
  - change (state_ok (set_logger (as_logger x) (finish_job i (Err (EPy OSError "open")) x))).
    by eapply finish_ok.
Qed.

Lemma sync_store_ok i x x' : state_ok x -> sync_store i x = Some x' -> state_ok x'.
Proof.
  intros Hok. unfold sync_store. destruct (running_append i x) as [q|] eqn:Hr; [|done].
  destruct (as_progress x !! i) as [[|record]|] eqn:Hp; [done| |done].
  destruct (running_append_inv _ _ _ Hr) as (a & Hf & Hj & Hq).
  destruct (ck_progress x (proj1 Hok) i _ Hp) as (a' & fields & ts & _ & Hj' & Hq' & -> & Hin & Hlog).
  intros [= <-]. simplify_eq. eapply finish_ok; done.
Qed.

Lemma audit_take_ok x t : state_ok x -> thread_take (as_threads x) = Some t -> state_ok (set_threads t x).
Proof.
  intros Hok. unfold thread_take. destruct (work_queue _) as [|i queue]; [done|].
  destruct (busy _ <? max_workers)%nat; [|done].
  assert (Hsame : forall t', futures t' = futures (as_threads x) -> state_ok (set_threads t' x)).
  { intros t' Heq. apply threads_ok; rewrite ?Heq; try done. intros j a f' Hj Hf. by exists f'. }
  destruct (futures (as_threads x) !! i) as [[| | |]|] eqn:Hi; intros [= <-]; try by apply Hsame.
  assert (Hlt : (i < length (futures (as_threads x)))%nat) by by eapply lookup_lt_Some.
  apply threads_ok; cbn; [done|by rewrite length_insert| |].
  - intros j a f' Hj. destruct (decide (j = i)) as [->|Hne].
    + rewrite list_lookup_insert_eq by done. intros [= <-]. by exists Pending.
    + rewrite list_lookup_insert_ne by done. intros Hf. by exists f'.
  - intros j a Hj Hf. destruct (decide (j = i)) as [->|Hne]; [congruence|]. by rewrite list_lookup_insert_ne.
Qed.

Lemma other_done_ok x i r t :
  state_ok x -> as_jobs x !! i = Some None -> thread_finish i r (as_threads x) = Some t ->
  state_ok (set_threads t x).
Proof.
  intros Hok Hnone. unfold thread_finish. destruct (futures (as_threads x) !! i) as [[]|] eqn:Hi; try done.
  intros [= <-]. apply threads_ok; cbn; [done|by rewrite length_insert| |].
  - intros j a f' Hj. destruct (decide (j = i)) as [->|Hne]; [congruence|].
    rewrite list_lookup_insert_ne by done. intros Hf. by exists f'.
  - intros j a Hj Hf. destruct (decide (j = i)) as [->|Hne]; [congruence|]. by rewrite list_lookup_insert_ne.
Qed.

(** The holder of the lock leaves, its function being over. *)
Lemma leave_ok x a i t st f :
  state_ok x -> as_status x !! a = Some (InThread i) -> length (futures t) = length (futures (as_threads x)) ->
  (forall j, j <> i -> futures t !! j = futures (as_threads x) !! j) ->
  futures t !! i = Some f -> active f = false -> futures (as_threads x) !! i <> Some Running ->
  (forall r, f = Done r -> futures (as_threads x) !! i = Some f) ->
  match st with AppendReturned r => outcome_ok x a r | AppendCancelled => True | _ => False end ->
  state_ok (release (set_status a st (set_threads t x))).
Proof.
  intros [[H1 H2 H3 H4 H5 H6 H7 H8 H9] [K1 K2 K3]] Ha Hlen Hother Hfi Hact Hnot Hdone Hst.
  assert (Hlt : (a < length (as_status x))%nat) by by eapply lookup_lt_Some.
  assert (Hstat : forall b st', <[a := st]> (as_status x) !! b = Some st' ->
    (b = a /\ st' = st) \/ (b <> a /\ as_status x !! b = Some st')).
  { intros b st'. destruct (decide (b = a)) as [->|Hne].
    - rewrite list_lookup_insert_eq by done. intros [= <-]. auto.
    - rewrite list_lookup_insert_ne by done. auto. }
  assert (Hfut : forall j f', futures t !! j = Some f' ->
    (j = i /\ f' = f) \/ (j <> i /\ futures (as_threads x) !! j = Some f')).
  { intros j f'. destruct (decide (j = i)) as [->|Hne]; [left; split; congruence|].
    rewrite Hother by done. auto. }
  apply release_ok.
  - split; cbn; try done.
    + congruence.
    + by rewrite length_insert.
    + destruct H4 as [Hnd Hw]. split; [done|]. intros b Hb. rewrite list_lookup_insert_ne; [auto|].
      intros <-. rewrite (Hw a Hb) in Ha. done.
    + intros b j [[-> Heq]|[_ Hb]]%Hstat; [by rewrite <- Heq in Hst|auto].
    + intros j p Hp. destruct (H6 j p Hp) as (b & fields & ts & Hf & Hrest). exists b, fields, ts. cbn.
      split; [|done]. rewrite Hother; [done|]. by intros ->.
    + intros j b r Hj [[-> Hd]|[_ Hd]]%Hfut; [|by apply (H8 j b r)].
      apply (H8 i b r Hj). rewrite Hd. by apply (Hdone r).
    + intros b r [[-> Heq]|[_ Hb]]%Hstat; [by rewrite <- Heq in Hst|by apply H9].
  - split; cbn.
    + intros b j [[-> Heq]|[Hne Hb]]%Hstat; [by rewrite <- Heq in Hst|].
      pose proof (K1 b j Hb). pose proof (K1 a i Ha). congruence.
    + intros j b f' Hj [[-> ->]|[Hne Hf]]%Hfut; [done|]. destruct (active f') eqn:Hact'; [|done].
      pose proof (K2 j b f' Hj Hf Hact') as Hb. pose proof (K1 b j Hb). pose proof (K1 a i Ha). congruence.
Qed.

Lemma poll_append_ok a x x' : state_ok x -> poll_append a x = Some x' -> state_ok x'.
Proof.
  intros Hok. unfold poll_append. destruct (as_status x !! a) as [[|i| |]|] eqn:Ha; try done.
  destruct (futures (as_threads x) !! i) as [[| |r|]|] eqn:Hf; try done.
  unfold poll. destruct (callers _ !! i) as [[]|]; try done. rewrite Hf. cbn. intros [= <-].
  apply (leave_ok x a i _ _ (Done r)); try done; [congruence|].
  eapply (ck_done x (proj1 Hok) i); [|done]. by apply (ck_thread x (proj1 Hok)).
Qed.

Lemma cancel_append_ok a x x' :
  state_ok x -> careful x (ECancel a) = true -> cancel_append a x = Some x' -> state_ok x'.
Proof.
  intros Hok. unfold cancel_append, careful. destruct (as_status x !! a) as [[|i| |]|] eqn:Ha; try done.
  - intros _ [= <-]. destruct Hok as [[H1 H2 H3 H4 H5 H6 H7 H8 H9] [K1 K2 K3]].
    assert (Hlt : (a < length (as_status x))%nat) by by eapply lookup_lt_Some.
    assert (Hstat : forall b st', <[a := AppendCancelled]> (as_status x) !! b = Some st' -> st' <> AppendCancelled ->
      as_status x !! b = Some st').
    { intros b st'. destruct (decide (b = a)) as [->|Hne].
      - rewrite list_lookup_insert_eq by done. by intros [= <-].
      - by rewrite list_lookup_insert_ne. }
    split; split; cbn; try done.
    + by rewrite length_insert.
    + destruct H4 as [Hnd Hw]. split; [by apply NoDup_ListNoDup, List.NoDup_filter, NoDup_ListNoDup|].
      intros b Hb%list_elem_of_In. apply filter_In in Hb as [Hb%list_elem_of_In Hne].
      rewrite list_lookup_insert_ne; [auto|]. intros <-. by rewrite Nat.eqb_refl in Hne.
    + intros b j Hb%Hstat; [auto|done].
    + intros b r Hb%Hstat; [by apply H9|done].
    + intros b j Hb%Hstat; [by eapply K1|done].
    + intros j b f Hj Hf Hact. rewrite list_lookup_insert_ne; [by eapply K2|].
      intros <-. pose proof (K2 j a f Hj Hf Hact). congruence.
    + intros Hlock. by rewrite (K3 Hlock).
  - unfold cancel. destruct (callers _ !! i) as [[]|]; try done.
    destruct (futures (as_threads x) !! i) as [f|] eqn:Hf; [|done]. intros Hcare [= <-].
    assert (Hlt : (i < length (futures (as_threads x)))%nat) by by eapply lookup_lt_Some.
    destruct f as [| |r|]; [|done| |].
    + apply (leave_ok x a i _ _ Cancelled); try done; cbn; [by rewrite length_insert| | |by rewrite Hf].
      * intros j Hne. by rewrite list_lookup_insert_ne.
      * by rewrite list_lookup_insert_eq.
    + apply (leave_ok x a i _ _ (Done r)); try done. congruence.
    + apply (leave_ok x a i _ _ Cancelled); try done. congruence.
Qed.

Definition requests_wf (events : list audit_event) : bool :=
  forallb (fun ev => match ev with ECall fields _ => fields_wf float_norm fields | _ => true end) events.

Lemma audit_step_ok x ev x' :
  state_ok x -> careful x ev = true -> requests_wf [ev] = true ->
  audit_step sha256 model_dump_json x ev = Some x' -> state_ok x'.
Proof.
  intros Hok Hcare Hwf. destruct ev as [fields ts| | |i|i w|i|i r|a|a]; cbn.
  - intros [= <-]. apply call_append_ok; [done|]. cbn in Hwf. by rewrite andb_true_r in Hwf.
  - intros [= <-]. by apply other_ok.
  - destruct (thread_take _) as [t|] eqn:Ht; [|done]. intros [= <-]. by apply audit_take_ok.
  - by apply sync_read_ok.
  - apply sync_write_ok; [done|]. by intros ->.
  - by apply sync_store_ok.
  - destruct (as_jobs x !! i) as [[|]|] eqn:Hj; try done.
    destruct (thread_finish _ _ _) as [t|] eqn:Ht; [|done]. intros [= <-]. by eapply other_done_ok.
  - by apply poll_append_ok.
  - by apply cancel_append_ok.
Qed.

Lemma audit_run_ok events x x' :
  state_ok x -> careful_run sha256 model_dump_json x events = true -> requests_wf events = true ->
  audit_run sha256 model_dump_json x events = Some x' -> state_ok x'.
Proof.
  revert x. induction events as [|ev events IH]; intros x Hok; cbn.
  - by intros _ _ [= <-].
  - intros [Hc Hcs]%andb_true_iff [Hw Hws]%andb_true_iff.
    destruct (audit_step sha256 model_dump_json x ev) as [x1|] eqn:Hs; [|done]. cbn.
    apply IH; try done. eapply audit_step_ok; try done. cbn. by rewrite Hw.
Qed.

Lemma new_state_ok l : log_ok sha256 float_norm l -> state_ok (new_state l).
Proof.
  intros Hl. split; split; cbn; try done. split; [constructor|]. set_solver.
Qed.

(** At every moment the file verifies. *)
Lemma state_verifies x :
  state_ok x -> verify_audit_file sha256 float_norm (al_file (as_logger x)) = Ok true.
Proof.
  intros [Hc _].
  assert (Hlog : exists l, al_file l = al_file (as_logger x) /\ log_ok sha256 float_norm l).
  { destruct (decide (as_progress x = ∅)) as [Hempty|Hne]; [eauto using ck_file|].
    apply map_choose in Hne as (i & p & Hp).
    destruct (ck_progress x Hc i p Hp) as (a & fields & ts & _ & _ & _ & Hrest).
    destruct p; [destruct Hrest as [_ Hlog]; eauto|destruct Hrest as (_ & _ & Hlog)].
    eexists. split; [|exact Hlog]. done. }
  destruct Hlog as (l & <- & Hl). by apply log_ok_verifies.
Qed.
End invariant.

(* ------------------------------------------------------------------ *)
(** ** Properties *)

(** C11: appends that overlap do not damage the log.  However callers, threads and
    polls interleave - any number of appends, other functions on the same
    threads, cancellations of callers that still wait for the lock or whose
    function has not begun - the file verifies at every moment, at most one
    append is with the threads, and each append that returned a record has its
    line in the file, with the fields it was called with; provided no flush to the
    disk fails and no caller is cancelled while its function runs. *)
Theorem appends_keep_chain `{Rendering} (sha256 : string -> string) (model_dump_json : json -> string)
    (float_norm : string -> string) (l : AuditLogger) (events : list audit_event) (x : audit_state) :
  (forall v, json_wf float_norm v = true -> loads float_norm (model_dump_json v) = Some v) ->
  verify_lines sha256 float_norm genesis_hash 1 (default [] (al_file l)) = Ok (al_last_hash l) ->
  requests_wf float_norm events = true ->
  careful_run sha256 model_dump_json (new_state l) events = true ->
  audit_run sha256 model_dump_json (new_state l) events = Some x ->
  verify_audit_file sha256 float_norm (al_file (as_logger x)) = Ok true /\
  (forall a b i j, as_status x !! a = Some (InThread i) -> as_status x !! b = Some (InThread j) -> a = b) /\
  forall a record, as_status x !! a = Some (AppendReturned (Ok record)) ->
    record_line model_dump_json record ∈ default [] (al_file (as_logger x)) /\
    as_requests x !! a = Some (au_fields record, au_timestamp record).
Proof.
  intros Hloads Hl Hwf Hcare Hrun.
  pose proof (audit_run_ok sha256 model_dump_json float_norm Hloads events _ _
    (new_state_ok sha256 model_dump_json float_norm Hloads l Hl) Hcare Hwf Hrun) as Hok.
  split; [by eapply state_verifies|]. split.
  - intros a b i j Ha Hb. pose proof (hk_holder _ (proj2 Hok) a i Ha).
    pose proof (hk_holder _ (proj2 Hok) b j Hb). congruence.
  - intros a record Ha. exact (ck_returned _ _ _ _ (proj1 Hok) a (Ok record) Ha).
Qed.

(* ------------------------------------------------------------------ *)
(** ** Witnesses *)

Module example.
Definition rendering : Rendering := {| iso_datetime := print_int; float_text _ := "1.5" |}.
#[export] Existing Instance rendering.

(** Two appends overlap; a third, still waiting for the lock, is cancelled. *)
Definition overlap : list audit_event :=
  [ECall (AuditLog.witness.fields "a") 1; EOther; ETake; ECall (AuditLog.witness.fields "b") 2; ETake;
   ERead 0; ECall (AuditLog.witness.fields "c") 3; EWrite 0 Written; ECancel 2; EStore 0; EPoll 0;
   EOtherDone 1 (Err (EPy OSError "other")); ETake; ERead 2; EWrite 2 Written; EStore 2; EPoll 1].

(** The caller of the first append is cancelled while its thread runs; the second
    one takes the lock and signs its record after the same hash. *)
Definition cancelled_while_running : list audit_event :=
  [ECall (AuditLog.witness.fields "a") 1; ETake; ERead 0; ECall (AuditLog.witness.fields "b") 2; ECancel 0;
   ETake; ERead 1; EWrite 0 Written; EStore 0; EWrite 1 Written; EStore 1; EPoll 1].
End example.
#[local] Existing Instance example.rendering.

Lemma appends_keep_chain_witness :
  match audit_run (fun s => s) dumps (new_state new_logger) example.overlap with
  | Some x =>
      verify_audit_file (fun s => s) id (al_file (as_logger x)) = Ok true /\
      length (default [] (al_file (as_logger x))) = 2%nat
  | None => False
  end.
Proof.
  assert (Hlen : match audit_run (fun s => s) dumps (new_state new_logger) example.overlap with
    | Some x => Nat.eqb (length (default [] (al_file (as_logger x)))) 2 | None => false end = true)
    by (vm_compute; reflexivity).
  destruct (audit_run (fun s => s) dumps (new_state new_logger) example.overlap) as [x|] eqn:Hrun;
    [|discriminate Hlen].
  split; [|by apply Nat.eqb_eq].
  apply (appends_keep_chain (fun s => s) dumps id new_logger example.overlap x); [|..|exact Hrun].
  - intros v. apply loads_print.
  - vm_compute. reflexivity.
  - vm_compute. reflexivity.
  - vm_compute. reflexivity.
Defined.

(** The proviso is needed: when a caller is cancelled while its function runs, the
    lock is released under the running thread, two records are signed after the
    same hash, and the file no longer verifies. *)
Theorem cancelled_append_forks_chain :
  match audit_run (fun s => s) dumps (new_state new_logger) example.cancelled_while_running with
  | Some x =>
      verify_audit_file (fun s => s) id (al_file (as_logger x)) =
        Err (integrity_error "Broken audit link on line " 2) /\
      match as_status x !! 1%nat with Some (AppendReturned (Ok _)) => True | _ => False end
  | None => False
  end.
Proof. vm_compute. split; [reflexivity|exact I]. Qed.
