(* ===== verification/Report.v ===== *)
(** * The benchmark document

    [eval/report.py]: the metrics of a report as a Markdown section, and the
    document whose section of that name is replaced.  The files are texts. *)

From S2P Require Import Prelude Dict Pystr Json Errors Http.
From Stdlib Require Import Ascii.

Definition nl : string := String "010"%char "".

Section report.
Context (repr : json -> string).

Definition marker : string := "## Phase 6 evaluation metrics".
Definition next_heading : string := nl +:+ "## ".

(** One row of the table. *)
Definition metric_row (kv : string * json) : string :=
  "| " +:+ kv.1 +:+ " | " +:+ py_str repr kv.2 +:+ " |".

(** [render_report] *)
Definition render_metrics (metrics : jdict) : string :=
  join nl ([marker; ""; "| Metric | Value |"; "|---|---:|"] ++ map metric_row metrics) +:+ nl.
Definition render_report (report : json) : result exc string :=
  result_bind (json_index report "metrics") (fun metrics =>
  match metrics with
  | JObj metrics => Ok (render_metrics metrics)
  | _ => Err (EPy OtherException "object has no attribute 'items'")
  end).

(** The text before the first occurrence of a needle, and the text after it. *)
Fixpoint split_once (needle s : string) : option (string * string) :=
  match strip_prefix needle s with
  | Some rest => Some ("", rest)
  | None =>
      match s with
      | String c s' => prod_map (String c) id <$> split_once needle s'
      | EmptyString => None
      end
  end.

(** What [write_report] keeps of the document: the text before the section, and
    from the next heading on. *)
Definition kept_parts (existing : string) : string * string :=
  match split_once marker existing with
  | Some (prefix, remainder) =>
      (prefix, match split_once next_heading remainder with
               | Some (_, rest) => next_heading +:+ rest
               | None => ""
               end)
  | None => (existing, "")
  end.

(** [write_report]: the new text of the document; a missing document is empty. *)
Definition write_report (report : json) (existing : string) : result exc string :=
  let '(prefix, suffix) := kept_parts existing in
  result_map (fun section => rstrip prefix +:+ nl +:+ nl +:+ section +:+ suffix) (render_report report).
End report.

(* ------------------------------------------------------------------ *)
(** ** Searching *)

Lemma split_once_Some needle s a b :
  split_once needle s = Some (a, b) -> s = a +:+ needle +:+ b.
Proof.
  revert a. induction s as [|c s IH]; intros a; cbn.
  - destruct (strip_prefix needle "") as [rest|] eqn:Hp; [|done]. intros [= <- <-].
    by apply strip_prefix_Some in Hp.
  - destruct (strip_prefix needle (String c s)) as [rest|] eqn:Hp.
    + intros [= <- <-]. by apply strip_prefix_Some in Hp.
    + destruct (split_once needle s) as [[a' b']|]; [|done]. intros [= <- <-]. cbn. f_equal. by apply IH.
Qed.

Lemma split_once_None needle s : split_once needle s = None <-> contains needle s = false.
Proof.
  induction s as [|c s IH]; cbn; unfold startswith.
  - destruct (strip_prefix needle ""); cbn; done.
  - destruct (strip_prefix needle (String c s)); cbn; [done|]. rewrite <- IH.
    by destruct (split_once needle s).
Qed.

(** The needle does not occur before its first occurrence. *)
Lemma split_once_first needle s a b :
  truthy needle = true -> split_once needle s = Some (a, b) -> contains needle a = false.
Proof.
  intros Hn. revert a. induction s as [|c s IH]; intros a; cbn.
  - destruct (strip_prefix needle "") as [rest|] eqn:Hp; [|done]. intros [= <- <-]. by destruct needle.
  - destruct (strip_prefix needle (String c s)) as [rest|] eqn:Hp.
    { intros [= <- <-]. by destruct needle. }
    destruct (split_once needle s) as [[a' b']|] eqn:Hs; [|done]. intros [= <- <-]. cbn.
    rewrite (IH a') by done. rewrite orb_false_r. unfold startswith.
    destruct (strip_prefix needle (String c a')) as [rest|] eqn:Hc; [|done].
    apply strip_prefix_Some in Hc. apply split_once_Some in Hs. exfalso.
    assert (Hp' : strip_prefix needle (String c s) = Some (rest +:+ needle +:+ b')).
    { apply strip_prefix_Some. rewrite Hs. change (String c (a' +:+ needle +:+ b')) with (String c a' +:+ needle +:+ b').
      by rewrite Hc, sapp_assoc. }
    congruence.
Qed.

(** A needle without newline does not reach over one. *)
Lemma strip_prefix_over_nl needle p rest x :
  forall_chars (fun c => negb (Ascii.eqb c "010")) needle = true ->
  strip_prefix needle (p +:+ nl +:+ rest) = Some x -> exists y, strip_prefix needle p = Some y.
Proof.
  revert p. induction needle as [|a needle IH]; intros p Hn Hx; cbn in *; [eauto|].
  apply andb_true_iff in Hn as [Ha Hn]. destruct p as [|b p]; cbn in *.
  - case_decide; subst; [|done]. done.
  - case_decide; [|done]. eauto.
Qed.

Lemma split_once_over_nl needle p rest :
  forall_chars (fun c => negb (Ascii.eqb c "010")) needle = true -> truthy needle = true ->
  contains needle p = false ->
  split_once needle (p +:+ nl +:+ rest) = prod_map (fun a => p +:+ nl +:+ a) id <$> split_once needle rest.
Proof.
  intros Hn Ht. induction p as [|c p IH]; intros Hc.
  - change ("" +:+ nl +:+ rest) with (nl +:+ rest).
    destruct needle as [|a needle]; [done|]. cbn. cbn in Hn. apply andb_true_iff in Hn as [Ha _].
    case_decide; [by subst|]. by destruct (split_once _ rest) as [[]|].
  - cbn in Hc. apply orb_false_iff in Hc as [Hp Hc].
    change (String c p +:+ nl +:+ rest) with (String c (p +:+ nl +:+ rest)). cbn [split_once].
    destruct (strip_prefix needle (String c (p +:+ nl +:+ rest))) as [x|] eqn:Hx.
    + apply (strip_prefix_over_nl needle (String c p)) in Hx as [y Hy]; [|done].
      unfold startswith in Hp. by rewrite Hy in Hp.
    + rewrite IH by done. by destruct (split_once needle rest) as [[]|].
Qed.

(** A text that ends a line holds no part of the next heading. *)
Lemma split_once_heading body after :
  contains next_heading (body +:+ nl) = false ->
  split_once next_heading ((body +:+ nl) +:+ next_heading +:+ after) = Some (body +:+ nl, after).
Proof.
  induction body as [|c body IH]; intros Hc.
  - reflexivity.
  - change (String c body +:+ nl) with (String c (body +:+ nl)) in *. cbn [contains] in Hc.
    apply orb_false_iff in Hc as [Hp Hc].
    change (String c (body +:+ nl) +:+ next_heading +:+ after)
      with (String c ((body +:+ nl) +:+ next_heading +:+ after)).
    cbn [split_once]. rewrite (IH Hc).
    destruct (strip_prefix next_heading (String c ((body +:+ nl) +:+ next_heading +:+ after))) as [x|] eqn:Hx; [|done].
    exfalso. unfold startswith in Hp. clear IH Hc. cbn in Hx, Hp.
    repeat (case_decide; [|done]). subst.
    destruct body as [|c1 [|c2 [|c3 body]]]; cbn in Hx, Hp; repeat (case_decide; try done); simplify_eq; done.
Qed.

(** ** Blanks at the end *)

Lemma lstrip_idemp s : lstrip (lstrip s) = lstrip s.
Proof. induction s as [|c s IH]; cbn; [done|]. destruct (is_space c) eqn:Hc; cbn; [done|]. by rewrite Hc. Qed.

Lemma lstrip_suffix s : exists blanks, s = blanks +:+ lstrip s.
Proof.
  induction s as [|c s [blanks IH]]; cbn; [by exists ""|]. destruct (is_space c).
  - exists (String c blanks). cbn. by rewrite <- IH.
  - by exists "".
Qed.

Lemma rstrip_prefix s : exists blanks, s = rstrip s +:+ blanks.
Proof.
  destruct (lstrip_suffix (rev_string s)) as [blanks Hb]. exists (rev_string blanks). unfold rstrip.
  rewrite <- rev_string_app, <- Hb. by rewrite rev_string_involutive.
Qed.

Lemma rstrip_newlines s : rstrip (rstrip s +:+ nl +:+ nl) = rstrip s.
Proof.
  unfold rstrip. rewrite rev_string_app, rev_string_involutive.
  change (rev_string (nl +:+ nl)) with (nl +:+ nl). cbn. by rewrite lstrip_idemp.
Qed.

Lemma contains_rstrip needle s : contains needle s = false -> contains needle (rstrip s) = false.
Proof.
  intros Hc. destruct (contains needle (rstrip s)) eqn:Hr; [|done].
  apply contains_spec in Hr as (a & b & Hr). destruct (rstrip_prefix s) as [blanks Hs].
  rewrite <- Hc. symmetry. apply contains_spec. exists a, (b +:+ blanks). by rewrite Hs, Hr, !sapp_assoc.
Qed.

(* ------------------------------------------------------------------ *)
(** ** The document *)

Section properties.
Context (repr : json -> string).

(** The rendered section after its heading. *)
Definition section_body (metrics : jdict) : string :=
  nl +:+ nl +:+ "| Metric | Value |" +:+ nl +:+ join nl ("|---|---:|" :: map (metric_row repr) metrics).

Lemma render_metrics_split metrics : render_metrics repr metrics = marker +:+ section_body metrics +:+ nl.
Proof.
  unfold render_metrics, section_body. cbn [app map join].
  rewrite !sapp_assoc. reflexivity.
Qed.

Lemma kept_parts_ok existing :
  contains marker (kept_parts existing).1 = false /\
  ((kept_parts existing).2 = "" \/ exists rest, (kept_parts existing).2 = next_heading +:+ rest).
Proof.
  unfold kept_parts. destruct (split_once marker existing) as [[prefix remainder]|] eqn:Hs; cbn [fst snd].
  - split; [by eapply split_once_first|]. destruct (split_once next_heading remainder) as [[a rest]|]; eauto.
  - split; [by apply split_once_None|by left].
Qed.

(** The parts of a document just written are the ones it was made of. *)
Lemma kept_parts_written metrics prefix suffix :
  contains marker prefix = false -> (suffix = "" \/ exists rest, suffix = next_heading +:+ rest) ->
  contains next_heading (section_body metrics +:+ nl) = false ->
  kept_parts (rstrip prefix +:+ nl +:+ nl +:+ render_metrics repr metrics +:+ suffix) =
    (rstrip prefix +:+ nl +:+ nl, suffix).
Proof.
  intros Hp Hsuf Hbody. unfold kept_parts.
  rewrite split_once_over_nl by (done || by apply contains_rstrip).
  rewrite render_metrics_split, !sapp_assoc.
  assert (Hm : forall r, split_once marker (nl +:+ marker +:+ r) = Some (nl, r)) by reflexivity.
  rewrite Hm. cbn [fmap option_fmap option_map prod_map fst snd id]. f_equal.
  destruct Hsuf as [->|[rest ->]].
  - rewrite sapp_nil_r. apply split_once_None in Hbody. by rewrite Hbody.
  - rewrite <- sapp_assoc. by rewrite split_once_heading.
Qed.

(** Writing the benchmark document.  The new document is the old one with the
    metrics section replaced or appended: the text before it (up to blanks) and the
    sections after it are kept.  Writing a second report gives what writing it in
    the first place would have given, so that writing again changes nothing, as long
    as the rendered metrics contain no heading of their own. *)
Theorem write_report_replaces_section existing metrics report'
    (Hbody : contains next_heading (section_body metrics +:+ nl) = false) :
  exists before after, existing = before +:+ after /\ contains marker before = false /\
    let document := rstrip before +:+ nl +:+ nl +:+ render_metrics repr metrics +:+ (kept_parts existing).2 in
    write_report repr (JObj [("metrics", JObj metrics)]) existing = Ok document /\
    (exists cut, after = cut +:+ (kept_parts existing).2) /\
    write_report repr report' document = write_report repr report' existing.
Proof.
  destruct (kept_parts_ok existing) as [Hp Hs].
  assert (exists after, existing = (kept_parts existing).1 +:+ after /\ exists cut, after = cut +:+ (kept_parts existing).2)
    as (after & Hex & Hcut).
  { unfold kept_parts. destruct (split_once marker existing) as [[prefix remainder]|] eqn:Hm; cbn [fst snd].
    - exists (marker +:+ remainder). split; [by apply split_once_Some|].
      destruct (split_once next_heading remainder) as [[a rest]|] eqn:Hh.
      + apply split_once_Some in Hh as ->. exists (marker +:+ a). by rewrite sapp_assoc.
      + exists (marker +:+ remainder). by rewrite sapp_nil_r.
    - exists "". rewrite sapp_nil_r. split; [done|by exists ""]. }
  destruct (kept_parts existing) as [prefix suffix] eqn:Hk. cbn [fst snd] in *.
  exists prefix, after. split_and!; try done.
  - unfold write_report. rewrite Hk. reflexivity.
  - unfold write_report. rewrite Hk, kept_parts_written by done. by rewrite rstrip_newlines.
Qed.
End properties.

Definition example_document : string :=
  "# Benchmarks" +:+ nl +:+ marker +:+ nl +:+ "old" +:+ nl +:+ "## Notes" +:+ nl.
Definition example_metrics : jdict := [("passed", JInt 3); ("pass_rate", JFloat "1.0")].

Lemma write_report_replaces_section_witness :
  let report := JObj [("metrics", JObj example_metrics)] in
  exists document, write_report (fun _ => "") report example_document = Ok document /\
    contains "| passed | 3 |" document = true /\ contains "old" document = false /\
    contains "## Notes" document = true /\ write_report (fun _ => "") report document = Ok document.
Proof.
  intros report.
  destruct (write_report (fun _ => "") report example_document) as [document|e] eqn:Hd;
    [|exfalso; vm_compute in Hd; discriminate Hd].
  destruct (write_report_replaces_section (fun _ => "") example_document example_metrics report)
    as (before & after & _ & _ & Hw & _ & Hagain); [vm_compute; reflexivity|].
  unfold report in Hd. rewrite Hd in Hw.
  apply (f_equal (fun r => match r with Ok text => text | Err _ => document end)) in Hw. cbv beta iota in Hw.
  rewrite <- Hw in Hagain. clear Hw.
  pose proof Hd as Hlit. vm_compute in Hlit. injection Hlit as Hlit.
  exists document. split; [reflexivity|].
  split; [rewrite <- Hlit; vm_compute; reflexivity|]. split; [rewrite <- Hlit; vm_compute; reflexivity|].
  split; [rewrite <- Hlit; vm_compute; reflexivity|]. exact (eq_trans Hagain Hd).
Defined.
