(* ===== verification/Probes.v ===== *)
(** * The sandbox checks

    [eval/sandbox_checks.py] and [eval/sandbox_probe.py]: commands that the sandbox
    should stop, run through the runner, and the verdict printed for each. *)

From S2P Require Import Prelude Pystr Models Errors Effects Sandbox Report.
From Stdlib Require Import QArith.
Open Scope Z_scope.

(** The [process] variable of each run is its own. *)
Definition fresh {A} (x : M docker_sig bool A) : M docker_sig bool A := fun s =>
  pbind (x false) (fun rs => Ret (rs.1, s)).

(** What is printed for the outcome of a run. *)
Definition verdict {A} (label : string) (r : result exc A) : result exc string :=
  match r with
  | Ok _ => Ok (label +:+ ": FAILED")
  | Err e =>
      if is_gateway_class SandboxTimeoutError e then Ok (label +:+ ": blocked by timeout")
      else if is_gateway_class SandboxError e then Ok (label +:+ ": blocked by sandbox")
      else Err e
  end.

Section checks.
Context (float_str : Q -> string) (resolve_path : string -> string) (seccomp_path : string).
Context (decode : string -> string).
Context (runtime : SandboxRuntime) (image : string) (output_limit : Z).
Abbreviation run_sandboxed :=
  (sandbox_run float_str resolve_path seccomp_path decode runtime image output_limit).

(** [_expect_blocked] *)
Definition expect_blocked (command : list string) (label : string) (timeout : Q) : M docker_sig bool string :=
  profile ← lift_result (profile_for_tool "shell_exec" ".");
  try_with
    (fresh (run_sandboxed command
       {| sp_name := sp_name profile; timeout_seconds := timeout; memory := memory profile; cpus := cpus profile;
          pids_limit := pids_limit profile; network := network profile; workspace := workspace profile |} [] None);;
     mret (label +:+ ": FAILED"))
    (fun e => lift_result (verdict (A := string) label (Err e))).

(** [main] of sandbox_checks.py; the argument is the [repr] of the host file. *)
Definition sandbox_checks (host_file : string) : M docker_sig bool string :=
  host ← expect_blocked ["python"; "-c"; "open(" +:+ host_file +:+ ").read()"] "host-file" 5;
  net ← expect_blocked ["python"; "-c"; "import urllib.request; urllib.request.urlopen('http://example.com')"]
          "network" 5;
  loop ← expect_blocked ["python"; "-c"; "while True: pass"] "infinite-loop" 1;
  mret (join nl [host; net; loop]).

(** [main] of sandbox_probe.py: the values it prints. *)
Definition sandbox_probe : M docker_sig bool (Z * string) :=
  profile ← lift_result (profile_for_tool "shell_exec" ".");
  r ← run_sandboxed ["python"; "-c"; "print('sandbox-ok')"] profile [] None;
  mret (exit_code r, strip (sr_stdout r)).
End checks.

(* ------------------------------------------------------------------ *)
(** ** What a verdict tells *)

Lemma exec_pbind {E A B} (p : prog E A) (f : A -> prog E B) tr b :
  exec (pbind p f) tr b -> exists tr1 tr2 a, tr = tr1 ++ tr2 /\ exec p tr1 a /\ exec (f a) tr2 b.
Proof.
  revert tr. induction p as [a|o k IH|]; intros tr Hex; cbn in Hex.
  - exists [], tr, a. split_and!; [done|constructor|done].
  - apply exec_inv in Hex as (r & tr' & -> & Hex). destruct (IH r tr' Hex) as (tr1 & tr2 & a & -> & H1 & H2).
    exists (Event o r :: tr1), tr2, a. split_and!; [done|by constructor|done].
  - by apply exec_inv in Hex.
Qed.

Section verdicts.
Context (float_str : Q -> string) (resolve_path : string -> string) (seccomp_path : string).
Context (decode : string -> string).
Context (runtime : SandboxRuntime) (image : string) (output_limit : Z).
Abbreviation run_sandboxed :=
  (sandbox_run float_str resolve_path seccomp_path decode runtime image output_limit).
Abbreviation check_blocked :=
  (expect_blocked float_str resolve_path seccomp_path decode runtime image output_limit).

(** The verdict is that of one run of the command with the shell's profile and the
    given timeout, without mounts; any other exception ends the checks. *)
Theorem expect_blocked_verdict command label timeout s tr r s' :
  exec (check_blocked command label timeout s) tr (r, s') ->
  exists profile outcome b, sp_name profile = "shell_exec" /\ timeout_seconds profile = timeout /\
    network profile = false /\
    exec (run_sandboxed command profile [] None false) tr (outcome, b) /\ r = verdict label outcome.
Proof.
  intros Hex. change (exec (try_with
    (fresh (run_sandboxed command
       {| sp_name := "shell_exec"; timeout_seconds := timeout; memory := "128m"; cpus := 1 # 2; pids_limit := 16;
          network := false; workspace := "." |} [] None);; mret (label +:+ ": FAILED"))
    (fun e => lift_result (verdict (A := string) label (Err e))) s) tr (r, s')) in Hex.
  apply exec_pbind in Hex as (tr1 & tr2 & [r1 s1] & -> & Hex & Hend).
  apply exec_pbind in Hex as (tr3 & tr4 & [r3 s3] & -> & Hex & Hok).
  apply exec_pbind in Hex as (tr5 & tr6 & [r5 s5] & -> & Hex & Hfresh).
  apply exec_inv in Hfresh as [-> [= -> ->]]. rewrite app_nil_r.
  eexists {| sp_name := "shell_exec"; timeout_seconds := timeout; memory := "128m"; network := false |}, r5, s5.
  do 3 (split; [reflexivity|]).
  destruct r5 as [res|e]; cbn in Hok; apply exec_inv in Hok as [-> [= -> ->]]; cbn in Hend;
    apply exec_inv in Hend as [-> [= -> ->]]; rewrite !app_nil_r; by split.
Qed.

(** Without a docker executable every check reports that the sandbox blocked it. *)
Definition no_docker : handler docker_sig unit := fun o w =>
  (match o return result exc (ans docker_sig o) with
   | DUuid => Ok "id"
   | DReturncode => Ok None
   | DCommunicate _ _ => Err (EPy ValueError "no process")
   | _ => Err (EPy FileNotFoundError "docker")
   end, w).

Theorem missing_docker_looks_blocked host_file s :
  runs no_docker (sandbox_checks float_str resolve_path seccomp_path decode runtime image output_limit host_file) s tt
    (Ok (join nl ["host-file: blocked by sandbox"; "network: blocked by sandbox";
                  "infinite-loop: blocked by sandbox"])) s tt.
Proof. eexists. unfold sandbox_checks, expect_blocked. cbn -[docker_command]. reflexivity. Qed.
End verdicts.
